(* ===== verification/_CoqProject ===== *)
-Q . S2P
Prelude.v
Ragel.v
Fmt.v
ValidPath.v
Base64.v
Http.v
TryWrite.v
HttpResp.v
World.v
ChunkParser.v
ChunkInv.v
ChunkDecode.v
HttpParser.v
HttpParserInv.v
HttpRequest.v
HttpResume.v
HttpGet.v
MkPath.v
HttpPut.v
HttpPutInv.v
HttpQueue.v
HttpQueueInv.v
HttpServe.v
FsckQueue.v
MgmtFn.v
MgmtParser.v
Mgmt.v
MgmtInv.v
MgmtCmd.v
MgmtServe.v
FdMap.v
Upgrade.v
Listen.v
CfgParser.v
CfgFile.v
Cfg.v
Master.v
Mnt.v
Usage.v
Iostat.v
SvcDev.v
Queue.v
Accept.v
Notify.v
PidFile.v
Shutdown.v
HashSize.v
Hash.v
HashInv.v
HashMap.v
HashRefine.v
HashUse.v
Alloc.v
EpollDetect.v
BindListen.v
IostatProcess.v
SvcUpgrade.v
Exit.v
