(* ===== verification/Prelude.v ===== *)
(** * A verification of cmogstored

    cmogstored is a storage server for MogileFS.  Clients PUT, GET and DELETE
    files over HTTP below a docroot; trackers talk a line protocol on a second
    port.  A worker thread runs one step of one connection at a time: it
    flushes a pending response, or goes on with the file that is being sent or
    received, or reads and parses the next request and calls the handler of its
    method.  The machines that parse input are generated by Ragel in goto
    style; the files modelled here are the generated C files that are compiled.

    ** Files

    - Prelude.v: C integers with their wrap-around, [errno], calls that may
      abort ([res]), byte buffers, automation, finite checks over tables.
    - Ragel.v: the shape of a generated machine; termination and safety from a
      measure and an invariant; evaluation without fuel; resuming a machine at
      the end of a buffer.
    - Fmt.v: the conversions of [snprintf] that are used, with their lengths.
    - ValidPath.v (valid_path.c, valid_put_path.c): the two path filters.
    - Base64.v (lib/base64.c): decoding of Content-MD5 values.
    - Http.v (struct mog_http, mog_file, mog_rbuf in cmogstored.h;
      [mog_http_write_full] in http_put.c).
    - TryWrite.v (trywrite.c): partial writes.  The class [Lossless] is what
      the writers promise to their callers.
    - HttpResp.v (http_date.c, [mog_http_resp0] and [mog_http_reset] in http.c).
    - World.v: the docroot, the socket and the replies of system calls
      (fs.c, fs.h), the state monad of the handlers and its weakest
      preconditions.
    - ChunkParser.v, ChunkInv.v, ChunkDecode.v (chunk_parser.c): the parser of
      chunked bodies, its invariant, and that it decodes what was encoded.
    - HttpParser.v, HttpParserInv.v, HttpRequest.v, HttpResume.v
      (http_parser.c): the request parser, its invariant, the meaning of
      requests, and that a request may be parsed in pieces.
    - HttpGet.v (http_get.c, [mog_http_path], file.c), HttpPut.v and
      HttpPutInv.v (http_put.c, file.c), HttpQueue.v (http.c, http_dav.c,
      alloc.c): the handlers and the state machine of a connection.  HttpPut.v
      uses MkPath.v.
    - HttpQueueInv.v, HttpServe.v: requests that arrive in pieces, from the
      socket to the effect on the docroot and the response.
    - FsckQueue.v (fsck_queue.c): clients of one device that wait for their
      turn to compute a digest, as a transition system.
    - MgmtFn.v (mgmt_fn.c, digest.c), MgmtParser.v (mgmt_parser.c), Mgmt.v
      (mgmt.c): the commands, the parser that runs them, and the state machine
      of a management connection.
    - MgmtInv.v, MgmtCmd.v, MgmtServe.v: safety of the management parser, the
      meaning of its command lines, connections and digests from end to end.
    - MkPath.v (mkpath_for.c): creation of the directories of a file.
    - FdMap.v (fdmap.c): the memory of every descriptor, clients at shutdown,
      expiry of idle clients.
    - Upgrade.v (upgrade.c, inherit.c): listeners handed to a new process.
    - Listen.v (listen_parser.c, listen_parser_internal.c): addresses.
    - CfgParser.v, CfgFile.v (cfg_parser.c, part of cfg.c): the parser of
      configuration files, and the meaning of its lines.
    - Cfg.v (cfg.c, cfg_validate.c, canonpath.c, svc.c, maxconns.c, the options of
      cmogstored.c): from the command line and the files to the services.
    - Master.v (process.c, the rest of cmogstored.c, part of iostat_process.c):
      the table of child processes, and the master with its signals.
    - Mnt.v (mnt.c, mnt_usable.c, ioutil.c), Usage.v (dev.c), Iostat.v
      (iostat_parser.c, iostat.c), SvcDev.v (svc_dev.c): mounts and utilization of
      devices, usage files, the output of iostat, and the reports to watchers.
      Iostat.v is written against the classes [StatsOps] and [StatsLaws], which
      SvcDev.v implements.
    - Queue.v (queue_epoll.c, queue_loop.c, queue_step.c, activeq.h, thrpool.c):
      clients handed to threads, as a transition system, and the size of pools.
    - Notify.v (notify.c, selfwake.c, selfwake.h): requests to the main thread and
      its wake-ups, as a transition system.
    - Accept.v (accept_loop.c, the functions that are called for a new connection):
      from a listener to the map of descriptors and the queue.
    - PidFile.v (pidfile.c): the pid file, at the start and during an upgrade.
    - Shutdown.v (exit.c, the end of queue_loop.c, [mog_fdmap_requeue]): the
      listeners are closed and the last clients served.
    - HashSize.v, Hash.v (lib/hash.c): the sizes and the operations of the hash
      tables in which services, configurations, mounts, queues, children and
      inherited listeners are kept, with failing allocations.  HashInv.v has their
      invariant and the transfers between tables, HashMap.v the operations as those of
      a finite map (the classes [HashRange] and [HashKey] say what a table asks of its
      user), HashRefine.v programs of operations.  HashUse.v shows that every user
      keeps what it promises (class [KeyHash]), and that the table of process.c
      is the map of Master.v.
    - Alloc.v (alloc.c): read buffers as objects of a heap with their owners; the
      handlers of HttpQueue.v and Mgmt.v treat them by value.
    - BindListen.v (bind_listen.c): listening sockets, inherited or new.
      EpollDetect.v (queue_epoll.c): kernels whose EPOLL_CTL_MOD is not used.
    - IostatProcess.v (iostat_process.c, cloexec_from.c): the process iostat, its
      command and descriptors.  SvcUpgrade.v (svc.c): the descriptors of an upgrade,
      by a walk over the hash table of services.
    - Exit.v (exit.c, queue_common.c): [cmogstored_exit] as one sequence.

    ** Conventions

    A C integer is a [Z] with its wrap-around written out where the code can
    overflow.  A [char] is signed.  A call returns [Ok] or [Crash] with the
    reason: a false [assert], an access outside a buffer, [die], or, for loops
    that need it, fuel.  System calls answer from scripts: a [reply] is a
    value or an error, and a script that ends means that the socket would
    block.  The hash library and the clock are arguments of the definitions that
    use them.

    ** Fuel

    [chunk_fuel] and [http_fuel] are quadratic in the length of the buffer,
    which bounds the number of times a line can be scanned; the theorems
    [chunk_parse_safe] and [http_parse_safe] show that the machines never use
    them up.  Loops over the socket use [sock_size], the number of bytes and
    events that are left.  [mgmt_fuel] is linear, because a line is scanned at
    most twice, [digest_fuel] counts the bytes of the file and the replies that
    are left; [mgmt_never_aborts] and [digest_served] show that they suffice.
    [iostat_fuel] is linear, because a character is read at most twice.  The loop
    that creates threads may be tried for ever; [thrpool_resized] shows that it
    ends when some attempt succeeds.  [loop_bound] is 2^64 turns of the loops of
    [is_prime] and [next_prime], which end before: [next_prime_least].  Loops over
    replies recurse on the script.

    ** Theorems

    Every property has the mark C<n> in its comment.  They show that uploads
    are atomic and verified, that bodies are decoded and stored byte for byte,
    that requests mean what they say however they arrive, that ranges and
    headers are exact, that responses are complete under partial writes, that the
    parsers are safe on arbitrary bytes, that every management command does what it
    says on exactly its operands, that digests are those of the files, that a management connection never aborts whatever it receives,
    that the fsck queues lose no wake-up, that every descriptor keeps its own
    memory, that upgrades lose no listener, that configurations mean what they
    say and are checked before a service starts, that the master keeps its
    workers and exits when told to, that mounts and utilizations are those that
    were reported and reach every watcher, that usage files are replaced as a
    whole, that a client is served by one thread at a time, that pools of threads
    can be resized, that no request to the main thread is lost, that a pid file
    changes hands without harm, that a shutdown closes what it should and ends with the last client, that hash
    tables are finite maps and survive failing allocations at every point, that read
    buffers have one owner each, that iostat inherits nothing but its pipe, and
    that directories are created below existing devices only.
    Theorems without a mark show defects: inputs and interleavings on which the
    code aborts, waits for ever or accepts what it should not.

    ** Not modelled

    Some parts are system interface only: signal masks, fork and exec themselves,
    daemonize, posix_fadvise, I/O priorities and syslog, and the fallbacks of
    compat_*.h and fs.c for systems without the calls.  kqueue is an alternative to
    epoll that is not compiled on Linux.  gnulib (lib/) is vendored, of which only
    base64.c and hash.c are modelled: the rest is argument parsing, printing and
    replacements of the C library, which the sources only call. *)
From stdpp Require Import base list numbers gmap.
From Stdlib Require Import ZArith Lia Bool.

#[local] Open Scope Z_scope.

(** ** Integers of the C program *)

(** [off_t] is a signed 64-bit integer.  Arithmetic on it is modelled as
    two's complement wrap-around, which is what the compiled code does. *)
Definition wrap64 (z : Z) : Z := (z + 2 ^ 63) mod 2 ^ 64 - 2 ^ 63.
Definition OFF_MAX : Z := 2 ^ 63 - 1.
Definition is_off (z : Z) : Prop := - 2 ^ 63 <= z < 2 ^ 63.

(** [size_t], [unsigned long], [unsigned long long]: unsigned 64-bit. *)
Definition wrap_u64 (z : Z) : Z := z mod 2 ^ 64.
(** [uint32_t] and [unsigned]: unsigned 32-bit. *)
Definition wrap_u32 (z : Z) : Z := z mod 2 ^ 32.

Definition UINT8_MAX : Z := 255.
Definition UINT16_MAX : Z := 65535.
Definition INT_MAX : Z := 2 ^ 31 - 1.
Definition UINT_MAX : Z := 2 ^ 32 - 1.

(** A [char] is signed on the platforms modelled here (x86-64 GNU/Linux). *)
Definition is_char (c : Z) : Prop := -128 <= c <= 127.

(** A character in the closed range [lo..hi]: [lo <= ( *p ) && ( *p ) <= hi]. *)
Definition rng (lo hi c : Z) : bool := (lo <=? c) && (c <=? hi).

(** ** errno values the program distinguishes *)
Inductive errno :=
  | EPERM | ENOENT | EINTR | EIO | EAGAIN | ENOMEM | EACCES | EEXIST
  | ENOTDIR | EISDIR | EINVAL | ENFILE | EMFILE | EFBIG | ENOSPC | ERANGE
  | ENOSYS | ELOOP | EOVERFLOW | ECONNRESET | ENOTCONN | ESRCH | ECHILD
  | ENODEV | ENAMETOOLONG | EFAULT | EBADF | EOTHER (n : Z).

#[export] Instance errno_eq_dec : EqDecision errno.
Proof. solve_decision. Defined.

(** The reply of a system call: a non-negative value, or [-1] with [errno]. *)
Inductive reply :=
  | Ret (n : Z)
  | Fail (e : errno).

(** ** Results of calls that may abort on a failed [assert] *)

(** Why a call does not return a value: a false [assert], a pointer
    dereferenced outside its buffer, a call of [die], the fuel of a modelled
    loop used up, or an environment script that ends before the system call
    the program is blocked in has returned. *)
Inductive stop_reason :=
  | AssertFailed
  | OutOfBounds
  | Died
  | OutOfFuel
  | NoReply.

Inductive res (A : Type) : Type :=
  | Ok (a : A)
  | Crash (w : stop_reason).
Arguments Ok {A} a.
Arguments Crash {A} w.

Declare Scope mog_scope.
Delimit Scope mog_scope with mog.

Definition res_bind {A B} (m : res A) (f : A -> res B) : res B :=
  match m with Ok a => f a | Crash w => Crash w end.

Notation "'let*' x ':=' m 'in' k" := (res_bind m (fun x => k))
  (at level 10, x name, m at level 100, k at level 200) : mog_scope.
Notation "'let*' ' p ':=' m 'in' k" :=
  (res_bind m (fun x => match x with p => k end))
  (at level 10, p strict pattern, m at level 100, k at level 200) : mog_scope.

(** [assert (b)] in front of a continuation. *)
Definition assert_ {A} (b : bool) (k : res A) : res A :=
  if b then k else Crash AssertFailed.
Notation "'assert!' b ';' k" := (assert_ b k)
  (at level 10, b at level 100, k at level 200) : mog_scope.

#[global] Open Scope mog_scope.

(** ** Enumerations shared by the components (cmogstored.h) *)

Inductive mog_parser_state :=
  | MOG_PARSER_ERROR | MOG_PARSER_DONE | MOG_PARSER_CONTINUE.

Inductive mog_write_state :=
  | MOG_WRSTATE_ERR | MOG_WRSTATE_DONE | MOG_WRSTATE_BUSY.

Inductive mog_next :=
  | MOG_NEXT_CLOSE | MOG_NEXT_ACTIVE | MOG_NEXT_WAIT_RD
  | MOG_NEXT_WAIT_WR | MOG_NEXT_IGNORE.

#[export] Instance mog_parser_state_eq_dec : EqDecision mog_parser_state.
Proof. solve_decision. Defined.
#[export] Instance mog_write_state_eq_dec : EqDecision mog_write_state.
Proof. solve_decision. Defined.
#[export] Instance mog_next_eq_dec : EqDecision mog_next.
Proof. solve_decision. Defined.

(** ** Buffers *)

(** The number of bytes of a buffer, as the [size_t] the C code has. *)
Definition zlen {A} (l : list A) : Z := Z.of_nat (length l).

(** The character at offset [p] of a buffer; callers guard [p]. *)
Definition char_at (buf : list Z) (p : Z) : Z := nth (Z.to_nat p) buf 0.

(** [len] bytes of [buf] from offset [off]. *)
Definition slice (off len : Z) (buf : list Z) : list Z :=
  take (Z.to_nat len) (drop (Z.to_nat off) buf).

(** ** Automation *)

Create HintDb mog.
Create Rewrite HintDb zlen.

Ltac bool_to_prop :=
  repeat match goal with
  | H : (_ && _)%bool = true |- _ => apply andb_true_iff in H; destruct H
  | H : (_ || _)%bool = false |- _ => apply orb_false_iff in H; destruct H
  | H : negb _ = true |- _ => apply negb_true_iff in H
  | H : negb _ = false |- _ => apply negb_false_iff in H
  | H : (_ =? _) = true |- _ => apply Z.eqb_eq in H
  | H : (_ =? _) = false |- _ => apply Z.eqb_neq in H
  | H : (_ <=? _) = true |- _ => apply Z.leb_le in H
  | H : (_ <=? _) = false |- _ => apply Z.leb_gt in H
  | H : (_ <? _) = true |- _ => apply Z.ltb_lt in H
  | H : (_ <? _) = false |- _ => apply Z.ltb_ge in H
  end.

(** Split every [if] on a boolean comparison in the goal. *)
Ltac split_ifs :=
  repeat match goal with
  | |- context [if ?b then _ else _] =>
      let E := fresh "E" in destruct b eqn:E
  end; bool_to_prop.

(** ** Generic lemmas *)

Lemma wrap64_id (z : Z) : is_off z -> wrap64 z = z.
Proof. unfold wrap64, is_off. intros. rewrite Z.mod_small; lia. Qed.

Lemma wrap64_range (z : Z) : is_off (wrap64 z).
Proof.
  unfold wrap64, is_off.
  pose proof (Z.mod_pos_bound (z + 2 ^ 63) (2 ^ 64) ltac:(lia)). lia.
Qed.

Lemma wrap_u64_id (z : Z) : 0 <= z < 2 ^ 64 -> wrap_u64 z = z.
Proof. intros. apply Z.mod_small. lia. Qed.

Lemma rng_true (lo hi c : Z) : rng lo hi c = true <-> lo <= c <= hi.
Proof. unfold rng. rewrite andb_true_iff, !Z.leb_le. lia. Qed.

Lemma rng_false (lo hi c : Z) : rng lo hi c = false <-> c < lo \/ hi < c.
Proof. unfold rng. rewrite andb_false_iff, !Z.leb_gt. lia. Qed.

Lemma zlen_nonneg {A} (l : list A) : 0 <= zlen l.
Proof. unfold zlen. lia. Qed.

Lemma zlen_nil {A} : zlen (@nil A) = 0.
Proof. reflexivity. Qed.

Lemma zlen_cons {A} (x : A) (l : list A) : zlen (x :: l) = zlen l + 1.
Proof. unfold zlen. cbn [length]. lia. Qed.

Lemma zlen_app {A} (l k : list A) : zlen (l ++ k) = zlen l + zlen k.
Proof. unfold zlen. rewrite length_app. lia. Qed.

Lemma zlen_drop {A} (n : Z) (l : list A) :
  0 <= n <= zlen l -> zlen (drop (Z.to_nat n) l) = zlen l - n.
Proof. unfold zlen. rewrite length_drop. lia. Qed.

Lemma zlen_take {A} (n : Z) (l : list A) :
  0 <= n <= zlen l -> zlen (take (Z.to_nat n) l) = n.
Proof. unfold zlen. rewrite length_take. lia. Qed.

Lemma zlen_slice (off len : Z) (buf : list Z) :
  0 <= off -> 0 <= len -> off + len <= zlen buf -> zlen (slice off len buf) = len.
Proof.
  intros. unfold slice. rewrite zlen_take; [done|].
  rewrite zlen_drop by lia. lia.
Qed.

Lemma char_at_app_r (pre suf : list Z) (p : Z) :
  zlen pre <= p -> char_at (pre ++ suf) p = char_at suf (p - zlen pre).
Proof.
  unfold char_at, zlen. intros.
  rewrite app_nth2 by lia. f_equal. lia.
Qed.

Lemma char_at_app_l (pre suf : list Z) (p : Z) :
  0 <= p < zlen pre -> char_at (pre ++ suf) p = char_at pre p.
Proof. unfold char_at, zlen. intros. rewrite app_nth1 by lia. done. Qed.

(** The character right after a known prefix. *)
Lemma char_at_mid (pre suf : list Z) (c : Z) :
  char_at (pre ++ c :: suf) (zlen pre) = c.
Proof. rewrite char_at_app_r by lia. by rewrite Z.sub_diag. Qed.

Lemma char_at_Forall (P : Z -> Prop) (buf : list Z) (p : Z) :
  Forall P buf -> 0 <= p < zlen buf -> P (char_at buf p).
Proof.
  unfold char_at, zlen. rewrite List.Forall_forall. intros H Hp.
  apply H, nth_In. lia.
Qed.

Lemma slice_app_mid (pre mid suf : list Z) (off len : Z) :
  off = zlen pre -> len = zlen mid ->
  slice off len (pre ++ mid ++ suf) = mid.
Proof.
  intros -> ->. unfold slice, zlen. rewrite !Nat2Z.id.
  rewrite drop_app_length. by rewrite take_app_length.
Qed.

#[export] Hint Rewrite @zlen_nil @zlen_cons @zlen_app : zlen.
#[export] Hint Resolve zlen_nonneg : mog.

(** ** Finite checks over machine states and characters

    A property of a generated transition table is decided by evaluating it on
    every state of a list and every value of a [char]. *)
Definition zrange (lo : Z) (n : nat) : list Z :=
  List.map (fun i => lo + Z.of_nat i) (List.seq 0 n).

Definition all_chars : list Z := zrange (-128) 256.

Lemma zrange_spec (lo : Z) (n : nat) (z : Z) :
  lo <= z < lo + Z.of_nat n -> In z (zrange lo n).
Proof.
  intros. apply in_map_iff. exists (Z.to_nat (z - lo)).
  split; [lia | apply in_seq; lia].
Qed.

Lemma all_chars_spec (c : Z) : is_char c -> In c all_chars.
Proof. unfold is_char. intros. apply zrange_spec. lia. Qed.

Definition check_table (states : list Z) (f : Z -> Z -> bool) : bool :=
  forallb (fun cs => forallb (f cs) all_chars) states.

Lemma check_table_sound (states : list Z) (f : Z -> Z -> bool) :
  check_table states f = true ->
  forall cs c, In cs states -> is_char c -> f cs c = true.
Proof.
  intros H cs c Hcs Hc. unfold check_table in H.
  rewrite forallb_forall in H. specialize (H cs Hcs).
  rewrite forallb_forall in H. apply H. by apply all_chars_spec.
Qed.
