(* ===== verification/Ragel.v ===== *)
(** Semantics of the state machines Ragel generates in goto style (-G2).

    Every generated parser of the program has the shape
<<
    if ( p == pe ) goto _test_eof;
    switch ( cs ) {
      stN: if ( ++p == pe ) goto _test_eofN;
      case N: ... goto trK / goto stM ...
      trK: { action } goto stM;
    }
    _test_eofN: cs = N; goto _test_eof;
>>
    A machine is given by one function, [step]: the code of [case cs] up to
    the next [goto stN] or [goto _out].  [exec] iterates it the way the
    labels do.  The generic lemmas give termination and safety from a measure
    and an invariant, and a fuel-free evaluation relation for functional
    proofs. *)
From S2P Require Import Prelude.
From stdpp Require Import base list numbers.
From Stdlib Require Import ZArith Lia.

#[local] Open Scope Z_scope.

(** The target of a [goto] in the transition code of a state. *)
Inductive label :=
  | St (n : Z)   (* goto st<n> *)
  | Tr (n : Z).  (* goto tr<n> *)

(** Where control goes at the end of a [case]. *)
Inductive jump (S : Type) : Type :=
  | GoSt (n : Z) (p : Z) (s : S)   (* goto st<n> *)
  | GoOut (n : Z) (p : Z) (s : S)  (* cs = <n>; goto _out *)
  | Stop (w : stop_reason).        (* a failed assert *)
Arguments GoSt {S} n p s.
Arguments GoOut {S} n p s.
Arguments Stop {S} w.

(** Registers when control leaves the machine. *)
Record regs (S : Type) := Regs { r_cs : Z; r_p : Z; r_s : S }.
Arguments Regs {S} r_cs r_p r_s.
Arguments r_cs {S} r.
Arguments r_p {S} r.
Arguments r_s {S} r.

Section Machine.
Context {S : Type}.
(** [step buf cs p s]: the block [case cs] with [*p] read from [buf]. *)
Variable step : list Z -> Z -> Z -> S -> jump S.

Fixpoint exec (fuel : nat) (buf : list Z) (cs p : Z) (s : S)
  : res (regs S) :=
  match fuel with
  | O => Crash OutOfFuel
  | Datatypes.S fuel' =>
      if (0 <=? p) && (p <? zlen buf) then
        match step buf cs p s with
        | GoSt n p' s' =>
            if p' + 1 =? zlen buf then Ok (Regs n (p' + 1) s')
            else exec fuel' buf n (p' + 1) s'
        | GoOut n p' s' => Ok (Regs n p' s')
        | Stop w => Crash w
        end
      else Crash OutOfBounds
  end.

(** Entry of the machine: [if ( p == pe ) goto _test_eof]. *)
Definition enter (fuel : nat) (buf : list Z) (cs p : Z) (s : S)
  : res (regs S) :=
  if p =? zlen buf then Ok (Regs cs p s) else exec fuel buf cs p s.

Lemma exec_mono (f f' : nat) buf cs p s r :
  exec f buf cs p s = Ok r -> (f <= f')%nat -> exec f' buf cs p s = Ok r.
Proof.
  revert f' cs p s. induction f as [|f IH]; intros f' cs p s H Hle; [done|].
  destruct f' as [|f']; [lia|]. cbn in *.
  destruct (_ && _); [|done].
  destruct (step buf cs p s) as [n p' s'|n p' s'|w]; [|done..].
  destruct (_ =? _); [done|]. apply IH; [done|lia].
Qed.

(** Termination and safety.  When every step from a state satisfying [I]
    either leaves the machine satisfying [Q], or continues in [I] with a
    smaller measure, the machine returns, reads no byte outside the buffer,
    fails no assertion, and its exit registers satisfy [Q]. *)
Theorem exec_total (buf : list Z) (I : Z -> Z -> S -> Prop)
    (Q : Z -> Z -> S -> Prop) (mu : Z -> Z -> S -> Z) :
  (forall cs p s, I cs p s -> 0 <= p < zlen buf /\ 0 <= mu cs p s /\
     match step buf cs p s with
     | GoSt n p' s' =>
         if p' + 1 =? zlen buf then Q n (p' + 1) s'
         else I n (p' + 1) s' /\ mu n (p' + 1) s' < mu cs p s
     | GoOut n p' s' => Q n p' s'
     | Stop _ => False
     end) ->
  forall cs p s fuel, I cs p s -> mu cs p s < Z.of_nat fuel ->
  exists n p' s', exec fuel buf cs p s = Ok (Regs n p' s') /\ Q n p' s'.
Proof.
  intros Hstep cs p s fuel. revert cs p s.
  induction fuel as [|fuel IH]; intros cs p s HI Hmu;
    destruct (Hstep cs p s HI) as (Hp & Hmu0 & Hs); [lia|].
  cbn [exec].
  replace ((0 <=? p) && (p <? zlen buf)) with true
    by (symmetry; rewrite andb_true_iff, Z.leb_le, Z.ltb_lt; lia).
  destruct (step buf cs p s) as [n p' s'|n p' s'|w]; [| by eauto | done].
  destruct (p' + 1 =? zlen buf); [by eauto|].
  destruct Hs as [HI' Hlt]. apply IH; [done|lia].
Qed.

Corollary enter_total (buf : list Z) (I : Z -> Z -> S -> Prop)
    (Q : Z -> Z -> S -> Prop) (mu : Z -> Z -> S -> Z) :
  (forall cs p s, I cs p s -> 0 <= p < zlen buf /\ 0 <= mu cs p s /\
     match step buf cs p s with
     | GoSt n p' s' =>
         if p' + 1 =? zlen buf then Q n (p' + 1) s'
         else I n (p' + 1) s' /\ mu n (p' + 1) s' < mu cs p s
     | GoOut n p' s' => Q n p' s'
     | Stop _ => False
     end) ->
  forall cs p s fuel,
  (p = zlen buf -> Q cs p s) ->
  (p <> zlen buf -> I cs p s /\ mu cs p s < Z.of_nat fuel) ->
  exists n p' s', enter fuel buf cs p s = Ok (Regs n p' s') /\ Q n p' s'.
Proof.
  intros Hstep cs p s fuel Hend Hgo. unfold enter.
  destruct (Z.eqb_spec p (zlen buf)) as [->|Hne]; [by eauto 6|].
  destruct (Hgo Hne). by eapply exec_total.
Qed.

(** The same when a step may also stop for a reason [E] allows. *)
Theorem exec_outcome (buf : list Z) (I : Z -> Z -> S -> Prop)
    (Q : Z -> Z -> S -> Prop) (E : stop_reason -> Prop) (mu : Z -> Z -> S -> Z) :
  (forall cs p s, I cs p s -> 0 <= p < zlen buf /\ 0 <= mu cs p s /\
     match step buf cs p s with
     | GoSt n p' s' =>
         if p' + 1 =? zlen buf then Q n (p' + 1) s'
         else I n (p' + 1) s' /\ mu n (p' + 1) s' < mu cs p s
     | GoOut n p' s' => Q n p' s'
     | Stop w => E w
     end) ->
  forall cs p s fuel,
  (p = zlen buf -> Q cs p s) ->
  (p <> zlen buf -> I cs p s /\ mu cs p s < Z.of_nat fuel) ->
  (exists n p' s', enter fuel buf cs p s = Ok (Regs n p' s') /\ Q n p' s') \/
  (exists w, enter fuel buf cs p s = Crash w /\ E w).
Proof.
  intros Hstep cs p s fuel Hend Hgo. unfold enter.
  destruct (Z.eqb_spec p (zlen buf)) as [->|Hne]; [left; by eauto 6|].
  destruct (Hgo Hne) as [HI Hmu]. clear Hend Hgo Hne. revert cs p s HI Hmu.
  induction fuel as [|fuel IH]; intros cs p s HI Hmu;
    destruct (Hstep cs p s HI) as (Hp & Hmu0 & Hs); [lia|].
  cbn [exec].
  replace ((0 <=? p) && (p <? zlen buf)) with true
    by (symmetry; rewrite andb_true_iff, Z.leb_le, Z.ltb_lt; lia).
  destruct (step buf cs p s) as [n p' s'|n p' s'|w]; [|left; by eauto|right; by eauto].
  destruct (p' + 1 =? zlen buf); [left; by eauto|].
  destruct Hs as [HI' Hlt]. apply IH; [done|lia].
Qed.

(** ** Evaluation without fuel *)

(** [reach buf cs p s r]: from the test [p == pe] in state [cs] the machine
    leaves with registers [r]. *)
Definition reach (buf : list Z) (cs p : Z) (s : S) (r : regs S) : Prop :=
  exists f, enter f buf cs p s = Ok r.

Lemma enter_mono (f f' : nat) buf cs p s r :
  enter f buf cs p s = Ok r -> (f <= f')%nat -> enter f' buf cs p s = Ok r.
Proof. unfold enter. destruct (_ =? _); eauto using exec_mono. Qed.

Lemma reach_det buf cs p s r r' f :
  reach buf cs p s r -> enter f buf cs p s = Ok r' -> r' = r.
Proof.
  intros [f0 H0] H.
  apply (enter_mono _ (Nat.max f f0)) in H; [|lia].
  apply (enter_mono _ (Nat.max f f0)) in H0; [|lia]. congruence.
Qed.

Lemma reach_done buf cs p s :
  p = zlen buf -> reach buf cs p s (Regs cs p s).
Proof. intros ->. exists 0%nat. unfold enter. by rewrite Z.eqb_refl. Qed.

Lemma reach_go buf cs p s n p' s' r :
  0 <= p < zlen buf -> step buf cs p s = GoSt n p' s' ->
  reach buf n (p' + 1) s' r -> reach buf cs p s r.
Proof.
  intros Hp Hs [f Hf]. exists (Datatypes.S f). unfold enter in *.
  destruct (Z.eqb_spec p (zlen buf)); [lia|]. cbn [exec].
  replace ((0 <=? p) && (p <? zlen buf)) with true
    by (symmetry; rewrite andb_true_iff, Z.leb_le, Z.ltb_lt; lia).
  by rewrite Hs.
Qed.

Lemma reach_out buf cs p s n p' s' :
  0 <= p < zlen buf -> step buf cs p s = GoOut n p' s' ->
  reach buf cs p s (Regs n p' s').
Proof.
  intros Hp Hs. exists 1%nat. unfold enter.
  destruct (Z.eqb_spec p (zlen buf)); [lia|]. cbn [exec].
  replace ((0 <=? p) && (p <? zlen buf)) with true
    by (symmetry; rewrite andb_true_iff, Z.leb_le, Z.ltb_lt; lia).
  by rewrite Hs.
Qed.

(** The same two rules when the buffer is split at [p]. *)
Lemma reach_char pre c suf cs s n s' r :
  step (pre ++ c :: suf) cs (zlen pre) s = GoSt n (zlen pre) s' ->
  reach (pre ++ c :: suf) n (zlen (pre ++ [c])) s' r ->
  reach (pre ++ c :: suf) cs (zlen pre) s r.
Proof.
  intros Hs Hr. eapply reach_go; [|exact Hs|].
  - autorewrite with zlen. pose proof (zlen_nonneg pre).
    pose proof (zlen_nonneg suf). lia.
  - revert Hr. autorewrite with zlen. done.
Qed.

Lemma reach_char_out pre c suf cs s n p' s' :
  step (pre ++ c :: suf) cs (zlen pre) s = GoOut n p' s' ->
  reach (pre ++ c :: suf) cs (zlen pre) s (Regs n p' s').
Proof.
  intros Hs. eapply reach_out; [|exact Hs].
  autorewrite with zlen. pose proof (zlen_nonneg pre).
  pose proof (zlen_nonneg suf). lia.
Qed.

(** The machine leaves with registers that satisfy [Q]. *)
Definition runs (buf : list Z) (cs p : Z) (s : S) (Q : regs S -> Prop) : Prop :=
  exists r, reach buf cs p s r /\ Q r.

Lemma runs_go buf cs p s n p' s' Q :
  0 <= p < zlen buf -> step buf cs p s = GoSt n p' s' ->
  runs buf n (p' + 1) s' Q -> runs buf cs p s Q.
Proof. intros Hp Hs (r & Hr & HQ). exists r. eauto using reach_go. Qed.

Lemma runs_char pre c suf cs s n s' Q :
  step (pre ++ c :: suf) cs (zlen pre) s = GoSt n (zlen pre) s' ->
  runs ((pre ++ [c]) ++ suf) n (zlen (pre ++ [c])) s' Q ->
  runs (pre ++ c :: suf) cs (zlen pre) s Q.
Proof.
  rewrite <- app_assoc. cbn. intros Hs (r & Hr & HQ). exists r. eauto using reach_char.
Qed.

Lemma runs_out pre c suf cs s n p' s' (Q : regs S -> Prop) :
  step (pre ++ c :: suf) cs (zlen pre) s = GoOut n p' s' -> Q (Regs n p' s') ->
  runs (pre ++ c :: suf) cs (zlen pre) s Q.
Proof. intros Hs HQ. eexists. eauto using reach_char_out. Qed.

Lemma exec_crash_mono (f f' : nat) buf cs p s w :
  exec f buf cs p s = Crash w -> w <> OutOfFuel -> (f <= f')%nat ->
  exec f' buf cs p s = Crash w.
Proof.
  revert f' cs p s. induction f as [|f IH]; intros f' cs p s H Hw Hle; [cbn in H; congruence|].
  destruct f' as [|f']; [lia|]. cbn in *.
  destruct (_ && _); [|done].
  destruct (step buf cs p s) as [n p' s'|n p' s'|w']; [|done..].
  destruct (_ =? _); [done|]. apply IH; [done|done|lia].
Qed.

(** A machine that has a run does not crash. *)
Lemma runs_no_crash f buf cs p s w Q :
  runs buf cs p s Q -> w <> OutOfFuel -> enter f buf cs p s <> Crash w.
Proof.
  intros (r & (f0 & H0) & _) Hw H. revert H0 H. unfold enter. destruct (_ =? _); [done|].
  intros H0 H. apply (exec_mono _ (Nat.max f f0)) in H0; [|lia].
  apply (exec_crash_mono _ (Nat.max f f0)) in H; [congruence|done|lia].
Qed.

(** With enough fuel known, the run is the result. *)
Lemma runs_enter f buf cs p s r Q :
  runs buf cs p s Q -> enter f buf cs p s = Ok r -> Q r.
Proof. intros (r' & Hr & HQ) He. by rewrite (reach_det _ _ _ _ _ _ _ Hr He). Qed.

(** With a measure that every step decreases, whatever the actions keep, the
    fuel is enough. *)
Lemma reach_fuel (mu : Z -> Z -> Z) (fuel : nat) buf cs p s r :
  (forall cs p s n p' s', 0 <= p < zlen buf -> step buf cs p s = GoSt n p' s' -> mu n (p' + 1) < mu cs p) ->
  (forall cs p, p < zlen buf -> 0 <= mu cs p) ->
  reach buf cs p s r -> mu cs p < Z.of_nat fuel -> enter fuel buf cs p s = Ok r.
Proof.
  intros Hgo Hmu [f0 Hf]. revert Hf. unfold enter. destruct (_ =? _); [done|].
  revert fuel cs p s. induction f0 as [|f0 IH]; intros fuel cs p s Hf Hfu; [done|]. cbn [exec] in Hf.
  destruct (Z.leb_spec 0 p) as [E0|]; [|done]. destruct (Z.ltb_spec p (zlen buf)) as [E1|]; [|done]. cbn [andb] in Hf.
  pose proof (Hmu cs p E1). destruct fuel as [|fuel]; [lia|]. cbn [exec].
  destruct (Z.leb_spec 0 p); [|lia]. destruct (Z.ltb_spec p (zlen buf)); [|lia]. cbn [andb].
  destruct (step buf cs p s) as [n p' s'|n p' s'|w] eqn:Es; [|done..]. destruct (_ =? _); [done|].
  apply IH; [done|]. specialize (Hgo _ _ _ _ _ _ (conj E0 E1) Es). lia.
Qed.

(** A machine that never moves back needs one unit of fuel per character. *)
Lemma reach_linear (fuel : nat) buf cs p s r :
  (forall cs p s n p' s', step buf cs p s = GoSt n p' s' -> p <= p') ->
  reach buf cs p s r -> zlen buf - p < Z.of_nat fuel -> enter fuel buf cs p s = Ok r.
Proof.
  intros Hgo Hr Hf. apply (reach_fuel (fun _ p => zlen buf - p)); [|intros; lia|done|done].
  intros ? ? ? ? ? ? _ E. specialize (Hgo _ _ _ _ _ _ E). lia.
Qed.

(** ** Cutting the input *)

(** What the machine ends in, given enough fuel. *)
Definition outcome (buf : list Z) (cs p : Z) (s : S) (x : res (regs S)) : Prop :=
  x <> Crash OutOfFuel /\ exists f, enter f buf cs p s = x.

Lemma enter_res_mono (f f' : nat) buf cs p s x :
  enter f buf cs p s = x -> x <> Crash OutOfFuel -> (f <= f')%nat ->
  enter f' buf cs p s = x.
Proof.
  unfold enter. destruct (_ =? _); [done|]. intros H Hx Hle.
  destruct x as [r|w]; [eauto using exec_mono|]. apply (exec_crash_mono f); [done|congruence|done].
Qed.

Lemma outcome_det buf cs p s x y : outcome buf cs p s x -> outcome buf cs p s y -> x = y.
Proof.
  intros [Hx [f Hf]] [Hy [g Hg]].
  apply (enter_res_mono _ (Nat.max f g)) in Hf; [|done|lia].
  apply (enter_res_mono _ (Nat.max f g)) in Hg; [|done|lia]. congruence.
Qed.

Lemma outcome_go buf cs p s n p' s' x :
  0 <= p < zlen buf -> step buf cs p s = GoSt n p' s' ->
  outcome buf n (p' + 1) s' x -> outcome buf cs p s x.
Proof.
  intros Hp Hs [Hx [f Hf]]. split; [done|]. exists (Datatypes.S f). unfold enter in *.
  destruct (Z.eqb_spec p (zlen buf)); [lia|]. cbn [exec].
  replace ((0 <=? p) && (p <? zlen buf)) with true
    by (symmetry; rewrite andb_true_iff, Z.leb_le, Z.ltb_lt; lia).
  by rewrite Hs.
Qed.

Lemma outcome_stop buf cs p s x :
  0 <= p < zlen buf ->
  match step buf cs p s with
  | GoSt _ _ _ => False
  | GoOut n p' s' => x = Ok (Regs n p' s')
  | Stop w => x = Crash w /\ w <> OutOfFuel
  end -> outcome buf cs p s x.
Proof.
  intros Hp Hs. split.
  - destruct (step buf cs p s); [done|by subst|]. destruct Hs as [-> ?]. congruence.
  - exists 1%nat. unfold enter. destruct (Z.eqb_spec p (zlen buf)); [lia|]. cbn [exec].
    replace ((0 <=? p) && (p <? zlen buf)) with true
      by (symmetry; rewrite andb_true_iff, Z.leb_le, Z.ltb_lt; lia).
    destruct (step buf cs p s); [done|by subst|]. by destruct Hs as [-> _].
Qed.

(** A machine whose steps depend only on the bytes it has read may be stopped
    at the end of a buffer and resumed on a longer one: either it has left for
    another reason, and then does the same on the longer buffer, or going on
    from its registers is the run on the longer buffer. *)
Theorem outcome_resume (buf more : list Z) (J : Z -> Z -> S -> Prop) :
  (forall cs p s, J cs p s -> 0 <= p) ->
  (forall cs p s, J cs p s -> p < zlen buf ->
     step (buf ++ more) cs p s = step buf cs p s /\
     match step buf cs p s with
     | GoSt n p' s' => J n (p' + 1) s' /\ p' + 1 <= zlen buf
     | _ => True
     end) ->
  forall f cs p s x, J cs p s -> p <= zlen buf ->
  enter f buf cs p s = x -> x <> Crash OutOfFuel ->
  outcome (buf ++ more) cs p s x \/
  exists n s', x = Ok (Regs n (zlen buf) s') /\ J n (zlen buf) s' /\
    forall y, outcome (buf ++ more) n (zlen buf) s' y -> outcome (buf ++ more) cs p s y.
Proof.
  intros HJ0 Hstep f. induction f as [|f IH]; intros cs p s x HJ Hp He Hx; unfold enter in He;
    destruct (Z.eqb_spec p (zlen buf)) as [->|Hne]; [right; by eauto|cbn in He; congruence|right; by eauto|].
  pose proof (HJ0 _ _ _ HJ). destruct (Hstep cs p s HJ ltac:(lia)) as [Heq Hn].
  pose proof (zlen_nonneg more). pose proof (zlen_app buf more). cbn [exec] in He.
  replace ((0 <=? p) && (p <? zlen buf)) with true in He
    by (symmetry; rewrite andb_true_iff, Z.leb_le, Z.ltb_lt; lia).
  destruct (step buf cs p s) as [n p' s'|n p' s'|w] eqn:Es.
  - destruct Hn as [HJ' Hle]. assert (enter f buf n (p' + 1) s' = x) as He' by done.
    destruct (IH n (p' + 1) s' x HJ' Hle He' Hx) as [Ho|(n2 & s2 & -> & HJ2 & Hr)].
    + left. eapply outcome_go; [lia|exact Heq|done].
    + right. exists n2, s2. split; [done|]. split; [done|]. intros y Hy.
      eapply outcome_go; [lia|exact Heq|auto].
  - left. apply outcome_stop; [lia|]. by rewrite Heq.
  - left. apply outcome_stop; [lia|]. rewrite Heq. split; congruence.
Qed.
End Machine.

(** ** Literal text *)

Section MemTable.
(** The transitions and the actions of a machine, separately.  Actions may
    write to the buffer: [ok s p] says that the text from [p] on is still what
    was there. *)
Variable goto : Z -> Z -> option label.
Context {S : Type}.
Variable act : Z -> list Z -> Z -> S -> jump S.
Variable step : list Z -> Z -> Z -> S -> jump S.
Variable ok : S -> Z -> Prop.
Hypothesis ok_next : forall s p, ok s p -> ok s (p + 1).
Hypothesis step_mem : forall buf cs p s l,
  ok s p -> goto cs (char_at buf p) = Some l ->
  step buf cs p s =
    match l with
    | St n => if n =? 0 then GoOut 0 p s else GoSt n p s
    | Tr k => act k buf p s
    end.

(** Characters that only change the state. *)
Fixpoint walk (cs : Z) (ws : list Z) : option Z :=
  match ws with
  | [] => Some cs
  | c :: ws' =>
      match goto cs c with
      | Some (St n) => if n =? 0 then None else walk n ws'
      | _ => None
      end
  end.

Lemma mem_step_at (pre : list Z) (c : Z) (suf : list Z) (cs : Z) (s : S) (l : label) :
  ok s (zlen pre) -> goto cs c = Some l ->
  step (pre ++ c :: suf) cs (zlen pre) s =
    match l with
    | St n => if n =? 0 then GoOut 0 (zlen pre) s else GoSt n (zlen pre) s
    | Tr k => act k (pre ++ c :: suf) (zlen pre) s
    end.
Proof. intros Hok H. apply step_mem; [done|]. by rewrite char_at_mid. Qed.

Lemma mem_walk (ws pre suf : list Z) (cs n : Z) (s : S) Q :
  ok s (zlen pre) -> walk cs ws = Some n ->
  (ok s (zlen (pre ++ ws)) -> runs step ((pre ++ ws) ++ suf) n (zlen (pre ++ ws)) s Q) ->
  runs step (pre ++ ws ++ suf) cs (zlen pre) s Q.
Proof.
  revert pre cs. induction ws as [|c ws IH]; intros pre cs Hok Hw Hr.
  - injection Hw as <-. rewrite app_nil_r in Hr. by apply Hr.
  - cbn [walk] in Hw. destruct (goto cs c) as [[m|]|] eqn:E; try done.
    destruct (Z.eqb_spec m 0) as [|Hm]; [done|].
    eapply (runs_char _ _ _ _ _ _ m s).
    + rewrite (mem_step_at _ _ _ _ _ _ Hok E). by destruct (Z.eqb_spec m 0).
    + apply IH; [rewrite zlen_app; by apply ok_next|done|].
      rewrite <- !app_assoc in *. exact Hr.
Qed.

(** One character with an action that stays on it. *)
Lemma mem_act (pre suf : list Z) (c cs n k : Z) (s s' : S) Q :
  ok s (zlen pre) -> goto cs c = Some (Tr k) ->
  act k (pre ++ c :: suf) (zlen pre) s = GoSt n (zlen pre) s' ->
  runs step ((pre ++ [c]) ++ suf) n (zlen (pre ++ [c])) s' Q ->
  runs step (pre ++ [c] ++ suf) cs (zlen pre) s Q.
Proof.
  intros Hok Hg Ha Hr. cbn [app]. eapply runs_char; [|exact Hr].
  by rewrite (mem_step_at _ _ _ _ _ _ Hok Hg).
Qed.

(** One character whose action leaves the machine. *)
Lemma mem_act_out (pre suf : list Z) (c cs n k p' : Z) (s s' : S) (Q : regs S -> Prop) :
  ok s (zlen pre) -> goto cs c = Some (Tr k) ->
  act k (pre ++ c :: suf) (zlen pre) s = GoOut n p' s' -> Q (Regs n p' s') ->
  runs step (pre ++ [c] ++ suf) cs (zlen pre) s Q.
Proof.
  intros Hok Hg Ha HQ. cbn [app]. eapply runs_out; [|exact HQ]. by rewrite (mem_step_at _ _ _ _ _ _ Hok Hg).
Qed.

(** A loop in one state. *)
Lemma walk_loop (f : Z -> bool) (n : Z) (ws : list Z) :
  n <> 0 -> (forall c, f c = true -> goto n c = Some (St n)) -> forallb f ws = true -> walk n ws = Some n.
Proof.
  intros Hn Hf. induction ws as [|c ws IH]; [done|]. intros [Hc Hws]%andb_true_iff. cbn [walk].
  rewrite (Hf c Hc). destruct (Z.eqb_spec n 0); [done|auto].
Qed.

Lemma walk_app (n m : Z) (a b : list Z) : walk n a = Some m -> walk n (a ++ b) = walk m b.
Proof.
  revert n. induction a as [|c a IH]; intros n H; [by injection H as ->|]. cbn [walk app] in *.
  destruct (goto n c) as [[k|]|]; try done. destruct (k =? 0); [done|auto].
Qed.
End MemTable.

(** The same for machines that do not write to their buffer. *)
Section Table.
Variable goto : Z -> Z -> option label.
Context {S : Type}.
Variable act : Z -> list Z -> Z -> S -> jump S.
Variable step : list Z -> Z -> Z -> S -> jump S.
Hypothesis step_table : forall buf cs p s l,
  goto cs (char_at buf p) = Some l ->
  step buf cs p s =
    match l with
    | St n => if n =? 0 then GoOut 0 p s else GoSt n p s
    | Tr k => act k buf p s
    end.

Let always (s : S) (p : Z) : Prop := True.
Let table_mem : forall buf cs p s l, always s p -> _ -> _ := fun buf cs p s l _ => step_table buf cs p s l.

Lemma table_step_at (pre : list Z) (c : Z) (suf : list Z) (cs : Z) (s : S) (l : label) :
  goto cs c = Some l ->
  step (pre ++ c :: suf) cs (zlen pre) s =
    match l with
    | St n => if n =? 0 then GoOut 0 (zlen pre) s else GoSt n (zlen pre) s
    | Tr k => act k (pre ++ c :: suf) (zlen pre) s
    end.
Proof. by apply (mem_step_at goto act step always table_mem). Qed.

Lemma runs_walk (ws pre suf : list Z) (cs n : Z) (s : S) Q :
  walk goto cs ws = Some n ->
  runs step ((pre ++ ws) ++ suf) n (zlen (pre ++ ws)) s Q ->
  runs step (pre ++ ws ++ suf) cs (zlen pre) s Q.
Proof. intros Hw Hr. by apply (mem_walk goto act step always (fun _ _ _ => I) table_mem ws pre suf cs n s Q I Hw). Qed.

Lemma runs_act (pre suf : list Z) (c cs n k : Z) (s s' : S) Q :
  goto cs c = Some (Tr k) ->
  act k (pre ++ c :: suf) (zlen pre) s = GoSt n (zlen pre) s' ->
  runs step ((pre ++ [c]) ++ suf) n (zlen (pre ++ [c])) s' Q ->
  runs step (pre ++ [c] ++ suf) cs (zlen pre) s Q.
Proof. exact (mem_act goto act step always table_mem pre suf c cs n k s s' Q I). Qed.

Lemma runs_act_out (pre suf : list Z) (c cs n k p' : Z) (s s' : S) (Q : regs S -> Prop) :
  goto cs c = Some (Tr k) ->
  act k (pre ++ c :: suf) (zlen pre) s = GoOut n p' s' -> Q (Regs n p' s') ->
  runs step (pre ++ [c] ++ suf) cs (zlen pre) s Q.
Proof. exact (mem_act_out goto act step always table_mem pre suf c cs n k p' s s' Q I). Qed.
End Table.

(** Move one character from the unread to the read part of a split buffer. *)
Lemma split_shift (pre : list Z) (c : Z) (suf : list Z) :
  pre ++ c :: suf = (pre ++ [c]) ++ suf.
Proof. by rewrite <- app_assoc. Qed.
