(* ===== verification/Fmt.v ===== *)
(** The conversions of [snprintf] the program uses, and their inverses: decimal
    and padded integers, string constants. *)
From S2P Require Import Prelude.
From stdpp Require Import base list numbers.
From Stdlib Require Import ZArith Lia.
From Stdlib Require Ascii String.
Export String.StringSyntax.

#[local] Open Scope Z_scope.

(** The bytes of a string constant. *)
Definition str (s : String.string) : list Z :=
  List.map (fun a => Z.of_nat (Ascii.nat_of_ascii a)) (String.list_ascii_of_string s).
Arguments str s%_string_scope.

Definition CRLF : list Z := [13; 10].

(** Decimal digits, most significant first; [fuel] digits at most. *)
Fixpoint dec_digits (fuel : nat) (n : Z) : list Z :=
  match fuel with
  | O => []
  | S fuel' =>
      if n <? 10 then [48 + n] else dec_digits fuel' (n / 10) ++ [48 + n mod 10]
  end.

(** [%llu] and [%lld]: 20 digits hold every 64-bit value. *)
Definition fmt_u (n : Z) : list Z := dec_digits 20 n.
Definition fmt_d (n : Z) : list Z := if n <? 0 then 45 :: fmt_u (- n) else fmt_u n.

(** Padding to a field width, [%02d] and [%4d]. *)
Definition fmt_pad (c : Z) (width : nat) (l : list Z) : list Z :=
  replicate (width - length l) c ++ l.
Definition fmt_02d (n : Z) : list Z := fmt_pad 48 2 (fmt_d n).
Definition fmt_4d (n : Z) : list Z := fmt_pad 32 4 (fmt_d n).

(** [%08x]: eight hexadecimal digits. *)
Definition hex_char (d : Z) : Z := if d <? 10 then 48 + d else 87 + d.
Definition fmt_08x (n : Z) : list Z :=
  List.map (fun i => hex_char (Z.land (Z.shiftr n (4 * i)) 15)) [7; 6; 5; 4; 3; 2; 1; 0].

(** The value of a string of digits. *)
Definition dec_value (l : list Z) : Z := fold_left (fun acc c => acc * 10 + (c - 48)) l 0.
Definition is_digit (c : Z) : bool := rng 48 57 c.

(** ** [strtoul (s, &end, 10)] *)

Definition is_space (c : Z) : bool := (c =? 32) || rng 9 13 c.

Fixpoint skip_space (s : list Z) : list Z :=
  match s with c :: s' => if is_space c then skip_space s' else s | [] => [] end.

(** The value of the digits at the start and what follows them. *)
Fixpoint digits_prefix (v : Z) (s : list Z) : Z * list Z :=
  match s with
  | c :: s' => if is_digit c then digits_prefix (v * 10 + (c - 48)) s' else (v, s)
  | [] => (v, [])
  end.

(** The value, the rest of the string, and whether ERANGE was set. *)
Definition strtoul (s : list Z) : Z * list Z * bool :=
  let '(neg, ds) := match skip_space s with
                    | 45 :: ds => (true, ds)
                    | 43 :: ds => (false, ds)
                    | ds => (false, ds)
                    end in
  match ds with
  | c :: _ =>
      if is_digit c then
        let '(v, rest) := digits_prefix 0 ds in
        if 2 ^ 64 <=? v then (2 ^ 64 - 1, rest, true)
        else (if neg : bool then wrap_u64 (- v) else v, rest, false)
      else (0, s, false)
  | [] => (0, s, false)
  end.

(** ** Lemmas *)

Lemma dec_value_snoc (l : list Z) (c : Z) : dec_value (l ++ [c]) = dec_value l * 10 + (c - 48).
Proof. unfold dec_value. by rewrite fold_left_app. Qed.

Lemma dec_digits_value (fuel : nat) (n : Z) :
  0 <= n < 10 ^ Z.of_nat fuel -> dec_value (dec_digits fuel n) = n.
Proof.
  revert n. induction fuel as [|fuel IH]; intros n Hn; [change (10 ^ Z.of_nat 0) with 1 in Hn; cbn; lia|].
  cbn [dec_digits]. destruct (Z.ltb_spec n 10); [cbn; lia|].
  rewrite dec_value_snoc, IH; [pose proof (Z.div_mod n 10); lia|].
  rewrite Nat2Z.inj_succ, Z.pow_succ_r in Hn by lia.
  split; [apply Z.div_pos; lia|apply Z.div_lt_upper_bound; lia].
Qed.

Lemma dec_digits_digits (fuel : nat) (n : Z) :
  0 <= n -> Forall (fun c => is_digit c = true) (dec_digits fuel n).
Proof.
  revert n. induction fuel as [|fuel IH]; intros n Hn; cbn [dec_digits]; [constructor|].
  destruct (Z.ltb_spec n 10).
  - constructor; [apply rng_true; lia|constructor].
  - apply Forall_app. split; [apply IH, Z.div_pos; lia|].
    constructor; [|constructor]. apply rng_true.
    pose proof (Z.mod_pos_bound n 10). lia.
Qed.

(** The number of digits. *)
Lemma dec_digits_le (fuel k : nat) (n : Z) :
  (1 <= k)%nat -> 0 <= n < 10 ^ Z.of_nat k -> (length (dec_digits fuel n) <= k)%nat.
Proof.
  revert k n. induction fuel as [|fuel IH]; intros k n Hk Hn; cbn [dec_digits]; [cbn; lia|].
  destruct (Z.ltb_spec n 10); [cbn; lia|].
  destruct k as [|[|k]]; [lia|change (10 ^ Z.of_nat 1) with 10 in Hn; lia|].
  rewrite Nat2Z.inj_succ, Z.pow_succ_r in Hn by lia.
  specialize (IH (S k) (n / 10)). rewrite length_app. cbn [length].
  apply Nat.add_le_mono_r with (p := 1%nat) in IH; [lia|lia|].
  split; [apply Z.div_pos; lia|apply Z.div_lt_upper_bound; lia].
Qed.

Lemma dec_digits_ge (fuel k : nat) (n : Z) :
  (k < fuel)%nat -> 10 ^ Z.of_nat k <= n -> (S k <= length (dec_digits fuel n))%nat.
Proof.
  revert k n. induction fuel as [|fuel IH]; intros k n Hk Hn; cbn [dec_digits]; [lia|].
  destruct k as [|k].
  - destruct (n <? 10); [cbn; lia|]. rewrite length_app. cbn. lia.
  - rewrite Nat2Z.inj_succ, Z.pow_succ_r in Hn by lia.
    assert (0 < 10 ^ Z.of_nat k) by (apply Z.pow_pos_nonneg; lia).
    destruct (Z.ltb_spec n 10); [lia|]. rewrite length_app. cbn [length].
    assert (10 ^ Z.of_nat k <= n / 10) as Hd by (apply Z.div_le_lower_bound; lia).
    specialize (IH k (n / 10) ltac:(lia) Hd). lia.
Qed.

Lemma dec_digits_max (fuel : nat) (n : Z) : (length (dec_digits fuel n) <= fuel)%nat.
Proof.
  revert n. induction fuel as [|fuel IH]; intros n; cbn [dec_digits]; [done|].
  destruct (n <? 10); [cbn; lia|]. rewrite length_app. cbn. specialize (IH (n / 10)). lia.
Qed.

Lemma fmt_u_value (n : Z) : 0 <= n < 2 ^ 64 -> dec_value (fmt_u n) = n.
Proof. intros. apply dec_digits_value. change (10 ^ Z.of_nat 20) with 100000000000000000000. lia. Qed.

Lemma fmt_d_max (n : Z) : zlen (fmt_d n) <= 21.
Proof.
  unfold fmt_d, fmt_u, zlen. pose proof (dec_digits_max 20 (- n)).
  pose proof (dec_digits_max 20 n). destruct (n <? 0); cbn [length]; lia.
Qed.

Lemma fmt_02d_len (n : Z) : 0 <= n <= 99 -> zlen (fmt_02d n) = 2.
Proof.
  intros. unfold fmt_02d, fmt_d, fmt_pad, zlen. destruct (Z.ltb_spec n 0); [lia|].
  assert (length (fmt_u n) <= 2)%nat as Hle by (apply dec_digits_le; cbn; lia).
  rewrite length_app, length_replicate. lia.
Qed.

Lemma fmt_4d_len (n : Z) : 0 <= n <= 9999 -> zlen (fmt_4d n) = 4.
Proof.
  intros. unfold fmt_4d, fmt_d, fmt_pad, zlen. destruct (Z.ltb_spec n 0); [lia|].
  assert (length (fmt_u n) <= 4)%nat as Hle by (apply dec_digits_le; cbn; lia).
  rewrite length_app, length_replicate. lia.
Qed.

Lemma digits_prefix_app (v : Z) (ds rest : list Z) :
  Forall (fun c => is_digit c = true) ds -> match rest with c :: _ => is_digit c = false | [] => True end ->
  digits_prefix v (ds ++ rest) = (fold_left (fun acc c => acc * 10 + (c - 48)) ds v, rest).
Proof.
  intros Hds Hr. revert v. induction Hds as [|c ds Hc _ IH]; intros v.
  - destruct rest as [|c rest]; [done|]. cbn. by rewrite Hr.
  - cbn. rewrite Hc. apply IH.
Qed.

Lemma strtoul_value (ds rest : list Z) :
  ds <> [] -> Forall (fun c => is_digit c = true) ds ->
  match rest with c :: _ => is_digit c = false | [] => True end ->
  strtoul (ds ++ rest) = if 2 ^ 64 <=? dec_value ds then (2 ^ 64 - 1, rest, true) else (dec_value ds, rest, false).
Proof.
  intros Hne Hds Hr. destruct ds as [|c ds]; [done|]. pose proof Hds as [Hc _]%Forall_cons_1.
  unfold strtoul. change ((c :: ds) ++ rest) with (c :: (ds ++ rest)). cbn [skip_space].
  assert (is_space c = false) as ->.
  { unfold is_digit, is_space in *. rewrite rng_true in Hc. apply orb_false_iff. rewrite rng_false, Z.eqb_neq. lia. }
  assert (match c :: ds ++ rest with 45 :: l => (true, l) | 43 :: l => (false, l) | l => (false, l) end = (false, c :: ds ++ rest)) as ->.
  { unfold is_digit in Hc. rewrite rng_true in Hc. destruct c as [|q|q]; try done. repeat (destruct q as [q|q|]; try done; try lia). }
  rewrite Hc. change (c :: ds ++ rest) with ((c :: ds) ++ rest). rewrite digits_prefix_app by done.
  fold (dec_value (c :: ds)). by destruct (2 ^ 64 <=? dec_value (c :: ds)).
Qed.

Lemma strtoul_digits (ds rest : list Z) :
  ds <> [] -> Forall (fun c => is_digit c = true) ds -> dec_value ds < 2 ^ 64 ->
  match rest with c :: _ => is_digit c = false | [] => True end ->
  strtoul (ds ++ rest) = (dec_value ds, rest, false).
Proof. intros Hne Hds Hv Hr. rewrite strtoul_value by done. destruct (Z.leb_spec (2 ^ 64) (dec_value ds)); [lia|done]. Qed.

Lemma strtoul_fmt (n : Z) (rest : list Z) :
  0 <= n < 2 ^ 64 -> match rest with c :: _ => is_digit c = false | [] => True end ->
  strtoul (fmt_d n ++ rest) = (n, rest, false).
Proof.
  intros Hn Hr. unfold fmt_d. destruct (Z.ltb_spec n 0); [lia|]. rewrite strtoul_digits; [by rewrite fmt_u_value| | | |done].
  - unfold fmt_u. cbn [dec_digits]. destruct (n <? 10); [done|]. by intros [_ ?]%app_eq_nil.
  - apply dec_digits_digits. lia.
  - rewrite fmt_u_value; lia.
Qed.
