(* ===== verification/ValidPath.v ===== *)
(** Path validation: valid_path.c and valid_put_path.c.

    [PathTraversal] is the machine that searches for [".."] and the check
    [mog_valid_path] every request path goes through; [ValidPutPath] the
    stricter check on the paths of PUT requests.  Both generated machines are
    modelled as they are and compared with a direct description. *)
From S2P Require Import Prelude Ragel.
From stdpp Require Import base list numbers.
From Stdlib Require Import ZArith Lia.

#[local] Open Scope Z_scope.

Module PathTraversal.

Definition path_traversal_start : Z := 0.

(** The [case] blocks of the machine [path_traversal]. *)
Definition goto (cs c : Z) : option label :=
  match cs with
  | 0 => Some (if c =? 46 then St 1 else St 0)
  | 1 => Some (if c =? 46 then Tr 2 else St 0)
  | 2 => Some (if c =? 46 then Tr 2 else St 3)
  | 3 => Some (if c =? 46 then St 2 else St 3)
  | _ => None
  end.

(** The machine, with the local variable [found].  [tr2] sets it and leaves
    ([fbreak]); a [cs] without a [case] would reach [_test_eof0]. *)
Definition step (buf : list Z) (cs p : Z) (found : bool) : jump bool :=
  match goto cs (char_at buf p) with
  | Some (St n) => GoSt n p found
  | Some (Tr _) => GoOut 2 (p + 1) true
  | None => GoOut 0 p found
  end.

Definition path_traversal_found (buf : list Z) : res bool :=
  let* r := enter step (S (length buf)) buf path_traversal_start 0 false in
  Ok (r_s r).

(** [sizeof("/dev16777215/0/000/000/0123456789.fid")], the final NUL counted. *)
Definition VALID_PATH_SIZEOF : Z := 38.

Definition mog_valid_path (buf : list Z) : res bool :=
  if VALID_PATH_SIZEOF <=? zlen buf then Ok false
  else let* found := path_traversal_found buf in Ok (negb found).

(** *** Reference: two consecutive dots *)

Fixpoint has_dotdot (l : list Z) : bool :=
  match l with
  | a :: (b :: _) as l' => ((a =? 46) && (b =? 46)) || has_dotdot l'
  | _ => false
  end.

Lemma has_dotdot_spec (l : list Z) :
  has_dotdot l = true <-> exists a b, l = a ++ 46 :: 46 :: b.
Proof.
  split.
  - induction l as [|x [|y l] IH]; cbn; [done|done|].
    rewrite orb_true_iff, andb_true_iff, !Z.eqb_eq.
    intros [[-> ->]|H]; [by exists [], l|].
    destruct (IH H) as (a & b & ->). by exists (x :: a), b.
  - intros (a & b & ->). induction a as [|x a IH]; [done|].
    destruct a; cbn in *; rewrite ?IH; by rewrite ?orb_true_r.
Qed.

(** From states 0 and 1 the machine reports what is left to find; in state 1
    a dot has just been read. *)
Lemma found_from (suf : list Z) :
  (forall pre, exists n p,
     reach step (pre ++ suf) 0 (zlen pre) false (Regs n p (has_dotdot suf))) /\
  (forall pre, exists n p,
     reach step (pre ++ suf) 1 (zlen pre) false (Regs n p (has_dotdot (46 :: suf)))).
Proof.
  induction suf as [|c suf [IH0 IH1]]; split; intros pre.
  - exists 0, (zlen pre). rewrite app_nil_r. by apply reach_done.
  - exists 1, (zlen pre). rewrite app_nil_r. by apply reach_done.
  - destruct (Z.eqb_spec c 46) as [->|Hc].
    + destruct (IH1 (pre ++ [46])) as (n & p & Hr). exists n, p.
      eapply reach_char; [|by rewrite split_shift].
      unfold step. by rewrite char_at_mid.
    + destruct (IH0 (pre ++ [c])) as (n & p & Hr). exists n, p.
      replace (has_dotdot (c :: suf)) with (has_dotdot suf)
        by (destruct suf; cbn; apply Z.eqb_neq in Hc; by rewrite ?Hc).
      eapply reach_char; [|by rewrite split_shift].
      unfold step. rewrite char_at_mid. cbn. apply Z.eqb_neq in Hc. by rewrite Hc.
  - destruct (Z.eqb_spec c 46) as [->|Hc].
    + exists 2, (zlen pre + 1). eapply reach_char_out.
      unfold step. by rewrite char_at_mid.
    + destruct (IH0 (pre ++ [c])) as (n & p & Hr). exists n, p.
      replace (has_dotdot (46 :: c :: suf)) with (has_dotdot suf)
        by (destruct suf; cbn; apply Z.eqb_neq in Hc; by rewrite ?Hc).
      eapply reach_char; [|by rewrite split_shift].
      unfold step. rewrite char_at_mid. cbn. apply Z.eqb_neq in Hc. by rewrite Hc.
Qed.

(** The machine leaves after at most one step per byte. *)
Lemma traversal_total (buf : list Z) :
  exists n p b, enter step (S (length buf)) buf 0 0 false = Ok (Regs n p b).
Proof.
  destruct (enter_total step buf
    (fun cs p _ => 0 <= p < zlen buf) (fun _ _ _ => True)
    (fun _ p _ => zlen buf - p)) with (cs := 0) (p := 0) (s := false)
    (fuel := S (length buf)) as (n & p & b & H & _); eauto.
  - intros cs p s Hp. split_and!; [lia..|].
    unfold step. destruct (goto cs _) as [[m|m]|]; [|done..].
    destruct (Z.eqb_spec (p + 1) (zlen buf)); [done|]. lia.
  - unfold zlen. lia.
Qed.

Lemma path_traversal_found_eq (buf : list Z) :
  path_traversal_found buf = Ok (has_dotdot buf).
Proof.
  unfold path_traversal_found, path_traversal_start.
  destruct (traversal_total buf) as (n & p & b & H). rewrite H. cbn.
  destruct (proj1 (found_from buf) []) as (n' & p' & Hr).
  by pose proof (reach_det _ _ _ _ _ _ _ _ Hr H) as [= _ _ ->].
Qed.

Lemma mog_valid_path_eq (buf : list Z) :
  mog_valid_path buf = Ok ((zlen buf <? 38) && negb (has_dotdot buf)).
Proof.
  unfold mog_valid_path, VALID_PATH_SIZEOF.
  rewrite path_traversal_found_eq. cbn.
  destruct (Z.leb_spec 38 (zlen buf)), (Z.ltb_spec (zlen buf) 38); try lia; done.
Qed.

(** Components of a path: the maximal runs without [/]. *)
Fixpoint components_aux (cur l : list Z) : list (list Z) :=
  match l with
  | [] => [cur]
  | c :: l' => if c =? 47 then cur :: components_aux [] l'
               else components_aux (cur ++ [c]) l'
  end.
Definition components (l : list Z) : list (list Z) := components_aux [] l.

Lemma components_aux_infix (l cur x : list Z) :
  In x (components_aux cur l) -> exists a b, cur ++ l = a ++ x ++ b.
Proof.
  revert cur. induction l as [|c l IH]; intros cur; cbn.
  - intros [->|[]]. exists [], []. by rewrite app_nil_r.
  - destruct (c =? 47).
    + intros [->|H]; [by exists [], (c :: l)|].
      destruct (IH [] H) as (a & b & Heq). cbn in Heq. subst l.
      exists (cur ++ c :: a), b. by rewrite <- app_assoc.
    + intros H. destruct (IH _ H) as (a & b & Heq). exists a, b.
      rewrite <- Heq. by rewrite <- app_assoc.
Qed.

End PathTraversal.

Module ValidPutPath.

Definition valid_put_path_start : Z := 1.
Definition valid_put_path_error : Z := 0.

(** The [case] blocks of the machine [valid_put_path]. *)
Definition goto (cs c : Z) : option label :=
  match cs with
  | 1 => Some (if c =? 47 then St 2 else St 0)
  | 2 => Some (if c =? 100 then St 3 else St 0)
  | 3 => Some (if c =? 101 then St 4 else St 0)
  | 4 => Some (if c =? 118 then St 5 else St 0)
  | 5 => Some (if rng 48 57 c then St 6 else St 0)
  | 6 => Some (if c =? 47 then St 7 else if rng 48 57 c then St 6 else St 0)
  | 7 => Some (if c =? 47 then St 7 else St 8)
  | 8 => Some (St 9)
  | 9 => Some (St 9)
  | _ => None
  end.

(** No actions; [st0] is the error state and leaves the machine. *)
Definition step (buf : list Z) (cs p : Z) (s : unit) : jump unit :=
  match goto cs (char_at buf p) with
  | Some (St n) => if n =? 0 then GoOut 0 p s else GoSt n p s
  | Some (Tr _) => Stop AssertFailed
  | None => GoOut 2 p s
  end.

Definition mog_valid_put_path (buf : list Z) : res bool :=
  if zlen buf <=? 0 then Ok false
  else if char_at buf (zlen buf - 1) =? 47 then Ok false
  else
    let* r := enter step (S (length buf)) buf valid_put_path_start 0 tt in
    Ok (negb (r_cs r =? valid_put_path_error)).

(** The language of the machine in valid_put_path.rl:
    ["/dev" digit+ ('/'+) [^/] any+]. *)
Definition put_language (l : list Z) : Prop :=
  exists ds sl c rest,
    l = [47; 100; 101; 118] ++ ds ++ sl ++ c :: rest /\
    ds <> [] /\ Forall (fun d => 48 <= d <= 57) ds /\
    sl <> [] /\ Forall (eq 47) sl /\ c <> 47 /\ rest <> [].

(** What the code accepts.  It rejects only when the machine has reached its
    error state, so every string that can still be extended passes as well:
    a non-empty prefix of ["/dev"], ["/dev"] and digits, or anything after
    the first slash that follows the digits. *)
Definition ends_in_slash (l : list Z) : Prop := exists k, l = k ++ [47].
Definition digits (l : list Z) : Prop := Forall (fun d => 48 <= d <= 57) l.
Definition dev : list Z := [47; 100; 101; 118].

Definition put_accepted (l : list Z) : Prop :=
  (exists k, (1 <= k <= 4)%nat /\ l = take k dev) \/
  (exists ds, ds <> [] /\ digits ds /\ l = dev ++ ds) \/
  (exists ds rest, ds <> [] /\ digits ds /\ l = dev ++ ds ++ 47 :: rest).

(** The machine as a recogniser: no transition into the error state. *)
Fixpoint put_prefixb (cs : Z) (l : list Z) : bool :=
  match l with
  | [] => true
  | c :: l' =>
      match goto cs c with
      | Some (St n) => negb (n =? 0) && put_prefixb n l'
      | _ => false
      end
  end.

Lemma goto_states (cs c : Z) :
  1 <= cs <= 9 -> exists n, goto cs c = Some (St n) /\ 0 <= n <= 9.
Proof.
  intros H.
  assert (cs = 1 \/ cs = 2 \/ cs = 3 \/ cs = 4 \/ cs = 5 \/ cs = 6 \/
          cs = 7 \/ cs = 8 \/ cs = 9) as Hc by lia.
  destruct Hc as [->|[->|[->|[->|[->|[->|[->|[->| ->]]]]]]]]; cbn; split_ifs;
    eexists; (split; [done|lia]).
Qed.

Lemma step_run (suf pre : list Z) (cs : Z) :
  1 <= cs <= 9 ->
  exists n p, reach step (pre ++ suf) cs (zlen pre) tt (Regs n p tt) /\
              negb (n =? 0) = put_prefixb cs suf.
Proof.
  revert pre cs. induction suf as [|c suf IH]; intros pre cs Hcs.
  - exists cs, (zlen pre). rewrite app_nil_r. split; [by apply reach_done|].
    cbn. destruct (Z.eqb_spec cs 0); [lia|done].
  - destruct (goto_states cs c Hcs) as (n & Hg & Hn). cbn [put_prefixb]. rewrite Hg.
    destruct (Z.eqb_spec n 0) as [->|Hn0].
    + exists 0, (zlen pre). split; [|done]. apply reach_char_out.
      unfold step. by rewrite char_at_mid, Hg.
    + destruct (IH (pre ++ [c]) n ltac:(lia)) as (m & p & Hr & Hm).
      exists m, p. split; [|done].
      eapply reach_char; [|by rewrite split_shift].
      unfold step. rewrite char_at_mid, Hg.
      apply Z.eqb_neq in Hn0. by rewrite Hn0.
Qed.

Lemma put_path_total (buf : list Z) :
  exists n p, enter step (S (length buf)) buf 1 0 tt = Ok (Regs n p tt).
Proof.
  destruct (enter_total step buf
    (fun cs p _ => 0 <= p < zlen buf /\ 1 <= cs <= 9) (fun _ _ _ => True)
    (fun _ p _ => zlen buf - p)) with (cs := 1) (p := 0) (s := tt)
    (fuel := S (length buf)) as (n & p & [] & H & _); eauto.
  - intros cs p s [Hp Hcs]. split_and!; [lia..|].
    unfold step. destruct (goto_states cs (char_at buf p) Hcs) as (n & -> & Hn).
    destruct (Z.eqb_spec n 0); [done|].
    destruct (Z.eqb_spec (p + 1) (zlen buf)); [done|]. lia.
  - unfold zlen. lia.
Qed.

Lemma mog_valid_put_path_eq (buf : list Z) :
  mog_valid_put_path buf =
  Ok ((0 <? zlen buf) && negb (char_at buf (zlen buf - 1) =? 47)
      && put_prefixb 1 buf).
Proof.
  unfold mog_valid_put_path.
  destruct (Z.leb_spec (zlen buf) 0), (Z.ltb_spec 0 (zlen buf)); try lia; [done|].
  destruct (_ =? 47); [done|].
  destruct (put_path_total buf) as (n & p & H1). unfold valid_put_path_start.
  rewrite H1. cbn.
  destruct (step_run buf [] 1 ltac:(lia)) as (n' & p' & Hr & Hn).
  pose proof (reach_det _ _ _ _ _ _ _ _ Hr H1) as [= -> _]. by rewrite <- Hn.
Qed.

(** After the slash that ends the digits everything is accepted. *)
Lemma prefixb_tail (l : list Z) :
  put_prefixb 7 l = true /\ put_prefixb 8 l = true /\ put_prefixb 9 l = true.
Proof.
  induction l as [|c l (H7 & H8 & H9)]; [done|].
  cbn. split_and!; try done. by destruct (c =? 47).
Qed.

Lemma prefixb_digits (l : list Z) :
  put_prefixb 6 l = true <->
  digits l \/ exists ds rest, digits ds /\ l = ds ++ 47 :: rest.
Proof.
  split.
  - induction l as [|c l IH]; [by left; constructor|]. cbn.
    destruct (Z.eqb_spec c 47) as [->|Hc]; [by right; exists [], l; repeat constructor|].
    destruct (rng 48 57 c) eqn:E; [|done]. apply rng_true in E.
    intros H. destruct (IH H) as [Hd|(ds & rest & Hd & ->)].
    + left. by constructor.
    + right. exists (c :: ds), rest. split; [by constructor|done].
  - intros [Hd|(ds & rest & Hd & ->)].
    + induction Hd as [|c l Hc _ IH]; [done|]. cbn.
      destruct (Z.eqb_spec c 47); [lia|].
      apply rng_true in Hc. by rewrite Hc.
    + induction Hd as [|c l Hc _ IH]; cbn; [apply prefixb_tail|].
      destruct (Z.eqb_spec c 47); [lia|].
      apply rng_true in Hc. by rewrite Hc.
Qed.

(** The four literal states, one per character of ["/dev"]. *)
Lemma prefixb_literal (a : Z) (l : list Z) :
  put_prefixb 1 (a :: l) = (a =? 47) && put_prefixb 2 l /\
  put_prefixb 2 (a :: l) = (a =? 100) && put_prefixb 3 l /\
  put_prefixb 3 (a :: l) = (a =? 101) && put_prefixb 4 l /\
  put_prefixb 4 (a :: l) = (a =? 118) && put_prefixb 5 l /\
  put_prefixb 5 (a :: l) = rng 48 57 a && put_prefixb 6 l.
Proof.
  split_and!; cbn;
    match goal with |- context [if ?b then _ else _] => by destruct b end.
Qed.

Lemma prefixb_dev (l : list Z) :
  l <> [] -> (put_prefixb 1 l = true <-> put_accepted l).
Proof.
  intros Hne. split.
  - destruct l as [|a [|b [|c [|d l]]]]; [done|..];
      rewrite ?(proj1 (prefixb_literal _ _)),
        ?(proj1 (proj2 (prefixb_literal _ _))),
        ?(proj1 (proj2 (proj2 (prefixb_literal _ _)))),
        ?(proj1 (proj2 (proj2 (proj2 (prefixb_literal _ _)))));
      intros H; bool_to_prop; subst.
    + left. exists 1%nat. split; [lia|done].
    + left. exists 2%nat. split; [lia|done].
    + left. exists 3%nat. split; [lia|done].
    + destruct l as [|x l]; [left; exists 4%nat; split; [lia|done]|].
      rewrite (proj2 (proj2 (proj2 (proj2 (prefixb_literal _ _))))) in *.
      bool_to_prop. rename select (rng _ _ _ = true) into E.
      apply rng_true in E. rename select (put_prefixb 6 _ = true) into H.
      apply prefixb_digits in H as [Hd|(ds & rest & Hd & ->)]; right.
      * left. exists (x :: l). split_and!; [done|by constructor|done].
      * right. exists (x :: ds), rest. split_and!; [done|by constructor|done].
  - intros [(k & Hk & ->)|[(ds & Hds & Hd & ->)|(ds & rest & Hds & Hd & ->)]].
    + destruct k as [|[|[|[|[|k]]]]]; try lia; done.
    + destruct ds as [|x ds]; [done|]. cbn. inversion Hd; subst.
      replace (rng 48 57 x) with true by (symmetry; by apply rng_true).
      cbn. apply prefixb_digits. by left.
    + destruct ds as [|x ds]; [done|]. cbn. inversion Hd; subst.
      replace (rng 48 57 x) with true by (symmetry; by apply rng_true).
      cbn. apply prefixb_digits. right. by exists ds, rest.
Qed.

End ValidPutPath.

(** ** Properties *)

Lemma valid_put_path_exact_aux (buf : list Z) :
  ~ ValidPutPath.ends_in_slash buf -> buf <> [] ->
  (ValidPutPath.mog_valid_put_path buf = Ok true <-> ValidPutPath.put_accepted buf).
Proof.
  intros Hlast Hne. rewrite ValidPutPath.mog_valid_put_path_eq.
  destruct buf as [|x l _] using rev_ind; [done|].
  rewrite <- ValidPutPath.prefixb_dev by done.
  replace (zlen (l ++ [x]) - 1) with (zlen l) by (autorewrite with zlen; lia).
  rewrite char_at_mid.
  pose proof (zlen_nonneg l). autorewrite with zlen.
  destruct (Z.ltb_spec 0 (zlen l + (0 + 1))); [|lia].
  destruct (Z.eqb_spec x 47) as [->|]; [destruct Hlast; by exists l|].
  cbn. split; congruence.
Qed.

(** [mog_valid_path] returns for every path and accepts exactly the paths
    shorter than 38 bytes that do not contain two consecutive dots. *)
Theorem valid_path_exact (buf : list Z) :
  exists b, PathTraversal.mog_valid_path buf = Ok b /\
  (b = true <->
   zlen buf < 38 /\ ~ exists a c, buf = a ++ 46 :: 46 :: c).
Proof.
  eexists. split; [apply PathTraversal.mog_valid_path_eq|].
  rewrite andb_true_iff, negb_true_iff, Z.ltb_lt, <- not_true_iff_false.
  by rewrite PathTraversal.has_dotdot_spec.
Qed.

(** No component of an accepted path is [".."], so the path passed to the
    file system calls never leaves the docroot upwards. *)
Theorem valid_path_no_dotdot_component (buf : list Z) :
  PathTraversal.mog_valid_path buf = Ok true ->
  ~ In [46; 46] (PathTraversal.components buf).
Proof.
  rewrite PathTraversal.mog_valid_path_eq. intros [= H] Hin.
  apply andb_true_iff in H as [_ H]. apply negb_true_iff in H.
  apply PathTraversal.components_aux_infix in Hin as (a & b & Heq).
  cbn in Heq. subst buf.
  assert (PathTraversal.has_dotdot (a ++ 46 :: 46 :: b) = true) as Ht
    by (apply PathTraversal.has_dotdot_spec; eauto).
  congruence.
Qed.

Lemma valid_path_no_dotdot_component_witness :
  ~ In [46; 46] (PathTraversal.components [47; 97; 47; 46; 98]).
Proof.
  apply (valid_path_no_dotdot_component [47; 97; 47; 46; 98]).
  vm_compute. reflexivity.
Defined.

(** [mog_valid_put_path] returns for every path; it accepts exactly the
    non-empty paths that do not end in a slash and are a prefix of ["/dev"],
    ["/dev"] and digits, or ["/dev"], digits, a slash and anything. *)
Theorem valid_put_path_exact (buf : list Z) :
  exists b, ValidPutPath.mog_valid_put_path buf = Ok b /\
  (b = true <->
   buf <> [] /\ ~ ValidPutPath.ends_in_slash buf /\ ValidPutPath.put_accepted buf).
Proof.
  eexists. split; [apply ValidPutPath.mog_valid_put_path_eq|].
  destruct (decide (buf = [])) as [->|Hne]; [cbn; split; [done|by intros [[] _]]|].
  destruct (decide (char_at buf (zlen buf - 1) = 47)) as [Hl|Hl].
  - rewrite Hl. cbn. rewrite andb_false_r. split; [done|]. intros (_ & Hs & _).
    destruct Hs. destruct buf as [|x l _] using rev_ind; [done|]. exists l.
    rewrite <- Hl. f_equal. f_equal. symmetry.
    replace (zlen (l ++ [x]) - 1) with (zlen l) by (autorewrite with zlen; lia).
    apply char_at_mid.
  - assert (~ ValidPutPath.ends_in_slash buf) as Hs.
    { intros [k ->]. apply Hl.
      replace (zlen (k ++ [47]) - 1) with (zlen k) by (autorewrite with zlen; lia).
      apply char_at_mid. }
    pose proof (valid_put_path_exact_aux buf Hs Hne) as H.
    rewrite ValidPutPath.mog_valid_put_path_eq in H. split.
    + intros Hb. split_and!; [done|done|]. apply H. by rewrite Hb.
    + intros (_ & _ & Ha). apply H in Ha. congruence.
Qed.

(** Every path of the language written in valid_put_path.rl that does not
    end in a slash is accepted, but the converse fails: ["/d"] is accepted and
    is not in the language, because the code tests [cs != error] and not
    whether the machine has reached a final state. *)
Theorem valid_put_path_language (buf : list Z) :
  (ValidPutPath.put_language buf -> ~ ValidPutPath.ends_in_slash buf ->
   ValidPutPath.mog_valid_put_path buf = Ok true) /\
  ValidPutPath.mog_valid_put_path [47; 100] = Ok true /\
  ~ ValidPutPath.put_language [47; 100].
Proof.
  split_and!.
  - intros (ds & sl & c & rest & -> & Hds & Hd & Hsl & Heq & _ & _) Hlast.
    apply valid_put_path_exact_aux; [done|done|].
    right; right. destruct sl as [|x sl]; [done|].
    inversion Heq; subst. by exists ds, (sl ++ c :: rest).
  - done.
  - intros (ds & sl & c & rest & Heq & Hds & _). by destruct ds.
Qed.
