(* ===== verification/Base64.v ===== *)
(** Base64 decoding of the Content-MD5 header and trailer: lib/base64.c.

    The program calls [base64_decode_ctx] with a NULL context on 24 characters
    (22 of the alphabet and ["=="]) and asserts that 16 bytes come out.  The
    encoder of the same file is modelled too, as the other half of the round
    trip. *)
From S2P Require Import Prelude.
From stdpp Require Import base list numbers.
From Stdlib Require Import ZArith Lia.

#[local] Open Scope Z_scope.

(** [to_uchar]: the value of a [char] converted to [unsigned char]. *)
Definition to_uchar (ch : Z) : Z := ch mod 256.

(** The table [b64], which the macro [B64] fills: the value of a character of
    the alphabet, [-1] for the others. *)
Definition b64 (c : Z) : Z :=
  if rng 65 90 c then c - 65
  else if rng 97 122 c then c - 97 + 26
  else if rng 48 57 c then c - 48 + 52
  else if c =? 43 then 62
  else if c =? 47 then 63
  else -1.

Definition isbase64 (ch : Z) : bool := 0 <=? b64 (to_uchar ch).

(** [*out++ = x] when there is room: one more byte and one less left. *)
Definition put (x : Z) (out : list Z) (outleft : Z) : list Z * Z :=
  if outleft =? 0 then (out, outleft) else (out ++ [x mod 256], outleft - 1).

(** [decode_4]: decode up to four characters; returns success, the bytes
    written so far and the room left. *)
Definition decode_4 (inp : list Z) (out : list Z) (outleft : Z)
  : bool * list Z * Z :=
  let inlen := zlen inp in
  let b i := b64 (to_uchar (char_at inp i)) in
  if inlen <? 2 then (false, out, outleft)
  else if negb (isbase64 (char_at inp 0)) || negb (isbase64 (char_at inp 1))
  then (false, out, outleft)
  else
    let '(out, outleft) :=
      put (Z.lor (Z.shiftl (b 0) 2) (Z.shiftr (b 1) 4)) out outleft in
    if inlen =? 2 then (false, out, outleft)
    else if char_at inp 2 =? 61 then
      if negb (inlen =? 4) then (false, out, outleft)
      else if negb (char_at inp 3 =? 61) then (false, out, outleft)
      else (true, out, outleft)
    else if negb (isbase64 (char_at inp 2)) then (false, out, outleft)
    else
      let '(out, outleft) :=
        put (Z.lor (Z.land (Z.shiftl (b 1) 4) 0xf0) (Z.shiftr (b 2) 2)) out outleft in
      if inlen =? 3 then (false, out, outleft)
      else if char_at inp 3 =? 61 then
        if negb (inlen =? 4) then (false, out, outleft)
        else (true, out, outleft)
      else if negb (isbase64 (char_at inp 3)) then (false, out, outleft)
      else
        let '(out, outleft) :=
          put (Z.lor (Z.land (Z.shiftl (b 2) 6) 0xc0) (b 3)) out outleft in
        (true, out, outleft).

(** The inner loop of [base64_decode_ctx]: groups of four as long as they
    decode.  Returns the rest of the input, the output before and after the
    group that failed (the code restores the former). *)
Fixpoint decode_loop (fuel : nat) (inp out : list Z) (outleft : Z)
  : res (list Z * (list Z * Z)) :=
  match fuel with
  | O => Crash OutOfFuel
  | S fuel' =>
      match decode_4 inp out outleft with
      | (true, out', outleft') => decode_loop fuel' (drop 4 inp) out' outleft'
      | (false, _, _) => Ok (inp, (out, outleft))
      end
  end.

(** [base64_decode_ctx] with [ctx == NULL]: after the inner loop the remaining
    input, if any, is offered to [decode_4] once more and decoding stops.
    Returns success and the bytes written. *)
Definition base64_decode_ctx (inp : list Z) (outlen : Z) : res (bool * list Z) :=
  let* '(rest, (out, outleft)) := decode_loop (S (length inp)) inp [] outlen in
  if zlen rest =? 0 then Ok (true, out)
  else
    match decode_4 rest out outleft with
    | (true, out', _) => Ok (true, out')   (* not reached: it failed above *)
    | (false, out', _) => Ok (false, out')
    end.

(** [b64str] of [base64_encode]. *)
Definition b64str (i : Z) : Z :=
  if i <? 26 then i + 65
  else if i <? 52 then i - 26 + 97
  else if i <? 62 then i - 52 + 48
  else if i =? 62 then 43 else 47.

(** One iteration of the loop of [base64_encode], on the one to three bytes
    at [in]. *)
Definition encode_3 (inp : list Z) : list Z :=
  let u i := to_uchar (char_at inp i) in
  let inlen := zlen inp in
  [ b64str (Z.land (Z.shiftr (u 0) 2) 0x3f);
    b64str (Z.land (Z.shiftl (u 0) 4
                    + (if 1 <? inlen then Z.shiftr (u 1) 4 else 0)) 0x3f);
    (if 1 <? inlen
     then b64str (Z.land (Z.shiftl (u 1) 2
                          + (if 2 <? inlen then Z.shiftr (u 2) 6 else 0)) 0x3f)
     else 61);
    (if 2 <? inlen then b64str (Z.land (u 2) 0x3f) else 61) ].

(** [base64_encode] with enough room in [out]. *)
Fixpoint base64_encode (inp : list Z) : list Z :=
  match inp with
  | a :: b :: c :: rest => encode_3 [a; b; c] ++ base64_encode rest
  | [] => []
  | rest => encode_3 rest
  end.

(** ** Lemmas *)

Definition is_byte (z : Z) : Prop := 0 <= z < 256.

(** Exhaustive checks over bytes. *)
Lemma forallb_bytes (f : Z -> bool) :
  forallb f (zrange 0 256) = true -> forall b, is_byte b -> f b = true.
Proof.
  rewrite forallb_forall. intros H b Hb. apply H, zrange_spec.
  unfold is_byte in Hb. lia.
Qed.

Lemma forallb_bytes2 (f : Z -> Z -> bool) :
  forallb (fun a => forallb (f a) (zrange 0 256)) (zrange 0 256) = true ->
  forall a b, is_byte a -> is_byte b -> f a b = true.
Proof. intros H a b Ha Hb. eapply forallb_bytes; [|done]. by apply (forallb_bytes _ H). Qed.

Lemma b64str_inv (i : Z) :
  0 <= i < 64 ->
  b64 (to_uchar (b64str i)) = i /\ isbase64 (b64str i) = true /\ b64str i <> 61.
Proof.
  intros Hi.
  assert (forallb (fun i => (b64 (to_uchar (b64str i)) =? i) && isbase64 (b64str i)
            && negb (b64str i =? 61)) (zrange 0 64) = true) as H by reflexivity.
  rewrite forallb_forall in H. specialize (H i (zrange_spec 0 64 i ltac:(lia))).
  cbn beta in H. bool_to_prop. by split_and!.
Qed.

Lemma land63 (x : Z) : 0 <= Z.land x 0x3f < 64.
Proof.
  change 0x3f with (Z.ones 6). rewrite Z.land_ones by lia.
  apply Z.mod_pos_bound. lia.
Qed.

(** The three bytes of a group are recovered from its four sextets. *)
Definition sext0 (a : Z) : Z := Z.land (Z.shiftr a 2) 0x3f.
Definition sext1 (a b : Z) : Z := Z.land (Z.shiftl a 4 + Z.shiftr b 4) 0x3f.
Definition sext2 (b c : Z) : Z := Z.land (Z.shiftl b 2 + Z.shiftr c 6) 0x3f.
Definition sext3 (c : Z) : Z := Z.land c 0x3f.

Lemma sext_byte0 (a b : Z) :
  is_byte a -> is_byte b ->
  Z.lor (Z.shiftl (sext0 a) 2) (Z.shiftr (sext1 a b) 4) mod 256 = a.
Proof.
  intros. apply Z.eqb_eq.
  apply (forallb_bytes2 (fun a b =>
    Z.lor (Z.shiftl (sext0 a) 2) (Z.shiftr (sext1 a b) 4) mod 256 =? a));
    [vm_compute; reflexivity|done..].
Qed.

(** The high half of the second byte comes from the second sextet, the low
    half from the third. *)
Lemma sext_high (a b : Z) :
  is_byte a -> is_byte b ->
  Z.land (Z.shiftl (sext1 a b) 4) 0xf0 = Z.land b 0xf0.
Proof.
  intros. apply Z.eqb_eq.
  apply (forallb_bytes2 (fun a b =>
    Z.land (Z.shiftl (sext1 a b) 4) 0xf0 =? Z.land b 0xf0));
    [vm_compute; reflexivity|done..].
Qed.

Lemma sext_byte1 (a b c : Z) :
  is_byte a -> is_byte b -> is_byte c ->
  Z.lor (Z.land (Z.shiftl (sext1 a b) 4) 0xf0) (Z.shiftr (sext2 b c) 2) mod 256 = b.
Proof.
  intros. rewrite sext_high by done. apply Z.eqb_eq.
  apply (forallb_bytes2 (fun b c =>
    Z.lor (Z.land b 0xf0) (Z.shiftr (sext2 b c) 2) mod 256 =? b));
    [vm_compute; reflexivity|done..].
Qed.

Lemma sext_byte2 (b c : Z) :
  is_byte b -> is_byte c ->
  Z.lor (Z.land (Z.shiftl (sext2 b c) 6) 0xc0) (sext3 c) mod 256 = c.
Proof.
  intros. apply Z.eqb_eq.
  apply (forallb_bytes2 (fun b c =>
    Z.lor (Z.land (Z.shiftl (sext2 b c) 6) 0xc0) (sext3 c) mod 256 =? c));
    [vm_compute; reflexivity|done..].
Qed.

Lemma to_uchar_byte (b : Z) : is_byte b -> to_uchar b = b.
Proof. unfold is_byte, to_uchar. intros. apply Z.mod_small. lia. Qed.

Lemma put_room (x : Z) (out : list Z) (n : Z) :
  0 < n -> put x out n = (out ++ [x mod 256], n - 1).
Proof. intros. unfold put. destruct (Z.eqb_spec n 0); [lia|done]. Qed.

(** [decode_4] on four characters of the alphabet. *)
Lemma decode_4_full (x y z w : Z) (rest out : list Z) (n : Z) :
  isbase64 x = true -> isbase64 y = true -> isbase64 z = true ->
  isbase64 w = true -> z <> 61 -> w <> 61 -> 3 <= n ->
  let b c := b64 (to_uchar c) in
  decode_4 (x :: y :: z :: w :: rest) out n =
  (true,
   out ++ [Z.lor (Z.shiftl (b x) 2) (Z.shiftr (b y) 4) mod 256;
           Z.lor (Z.land (Z.shiftl (b y) 4) 0xf0) (Z.shiftr (b z) 2) mod 256;
           Z.lor (Z.land (Z.shiftl (b z) 6) 0xc0) (b w) mod 256], n - 3).
Proof.
  intros Hx Hy Hz Hw Hz61 Hw61 Hn b. unfold decode_4.
  assert (zlen (x :: y :: z :: w :: rest) >= 4) as Hl
    by (autorewrite with zlen; pose proof (zlen_nonneg rest); lia).
  change (char_at _ 0) with x. change (char_at _ 1) with y.
  change (char_at _ 2) with z. change (char_at _ 3) with w.
  rewrite Hx, Hy, Hz, Hw. apply Z.eqb_neq in Hz61, Hw61. rewrite Hz61, Hw61.
  destruct (Z.ltb_spec (zlen (x :: y :: z :: w :: rest)) 2); [lia|].
  destruct (Z.eqb_spec (zlen (x :: y :: z :: w :: rest)) 2); [lia|].
  destruct (Z.eqb_spec (zlen (x :: y :: z :: w :: rest)) 3); [lia|].
  cbn. rewrite !put_room by lia. rewrite <- !app_assoc. cbn [app].
  f_equal. lia.
Qed.

(** [decode_4] on a last group ["xyz="]. *)
Lemma decode_4_pad1 (x y z : Z) (out : list Z) (n : Z) :
  isbase64 x = true -> isbase64 y = true -> isbase64 z = true -> z <> 61 -> 2 <= n ->
  let b c := b64 (to_uchar c) in
  decode_4 [x; y; z; 61] out n =
  (true,
   out ++ [Z.lor (Z.shiftl (b x) 2) (Z.shiftr (b y) 4) mod 256;
           Z.lor (Z.land (Z.shiftl (b y) 4) 0xf0) (Z.shiftr (b z) 2) mod 256], n - 2).
Proof.
  intros Hx Hy Hz Hz61 Hn b. unfold decode_4.
  change (char_at _ 0) with x. change (char_at _ 1) with y.
  change (char_at _ 2) with z. change (char_at _ 3) with 61.
  rewrite Hx, Hy, Hz. apply Z.eqb_neq in Hz61. rewrite Hz61.
  cbn. rewrite !put_room by lia. rewrite <- !app_assoc. cbn [app].
  f_equal. lia.
Qed.

(** [decode_4] on a last group ["xy=="]. *)
Lemma decode_4_pad2 (x y : Z) (out : list Z) (n : Z) :
  isbase64 x = true -> isbase64 y = true -> 1 <= n ->
  let b c := b64 (to_uchar c) in
  decode_4 [x; y; 61; 61] out n =
  (true, out ++ [Z.lor (Z.shiftl (b x) 2) (Z.shiftr (b y) 4) mod 256], n - 1).
Proof.
  intros Hx Hy Hn b. unfold decode_4.
  change (char_at _ 0) with x. change (char_at _ 1) with y.
  rewrite Hx, Hy. cbn. by rewrite put_room by lia.
Qed.

Lemma decode_4_nil (out : list Z) (n : Z) : decode_4 [] out n = (false, out, n).
Proof. done. Qed.

Lemma decode_loop_step (f : nat) (inp out out' : list Z) (n n' : Z) :
  decode_4 inp out n = (true, out', n') ->
  decode_loop (S f) inp out n = decode_loop f (drop 4 inp) out' n'.
Proof. intros H. cbn [decode_loop]. by rewrite H. Qed.

(** One encoded group is decoded back. *)
Lemma decode_encode_3 (a b c : Z) (rest out : list Z) (n : Z) :
  is_byte a -> is_byte b -> is_byte c -> 3 <= n ->
  decode_4 (encode_3 [a; b; c] ++ rest) out n = (true, out ++ [a; b; c], n - 3).
Proof.
  intros Ha Hb Hc Hn. unfold encode_3.
  change (char_at _ 0) with a. change (char_at _ 1) with b.
  change (char_at _ 2) with c. change (1 <? _) with true. change (2 <? _) with true.
  rewrite !to_uchar_byte by done. cbn [app].
  fold (sext0 a) (sext1 a b) (sext2 b c) (sext3 c).
  destruct (b64str_inv (sext0 a) (land63 _)) as (E0 & I0 & _).
  destruct (b64str_inv (sext1 a b) (land63 _)) as (E1 & I1 & _).
  destruct (b64str_inv (sext2 b c) (land63 _)) as (E2 & I2 & N2).
  destruct (b64str_inv (sext3 c) (land63 _)) as (E3 & I3 & N3).
  rewrite decode_4_full by done. cbn zeta. rewrite E0, E1, E2, E3.
  by rewrite sext_byte0, sext_byte1, sext_byte2 by done.
Qed.

Lemma byte0 : is_byte 0.
Proof. unfold is_byte. lia. Qed.
#[export] Hint Resolve byte0 : mog.

Lemma decode_encode_2 (a b : Z) (out : list Z) (n : Z) :
  is_byte a -> is_byte b -> 2 <= n ->
  decode_4 (encode_3 [a; b]) out n = (true, out ++ [a; b], n - 2).
Proof.
  intros Ha Hb Hn. unfold encode_3.
  change (char_at _ 0) with a. change (char_at _ 1) with b.
  change (1 <? _) with true. change (2 <? _) with false.
  rewrite !to_uchar_byte by done.
  change 0 with (Z.shiftr 0 6) at 1. fold (sext0 a) (sext1 a b) (sext2 b 0).
  destruct (b64str_inv (sext0 a) (land63 _)) as (E0 & I0 & _).
  destruct (b64str_inv (sext1 a b) (land63 _)) as (E1 & I1 & _).
  destruct (b64str_inv (sext2 b 0) (land63 _)) as (E2 & I2 & N2).
  rewrite decode_4_pad1 by done. cbn zeta. rewrite E0, E1, E2.
  by rewrite sext_byte0, sext_byte1 by auto with mog.
Qed.

Lemma decode_encode_1 (a : Z) (out : list Z) (n : Z) :
  is_byte a -> 1 <= n ->
  decode_4 (encode_3 [a]) out n = (true, out ++ [a], n - 1).
Proof.
  intros Ha Hn. unfold encode_3. change (char_at _ 0) with a.
  change (1 <? _) with false. change (2 <? _) with false. rewrite to_uchar_byte by done.
  change 0 with (Z.shiftr 0 4) at 1. fold (sext0 a) (sext1 a 0).
  destruct (b64str_inv (sext0 a) (land63 _)) as (E0 & I0 & _).
  destruct (b64str_inv (sext1 a 0) (land63 _)) as (E1 & I1 & _).
  rewrite decode_4_pad2 by done. cbn zeta. rewrite E0, E1.
  by rewrite sext_byte0 by auto with mog.
Qed.

Lemma decode_loop_encode (k : nat) (l out : list Z) (n : Z) (f : nat) :
  (length l <= k)%nat -> Forall is_byte l -> zlen l <= n ->
  (length (base64_encode l) < f)%nat ->
  decode_loop f (base64_encode l) out n = Ok ([], (out ++ l, n - zlen l)).
Proof.
  revert l out n f. induction k as [|k IH]; intros l out n f Hk Hl Hn Hf;
    destruct l as [|a [|b [|c l]]]; cbn [length] in Hk; try lia;
    (destruct f as [|f]; [lia|]).
  1, 2: cbn; by rewrite app_nil_r, Z.sub_0_r.
  - change (base64_encode [a]) with (encode_3 [a]). inversion Hl; subst.
    erewrite decode_loop_step by (apply decode_encode_1; (done || (cbn in Hn; lia))).
    destruct f as [|f]; [cbn in Hf; lia|]. done.
  - change (base64_encode [a; b]) with (encode_3 [a; b]).
    inversion Hl as [|? ? Ha Hl']; subst. inversion Hl'; subst.
    erewrite decode_loop_step by (apply decode_encode_2; (done || (cbn in Hn; lia))).
    destruct f as [|f]; [cbn in Hf; lia|]. done.
  - change (base64_encode (a :: b :: c :: l))
      with (encode_3 [a; b; c] ++ base64_encode l) in *.
    rewrite length_app in Hf. autorewrite with zlen in *.
    pose proof (zlen_nonneg l).
    inversion Hl as [|? ? Ha Hl']; subst. inversion Hl' as [|? ? Hb Hl'']; subst.
    inversion Hl''; subst.
    erewrite decode_loop_step by (apply decode_encode_3; (done || lia)).
    rewrite drop_app_ge by (cbn; lia). change (4 - length (encode_3 [a; b; c]))%nat with 0%nat.
    rewrite drop_0, IH by (done || lia || (cbn in Hf; lia)).
    rewrite <- app_assoc. cbn [app]. do 3 f_equal. lia.
Qed.

(** A list of characters of the alphabet, in groups of four. *)
Lemma decode_loop_quads (k : nat) (cs tail out : list Z) (n : Z) (f : nat) :
  length cs = (4 * k)%nat -> Forall (fun c => isbase64 c = true /\ c <> 61) cs ->
  3 * Z.of_nat k <= n ->
  exists bytes, decode_loop (k + f) (cs ++ tail) out n
    = decode_loop f tail (out ++ bytes) (n - 3 * Z.of_nat k) /\
    length bytes = (3 * k)%nat /\ Forall is_byte bytes.
Proof.
  revert cs out n. induction k as [|k IH]; intros cs out n Hlen Hcs Hn.
  - destruct cs; [|done]. exists []. cbn [app Nat.add]. rewrite app_nil_r.
    split_and!; [f_equal; lia|done|constructor].
  - destruct cs as [|x [|y [|z [|w cs]]]]; cbn [length] in Hlen; try lia.
    repeat match goal with H : Forall _ (_ :: _) |- _ => inversion H; subst; clear H end.
    destruct_and?.
    edestruct (IH cs) as (bytes & Heq & Hb & Hbb); [lia|done| |].
    2: { eexists (_ :: _ :: _ :: bytes). cbn [Nat.add app].
      erewrite decode_loop_step by (apply decode_4_full; (done || lia)).
      cbn [drop]. rewrite Heq. split_and!.
      - rewrite <- app_assoc. cbn [app]. f_equal. lia.
      - cbn [length]. lia.
      - repeat constructor; try apply Z.mod_pos_bound; (lia || done). }
    lia.
Qed.

Lemma alphabet_isbase64 (c : Z) :
  rng 97 122 c || rng 65 90 c || rng 48 57 c || (c =? 47) || (c =? 43) = true ->
  isbase64 c = true /\ c <> 61.
Proof.
  intros H.
  assert (is_char c) as Hc.
  { unfold is_char, rng in *. lia. }
  assert (forallb (fun c => implb
     (rng 97 122 c || rng 65 90 c || rng 48 57 c || (c =? 47) || (c =? 43))
     (isbase64 c && negb (c =? 61))) all_chars = true) as T by reflexivity.
  rewrite forallb_forall in T. specialize (T c (all_chars_spec c Hc)).
  cbn beta in T. rewrite H in T. cbn in T. bool_to_prop. done.
Qed.

(** A Content-MD5 value decodes to 16 bytes. *)
Lemma base64_md5_ok (cs : list Z) :
  length cs = 22%nat ->
  Forall (fun c => rng 97 122 c || rng 65 90 c || rng 48 57 c || (c =? 47) || (c =? 43)
                   = true) cs ->
  exists md5, base64_decode_ctx (cs ++ [61; 61]) 16 = Ok (true, md5) /\
              length md5 = 16%nat /\ Forall is_byte md5.
Proof.
  intros Hlen Hcs. unfold base64_decode_ctx.
  assert (Forall (fun c => isbase64 c = true /\ c <> 61) cs) as Hb
    by (revert Hcs; apply Forall_impl; exact alphabet_isbase64).
  rewrite <- (take_drop 20 cs) in Hb |- *. rewrite <- app_assoc.
  apply Forall_app in Hb as [Hb1 Hb2].
  edestruct (decode_loop_quads 5 (take 20 cs) (drop 20 cs ++ [61; 61]) [] 16 20)
    as (bytes & Heq & Hbl & Hbb); [rewrite length_take; lia|done|lia|].
  replace (S (length (take 20 cs ++ drop 20 cs ++ [61; 61]))) with (5 + 20)%nat
    by (rewrite app_assoc, take_drop, length_app, Hlen; done).
  rewrite Heq. cbn [app].
  assert (length (drop 20 cs) = 2%nat) as H2 by (rewrite length_drop; lia).
  destruct (drop 20 cs) as [|x [|y [|]]]; try done.
  inversion Hb2 as [|? ? [Hx _] Hb3]; subst. inversion Hb3 as [|? ? [Hy _] _]; subst.
  cbn [app]. erewrite decode_loop_step by (apply decode_4_pad2; (done || lia)).
  cbn. eexists. split; [done|]. split; [rewrite length_app, Hbl; done|].
  apply Forall_app. split; [done|]. repeat constructor; apply Z.mod_pos_bound; lia.
Qed.

(** ** Properties *)

(** Decoding undoes encoding: for every byte string that fits the output
    buffer, [base64_decode_ctx] on its encoding returns true and the bytes. *)
Theorem base64_roundtrip (l : list Z) (outlen : Z) :
  Forall is_byte l -> zlen l <= outlen ->
  base64_decode_ctx (base64_encode l) outlen = Ok (true, l).
Proof.
  intros Hl Hn. unfold base64_decode_ctx.
  rewrite (decode_loop_encode (length l)) by (done || lia). done.
Qed.

Lemma base64_roundtrip_witness :
  base64_decode_ctx (base64_encode [0; 255; 16; 7]) 16 = Ok (true, [0; 255; 16; 7]).
Proof.
  apply base64_roundtrip; [|vm_compute; discriminate].
  repeat constructor; vm_compute; (reflexivity || discriminate).
Defined.

(** The assertion after decoding a Content-MD5 value cannot fail: 22
    characters of the class the parsers accept ([[a-zA-Z0-9/+]]), followed by
    ["=="], always decode to exactly 16 bytes. *)
Theorem base64_md5_value (cs : list Z) :
  length cs = 22%nat ->
  Forall (fun c => rng 97 122 c || rng 65 90 c || rng 48 57 c || (c =? 47) || (c =? 43)
                   = true) cs ->
  exists md5, base64_decode_ctx (cs ++ [61; 61]) 16 = Ok (true, md5) /\
              length md5 = 16%nat /\ Forall is_byte md5.
Proof. apply base64_md5_ok. Qed.

Lemma base64_md5_value_witness :
  exists md5, base64_decode_ctx (replicate 22 65 ++ [61; 61]) 16 = Ok (true, md5) /\
              length md5 = 16%nat /\ Forall is_byte md5.
Proof. apply base64_md5_value; [reflexivity|]. repeat constructor. Defined.
