(* ===== verification/Http.v ===== *)
(** The data of HTTP connections and open files (cmogstored.h), and the loop
    that writes request bodies to disk ([mog_http_write_full], http_put.c).

    A connection is the record [mog_http]; an open file is [mog_file].  The
    C struct points at the file through [http->forward]; the model keeps the
    file inside the record.  The kernel's answers to [pwrite] are a script: a
    list of replies consumed in order, so that short writes, interrupts and
    errors are inputs of the model. *)
From S2P Require Import Prelude.
From stdpp Require Import base list numbers.
From Stdlib Require Import ZArith Lia.

#[local] Open Scope Z_scope.

Inductive mog_http_method :=
  | MOG_HTTP_METHOD_NONE | MOG_HTTP_METHOD_GET | MOG_HTTP_METHOD_HEAD
  | MOG_HTTP_METHOD_PUT | MOG_HTTP_METHOD_DELETE | MOG_HTTP_METHOD_MKCOL.

Inductive mog_chunk_state :=
  | MOG_CHUNK_STATE_SIZE | MOG_CHUNK_STATE_DATA
  | MOG_CHUNK_STATE_TRAILER | MOG_CHUNK_STATE_DONE.

#[export] Instance mog_http_method_eq_dec : EqDecision mog_http_method.
Proof. solve_decision. Defined.
#[export] Instance mog_chunk_state_eq_dec : EqDecision mog_chunk_state.
Proof. solve_decision. Defined.

(** A write buffer pointer of a client: [NULL], [MOG_WR_ERROR] or the address
    of a [struct mog_wbuf] with its fields [off] and [buf] ([len] is the length
    of [buf]). *)
Inductive wbuf_ptr :=
  | WNull
  | WError
  | WBuf (off : Z) (buf : list Z).

(** A read buffer that belongs to a client ([http->rbuf], detached from the
    thread): its capacity and the stashed bytes ([rsize] of them). *)
Record rbuf := Rbuf { rcapa : Z; rdata : list Z }.

(** [struct mog_file] with the contents of the file it has open. *)
Record mog_file := MogFile {
  fsize : Z;
  foff : Z;
  path : option (list Z);
  tmppath : option (list Z)  (* NULL-ed if renamed away *);
  digest_ctx : option (list Z)  (* the bytes hashed so far *);
  contents : list Z  (* what the file holds *)
}.

Definition set_fsize (v : Z) (r : mog_file) : mog_file :=
  MogFile v (foff r) (path r) (tmppath r) (digest_ctx r) (contents r).
Definition set_foff (v : Z) (r : mog_file) : mog_file :=
  MogFile (fsize r) v (path r) (tmppath r) (digest_ctx r) (contents r).
Definition set_path (v : option (list Z)) (r : mog_file) : mog_file :=
  MogFile (fsize r) (foff r) v (tmppath r) (digest_ctx r) (contents r).
Definition set_tmppath (v : option (list Z)) (r : mog_file) : mog_file :=
  MogFile (fsize r) (foff r) (path r) v (digest_ctx r) (contents r).
Definition set_digest_ctx (v : option (list Z)) (r : mog_file) : mog_file :=
  MogFile (fsize r) (foff r) (path r) (tmppath r) v (contents r).
Definition set_contents (v : list Z) (r : mog_file) : mog_file :=
  MogFile (fsize r) (foff r) (path r) (tmppath r) (digest_ctx r) v.

(** [struct mog_http]. *)
Record mog_http := MogHttp {
  cs : Z;
  http_method : mog_http_method;
  persistent : bool;
  chunked : bool;
  has_trailer_md5 : bool;
  has_expect_md5 : bool;
  has_content_range : bool  (* for PUT *);
  has_range : bool  (* for GET *);
  skip_rbuf_defer : bool;
  chunk_state : mog_chunk_state;
  path_tip : Z  (* uint8_t *);
  path_end : Z  (* uint8_t *);
  line_end : Z  (* uint16_t *);
  tmp_tip : Z  (* uint16_t *);
  forward : option mog_file;
  offset : Z  (* size_t *);
  range_beg : Z  (* off_t *);
  range_end : Z  (* off_t *);
  content_len : Z  (* off_t *);
  h_rbuf : option rbuf;
  wbuf : wbuf_ptr;
  expect_md5 : list Z
}.

Definition set_cs (v : Z) (r : mog_http) : mog_http :=
  MogHttp v (http_method r) (persistent r) (chunked r) (has_trailer_md5 r) (has_expect_md5 r) (has_content_range r) (has_range r) (skip_rbuf_defer r) (chunk_state r) (path_tip r) (path_end r) (line_end r) (tmp_tip r) (forward r) (offset r) (range_beg r) (range_end r) (content_len r) (h_rbuf r) (wbuf r) (expect_md5 r).
Definition set_http_method (v : mog_http_method) (r : mog_http) : mog_http :=
  MogHttp (cs r) v (persistent r) (chunked r) (has_trailer_md5 r) (has_expect_md5 r) (has_content_range r) (has_range r) (skip_rbuf_defer r) (chunk_state r) (path_tip r) (path_end r) (line_end r) (tmp_tip r) (forward r) (offset r) (range_beg r) (range_end r) (content_len r) (h_rbuf r) (wbuf r) (expect_md5 r).
Definition set_persistent (v : bool) (r : mog_http) : mog_http :=
  MogHttp (cs r) (http_method r) v (chunked r) (has_trailer_md5 r) (has_expect_md5 r) (has_content_range r) (has_range r) (skip_rbuf_defer r) (chunk_state r) (path_tip r) (path_end r) (line_end r) (tmp_tip r) (forward r) (offset r) (range_beg r) (range_end r) (content_len r) (h_rbuf r) (wbuf r) (expect_md5 r).
Definition set_chunked (v : bool) (r : mog_http) : mog_http :=
  MogHttp (cs r) (http_method r) (persistent r) v (has_trailer_md5 r) (has_expect_md5 r) (has_content_range r) (has_range r) (skip_rbuf_defer r) (chunk_state r) (path_tip r) (path_end r) (line_end r) (tmp_tip r) (forward r) (offset r) (range_beg r) (range_end r) (content_len r) (h_rbuf r) (wbuf r) (expect_md5 r).
Definition set_has_trailer_md5 (v : bool) (r : mog_http) : mog_http :=
  MogHttp (cs r) (http_method r) (persistent r) (chunked r) v (has_expect_md5 r) (has_content_range r) (has_range r) (skip_rbuf_defer r) (chunk_state r) (path_tip r) (path_end r) (line_end r) (tmp_tip r) (forward r) (offset r) (range_beg r) (range_end r) (content_len r) (h_rbuf r) (wbuf r) (expect_md5 r).
Definition set_has_expect_md5 (v : bool) (r : mog_http) : mog_http :=
  MogHttp (cs r) (http_method r) (persistent r) (chunked r) (has_trailer_md5 r) v (has_content_range r) (has_range r) (skip_rbuf_defer r) (chunk_state r) (path_tip r) (path_end r) (line_end r) (tmp_tip r) (forward r) (offset r) (range_beg r) (range_end r) (content_len r) (h_rbuf r) (wbuf r) (expect_md5 r).
Definition set_has_content_range (v : bool) (r : mog_http) : mog_http :=
  MogHttp (cs r) (http_method r) (persistent r) (chunked r) (has_trailer_md5 r) (has_expect_md5 r) v (has_range r) (skip_rbuf_defer r) (chunk_state r) (path_tip r) (path_end r) (line_end r) (tmp_tip r) (forward r) (offset r) (range_beg r) (range_end r) (content_len r) (h_rbuf r) (wbuf r) (expect_md5 r).
Definition set_has_range (v : bool) (r : mog_http) : mog_http :=
  MogHttp (cs r) (http_method r) (persistent r) (chunked r) (has_trailer_md5 r) (has_expect_md5 r) (has_content_range r) v (skip_rbuf_defer r) (chunk_state r) (path_tip r) (path_end r) (line_end r) (tmp_tip r) (forward r) (offset r) (range_beg r) (range_end r) (content_len r) (h_rbuf r) (wbuf r) (expect_md5 r).
Definition set_skip_rbuf_defer (v : bool) (r : mog_http) : mog_http :=
  MogHttp (cs r) (http_method r) (persistent r) (chunked r) (has_trailer_md5 r) (has_expect_md5 r) (has_content_range r) (has_range r) v (chunk_state r) (path_tip r) (path_end r) (line_end r) (tmp_tip r) (forward r) (offset r) (range_beg r) (range_end r) (content_len r) (h_rbuf r) (wbuf r) (expect_md5 r).
Definition set_chunk_state (v : mog_chunk_state) (r : mog_http) : mog_http :=
  MogHttp (cs r) (http_method r) (persistent r) (chunked r) (has_trailer_md5 r) (has_expect_md5 r) (has_content_range r) (has_range r) (skip_rbuf_defer r) v (path_tip r) (path_end r) (line_end r) (tmp_tip r) (forward r) (offset r) (range_beg r) (range_end r) (content_len r) (h_rbuf r) (wbuf r) (expect_md5 r).
Definition set_path_tip (v : Z) (r : mog_http) : mog_http :=
  MogHttp (cs r) (http_method r) (persistent r) (chunked r) (has_trailer_md5 r) (has_expect_md5 r) (has_content_range r) (has_range r) (skip_rbuf_defer r) (chunk_state r) v (path_end r) (line_end r) (tmp_tip r) (forward r) (offset r) (range_beg r) (range_end r) (content_len r) (h_rbuf r) (wbuf r) (expect_md5 r).
Definition set_path_end (v : Z) (r : mog_http) : mog_http :=
  MogHttp (cs r) (http_method r) (persistent r) (chunked r) (has_trailer_md5 r) (has_expect_md5 r) (has_content_range r) (has_range r) (skip_rbuf_defer r) (chunk_state r) (path_tip r) v (line_end r) (tmp_tip r) (forward r) (offset r) (range_beg r) (range_end r) (content_len r) (h_rbuf r) (wbuf r) (expect_md5 r).
Definition set_line_end (v : Z) (r : mog_http) : mog_http :=
  MogHttp (cs r) (http_method r) (persistent r) (chunked r) (has_trailer_md5 r) (has_expect_md5 r) (has_content_range r) (has_range r) (skip_rbuf_defer r) (chunk_state r) (path_tip r) (path_end r) v (tmp_tip r) (forward r) (offset r) (range_beg r) (range_end r) (content_len r) (h_rbuf r) (wbuf r) (expect_md5 r).
Definition set_tmp_tip (v : Z) (r : mog_http) : mog_http :=
  MogHttp (cs r) (http_method r) (persistent r) (chunked r) (has_trailer_md5 r) (has_expect_md5 r) (has_content_range r) (has_range r) (skip_rbuf_defer r) (chunk_state r) (path_tip r) (path_end r) (line_end r) v (forward r) (offset r) (range_beg r) (range_end r) (content_len r) (h_rbuf r) (wbuf r) (expect_md5 r).
Definition set_forward (v : option mog_file) (r : mog_http) : mog_http :=
  MogHttp (cs r) (http_method r) (persistent r) (chunked r) (has_trailer_md5 r) (has_expect_md5 r) (has_content_range r) (has_range r) (skip_rbuf_defer r) (chunk_state r) (path_tip r) (path_end r) (line_end r) (tmp_tip r) v (offset r) (range_beg r) (range_end r) (content_len r) (h_rbuf r) (wbuf r) (expect_md5 r).
Definition set_offset (v : Z) (r : mog_http) : mog_http :=
  MogHttp (cs r) (http_method r) (persistent r) (chunked r) (has_trailer_md5 r) (has_expect_md5 r) (has_content_range r) (has_range r) (skip_rbuf_defer r) (chunk_state r) (path_tip r) (path_end r) (line_end r) (tmp_tip r) (forward r) v (range_beg r) (range_end r) (content_len r) (h_rbuf r) (wbuf r) (expect_md5 r).
Definition set_range_beg (v : Z) (r : mog_http) : mog_http :=
  MogHttp (cs r) (http_method r) (persistent r) (chunked r) (has_trailer_md5 r) (has_expect_md5 r) (has_content_range r) (has_range r) (skip_rbuf_defer r) (chunk_state r) (path_tip r) (path_end r) (line_end r) (tmp_tip r) (forward r) (offset r) v (range_end r) (content_len r) (h_rbuf r) (wbuf r) (expect_md5 r).
Definition set_range_end (v : Z) (r : mog_http) : mog_http :=
  MogHttp (cs r) (http_method r) (persistent r) (chunked r) (has_trailer_md5 r) (has_expect_md5 r) (has_content_range r) (has_range r) (skip_rbuf_defer r) (chunk_state r) (path_tip r) (path_end r) (line_end r) (tmp_tip r) (forward r) (offset r) (range_beg r) v (content_len r) (h_rbuf r) (wbuf r) (expect_md5 r).
Definition set_content_len (v : Z) (r : mog_http) : mog_http :=
  MogHttp (cs r) (http_method r) (persistent r) (chunked r) (has_trailer_md5 r) (has_expect_md5 r) (has_content_range r) (has_range r) (skip_rbuf_defer r) (chunk_state r) (path_tip r) (path_end r) (line_end r) (tmp_tip r) (forward r) (offset r) (range_beg r) (range_end r) v (h_rbuf r) (wbuf r) (expect_md5 r).
Definition set_h_rbuf (v : option rbuf) (r : mog_http) : mog_http :=
  MogHttp (cs r) (http_method r) (persistent r) (chunked r) (has_trailer_md5 r) (has_expect_md5 r) (has_content_range r) (has_range r) (skip_rbuf_defer r) (chunk_state r) (path_tip r) (path_end r) (line_end r) (tmp_tip r) (forward r) (offset r) (range_beg r) (range_end r) (content_len r) v (wbuf r) (expect_md5 r).
Definition set_wbuf (v : wbuf_ptr) (r : mog_http) : mog_http :=
  MogHttp (cs r) (http_method r) (persistent r) (chunked r) (has_trailer_md5 r) (has_expect_md5 r) (has_content_range r) (has_range r) (skip_rbuf_defer r) (chunk_state r) (path_tip r) (path_end r) (line_end r) (tmp_tip r) (forward r) (offset r) (range_beg r) (range_end r) (content_len r) (h_rbuf r) v (expect_md5 r).
Definition set_expect_md5 (v : list Z) (r : mog_http) : mog_http :=
  MogHttp (cs r) (http_method r) (persistent r) (chunked r) (has_trailer_md5 r) (has_expect_md5 r) (has_content_range r) (has_range r) (skip_rbuf_defer r) (chunk_state r) (path_tip r) (path_end r) (line_end r) (tmp_tip r) (forward r) (offset r) (range_beg r) (range_end r) (content_len r) (h_rbuf r) (wbuf r) v.

(** ** Writing to an open file *)

(** The contents after [pwrite(fd, data, .., off)]: a gap is filled with NUL
    bytes, bytes past the written range stay. *)
Definition pwrite_at (c : list Z) (off : Z) (data : list Z) : list Z :=
  let o := Z.to_nat off in
  take o c ++ replicate (o - length c) 0 ++ data ++ drop (o + length data) c.

(** The loop of [mog_http_write_full].  [Ret n] answers a call of [pwrite]
    with as many of the requested bytes as [n] allows; [err] is [errno]
    ([None] for 0). *)
Fixpoint pwrite_loop (script : list reply) (buf : list Z) (f : mog_file)
    (err : option errno)
  : res (bool * mog_file * list reply * option errno) :=
  match script with
  | [] => Crash NoReply
  | Ret n :: script' =>
      let w := Z.min n (zlen buf) in
      if 0 <? w then
        let f' := set_foff (foff f + w)
                    (set_contents
                       (pwrite_at (contents f) (foff f) (take (Z.to_nat w) buf)) f) in
        if w =? zlen buf then Ok (true, f', script', err)
        else pwrite_loop script' (drop (Z.to_nat w) buf) f' err
      else Ok (false, f, script',
               match err with None => Some ENOSPC | Some e => Some e end)
  | Fail e :: script' =>
      if decide (e = EINTR) then pwrite_loop script' buf f (Some EINTR)
      else Ok (false, f, script', Some e)
  end.

(** [gc_hash_write] when the file has a digest. *)
Definition hash_write (buf : list Z) (f : mog_file) : mog_file :=
  match digest_ctx f with
  | Some h => set_digest_ctx (Some (h ++ buf)) f
  | None => f
  end.

Definition mog_http_write_full (script : list reply) (f : mog_file) (buf : list Z)
    (err : option errno)
  : res (bool * mog_file * list reply * option errno) :=
  let f := hash_write buf f in
  if zlen buf =? 0 then Ok (true, f, script, err)
  else pwrite_loop script buf f None.

(** ** Lemmas *)

(** Replies that end a call other than by an interrupt. *)
Fixpoint progress (script : list reply) : Z :=
  match script with
  | [] => 0
  | Fail EINTR :: script' => progress script'
  | _ :: script' => 1 + progress script'
  end.

Lemma progress_nonneg (script : list reply) : 0 <= progress script.
Proof. induction script as [|[n|[]] s IH]; cbn; lia. Qed.

Lemma progress_fail (e : errno) (s : list reply) :
  e <> EINTR -> progress (Fail e :: s) = 1 + progress s.
Proof. by destruct e. Qed.

Lemma length_pwrite_at_le (c : list Z) (off : Z) (data : list Z) :
  0 <= off -> off + zlen data <= zlen (pwrite_at c off data).
Proof.
  intros. unfold pwrite_at, zlen. rewrite !length_app, length_take, length_replicate.
  lia.
Qed.

(** Two adjacent writes are one. *)
Lemma pwrite_at_app (c : list Z) (off : Z) (a b : list Z) :
  0 <= off ->
  pwrite_at (pwrite_at c off a) (off + zlen a) b = pwrite_at c off (a ++ b).
Proof.
  intros Hoff. unfold pwrite_at, zlen.
  replace (Z.to_nat (off + Z.of_nat (length a))) with (Z.to_nat off + length a)%nat by lia.
  set (o := Z.to_nat off). rewrite !(app_assoc (take o c)).
  set (P := take o c ++ replicate (o - length c) 0).
  assert (length P = o) as HP
    by (unfold P; rewrite length_app, length_take, length_replicate; lia).
  clearbody P.
  rewrite (app_assoc P a), take_app_length' by (rewrite length_app; lia).
  rewrite (length_app (P ++ a)), (length_app P).
  replace (o + length a - _)%nat with 0%nat by lia.
  rewrite drop_app_ge by (rewrite length_app; lia).
  rewrite drop_drop, <- !app_assoc. cbn [replicate app].
  do 4 f_equal. rewrite !length_app. lia.
Qed.

(** Reading back what was written. *)
Lemma slice_pwrite_at (c : list Z) (off : Z) (data : list Z) :
  0 <= off -> slice off (zlen data) (pwrite_at c off data) = data.
Proof.
  intros. unfold slice, pwrite_at, zlen. rewrite Nat2Z.id.
  set (o := Z.to_nat off). rewrite (app_assoc (take o c)).
  rewrite drop_app_length'
    by (rewrite length_app, length_take, length_replicate; lia).
  apply take_app_length.
Qed.

(** Outcome of the write loop: it returns as soon as the kernel has answered
    with as many non-interrupt replies as there are bytes; on success exactly
    the requested bytes are at the old offset, and on failure a strict prefix
    of them is, with a non-zero [errno]. *)
Lemma pwrite_loop_spec (script : list reply) (buf : list Z) (f : mog_file)
    (err : option errno) :
  0 <= foff f -> buf <> [] -> zlen buf <= progress script ->
  exists b f' script' err' w,
    pwrite_loop script buf f err = Ok (b, f', script', err') /\
    0 <= w <= zlen buf /\ (b = true <-> w = zlen buf) /\
    f' = set_foff (foff f + w)
           (set_contents (if w =? 0 then contents f else
             pwrite_at (contents f) (foff f) (take (Z.to_nat w) buf)) f) /\
    progress script - w <= progress script' + (if b then 0 else 1) /\
    (b = false -> err' <> None) /\
    (b = true -> err' = err \/ err' = Some EINTR).
Proof.
  revert buf f err. induction script as [|[n|e] script IH]; intros buf f err Hoff Hne Hpr.
  - destruct buf; [done|]. cbn [progress] in Hpr. autorewrite with zlen in Hpr.
    pose proof (zlen_nonneg buf). lia.
  - cbn [pwrite_loop progress] in *. pose proof (progress_nonneg script).
    assert (0 < zlen buf) as Hb
      by (destruct buf; [done|]; autorewrite with zlen; pose proof (zlen_nonneg buf); lia).
    destruct (Z.ltb_spec 0 (Z.min n (zlen buf))) as [Hw|Hw].
    + set (w := Z.min n (zlen buf)) in *.
      destruct (Z.eqb_spec w (zlen buf)) as [Hwe|Hwe].
      * eexists true, _, script, err, w. split; [done|].
        destruct (Z.eqb_spec w 0); [lia|].
        split_and!; [lia|lia|done|done|lia|done|by left].
      * edestruct (IH (drop (Z.to_nat w) buf)
          (set_foff (foff f + w) (set_contents
             (pwrite_at (contents f) (foff f) (take (Z.to_nat w) buf)) f)) err)
          as (b & f' & s' & e' & w' & Heq & Hw' & Hbw & Hf' & Hp & He1 & He2).
        { cbn. lia. }
        { intros Hd. apply (f_equal zlen) in Hd. rewrite zlen_drop in Hd by lia.
          rewrite zlen_nil in Hd. lia. }
        { rewrite zlen_drop by lia. lia. }
        rewrite zlen_drop in Hw', Hbw by lia.
        eexists b, f', s', e', (w + w'). rewrite Heq. split; [done|].
        split_and!; [lia|lia|rewrite Hbw; lia| |lia|done|done].
        rewrite Hf'. unfold set_foff, set_contents; cbn.
        destruct (Z.eqb_spec (w + w') 0); [lia|].
        rewrite Z.add_assoc. do 1 f_equal.
        destruct (Z.eqb_spec w' 0) as [->|]; [by rewrite Z.add_0_r|].
        replace (foff f + w) with (foff f + zlen (take (Z.to_nat w) buf))
          by (rewrite zlen_take; lia).
        rewrite pwrite_at_app by done. f_equal.
        rewrite Z2Nat.inj_add by lia. by rewrite take_take_drop.
    + eexists false, f, script, _, 0. split; [done|].
      split_and!; [lia|lia|split; [done|lia]| |lia|by destruct err|done].
      destruct f; cbn; unfold set_foff, set_contents; cbn. f_equal. lia.
  - cbn [pwrite_loop]. case_decide as He; [subst e|].
    + cbn [progress] in Hpr.
      edestruct (IH buf f (Some EINTR)) as (b & f' & s' & e' & w' & Heq & Hw' & Hbw & Hf' & Hp & He1 & He2); [done..|].
      exists b, f', s', e', w'. split_and!; try (done || lia). intros Hb. right. by destruct (He2 Hb).
    + rewrite progress_fail in Hpr |- * by done.
      eexists false, f, script, _, 0. split; [done|].
      destruct buf; [done|]. autorewrite with zlen. pose proof (zlen_nonneg buf).
      split_and!; [lia|lia|split; [done|lia]| |lia|done|done].
      destruct f; cbn; unfold set_foff, set_contents; cbn. f_equal. lia.
Qed.

(** The file after [d] is written at its offset. *)
Definition file_append (d : list Z) (f : mog_file) : mog_file :=
  match d with
  | [] => f
  | _ => set_foff (foff f + zlen d)
           (set_contents (pwrite_at (contents f) (foff f) d) (hash_write d f))
  end.

Lemma file_append_off (d : list Z) (f : mog_file) : foff (file_append d f) = foff f + zlen d.
Proof. destruct d; [cbn; autorewrite with zlen; lia|done]. Qed.

Lemma file_append_app (a b : list Z) (f : mog_file) :
  0 <= foff f -> file_append b (file_append a f) = file_append (a ++ b) f.
Proof.
  intros Hoff. destruct a as [|x a]; [done|]. destruct b as [|y b]; [by rewrite app_nil_r|].
  unfold file_append. rewrite <- app_comm_cons.
  set (A := x :: a). set (B := y :: b). change (x :: (a ++ B)) with (A ++ B).
  clearbody A B. unfold set_foff, set_contents. cbn.
  rewrite <- (pwrite_at_app (contents f) (foff f) A B) by done.
  rewrite zlen_app, Z.add_assoc.
  unfold hash_write. destruct f as [? ? ? ? [h|] ?]; cbn; [by rewrite app_assoc|done].
Qed.

(** [mog_http_write_full] returns, and on success has appended the buffer. *)
Lemma write_full_spec (sc : list reply) (f : mog_file) (d : list Z) (err : option errno) :
  0 <= foff f -> zlen d <= progress sc ->
  exists ok f' sc' err', mog_http_write_full sc f d err = Ok (ok, f', sc', err') /\
    (ok = true -> f' = file_append d f /\ progress sc - zlen d <= progress sc') /\
    (ok = false -> err' <> None) /\
    path f' = path f /\ tmppath f' = tmppath f.
Proof.
  intros Hoff Hpr. unfold mog_http_write_full.
  assert (foff (hash_write d f) = foff f /\ contents (hash_write d f) = contents f /\
          path (hash_write d f) = path f /\ tmppath (hash_write d f) = tmppath f) as (Hf1 & Hf2 & Hf3 & Hf4)
    by (unfold hash_write; by destruct (digest_ctx f)).
  destruct (Z.eqb_spec (zlen d) 0) as [Hz|Hz].
  - destruct d as [|x d]; [|autorewrite with zlen in Hz; pose proof (zlen_nonneg d); lia].
    eexists true, _, sc, err. split; [done|]. split_and!; [|done|done|done].
    intros _. split; [|rewrite zlen_nil; lia]. unfold hash_write, file_append.
    destruct (digest_ctx f) as [hs|] eqn:E; [|done]. rewrite app_nil_r. destruct f; cbn in *; by subst.
  - destruct (pwrite_loop_spec sc d (hash_write d f) None)
      as (b & f' & s' & e' & w & -> & Hw & Hb & -> & Hp & He & _); [lia|by destruct d|done|].
    eexists b, _, s', e'. split; [done|]. split_and!; [|auto|done|done].
    intros ->. assert (w = zlen d) as -> by by apply Hb. split; [|lia].
    destruct (Z.eqb_spec (zlen d) 0); [lia|]. rewrite Hf1, Hf2.
    unfold zlen at 2. rewrite Nat2Z.id, firstn_all. by destruct d.
Qed.

(** ** Properties *)

(** [mog_http_write_full] returns once the kernel has given one
    non-interrupt reply per byte.  When it returns true the file holds the
    bytes at the old offset and the offset has moved past them, whatever short
    writes and interrupts happened; when it returns false, [errno] is set and
    the bytes written are a proper prefix of the request.  In both cases the
    digest has consumed the whole request. *)
Theorem write_full_correct (script : list reply) (f : mog_file) (buf : list Z)
    (err : option errno) :
  0 <= foff f -> zlen buf <= progress script ->
  exists b f' script' err',
    mog_http_write_full script f buf err = Ok (b, f', script', err') /\
    digest_ctx f' = option_map (fun h => h ++ buf) (digest_ctx f) /\
    (b = true -> foff f' = foff f + zlen buf /\
       slice (foff f) (zlen buf) (contents f') = buf) /\
    (b = false -> err' <> None /\ exists w, 0 <= w < zlen buf /\
       foff f' = foff f + w /\
       slice (foff f) w (contents f') = take (Z.to_nat w) buf).
Proof.
  intros Hoff Hpr. unfold mog_http_write_full.
  assert (foff (hash_write buf f) = foff f) as Hfo by (unfold hash_write; by destruct (digest_ctx f)).
  assert (digest_ctx (hash_write buf f) = option_map (fun h => h ++ buf) (digest_ctx f)) as Hd
    by (unfold hash_write; destruct (digest_ctx f) eqn:E; cbn; by rewrite ?E).
  destruct (Z.eqb_spec (zlen buf) 0) as [Hz|Hz].
  - destruct buf as [|x buf]; [|autorewrite with zlen in Hz; pose proof (zlen_nonneg buf); lia].
    eexists true, _, script, err. split_and!; [done|done| |done].
    intros _. split; [by rewrite Hfo; autorewrite with zlen; lia|].
    unfold slice. by rewrite take_0.
  - destruct (pwrite_loop_spec script buf (hash_write buf f) None)
      as (b & f' & s' & e' & w & -> & Hw & Hb & -> & _ & He & _);
      [lia|by destruct buf|done|].
    eexists b, _, s', e'. split_and!; [done|done| |].
    + intros ->. rewrite Hfo. cbn. assert (w = zlen buf) as -> by by apply Hb.
      split; [done|]. destruct (Z.eqb_spec (zlen buf) 0); [done|].
      unfold zlen at 2. rewrite Nat2Z.id, firstn_all. by apply slice_pwrite_at.
    + intros ->. split; [auto|]. exists w. rewrite Hfo. cbn.
      assert (w <> zlen buf) by (intros ->; discriminate (proj2 Hb eq_refl)).
      split_and!; [lia|lia|done|].
      destruct (Z.eqb_spec w 0) as [->|]; [unfold slice; by rewrite !take_0|].
      rewrite <- (zlen_take w buf) at 1 by lia. by apply slice_pwrite_at.
Qed.

Lemma write_full_correct_witness :
  exists b f' script' err',
    mog_http_write_full [Ret 1; Fail EINTR; Ret 9]
      (MogFile 0 0 None None (Some []) []) [104; 105] None = Ok (b, f', script', err') /\
    digest_ctx f' = Some [104; 105] /\
    (b = true -> foff f' = 2 /\ slice 0 2 (contents f') = [104; 105]) /\
    (b = false -> err' <> None /\ exists w, 0 <= w < 2 /\ foff f' = w /\
       slice 0 w (contents f') = take (Z.to_nat w) [104; 105]).
Proof.
  apply (write_full_correct [Ret 1; Fail EINTR; Ret 9]
           (MogFile 0 0 None None (Some []) []) [104; 105] None);
    vm_compute; discriminate.
Defined.

(** A write that is interrupted once and then succeeds returns true but
    leaves [errno] set to EINTR: the loop clears [errno] only before its first
    [pwrite]. *)
Theorem write_full_stale_errno (f : mog_file) (buf : list Z) (n : Z)
    (rest : list reply) :
  0 < zlen buf <= n ->
  exists f', mog_http_write_full (Fail EINTR :: Ret n :: rest) f buf None
             = Ok (true, f', rest, Some EINTR).
Proof.
  intros H. unfold mog_http_write_full.
  destruct (Z.eqb_spec (zlen buf) 0); [lia|]. cbn.
  rewrite Z.min_r by lia. destruct (Z.ltb_spec 0 (zlen buf)); [|lia].
  rewrite Z.eqb_refl. by eexists.
Qed.

Lemma write_full_stale_errno_witness :
  exists f', mog_http_write_full [Fail EINTR; Ret 8] (MogFile 0 0 None None None [])
               [1; 2] None = Ok (true, f', [], Some EINTR).
Proof. apply write_full_stale_errno. vm_compute. split; [reflexivity|discriminate]. Defined.
