(* ===== verification/TryWrite.v ===== *)
(** Non-blocking output (trywrite.c): [mog_tryflush], [mog_trywritev] and
    [mog_trysend].

    A socket is a [chan]: the replies the kernel will give to the next
    [write], [writev] and [send] calls, and the bytes it has accepted so far.
    When the replies are used up the socket buffer is full (EAGAIN).  The
    promise the rest of the program relies on is the class [Lossless]: what was
    accepted followed by what is kept in the write buffer is what was asked. *)
From S2P Require Import Prelude Http.
From stdpp Require Import base list numbers.
From Stdlib Require Import ZArith Lia.

#[local] Open Scope Z_scope.

Record chan := Chan { replies : list reply; sent : list Z }.

(** ** [struct mog_wbuf] *)

(** [wbuf_newv]: a new buffer with the contents of all the vectors; [total] is
    the size that was allocated. *)
Definition wbuf_newv (total : Z) (iov : list (list Z)) : res wbuf_ptr :=
  if zlen (concat iov) <=? total then Ok (WBuf 0 (concat iov))
  else Crash OutOfBounds.

Definition wbuf_new (buf : list Z) : res wbuf_ptr := wbuf_newv (zlen buf) [buf].

(** ** [mog_tryflush] *)

(** The loop of [mog_tryflush]: [ptr] are the bytes from [wbuf->buf +
    wbuf->off] on. *)
Fixpoint tryflush_loop (rs : list reply) (out : list Z) (off : Z)
    (buf ptr : list Z) : mog_write_state * wbuf_ptr * chan :=
  match rs with
  | [] => (MOG_WRSTATE_BUSY, WBuf off buf, Chan [] out)
  | Ret n :: rs' =>
      let w := Z.max 0 (Z.min n (zlen ptr)) in
      let out' := out ++ take (Z.to_nat w) ptr in
      if w =? zlen ptr then (MOG_WRSTATE_DONE, WNull, Chan rs' out')
      else tryflush_loop rs' out' (off + w) buf (drop (Z.to_nat w) ptr)
  | Fail e :: rs' =>
      if decide (e = EAGAIN) then (MOG_WRSTATE_BUSY, WBuf off buf, Chan rs' out)
      else if decide (e = EINTR) then tryflush_loop rs' out off buf ptr
      else (MOG_WRSTATE_ERR, WNull, Chan rs' out)
  end.

(** The pointer is dereferenced without a test. *)
Definition mog_tryflush (x : wbuf_ptr) (c : chan)
  : res (mog_write_state * wbuf_ptr * chan) :=
  match x with
  | WBuf off buf =>
      Ok (tryflush_loop (replies c) (sent c) off buf (drop (Z.to_nat off) buf))
  | _ => Crash OutOfBounds
  end.

(** ** [mog_trywritev] *)

(** Skip the vectors that [w] accepted bytes cover. *)
Fixpoint skip_iov (w : Z) (iov : list (list Z)) : list (list Z) :=
  match iov with
  | [] => []
  | v :: rest =>
      if w =? 0 then iov
      else if w <? zlen v then drop (Z.to_nat w) v :: rest
      else skip_iov (w - zlen v) rest
  end.

Fixpoint trywritev_loop (rs : list reply) (out : list Z) (total : Z)
    (iov : list (list Z)) : res (wbuf_ptr * chan) :=
  match rs with
  | [] => let* b := wbuf_newv total iov in Ok (b, Chan [] out)
  | Ret n :: rs' =>
      let w := Z.max 0 (Z.min n (zlen (concat iov))) in
      let out' := out ++ take (Z.to_nat w) (concat iov) in
      if w =? total then Ok (WNull, Chan rs' out')
      else trywritev_loop rs' out' (total - w) (skip_iov w iov)
  | Fail e :: rs' =>
      if decide (e = EAGAIN) then let* b := wbuf_newv total iov in Ok (b, Chan rs' out)
      else if decide (e = EINTR) then trywritev_loop rs' out total iov
      else Ok (WError, Chan rs' out)
  end.

Definition mog_trywritev (iov : list (list Z)) (c : chan) : res (wbuf_ptr * chan) :=
  let total := fold_right (fun v acc => zlen v + acc) 0 iov in
  if total =? 0 then Ok (WNull, c)
  else trywritev_loop (replies c) (sent c) total iov.

(** ** [mog_trysend], with MSG_MORE *)

Fixpoint trysend_loop (rs : list reply) (out : list Z) (buf : list Z)
  : res (wbuf_ptr * chan) :=
  match rs with
  | [] => let* b := wbuf_new buf in Ok (b, Chan [] out)
  | Ret n :: rs' =>
      let w := Z.max 0 (Z.min n (zlen buf)) in
      let out' := out ++ take (Z.to_nat w) buf in
      if w =? zlen buf then Ok (WNull, Chan rs' out')
      else trysend_loop rs' out' (drop (Z.to_nat w) buf)
  | Fail e :: rs' =>
      if decide (e = EAGAIN) then let* b := wbuf_new buf in Ok (b, Chan rs' out)
      else if decide (e = EINTR) then trysend_loop rs' out buf
      else Ok (WError, Chan rs' out)
  end.

Definition mog_trysend (buf : list Z) (c : chan) : res (wbuf_ptr * chan) :=
  if 0 <? zlen buf then trysend_loop (replies c) (sent c) buf else Ok (WNull, c).

(** ** What a writer promises *)

(** The bytes a write buffer still holds. *)
Definition pending (w : wbuf_ptr) : list Z :=
  match w with WBuf off buf => drop (Z.to_nat off) buf | _ => [] end.

(** A write buffer between two calls: there is something left in it. *)
Definition wbuf_ok (w : wbuf_ptr) : Prop :=
  match w with WBuf off buf => 0 <= off < zlen buf | _ => True end.

(** [op] sends the bytes [payload a]: it returns, what the kernel accepted
    followed by what is buffered is the payload unless the connection failed,
    and then what was accepted is a prefix of it. *)
Class Lossless {A} (payload : A -> list Z)
    (op : A -> chan -> res (wbuf_ptr * chan)) : Prop :=
  lossless : forall a c, exists w c' acc,
    op a c = Ok (w, c') /\ sent c' = sent c ++ acc /\ wbuf_ok w /\
    (w <> WError -> acc ++ pending w = payload a) /\
    (exists rest, acc ++ rest = payload a).

(** ** Proofs *)

Lemma wbuf_newv_ok (iov : list (list Z)) :
  wbuf_newv (zlen (concat iov)) iov = Ok (WBuf 0 (concat iov)).
Proof. unfold wbuf_newv. by rewrite Z.leb_refl. Qed.

Lemma total_len (iov : list (list Z)) :
  fold_right (fun v acc => zlen v + acc) 0 iov = zlen (concat iov).
Proof. induction iov as [|v iov IH]; [done|]. cbn [fold_right concat]. rewrite IH, zlen_app. done. Qed.

Lemma skip_iov_concat (iov : list (list Z)) (w : Z) :
  0 <= w <= zlen (concat iov) -> concat (skip_iov w iov) = drop (Z.to_nat w) (concat iov).
Proof.
  revert w. induction iov as [|v iov IH]; intros w Hw; cbn [skip_iov concat] in *.
  - by rewrite drop_nil.
  - rewrite zlen_app in Hw. destruct (Z.eqb_spec w 0) as [->|]; [done|].
    destruct (Z.ltb_spec w (zlen v)) as [Hlt|Hge].
    + cbn [concat]. unfold zlen in *. by rewrite drop_app_le by lia.
    + rewrite IH by lia. unfold zlen in *. rewrite drop_app_ge by lia. f_equal. lia.
Qed.

(** Outcome of sending [l] after [out]. *)
Definition delivered (l out : list Z) (w : wbuf_ptr) (c : chan) : Prop :=
  exists acc, sent c = out ++ acc /\ wbuf_ok w /\
    (w <> WError -> acc ++ pending w = l) /\ (exists rest, acc ++ rest = l).

Lemma delivered_part (n : nat) (l out : list Z) (w : wbuf_ptr) (c : chan) :
  delivered (drop n l) (out ++ take n l) w c -> delivered l out w c.
Proof.
  intros (acc & Hs & Hw & Hp & rest & Hr). exists (take n l ++ acc).
  rewrite app_assoc. split_and!; [done|done| |].
  - intros E. rewrite <- app_assoc, Hp by done. apply take_drop.
  - exists rest. rewrite <- app_assoc, Hr. apply take_drop.
Qed.

Lemma delivered_all (l out : list Z) (rs : list reply) :
  delivered l out WNull (Chan rs (out ++ take (Z.to_nat (zlen l)) l)).
Proof.
  unfold zlen. rewrite Nat2Z.id, firstn_all. exists l.
  split_and!; [done|done|intros _; apply app_nil_r|exists []; apply app_nil_r].
Qed.

Lemma delivered_none (l out : list Z) (rs : list reply) :
  0 < zlen l -> delivered l out (WBuf 0 l) (Chan rs out).
Proof.
  intros Hl. exists []. rewrite app_nil_r. split_and!; [done|cbn; lia|done|by exists l].
Qed.

Lemma delivered_error (l out : list Z) (rs : list reply) :
  delivered l out WError (Chan rs out).
Proof. exists []. rewrite app_nil_r. split_and!; [done|done|done|by exists l]. Qed.

#[export] Hint Resolve delivered_all delivered_none delivered_error : mog.

(** A partial write leaves something to send. *)
Lemma zlen_part {A} (l : list A) (n : Z) :
  0 < zlen l -> Z.max 0 (Z.min n (zlen l)) <> zlen l ->
  0 < zlen (drop (Z.to_nat (Z.max 0 (Z.min n (zlen l)))) l).
Proof. intros. rewrite zlen_drop by lia. lia. Qed.

Lemma trywritev_loop_spec (rs : list reply) (out : list Z) (iov : list (list Z)) :
  0 < zlen (concat iov) ->
  exists w c, trywritev_loop rs out (zlen (concat iov)) iov = Ok (w, c) /\
    delivered (concat iov) out w c.
Proof.
  revert out iov. induction rs as [|[n|e] rs IH]; intros out iov Hl; cbn [trywritev_loop].
  - rewrite wbuf_newv_ok. cbn [res_bind]. eauto with mog.
  - set (w := Z.max 0 (Z.min n (zlen (concat iov)))).
    destruct (Z.eqb_spec w (zlen (concat iov))) as [->|Hne]; [eauto with mog|].
    destruct (IH (out ++ take (Z.to_nat w) (concat iov)) (skip_iov w iov)) as (wb & c & He & Hd).
    { rewrite skip_iov_concat by lia. by apply zlen_part. }
    rewrite skip_iov_concat in He, Hd by lia. rewrite zlen_drop in He by lia.
    eexists _, _. split; [exact He|]. by eapply delivered_part.
  - case_decide; [rewrite wbuf_newv_ok; cbn [res_bind]; eauto with mog|].
    case_decide; [by apply IH|eauto with mog].
Qed.

#[export] Instance trywritev_lossless : Lossless (@concat Z) mog_trywritev.
Proof.
  intros iov c. unfold mog_trywritev. rewrite total_len.
  destruct (Z.eqb_spec (zlen (concat iov)) 0) as [Hz|Hz].
  - eexists WNull, c, []. rewrite app_nil_r. split_and!; [done|done|done| |by eexists].
    destruct (concat iov); [done|]. autorewrite with zlen in Hz. pose proof (zlen_nonneg l). lia.
  - pose proof (zlen_nonneg (concat iov)).
    destruct (trywritev_loop_spec (replies c) (sent c) iov) as (w & c' & -> & acc & ?); [lia|].
    eexists w, c', acc. split; [done|intuition].
Qed.

Lemma trysend_loop_spec (rs : list reply) (out buf : list Z) :
  0 < zlen buf -> exists w c, trysend_loop rs out buf = Ok (w, c) /\ delivered buf out w c.
Proof.
  assert (forall b, wbuf_new b = Ok (WBuf 0 b)) as Hnew.
  { intros b. unfold wbuf_new. rewrite <- (app_nil_r b) at 1.
    change (b ++ []) with (concat [b]). rewrite wbuf_newv_ok. cbn. by rewrite app_nil_r. }
  revert out buf. induction rs as [|[n|e] rs IH]; intros out buf Hl; cbn [trysend_loop].
  - rewrite Hnew. cbn [res_bind]. eauto with mog.
  - set (w := Z.max 0 (Z.min n (zlen buf))).
    destruct (Z.eqb_spec w (zlen buf)) as [->|Hne]; [eauto with mog|].
    destruct (IH (out ++ take (Z.to_nat w) buf) (drop (Z.to_nat w) buf)) as (wb & c & He & Hd);
      [by apply zlen_part|].
    eexists _, _. split; [exact He|]. by eapply delivered_part.
  - case_decide; [rewrite Hnew; cbn [res_bind]; eauto with mog|].
    case_decide; [by apply IH|eauto with mog].
Qed.

#[export] Instance trysend_lossless : Lossless (fun b : list Z => b) mog_trysend.
Proof.
  intros buf c. unfold mog_trysend. destruct (Z.ltb_spec 0 (zlen buf)) as [Hz|Hz].
  - destruct (trysend_loop_spec (replies c) (sent c) buf Hz) as (w & c' & -> & acc & ?).
    eexists w, c', acc. split; [done|intuition].
  - eexists WNull, c, []. rewrite app_nil_r. split_and!; [done|done|done| |by eexists].
    destruct buf; [done|]. autorewrite with zlen in Hz. pose proof (zlen_nonneg buf). lia.
Qed.

(** Flushing a buffer: what was accepted plus what is left is unchanged. *)
Lemma tryflush_loop_spec (rs : list reply) (out : list Z) (off : Z) (buf : list Z) :
  0 <= off < zlen buf ->
  exists st w c, tryflush_loop rs out off buf (drop (Z.to_nat off) buf) = (st, w, c) /\
  match st with
  | MOG_WRSTATE_DONE => w = WNull /\ sent c = out ++ drop (Z.to_nat off) buf
  | MOG_WRSTATE_BUSY => wbuf_ok w /\ (exists o b, w = WBuf o b) /\
      sent c ++ pending w = out ++ drop (Z.to_nat off) buf
  | MOG_WRSTATE_ERR => w = WNull /\
      exists acc rest, sent c = out ++ acc /\ acc ++ rest = drop (Z.to_nat off) buf
  end.
Proof.
  revert out off. induction rs as [|[n|e] rs IH]; intros out off Hoff; cbn [tryflush_loop].
  - eexists _, _, _. split; [done|]. split_and!; [done|by eauto|done].
  - set (ptr := drop (Z.to_nat off) buf) in *.
    assert (zlen ptr = zlen buf - off) as Hptr by (unfold ptr; rewrite zlen_drop; lia).
    set (w := Z.max 0 (Z.min n (zlen ptr))).
    destruct (Z.eqb_spec w (zlen ptr)) as [->|Hne].
    + eexists _, _, _. split; [done|]. cbn. unfold zlen. by rewrite Nat2Z.id, firstn_all.
    + assert (drop (Z.to_nat w) ptr = drop (Z.to_nat (off + w)) buf) as Hd
        by (unfold ptr; rewrite drop_drop; f_equal; lia).
      destruct (IH (out ++ take (Z.to_nat w) ptr) (off + w)) as (st & wb & c & He & Hs); [lia|].
      rewrite <- Hd in He, Hs. eexists _, _, _. split; [exact He|].
      rewrite <- app_assoc in Hs. rewrite take_drop in Hs. destruct st; [|done..].
      destruct Hs as (-> & acc & rest & Hs & Hr). split; [done|].
      exists (take (Z.to_nat w) ptr ++ acc), rest. rewrite app_assoc. split; [done|].
      rewrite <- app_assoc, Hr. apply take_drop.
  - case_decide; [eexists _, _, _; split; [done|]; split_and!; [done|by eauto|done]|].
    case_decide; [by apply IH|]. eexists _, _, _. split; [done|]. split; [done|].
    exists [], (drop (Z.to_nat off) buf). by rewrite app_nil_r.
Qed.

(** ** Properties *)

(** C10.  Responses are never reordered, duplicated or truncated by partial
    writes: whatever the kernel accepts of each [writev], and however often it
    is interrupted, the bytes accepted so far followed by the buffered bytes
    are the vectors in order; a buffer is only returned when something is left
    to send, and on an error a prefix was sent.  The copy into the new buffer
    never overflows it. *)
Theorem trywritev_stream (iov : list (list Z)) (c : chan) :
  exists w c' acc, mog_trywritev iov c = Ok (w, c') /\ sent c' = sent c ++ acc /\
    wbuf_ok w /\ (w <> WError -> acc ++ pending w = concat iov) /\
    (exists rest, acc ++ rest = concat iov).
Proof. apply lossless. Qed.

(** Flushing is complete: a busy socket keeps exactly the unsent bytes,
    DONE means that every byte of the buffer was accepted, in order, and the
    buffer is gone. *)
Theorem tryflush_stream (off : Z) (buf : list Z) (c : chan) :
  0 <= off < zlen buf ->
  exists st w c', mog_tryflush (WBuf off buf) c = Ok (st, w, c') /\
  match st with
  | MOG_WRSTATE_DONE => w = WNull /\ sent c' = sent c ++ pending (WBuf off buf)
  | MOG_WRSTATE_BUSY => wbuf_ok w /\ (exists o b, w = WBuf o b) /\
      sent c' ++ pending w = sent c ++ pending (WBuf off buf)
  | MOG_WRSTATE_ERR => w = WNull /\
      exists acc rest, sent c' = sent c ++ acc /\ acc ++ rest = pending (WBuf off buf)
  end.
Proof.
  intros H. cbn [mog_tryflush pending].
  destruct (tryflush_loop_spec (replies c) (sent c) off buf H) as (st & w & c' & -> & Hs). eauto.
Qed.

Lemma tryflush_stream_witness :
  exists st w c', mog_tryflush (WBuf 1 [7; 8; 9]) (Chan [Ret 1; Fail EINTR] [7]) = Ok (st, w, c') /\
  match st with
  | MOG_WRSTATE_DONE => w = WNull /\ sent c' = [7; 8; 9]
  | MOG_WRSTATE_BUSY => wbuf_ok w /\ (exists o b, w = WBuf o b) /\ sent c' ++ pending w = [7; 8; 9]
  | MOG_WRSTATE_ERR => w = WNull /\
      exists acc rest, sent c' = [7] ++ acc /\ acc ++ rest = [8; 9]
  end.
Proof.
  apply (tryflush_stream 1 [7; 8; 9] (Chan [Ret 1; Fail EINTR] [7])).
  vm_compute. split; [discriminate|reflexivity].
Defined.
