(* ===== verification/HttpResp.v ===== *)
(** Dates and header-only responses: http_date.c, [mog_http_resp0] and
    [mog_http_reset] of http.c, [mog_http_reset_parser] of http_parser.rl.

    Responses are proved against the interface [Lossless] of the writers, so
    the theorems say which bytes reach the client. *)
From S2P Require Import Prelude Fmt Http TryWrite.
From stdpp Require Import base list numbers.
From Stdlib Require Import ZArith Lia.

#[local] Open Scope Z_scope.

(** ** http_date.c *)

(** The fields of [struct tm] that are printed. *)
Record tm := Tm {
  tm_wday : Z; tm_mday : Z; tm_mon : Z; tm_year : Z;
  tm_hour : Z; tm_min : Z; tm_sec : Z
}.

(** The tables of names; each name ends in a NUL byte, as in the C source. *)
Definition names (l : list (list Z)) : list Z := concat (map (fun n => n ++ [0]) l).
Definition week : list Z :=
  names [str "Sun"; str "Mon"; str "Tue"; str "Wed"; str "Thu"; str "Fri"; str "Sat"].
Definition months : list Z :=
  names [str "Jan"; str "Feb"; str "Mar"; str "Apr"; str "May"; str "Jun";
         str "Jul"; str "Aug"; str "Sep"; str "Oct"; str "Nov"; str "Dec"].

(** [%s] of a pointer into a table: the bytes up to the NUL. *)
Fixpoint cstr (l : list Z) : list Z :=
  match l with [] => [] | c :: l' => if c =? 0 then [] else c :: cstr l' end.
Definition name_at (tbl : list Z) (i : Z) : list Z := cstr (drop (Z.to_nat (i * 4)) tbl).

Definition MOG_HTTPDATE_CAPA : Z := 30.

(** [mog_http_date] once [gmtime_r] has filled [tm]. *)
Definition mog_http_date (t : tm) : res (list Z) :=
  let dst := name_at week (tm_wday t) ++ str ", " ++ fmt_02d (tm_mday t) ++ str " "
    ++ name_at months (tm_mon t) ++ str " " ++ fmt_4d (tm_year t + 1900) ++ str " "
    ++ fmt_02d (tm_hour t) ++ str ":" ++ fmt_02d (tm_min t) ++ str ":"
    ++ fmt_02d (tm_sec t) ++ str " GMT" in
  assert! zlen dst =? MOG_HTTPDATE_CAPA - 1;
  Ok dst.

(** The thread-local cache of [mog_now]. *)
Record mog_now_t := MogNow { ntime : Z; httpdate : list Z }.

Definition mog_now (gmtime : Z -> tm) (tnow : Z) (now : mog_now_t) : res mog_now_t :=
  if ntime now =? tnow then Ok now
  else let* d := mog_http_date (gmtime tnow) in Ok (MogNow tnow d).

(** ** [mog_http_resp0] *)

(** [sizeof(tls_fsbuf)] (alloc.c). *)
Definition FSBUF_SIZE : Z := 8192.

Definition resp_bytes (date status : list Z) (keep_alive : bool) : list Z :=
  str "HTTP/1.1 " ++ status ++ CRLF ++ str "Status: " ++ status ++ CRLF
  ++ str "Date: " ++ date ++ CRLF ++ str "Content-Length: 0" ++ CRLF
  ++ str "Content-Type: text/plain" ++ CRLF
  ++ str "Connection: " ++ (if keep_alive then str "keep-alive" else str "close")
  ++ CRLF ++ CRLF.

Definition mog_http_resp0 (date status : list Z) (alive : bool) (h : mog_http)
    (c : chan) : res (mog_http * chan) :=
  assert! zlen status * 2 + 1024 <? FSBUF_SIZE;
  let keep := alive && persistent h in
  let h := if keep then h else set_persistent false h in
  let iov := resp_bytes date status keep in
  assert! match wbuf h with WNull => true | _ => false end;
  let* ' (w, c') := mog_trywritev [iov] c in
  Ok (set_wbuf w h, c').

(** [mog_http_reset_parser]: everything but the read buffer is zeroed. *)
Definition http_parser_start : Z := 1.

Definition mog_http_reset_parser (h : mog_http) : mog_http :=
  MogHttp http_parser_start MOG_HTTP_METHOD_NONE false false false false false false
    false MOG_CHUNK_STATE_SIZE 0 0 0 0 None 0 0 0 0 (h_rbuf h) WNull (replicate 16 0).

(** [mog_http_reset]; [tcp_push] only changes a socket option. *)
Definition mog_http_reset (h : mog_http) : mog_http := mog_http_reset_parser h.

(** ** Lemmas *)

(** What the documentation of [gmtime_r] says of the broken-down time. *)
Definition tm_ok (t : tm) : Prop :=
  0 <= tm_wday t <= 6 /\ 1 <= tm_mday t <= 31 /\ 0 <= tm_mon t <= 11 /\
  0 <= tm_hour t <= 23 /\ 0 <= tm_min t <= 59 /\ 0 <= tm_sec t <= 60.

Lemma name_at_len (tbl : list Z) (n : nat) (i : Z) :
  forallb (fun i => zlen (name_at tbl i) =? 3) (zrange 0 n) = true ->
  0 <= i < Z.of_nat n -> zlen (name_at tbl i) = 3.
Proof.
  intros H Hi. rewrite forallb_forall in H. apply Z.eqb_eq, H, zrange_spec. lia.
Qed.

Lemma week_len (i : Z) : 0 <= i <= 6 -> zlen (name_at week i) = 3.
Proof. intros. apply (name_at_len _ 7); [vm_compute; reflexivity|lia]. Qed.

Lemma months_len (i : Z) : 0 <= i <= 11 -> zlen (name_at months i) = 3.
Proof. intros. apply (name_at_len _ 12); [vm_compute; reflexivity|lia]. Qed.

Lemma date_len (t : tm) :
  tm_ok t -> 0 <= tm_year t + 1900 <= 9999 -> exists d, mog_http_date t = Ok d /\ zlen d = 29.
Proof.
  intros (Hw & Hd & Hm & Hh & Hmi & Hs) Hy. unfold mog_http_date.
  match goal with |- context [assert_ (zlen ?l =? _) _] => set (dst := l) end.
  assert (zlen dst = 29) as Hlen.
  { unfold dst. rewrite !zlen_app, week_len, months_len by lia.
    rewrite !fmt_02d_len, fmt_4d_len by lia. reflexivity. }
  exists dst. rewrite Hlen. done.
Qed.

(** A response always fits the buffer: what is written and kept is the
    response, and the connection is closed later unless both sides keep it. *)
Lemma resp0_spec (date status : list Z) (alive : bool) (h : mog_http) (c : chan) :
  zlen status <= 3583 -> wbuf h = WNull ->
  exists w c' acc,
    mog_http_resp0 date status alive h c
      = Ok (set_wbuf w (if alive && persistent h then h else set_persistent false h), c') /\
    sent c' = sent c ++ acc /\ wbuf_ok w /\
    (w <> WError -> acc ++ pending w = resp_bytes date status (alive && persistent h)) /\
    (exists rest, acc ++ rest = resp_bytes date status (alive && persistent h)).
Proof.
  intros Hs Hw. unfold mog_http_resp0, FSBUF_SIZE.
  destruct (Z.ltb_spec (zlen status * 2 + 1024) 8192); [|lia]. cbn [assert_].
  replace (wbuf (if alive && persistent h then h else set_persistent false h)) with WNull
    by (destruct (alive && persistent h); cbn; done).
  cbn [assert_].
  destruct (lossless [resp_bytes date status (alive && persistent h)] c)
    as (w & c' & acc & -> & Hsent & Hok & Hall & Hpre).
  cbn [res_bind concat] in *. rewrite app_nil_r in *.
  exists w, c', acc. split_and!; done.
Qed.

(** ** Properties *)

(** The date written into responses has exactly 29 characters for every
    broken-down time of the years 0 to 9999, so the assertion on the length
    holds and [httpdate] is never overrun; from the year 10000 on the
    assertion fails and the process aborts. *)
Theorem http_date_length (t : tm) :
  tm_ok t -> 0 <= tm_year t + 1900 < 2 ^ 31 ->
  (tm_year t + 1900 <= 9999 -> exists d, mog_http_date t = Ok d /\ zlen d = 29) /\
  (10000 <= tm_year t + 1900 -> mog_http_date t = Crash AssertFailed).
Proof.
  intros Ht Hy. split; [intros; apply date_len; lia || done|]. intros Hbig.
  destruct Ht as (Hw & Hd & Hm & Hh & Hmi & Hs). unfold mog_http_date.
  match goal with |- context [assert_ (zlen ?l =? _) _] => set (dst := l) end.
  assert (30 <= zlen dst) as Hlen.
  { assert (5 <= zlen (fmt_4d (tm_year t + 1900))) as H5.
    { unfold fmt_4d, fmt_pad, fmt_d, fmt_u, zlen. destruct (Z.ltb_spec (tm_year t + 1900) 0); [lia|].
      rewrite length_app. pose proof (dec_digits_ge 20 4 (tm_year t + 1900) ltac:(lia) ltac:(cbn; lia)). lia. }
    unfold dst. rewrite !zlen_app, week_len, months_len by lia.
    rewrite !fmt_02d_len by lia. vm_compute (zlen (str _)). lia. }
  unfold MOG_HTTPDATE_CAPA. destruct (Z.eqb_spec (zlen dst) (30 - 1)); [lia|done].
Qed.

Definition epoch : tm := Tm 4 1 0 70 0 0 0.

Lemma http_date_length_witness :
  (tm_year epoch + 1900 <= 9999 -> exists d, mog_http_date epoch = Ok d /\ zlen d = 29) /\
  (10000 <= tm_year epoch + 1900 -> mog_http_date epoch = Crash AssertFailed).
Proof.
  apply (http_date_length epoch); [unfold tm_ok; cbn; lia|cbn; lia].
Defined.

(** The cache of [mog_now] never serves a stale date: once filled, it holds
    the date of the second it is asked for. *)
Lemma now_fresh (gmtime : Z -> tm) (tnow : Z) (now now' : mog_now_t) :
  (ntime now = 0 \/ mog_http_date (gmtime (ntime now)) = Ok (httpdate now)) ->
  mog_now gmtime tnow now = Ok now' -> tnow <> 0 ->
  ntime now' = tnow /\ mog_http_date (gmtime tnow) = Ok (httpdate now').
Proof.
  unfold mog_now. intros Hinv H Hne. destruct (Z.eqb_spec (ntime now) tnow) as [<-|Hn].
  - injection H as <-. destruct Hinv; done.
  - destruct (mog_http_date (gmtime tnow)) as [d|w] eqn:E; [|done].
    cbn in H. injection H as <-. done.
Qed.

(** An error or success response without a body is complete: the bytes
    accepted by the socket followed by the buffered ones are the status line,
    the headers and the empty line; [Connection: keep-alive] is announced
    exactly when the caller allows it and the request was persistent, and
    otherwise the connection is marked for closing. *)
Theorem http_resp_complete (date status : list Z) (alive : bool) (h : mog_http) (c : chan) :
  zlen status <= 3583 -> wbuf h = WNull ->
  exists h' c' acc, mog_http_resp0 date status alive h c = Ok (h', c') /\
    sent c' = sent c ++ acc /\
    (wbuf h' <> WError ->
       acc ++ pending (wbuf h') = resp_bytes date status (persistent h')) /\
    persistent h' = alive && persistent h.
Proof.
  intros Hs Hw. destruct (resp0_spec date status alive h c Hs Hw)
    as (w & c' & acc & -> & Hsent & _ & Hall & _).
  eexists _, c', acc. split; [done|].
  destruct alive, (persistent h) eqn:E; cbn in *; rewrite ?E; split_and!; done.
Qed.

Lemma http_resp_complete_witness :
  exists h' c' acc,
    mog_http_resp0 [] (str "404 Not Found") true (mog_http_reset_parser (MogHttp 0 MOG_HTTP_METHOD_PUT true true false false false false false
      MOG_CHUNK_STATE_SIZE 0 0 0 0 None 0 0 0 0 None WNull [])) (Chan [Ret 5] []) = Ok (h', c') /\
    sent c' = acc /\
    (wbuf h' <> WError ->
       acc ++ pending (wbuf h') = resp_bytes [] (str "404 Not Found") (persistent h')) /\
    persistent h' = false.
Proof. apply http_resp_complete; vm_compute; [discriminate|reflexivity]. Defined.
