(* ===== verification/World.v ===== *)
(** The outside of a connection: the docroot, the socket, and the replies of
    the system calls, with the state monad in which the handlers run. *)
From S2P Require Import Prelude Fmt Http TryWrite HttpResp.
From stdpp Require Import base list numbers gmap.
From Stdlib Require Import ZArith Lia.

#[local] Open Scope Z_scope.

(** What [read] on the socket meets next: bytes (the end of the stream when
    there are none) or an error. *)
Inductive rd :=
  | RBytes (bs : list Z)
  | RErr (e : errno).

(** File names are byte strings. *)
Abbreviation name := (list Z).

Record world := World {
  w_fs : gmap name (list Z)  (* the files of the docroot *);
  w_sock : list rd  (* bytes and errors to come on the socket *);
  w_pwrite : list reply  (* replies to pwrite *);
  w_sys : list reply  (* replies to open, fchmod, rename, unlink, mkdir *);
  w_rnd : list Z  (* random_r *);
  w_chan : chan  (* output to the client *);
  w_err : option errno  (* errno *);
  w_noatime : bool  (* O_NOATIME in noatime_flags of fs.c *)
}.

Definition set_fs (v : gmap name (list Z)) (w : world) : world :=
  World v (w_sock w) (w_pwrite w) (w_sys w) (w_rnd w) (w_chan w) (w_err w) (w_noatime w).
Definition set_sock (v : list rd) (w : world) : world :=
  World (w_fs w) v (w_pwrite w) (w_sys w) (w_rnd w) (w_chan w) (w_err w) (w_noatime w).
Definition set_pwrite (v : list reply) (w : world) : world :=
  World (w_fs w) (w_sock w) v (w_sys w) (w_rnd w) (w_chan w) (w_err w) (w_noatime w).
Definition set_sys (v : list reply) (w : world) : world :=
  World (w_fs w) (w_sock w) (w_pwrite w) v (w_rnd w) (w_chan w) (w_err w) (w_noatime w).
Definition set_rnd (v : list Z) (w : world) : world :=
  World (w_fs w) (w_sock w) (w_pwrite w) (w_sys w) v (w_chan w) (w_err w) (w_noatime w).
Definition set_chan (v : chan) (w : world) : world :=
  World (w_fs w) (w_sock w) (w_pwrite w) (w_sys w) (w_rnd w) v (w_err w) (w_noatime w).
Definition set_errno (v : option errno) (w : world) : world :=
  World (w_fs w) (w_sock w) (w_pwrite w) (w_sys w) (w_rnd w) (w_chan w) v (w_noatime w).
Definition set_noatime (v : bool) (w : world) : world :=
  World (w_fs w) (w_sock w) (w_pwrite w) (w_sys w) (w_rnd w) (w_chan w) (w_err w) v.

(** ** The monad of the handlers *)

(** Handlers pass the state of their connection ([S]) and the world. *)
Definition MS (S A : Type) : Type := S -> world -> res (A * S * world).
(** Handlers of HTTP connections. *)
Abbreviation M := (MS mog_http).

#[export] Instance M_ret {S} : MRet (MS S) := fun A a h w => Ok (a, h, w).
#[export] Instance M_bind {S} : MBind (MS S) := fun A B k m h w =>
  match m h w with
  | Ok (a, h', w') => k a h' w'
  | Crash r => Crash r
  end.

Definition get_http {S} : MS S S := fun h w => Ok (h, h, w).
Definition put_http {S} (f : S -> S) : MS S unit := fun h w => Ok (tt, f h, w).
Definition get_world {S} : MS S world := fun h w => Ok (w, h, w).
Definition put_world {S} (f : world -> world) : MS S unit := fun h w => Ok (tt, h, f w).
Definition crash {S A} (r : stop_reason) : MS S A := fun _ _ => Crash r.
Definition assertM {S} (b : bool) : MS S unit :=
  fun h w => if b then Ok (tt, h, w) else Crash AssertFailed.
Definition lift_res {S A} (m : res A) : MS S A := fun h w =>
  match m with Ok a => Ok (a, h, w) | Crash r => Crash r end.

(** ** System calls *)

(** The next reply; success when the script has none. *)
Definition sys_reply {S} : MS S (option errno) := fun h w =>
  match w_sys w with
  | [] => Ok (None, h, w)
  | Ret _ :: rs => Ok (None, h, set_sys rs w)
  | Fail e :: rs => Ok (Some e, h, set_errno (Some e) (set_sys rs w))
  end.

(** The value of a call that cannot fail. *)
Definition sys_value {S} : MS S Z := fun h w =>
  match w_sys w with
  | Ret n :: rs => Ok (n, h, set_sys rs w)
  | _ => Ok (0, h, w)
  end.

(** [mog_open_put (svc, path, flags)] with O_CREAT, and with O_EXCL|O_TRUNC
    when [excl]: the contents of the file that is open now. *)
Definition sys_open {S} (p : name) (excl : bool) : MS S (errno + list Z) :=
  e ← sys_reply;
  w ← get_world;
  match e, w_fs w !! p with
  | Some e, _ => mret (inl e)
  | None, Some c =>
      if excl then put_world (set_errno (Some EEXIST));; mret (inl EEXIST)
      else mret (inr c)
  | None, None => put_world (fun w => set_fs (<[p := []]> (w_fs w)) w);; mret (inr [])
  end.

(** [openat] of a file that is to be read: the contents it shows. *)
Definition open_read {S} (p : name) : MS S (errno + list Z) :=
  e ← sys_reply;
  w ← get_world;
  match e, w_fs w !! p with
  | Some e, _ => mret (inl e)
  | None, Some c => mret (inr c)
  | None, None => put_world (set_errno (Some ENOENT));; mret (inl ENOENT)
  end.

(** [mog_open_read]: the flag O_NOATIME is dropped for good when an open with
    it fails other than with ENOENT. *)
Definition mog_open_read {S} (p : name) : MS S (errno + list Z) :=
  fd ← open_read p;
  w ← get_world;
  match fd with
  | inl e =>
      if bool_decide (e <> ENOENT) && w_noatime w
      then put_world (set_noatime false);; open_read p
      else mret fd
  | inr _ => mret fd
  end.

(** The fields of [struct stat] the program looks at. *)
Record stat_t := Stat { st_size : Z; st_reg : bool }.

(** [fstat] of an open file and [fstatat] of a name: [Ret n] with [n <> 0]
    answers for something that is not a regular file. *)
Definition sys_stat {S} (c : option (list Z)) : MS S (errno + stat_t) := fun h w =>
  match w_sys w, c with
  | Fail e :: rs, _ => Ok (inl e, h, set_errno (Some e) (set_sys rs w))
  | rs, None => Ok (inl ENOENT, h, set_errno (Some ENOENT) (set_sys (tail rs) w))
  | rs, Some c =>
      Ok (inr (Stat (zlen c) (match rs with Ret n :: _ => n =? 0 | _ => true end)), h,
          set_sys (tail rs) w)
  end.

(** [mog_unlink (svc, path)]. *)
Definition mog_unlink {S} (p : name) : MS S (option errno) :=
  e ← sys_reply;
  w ← get_world;
  match e, w_fs w !! p with
  | Some e, _ => mret (Some e)
  | None, Some _ => put_world (fun w => set_fs (delete p (w_fs w)) w);; mret None
  | None, None => put_world (set_errno (Some ENOENT));; mret (Some ENOENT)
  end.

(** [read (fd, buf, len)] on the non-blocking socket. *)
Definition sys_read {S} (len : Z) : MS S (errno + list Z) := fun h w =>
  match w_sock w with
  | [] => Ok (inl EAGAIN, h, set_errno (Some EAGAIN) w)
  | RErr e :: s => Ok (inl e, h, set_errno (Some e) (set_sock s w))
  | RBytes bs :: s =>
      if zlen bs <=? len then Ok (inr bs, h, set_sock s w)
      else Ok (inr (take (Z.to_nat len) bs), h,
               set_sock (RBytes (drop (Z.to_nat len) bs) :: s) w)
  end.

(** Steps that any number of reads can take: every read takes an element or a
    byte of the stream. *)
Fixpoint sock_size (s : list rd) : nat :=
  match s with
  | [] => 0
  | RBytes bs :: s' => S (length bs + sock_size s')
  | RErr _ :: s' => S (sock_size s')
  end.

(** [mog_http_resp (http, status, alive)]. *)
Definition mog_http_resp (date : list Z) (status : list Z) (alive : bool) : M unit :=
  fun h w =>
    match mog_http_resp0 date status alive h (w_chan w) with
    | Ok (h', c') => Ok (tt, h', set_chan c' w)
    | Crash r => Crash r
    end.

(** ** Total correctness of handlers *)

(** [m] returns from [(h, w)], without a failed assertion, in [Q]. *)
Definition wp {S A} (m : MS S A) (h : S) (w : world)
    (Q : A -> S -> world -> Prop) : Prop :=
  exists a h' w', m h w = Ok (a, h', w') /\ Q a h' w'.

Lemma wp_ret {S A} (a : A) (h : S) w (Q : A -> S -> world -> Prop) :
  Q a h w -> wp (mret a) h w Q.
Proof. intros H. by exists a, h, w. Qed.

Lemma wp_bind {S A B} (m : MS S A) (k : A -> MS S B) h w Q :
  wp m h w (fun a h' w' => wp (k a) h' w' Q) -> wp (m ≫= k) h w Q.
Proof.
  intros (a & h' & w' & Hm & b & h2 & w2 & Hk & HQ). exists b, h2, w2. split; [|done].
  unfold mbind, M_bind. by rewrite Hm.
Qed.

Lemma bind_eq {S A B} (m : MS S A) (k : A -> MS S B) h w :
  (m ≫= k) h w = match m h w with Ok (a, h', w') => k a h' w' | Crash r => Crash r end.
Proof. done. Qed.

Lemma assert_bind {S B} (b : bool) (k : unit -> MS S B) h w :
  b = true -> (assertM b ≫= k) h w = k tt h w.
Proof. by intros ->. Qed.

Lemma wp_mono {S A} (m : MS S A) h w (P Q : A -> S -> world -> Prop) :
  wp m h w P -> (forall a h' w', P a h' w' -> Q a h' w') -> wp m h w Q.
Proof. intros (a & h' & w' & Hm & HP) HPQ. exists a, h', w'. auto. Qed.

Lemma wp_get_http {S} (h : S) w (Q : S -> S -> world -> Prop) :
  Q h h w -> wp get_http h w Q.
Proof. intros H. by exists h, h, w. Qed.

Lemma wp_put_http {S} f (h : S) w (Q : unit -> S -> world -> Prop) :
  Q tt (f h) w -> wp (put_http f) h w Q.
Proof. intros H. by exists tt, (f h), w. Qed.

Lemma wp_get_world {S} (h : S) w (Q : world -> S -> world -> Prop) :
  Q w h w -> wp get_world h w Q.
Proof. intros H. by exists w, h, w. Qed.

Lemma wp_put_world {S} f (h : S) w (Q : unit -> S -> world -> Prop) :
  Q tt h (f w) -> wp (put_world f) h w Q.
Proof. intros H. by exists tt, h, (f w). Qed.

Lemma wp_assert {S} b (h : S) w (Q : unit -> S -> world -> Prop) :
  b = true -> Q tt h w -> wp (assertM b) h w Q.
Proof. intros -> H. by exists tt, h, w. Qed.

(** The two outcomes of a call that may fail. *)
Lemma wp_sys_reply {S} (h : S) w (Q : option errno -> S -> world -> Prop) :
  (forall e rs err, (e = None -> err = w_err w) ->
     Q e h (set_errno err (set_sys rs w))) -> wp sys_reply h w Q.
Proof.
  intros HQ. unfold wp, sys_reply. destruct (w_sys w) as [|[n|e] rs] eqn:E.
  - eexists _, _, _. split; [done|]. specialize (HQ None (w_sys w) (w_err w) ltac:(done)).
    by destruct w.
  - eexists _, _, _. split; [done|]. specialize (HQ None rs (w_err w) ltac:(done)).
    by destruct w.
  - eexists _, _, _. split; [done|]. by apply (HQ (Some e) rs (Some e)).
Qed.

(** Sending a response only changes the socket, the write buffer and the
    persistence of the connection. *)
Lemma wp_resp_full date status alive h w (Q : unit -> mog_http -> world -> Prop) :
  zlen status <= 3583 -> wbuf h = WNull ->
  (forall wb c acc, sent c = sent (w_chan w) ++ acc -> wbuf_ok wb ->
     (wb <> WError -> acc ++ pending wb = resp_bytes date status (alive && persistent h)) ->
     (exists rest, acc ++ rest = resp_bytes date status (alive && persistent h)) ->
     Q tt (set_wbuf wb (set_persistent (alive && persistent h) h)) (set_chan c w)) ->
  wp (mog_http_resp date status alive) h w Q.
Proof.
  intros Hs Hw HQ. unfold wp, mog_http_resp.
  destruct (resp0_spec date status alive h (w_chan w) Hs Hw) as (wb & c & acc & -> & Hsent & Hok & Hall & Hpre).
  eexists _, _, _. split; [done|]. specialize (HQ wb c acc Hsent Hok Hall Hpre).
  destruct alive, (persistent h) eqn:E; cbn [andb] in *; try done.
  destruct h; cbn in *; by subst.
Qed.

Lemma wp_resp date status alive h w (Q : unit -> mog_http -> world -> Prop) :
  zlen status <= 3583 -> wbuf h = WNull ->
  (forall wb c acc, sent c = sent (w_chan w) ++ acc ->
     (exists rest, acc ++ rest = resp_bytes date status (alive && persistent h)) ->
     Q tt (set_wbuf wb (set_persistent (alive && persistent h) h)) (set_chan c w)) ->
  wp (mog_http_resp date status alive) h w Q.
Proof. intros Hs Hw HQ. apply wp_resp_full; [done|done|]. intros. by eapply HQ. Qed.

(** Symbolic execution of the plain operations. *)
Ltac wp_step :=
  cbv beta;
  lazymatch goal with
  | |- wp (mret _) _ _ _ => apply wp_ret
  | |- wp (_ ≫= _) _ _ _ => apply wp_bind
  | |- wp get_http _ _ _ => apply wp_get_http
  | |- wp (put_http _) _ _ _ => apply wp_put_http
  | |- wp get_world _ _ _ => apply wp_get_world
  | |- wp (put_world _) _ _ _ => apply wp_put_world
  | |- wp (assertM _) _ _ _ => apply wp_assert
  end; cbv beta.
