(* ===== verification/ChunkParser.v ===== *)
(** The parser of chunked request bodies: chunk_parser.c, generated by Ragel
    from chunk_parser.rl and http_common.rl.

    The transition code of the 66 states is translated block by block into the
    [cases_*] tables; the actions (the [tr] labels) are the definitions below
    them.  [mog_chunk_parse] is the whole function: it may be called again and
    again on a growing buffer and writes decoded data to [http->forward]. *)
From S2P Require Import Prelude Ragel Base64 Http.
From stdpp Require Import base list numbers.
From Stdlib Require Import ZArith Lia.

#[local] Open Scope Z_scope.

Definition chunk_parser_start : Z := 1.
Definition chunk_parser_first_final : Z := 60.
Definition chunk_parser_error : Z := 0.

(** ** Transition tables *)

(** The chunk header: [case 1] to [case 6], and [case 60], the first
    character after the header line. *)
Definition cases_size (cs c : Z) : option label :=
  match cs with
  | 1 =>
      Some (if c =? 13 then St 2
      else if c <? 65 then if rng 48 57 c then Tr 2
        else St 0
      else if 70 <? c then if rng 97 102 c then Tr 2
        else St 0
      else Tr 2)
  | 2 =>
      Some (if c =? 10 then St 3
      else St 0)
  | 3 =>
      Some (if c <? 65 then if rng 48 57 c then Tr 2
        else St 0
      else if 70 <? c then if rng 97 102 c then Tr 2
        else St 0
      else Tr 2)
  | 4 =>
      Some (if c =? 10 then St 0
      else if c =? 13 then St 6
      else if c <? 65 then if rng 48 57 c then Tr 2
        else St 5
      else if 70 <? c then if rng 97 102 c then Tr 2
        else St 5
      else Tr 2)
  | 5 =>
      Some (if c =? 10 then St 0
      else if c =? 13 then St 6
      else St 5)
  | 6 =>
      Some (if c =? 10 then Tr 6
      else St 0)
  | 60 =>
      Some (if c <? 65 then if rng 48 57 c then Tr 65
        else Tr 64
      else if 70 <? c then if rng 97 102 c then Tr 65
        else Tr 64
      else Tr 65)
  | _ => None
  end.

(** [case 61]: where [fbreak] in the chunk data action leaves the machine. *)
Definition cases_61 (cs c : Z) : option label :=
  match cs with
  | 61 =>
      Some (if c <? 65 then if rng 48 57 c then Tr 67
        else St 61
      else if 70 <? c then if rng 97 102 c then Tr 67
        else St 61
      else Tr 67)
  | _ => None
  end.

(** [case 62] to [case 64]. *)
Definition cases_62_64 (cs c : Z) : option label :=
  match cs with
  | 62 =>
      Some (if c =? 10 then St 61
      else if c =? 13 then St 63
      else if c <? 65 then if rng 48 57 c then Tr 67
        else St 62
      else if 70 <? c then if rng 97 102 c then Tr 67
        else St 62
      else Tr 67)
  | 63 =>
      Some (if c =? 10 then Tr 70
      else if c <? 65 then if rng 48 57 c then Tr 67
        else St 61
      else if 70 <? c then if rng 97 102 c then Tr 67
        else St 61
      else Tr 67)
  | 64 =>
      Some (if c <? 65 then if rng 48 57 c then Tr 71
        else Tr 64
      else if 70 <? c then if rng 97 102 c then Tr 71
        else Tr 64
      else Tr 71)
  | _ => None
  end.

(** The machine [ignored_trailer]: [case 7] to [case 15] and [case 65]. *)
Definition cases_ignored (cs c : Z) : option label :=
  match cs with
  | 7 =>
      Some (if c =? 45 then St 8
      else if c <? 65 then if rng 48 57 c then St 8
        else St 0
      else if 90 <? c then if rng 97 122 c then St 8
        else St 0
      else St 8)
  | 8 =>
      Some (if c =? 45 then St 8
      else if c =? 58 then St 9
      else if c <? 65 then if rng 48 57 c then St 8
        else St 0
      else if 90 <? c then if rng 97 122 c then St 8
        else St 0
      else St 8)
  | 9 =>
      Some (if (c =? 9) || (c =? 32) then St 9
      else if c =? 13 then St 13
      else if c =? 127 then St 0
      else if rng 0 31 c then St 0
      else St 10)
  | 10 =>
      Some (if c =? 9 then St 11
      else if c =? 13 then St 12
      else if c =? 127 then St 0
      else if rng 0 31 c then St 0
      else St 10)
  | 11 =>
      Some (if (c =? 9) || (c =? 32) then St 11
      else if c =? 13 then St 12
      else St 0)
  | 12 =>
      Some (if c =? 10 then Tr 13
      else St 0)
  | 65 =>
      Some (St 0)
  | 13 =>
      Some (if c =? 10 then Tr 14
      else St 0)
  | 14 =>
      Some (if (c =? 9) || (c =? 32) then St 15
      else St 0)
  | 15 =>
      Some (if (c =? 9) || (c =? 32) then St 15
      else if c =? 127 then St 0
      else if rng 0 31 c then St 0
      else St 10)
  | _ => None
  end.

(** The machine [more_trailers]: the empty line that ends the trailers and
    the name of the [Content-MD5:] trailer, [case 16] to [case 29]. *)
Definition cases_trailer (cs c : Z) : option label :=
  match cs with
  | 16 =>
      Some (if c =? 13 then St 17
      else if (c =? 67) || (c =? 99) then St 18
      else Tr 16)
  | 17 =>
      Some (if c =? 10 then Tr 19
      else St 0)
  | 66 =>
      Some (St 0)
  | 18 =>
      Some (if (c =? 79) || (c =? 111) then St 19
      else Tr 16)
  | 19 =>
      Some (if (c =? 78) || (c =? 110) then St 20
      else Tr 16)
  | 20 =>
      Some (if (c =? 84) || (c =? 116) then St 21
      else Tr 16)
  | 21 =>
      Some (if (c =? 69) || (c =? 101) then St 22
      else Tr 16)
  | 22 =>
      Some (if (c =? 78) || (c =? 110) then St 23
      else Tr 16)
  | 23 =>
      Some (if (c =? 84) || (c =? 116) then St 24
      else Tr 16)
  | 24 =>
      Some (if c =? 45 then St 25
      else Tr 16)
  | 25 =>
      Some (if (c =? 77) || (c =? 109) then St 26
      else Tr 16)
  | 26 =>
      Some (if (c =? 68) || (c =? 100) then St 27
      else Tr 16)
  | 27 =>
      Some (if c =? 53 then St 28
      else Tr 16)
  | 28 =>
      Some (if c =? 58 then St 29
      else Tr 16)
  | 29 =>
      Some (if (c =? 9) || (c =? 32) then St 29
      else if c =? 13 then St 30
      else if c =? 43 then Tr 33
      else if c <? 65 then if rng 47 57 c then Tr 33
        else Tr 31
      else if 90 <? c then if rng 97 122 c then Tr 33
        else Tr 31
      else Tr 33)
  | _ => None
  end.

(** [case 30] to [case 37]: white space and the first MD5 characters. *)
Definition cases_md5_a (cs c : Z) : option label :=
  match cs with
  | 30 =>
      Some (if c =? 10 then Tr 34
      else Tr 16)
  | 31 =>
      Some (if (c =? 9) || (c =? 32) then St 32
      else Tr 16)
  | 32 =>
      Some (if (c =? 9) || (c =? 32) then St 32
      else if c =? 43 then Tr 33
      else if c <? 65 then if rng 47 57 c then Tr 33
        else Tr 31
      else if 90 <? c then if rng 97 122 c then Tr 33
        else Tr 31
      else Tr 33)
  | 33 =>
      Some (if c =? 43 then St 34
      else if c <? 65 then if rng 47 57 c then St 34
        else Tr 31
      else if 90 <? c then if rng 97 122 c then St 34
        else Tr 31
      else St 34)
  | 34 =>
      Some (if c =? 43 then St 35
      else if c <? 65 then if rng 47 57 c then St 35
        else Tr 31
      else if 90 <? c then if rng 97 122 c then St 35
        else Tr 31
      else St 35)
  | 35 =>
      Some (if c =? 43 then St 36
      else if c <? 65 then if rng 47 57 c then St 36
        else Tr 31
      else if 90 <? c then if rng 97 122 c then St 36
        else Tr 31
      else St 36)
  | 36 =>
      Some (if c =? 43 then St 37
      else if c <? 65 then if rng 47 57 c then St 37
        else Tr 31
      else if 90 <? c then if rng 97 122 c then St 37
        else Tr 31
      else St 37)
  | 37 =>
      Some (if c =? 43 then St 38
      else if c <? 65 then if rng 47 57 c then St 38
        else Tr 31
      else if 90 <? c then if rng 97 122 c then St 38
        else Tr 31
      else St 38)
  | _ => None
  end.

(** [case 38] to [case 47]. *)
Definition cases_md5_b (cs c : Z) : option label :=
  match cs with
  | 38 =>
      Some (if c =? 43 then St 39
      else if c <? 65 then if rng 47 57 c then St 39
        else Tr 31
      else if 90 <? c then if rng 97 122 c then St 39
        else Tr 31
      else St 39)
  | 39 =>
      Some (if c =? 43 then St 40
      else if c <? 65 then if rng 47 57 c then St 40
        else Tr 31
      else if 90 <? c then if rng 97 122 c then St 40
        else Tr 31
      else St 40)
  | 40 =>
      Some (if c =? 43 then St 41
      else if c <? 65 then if rng 47 57 c then St 41
        else Tr 31
      else if 90 <? c then if rng 97 122 c then St 41
        else Tr 31
      else St 41)
  | 41 =>
      Some (if c =? 43 then St 42
      else if c <? 65 then if rng 47 57 c then St 42
        else Tr 31
      else if 90 <? c then if rng 97 122 c then St 42
        else Tr 31
      else St 42)
  | 42 =>
      Some (if c =? 43 then St 43
      else if c <? 65 then if rng 47 57 c then St 43
        else Tr 31
      else if 90 <? c then if rng 97 122 c then St 43
        else Tr 31
      else St 43)
  | 43 =>
      Some (if c =? 43 then St 44
      else if c <? 65 then if rng 47 57 c then St 44
        else Tr 31
      else if 90 <? c then if rng 97 122 c then St 44
        else Tr 31
      else St 44)
  | 44 =>
      Some (if c =? 43 then St 45
      else if c <? 65 then if rng 47 57 c then St 45
        else Tr 31
      else if 90 <? c then if rng 97 122 c then St 45
        else Tr 31
      else St 45)
  | 45 =>
      Some (if c =? 43 then St 46
      else if c <? 65 then if rng 47 57 c then St 46
        else Tr 31
      else if 90 <? c then if rng 97 122 c then St 46
        else Tr 31
      else St 46)
  | 46 =>
      Some (if c =? 43 then St 47
      else if c <? 65 then if rng 47 57 c then St 47
        else Tr 31
      else if 90 <? c then if rng 97 122 c then St 47
        else Tr 31
      else St 47)
  | 47 =>
      Some (if c =? 43 then St 48
      else if c <? 65 then if rng 47 57 c then St 48
        else Tr 31
      else if 90 <? c then if rng 97 122 c then St 48
        else Tr 31
      else St 48)
  | _ => None
  end.

(** [case 48] to [case 56]: the last MD5 characters and [==]. *)
Definition cases_md5_c (cs c : Z) : option label :=
  match cs with
  | 48 =>
      Some (if c =? 43 then St 49
      else if c <? 65 then if rng 47 57 c then St 49
        else Tr 31
      else if 90 <? c then if rng 97 122 c then St 49
        else Tr 31
      else St 49)
  | 49 =>
      Some (if c =? 43 then St 50
      else if c <? 65 then if rng 47 57 c then St 50
        else Tr 31
      else if 90 <? c then if rng 97 122 c then St 50
        else Tr 31
      else St 50)
  | 50 =>
      Some (if c =? 43 then St 51
      else if c <? 65 then if rng 47 57 c then St 51
        else Tr 31
      else if 90 <? c then if rng 97 122 c then St 51
        else Tr 31
      else St 51)
  | 51 =>
      Some (if c =? 43 then St 52
      else if c <? 65 then if rng 47 57 c then St 52
        else Tr 31
      else if 90 <? c then if rng 97 122 c then St 52
        else Tr 31
      else St 52)
  | 52 =>
      Some (if c =? 43 then St 53
      else if c <? 65 then if rng 47 57 c then St 53
        else Tr 31
      else if 90 <? c then if rng 97 122 c then St 53
        else Tr 31
      else St 53)
  | 53 =>
      Some (if c =? 43 then St 54
      else if c <? 65 then if rng 47 57 c then St 54
        else Tr 31
      else if 90 <? c then if rng 97 122 c then St 54
        else Tr 31
      else St 54)
  | 54 =>
      Some (if c =? 61 then St 55
      else Tr 31)
  | 55 =>
      Some (if c =? 61 then St 56
      else Tr 31)
  | 56 =>
      Some (if (c =? 9) || (c =? 32) then Tr 59
      else if c =? 13 then Tr 60
      else Tr 31)
  | _ => None
  end.

(** [case 57] to [case 59]: the end of the [Content-MD5:] line. *)
Definition cases_md5_end (cs c : Z) : option label :=
  match cs with
  | 57 =>
      Some (if (c =? 9) || (c =? 32) then St 57
      else if c =? 13 then St 58
      else Tr 31)
  | 58 =>
      Some (if c =? 10 then Tr 63
      else Tr 31)
  | 59 =>
      Some (if c =? 13 then St 17
      else if (c =? 67) || (c =? 99) then St 18
      else Tr 31)
  | _ => None
  end.

(** The [switch ( cs )] over all blocks. *)
Definition goto (cs c : Z) : option label :=
  match cases_size cs c with Some l => Some l | None =>
  match cases_61 cs c with Some l => Some l | None =>
  match cases_62_64 cs c with Some l => Some l | None =>
  match cases_ignored cs c with Some l => Some l | None =>
  match cases_trailer cs c with Some l => Some l | None =>
  match cases_md5_a cs c with Some l => Some l | None =>
  match cases_md5_b cs c with Some l => Some l | None =>
  match cases_md5_c cs c with Some l => Some l | None =>
  cases_md5_end cs c
  end end end end end end end end.

(** ** Actions *)

(** The variables of [mog_chunk_parse] the actions work on: the connection,
    [errno] ([None] is 0), [really_done] and the kernel's [pwrite] replies. *)
Record crun := CRun {
  c_http : mog_http;
  c_err : option errno;
  c_really_done : bool;
  c_script : list reply
}.

Definition upd (f : mog_http -> mog_http) (s : crun) : crun :=
  CRun (f (c_http s)) (c_err s) (c_really_done s) (c_script s).
Definition set_err (e : errno) (s : crun) : crun :=
  CRun (c_http s) (Some e) (c_really_done s) (c_script s).
Definition set_really_done (s : crun) : crun :=
  CRun (c_http s) (c_err s) true (c_script s).

(** [to_u16] (http_util.h) in front of a continuation. *)
Definition to_u16 {A} (len : Z) (k : Z -> jump A) : jump A :=
  if len <=? UINT16_MAX then k len else Stop AssertFailed.

(** [hexchar2off]; the last case is the failed assertion. *)
Definition hexchar2off (xdigit : Z) : option Z :=
  if rng 48 57 xdigit then Some (xdigit - 48)
  else if rng 97 102 xdigit then Some (xdigit - 97 + 10)
  else if rng 65 70 xdigit then Some (xdigit - 65 + 10)
  else None.

(** The action of [xdigit+]: accumulate the chunk size.  [n] is the state the
    generated code leaves in when the size overflows; [k] continues. *)
Definition size_digit (n : Z) (buf : list Z) (p : Z) (s : crun)
    (k : crun -> jump crun) : jump crun :=
  match hexchar2off (char_at buf p) with
  | None => Stop AssertFailed
  | Some d =>
      let prev := content_len (c_http s) in
      let len := wrap64 (wrap64 (prev * 16) + d) in
      if len <? prev
      then GoOut n (p + 1) (upd (set_content_len (-1)) (set_err ERANGE s))
      else k (upd (set_content_len len) s)
  end.

(** The action of [chunk_data]: the final chunk goes on to the trailers, the
    data of any other chunk is written.  Every path leaves the block with a
    [goto], so the code that follows it in [tr65] is never reached. *)
Definition chunk_data (n : Z) (buf : list Z) (p : Z) (s : crun) : jump crun :=
  let http := c_http s in
  if content_len http =? 0 then
    let s := upd (set_chunk_state MOG_CHUNK_STATE_TRAILER) s in
    let p := p - 1 in
    if 0 <=? p then
      if char_at buf p =? 10
      then to_u16 p (fun e => GoSt 16 p (upd (set_line_end e) s))
      else Stop AssertFailed
    else GoSt 16 p s
  else if negb (0 <? content_len http) then Stop AssertFailed
  else
    let buf_remain := zlen buf - p in
    if buf_remain =? 0 then GoOut n (p + 1) s
    else if negb (0 <? buf_remain) then Stop AssertFailed
    else
      let wr_len := Z.min (content_len http) buf_remain in
      if wr_len =? 0 then Stop AssertFailed
      else
      match forward http with
      | None => Stop OutOfBounds (* http->forward is NULL *)
      | Some file =>
          match mog_http_write_full (c_script s) file (slice p wr_len buf) (c_err s) with
          | Crash w => Stop w
          | Ok (ok, file', script', err') =>
              let s := CRun (set_forward (Some file') http) err'
                            (c_really_done s) script' in
              if negb ok then GoOut n (p + 1) s
              else
                let s := upd (set_content_len (content_len http - wr_len)) s in
                let p := p + wr_len - 1 in
                if negb (p <? zlen buf) then Stop AssertFailed
                else if 0 <? content_len (c_http s)
                then GoOut n (p + 1) (set_really_done s)
                else
                  let s := upd (set_chunk_state MOG_CHUNK_STATE_SIZE) s in
                  if wr_len =? buf_remain then
                    if content_len (c_http s) =? 0 then GoSt 1 p s
                    else GoOut n (p + 1) (set_really_done s)
                  else if negb (content_len (c_http s) =? 0) then Stop AssertFailed
                  else GoSt 1 p s
          end
      end.

(** The error action of [trailer_line]: back to the start of the line, to be
    skipped by [ignored_trailer]. *)
Definition rewind (buf : list Z) (s : crun) : jump crun :=
  let le := line_end (c_http s) in
  if 0 <? le then
    if negb (char_at buf le =? 10) then Stop AssertFailed
    else if negb (le + 1 <=? zlen buf) then Stop AssertFailed
    else GoSt 7 (le + 1) s
  else GoSt 7 0 s.

(** The action at the end of [b64_val]: decode the value into
    [http->expect_md5]; [n] is the next state. *)
Definition md5_decode (n : Z) (buf : list Z) (p : Z) (s : crun) : jump crun :=
  to_u16 p (fun tmp_end =>
    let tip := tmp_tip (c_http s) in
    if tmp_end <? tip then Stop OutOfBounds (* [inlen] wraps around *)
    else match base64_decode_ctx (slice tip (tmp_end - tip) buf) 16 with
    | Ok (true, out) =>
        if zlen out =? 16
        then GoSt n p (upd (fun h => set_has_expect_md5 true (set_expect_md5 out h)) s)
        else Stop AssertFailed
    | Ok (false, _) => Stop AssertFailed
    | Crash w => Stop w
    end).

(** The [tr] labels. *)
Definition act (k : Z) (buf : list Z) (p : Z) (s : crun) : jump crun :=
  let mark_line n := to_u16 p (fun e => GoSt n p (upd (set_line_end e) s)) in
  match k with
  | 2 => size_digit 4 buf p s (fun s => GoSt 4 p s)
  | 6 => GoSt 60 p (upd (set_chunk_state MOG_CHUNK_STATE_DATA) s)
  | 13 => mark_line 16
  | 14 => mark_line 14
  | 16 => rewind buf s
  | 19 => to_u16 p (fun e =>
            GoOut 66 (p + 1)
              (set_really_done (upd (fun h => set_line_end e
                 (set_chunk_state MOG_CHUNK_STATE_DONE h)) s)))
  | 31 => if negb (has_expect_md5 (c_http s))
          then GoOut 0 (p + 1) (set_err EINVAL s)
          else rewind buf s
  | 33 => to_u16 p (fun e => GoSt 33 p (upd (set_tmp_tip e) s))
  | 34 => mark_line 31
  | 59 => md5_decode 57 buf p s
  | 60 => md5_decode 58 buf p s
  | 63 => mark_line 59
  | 64 => chunk_data 61 buf p s
  | 65 => chunk_data 62 buf p s
  | 67 => size_digit 62 buf p s (fun s => GoSt 62 p s)
  | 70 => GoSt 64 p (upd (set_chunk_state MOG_CHUNK_STATE_DATA) s)
  | 71 => size_digit 62 buf p s (chunk_data 62 buf p)
  | _ => Stop AssertFailed
  end.

Definition step (buf : list Z) (cs p : Z) (s : crun) : jump crun :=
  match goto cs (char_at buf p) with
  | Some (St n) => if n =? 0 then GoOut 0 p s else GoSt n p s
  | Some (Tr k) => act k buf p s
  | None => GoOut 1 p s  (* no [case]: control falls to [_test_eof1] *)
  end.

(** ** The functions *)

Definition mog_chunk_init (h : mog_http) : res mog_http :=
  assert! chunked h;
  Ok (set_chunk_state MOG_CHUNK_STATE_SIZE (set_offset 0
       (set_content_len 0 (set_line_end 0 (set_cs chunk_parser_start h))))).

(** Steps that are always enough for a buffer of [len] bytes: trailer lines
    may be scanned twice. *)
Definition chunk_fuel (len : Z) : nat :=
  Z.to_nat ((len + 2) * (2 * (len + 2)) + 4 * (len + 2)).

Definition is_wnull (w : wbuf_ptr) : bool :=
  match w with WNull => true | _ => false end.

(** [mog_chunk_parse (http, buf, len)] with the kernel's replies to the writes
    it makes; returns the parser state, the connection, the replies left and
    [errno]. *)
Definition mog_chunk_parse (h : mog_http) (buf : list Z) (script : list reply)
  : res (mog_parser_state * mog_http * list reply * option errno) :=
  assert! is_wnull (wbuf h);
  assert! offset h <=? zlen buf;
  let* r := enter step (chunk_fuel (zlen buf)) buf (cs h) (offset h)
              (CRun h None false script) in
  let s := r_s r in
  let cs := if c_really_done s then chunk_parser_first_final else r_cs r in
  let h := set_offset (r_p r) (set_cs cs (c_http s)) in
  if (cs =? chunk_parser_error) || bool_decide (c_err s <> None)
  then Ok (MOG_PARSER_ERROR, h, c_script s, c_err s)
  else
    assert! r_p r <=? zlen buf;
    assert! offset h <=? zlen buf;
    if cs =? chunk_parser_first_final
    then Ok (MOG_PARSER_DONE, h, c_script s, c_err s)
    else Ok (MOG_PARSER_CONTINUE, h, c_script s, c_err s).
