(* ===== verification/ChunkInv.v ===== *)
(** Safety and termination of the chunk parser.

    [Inv] is what holds whenever control is at a [case] of the machine; it is
    also the contract between two calls of [mog_chunk_parse] on a buffer that
    grows.  The structural facts about the generated tables are decided by
    evaluating them on every state and every character. *)
From S2P Require Import Prelude Ragel Base64 Http ChunkParser.
From stdpp Require Import base list numbers.
From Stdlib Require Import ZArith Lia.

#[local] Open Scope Z_scope.

(** ** Facts about the transition tables *)

Definition size_st (cs : Z) : bool := rng 1 6 cs || (cs =? 60).
Definition ign_st (cs : Z) : bool := rng 7 15 cs.
Definition tra_st (cs : Z) : bool := rng 16 59 cs.
Definition alpha (c : Z) : bool :=
  rng 97 122 c || rng 65 90 c || rng 48 57 c || (c =? 47) || (c =? 43).
Definition hex (c : Z) : bool := rng 48 57 c || rng 97 102 c || rng 65 70 c.

(** States entered on a carriage return inside the trailers. *)
Definition cr_st (cs : Z) : bool :=
  (cs =? 12) || (cs =? 13) || (cs =? 17) || (cs =? 30) || (cs =? 58).

(** What a [goto stN] may look like. *)
Definition ok_st (cs c n : Z) : bool :=
  implb (cr_st n) (c =? 13) &&
  ((n =? 0)
  || ((rng 1 2 cs && rng 2 3 n) || (rng 4 5 cs && rng 5 6 n))
  || (ign_st cs && rng 8 15 n)
  || (tra_st cs && (rng 17 32 n || rng 57 58 n
        || (rng 34 54 n && (cs =? n - 1) && alpha c)
        || (rng 55 56 n && (cs =? n - 1) && (c =? 61))))).

(** Which state takes which [goto trK], and on which characters. *)
Definition ok_tr (cs c k : Z) : bool :=
  ((k =? 2) && (rng 1 1 cs || rng 3 4 cs) && hex c)
  || ((k =? 6) && (cs =? 6) && (c =? 10))
  || (rng 64 65 k && (cs =? 60))
  || (rng 13 14 k && ign_st cs && cr_st cs && (c =? 10))
  || (((k =? 16) || (k =? 31)) && tra_st cs)
  || ((k =? 19) && tra_st cs && cr_st cs && (c =? 10))
  || ((k =? 33) && rng 29 32 cs && alpha c)
  || (((k =? 34) || (k =? 63)) && tra_st cs && cr_st cs && (c =? 10))
  || ((k =? 59) && (cs =? 56))
  || ((k =? 60) && (cs =? 56) && (c =? 13)).

Definition ok_goto (cs c : Z) : bool :=
  match goto cs c with
  | Some (St n) => ok_st cs c n
  | Some (Tr k) => ok_tr cs c k
  | None => false
  end.

Lemma goto_ok (cs c : Z) : 1 <= cs <= 60 -> is_char c -> ok_goto cs c = true.
Proof.
  intros Hcs Hc.
  apply (check_table_sound (zrange 1 60) ok_goto); [vm_compute; reflexivity| |done].
  apply zrange_spec. lia.
Qed.

(** ** The invariant *)

(** The characters of a Content-MD5 value read so far: 22 of the alphabet,
    then [=]. *)
Definition md5_shape (w : list Z) : Prop :=
  forall i c, w !! i = Some c -> if decide (i < 22)%nat then alpha c = true else c = 61.

Definition chunk_state_of (cs : Z) : mog_chunk_state :=
  if rng 1 6 cs then MOG_CHUNK_STATE_SIZE
  else if cs =? 60 then MOG_CHUNK_STATE_DATA
  else MOG_CHUNK_STATE_TRAILER.

Record Inv (buf : list Z) (cs p : Z) (s : crun) : Prop := {
  inv_p : 0 <= p <= zlen buf;
  inv_cs : 1 <= cs <= 60;
  inv_len : 0 <= content_len (c_http s) <= OFF_MAX;
  inv_len0 : (1 <= cs <= 3 \/ 7 <= cs <= 59) -> content_len (c_http s) = 0;
  inv_state : chunk_state (c_http s) = chunk_state_of cs;
  inv_file : exists f, forward (c_http s) = Some f /\ 0 <= foff f;
  inv_wbuf : wbuf (c_http s) = WNull;
  inv_script : size_st cs = true -> zlen buf - p <= progress (c_script s);
  inv_line0 : 0 <= line_end (c_http s);
  inv_line : 0 < line_end (c_http s) ->
    line_end (c_http s) < p /\ char_at buf (line_end (c_http s)) = 10;
  inv_60 : cs = 60 -> 0 < p -> char_at buf (p - 1) = 10;
  inv_cr : cr_st cs = true -> 0 < p /\ char_at buf (p - 1) = 13;
  inv_md5 : 33 <= cs <= 56 ->
    tmp_tip (c_http s) = p - (cs - 32) /\ 0 <= tmp_tip (c_http s) /\
    md5_shape (slice (tmp_tip (c_http s)) (cs - 32) buf);
  inv_err : c_err s = None \/ c_err s = Some EINTR;
  inv_rd : c_really_done s = false
}.

(** What holds when the machine is left: an error, the end of the buffer in a
    state that can be resumed, a chunk whose data continues past the buffer,
    or the end of the body. *)
Inductive Post (buf : list Z) (n p : Z) (s : crun) : Prop :=
  | post_error : 0 <= p <= zlen buf -> n = 0 \/ (c_err s <> None) ->
      c_really_done s = false -> Post buf n p s
  | post_resume : Inv buf n p s -> p = zlen buf -> Post buf n p s
  | post_data : p = zlen buf -> c_really_done s = true ->
      chunk_state (c_http s) = MOG_CHUNK_STATE_DATA ->
      0 < content_len (c_http s) <= OFF_MAX ->
      (exists f, forward (c_http s) = Some f /\ 0 <= foff f) ->
      wbuf (c_http s) = WNull ->
      c_err s = None \/ c_err s = Some EINTR -> Post buf n p s
  | post_done : 0 < p <= zlen buf -> c_really_done s = true ->
      chunk_state (c_http s) = MOG_CHUNK_STATE_DONE ->
      line_end (c_http s) = p - 1 -> char_at buf (p - 1) = 10 ->
      (exists f, forward (c_http s) = Some f /\ 0 <= foff f) ->
      wbuf (c_http s) = WNull ->
      c_err s = None \/ c_err s = Some EINTR -> Post buf n p s.

(** Decreases at every step: lines left, then the pass over the line, then
    characters left. *)
Definition measure (buf : list Z) (cs p : Z) (s : crun) : Z :=
  let len := zlen buf in
  let lines := (len - line_end (c_http s)) * (2 * (len + 2)) in
  if ign_st cs then lines + (len - p)
  else if tra_st cs then lines + (len + 2) + (len - p)
  else (len + 2) * (2 * (len + 2)) + (len - p).

(** One step of the machine is fine from [(cs, p, s)]. *)
Definition ok_jump (buf : list Z) (mu : Z) (j : jump crun) : Prop :=
  match j with
  | GoSt n p s => Inv buf n (p + 1) s /\ measure buf n (p + 1) s < mu
  | GoOut n p s => Post buf n p s
  | Stop _ => False
  end.

(** ** Lemmas on slices and states *)

Lemma slice_snoc (tip k : Z) (buf : list Z) :
  0 <= tip -> 0 <= k -> tip + k < zlen buf ->
  slice tip (k + 1) buf = slice tip k buf ++ [char_at buf (tip + k)].
Proof.
  intros. unfold slice, char_at, zlen in *.
  rewrite Z2Nat.inj_add by lia. change (Z.to_nat 1) with 1%nat.
  rewrite Nat.add_1_r.
  assert (drop (Z.to_nat tip) buf !! Z.to_nat k
          = Some (nth (Z.to_nat (tip + k)) buf 0)) as Hk.
  { rewrite lookup_drop. replace (Z.to_nat tip + Z.to_nat k)%nat with (Z.to_nat (tip + k)) by lia.
    destruct (lookup_lt_is_Some_2 buf (Z.to_nat (tip + k))) as [x Hx]; [lia|].
    rewrite Hx. f_equal. symmetry. by apply nth_lookup_Some. }
  by rewrite (take_S_r _ _ _ Hk).
Qed.

Lemma md5_shape_snoc (w : list Z) (c : Z) :
  md5_shape w ->
  (if decide (length w < 22)%nat then alpha c = true else c = 61) ->
  md5_shape (w ++ [c]).
Proof.
  intros Hw Hc i x Hi. apply lookup_app_Some in Hi as [Hi|[Hle Hi]]; [by apply Hw in Hi|].
  apply list_lookup_singleton_Some in Hi as [Hi <-].
  by replace i with (length w) by lia.
Qed.

Lemma md5_shape_24 (w : list Z) :
  md5_shape w -> length w = 24%nat ->
  exists l, length l = 22%nat /\ Forall (fun c => alpha c = true) l /\ w = l ++ [61; 61].
Proof.
  intros Hw Hlen. exists (take 22 w). split_and!.
  - rewrite length_take. lia.
  - apply Forall_lookup. intros i c Hi. apply lookup_take_Some in Hi as [Hi Hlt].
    specialize (Hw i c Hi). by destruct (decide (i < 22)%nat).
  - rewrite <- (take_drop 22 w) at 1. f_equal.
    assert (length (drop 22 w) = 2%nat) as Hl by (rewrite length_drop; lia).
    assert (forall i c, (22 <= i)%nat -> w !! i = Some c -> c = 61) as H61.
    { intros i c Hi Hc. specialize (Hw i c Hc). by destruct (decide (i < 22)%nat); [lia|]. }
    destruct (drop 22 w) as [|x [|y [|]]] eqn:E; try done.
    assert (x = 61) as ->.
    { apply (H61 22%nat); [lia|]. pose proof (lookup_drop w 22 0) as H.
      rewrite E in H. by rewrite Nat.add_0_r in H. }
    assert (y = 61) as ->; [|done].
    { apply (H61 23%nat); [lia|]. pose proof (lookup_drop w 22 1) as H.
      rewrite E in H. done. }
Qed.

Lemma hexchar2off_hex (c : Z) :
  hex c = true -> exists d, hexchar2off c = Some d /\ 0 <= d < 16.
Proof.
  unfold hex, hexchar2off. intros H.
  destruct (rng 48 57 c) eqn:E1; [apply rng_true in E1; eexists; split; [done|lia]|].
  destruct (rng 97 102 c) eqn:E2; [apply rng_true in E2; eexists; split; [done|lia]|].
  destruct (rng 65 70 c) eqn:E3; [apply rng_true in E3; eexists; split; [done|lia]|].
  done.
Qed.

(** ** Preservation, action by action *)

(** States of the same phase. *)
Lemma size_st_state (n cs : Z) :
  1 <= n < 60 -> 1 <= cs <= 60 -> chunk_state_of n = chunk_state_of cs ->
  size_st n = true -> size_st cs = true.
Proof.
  unfold chunk_state_of, size_st. intros Hn Hcs He Hs.
  destruct (rng 1 6 n) eqn:E; [|destruct (Z.eqb_spec n 60); [lia|done]].
  destruct (rng 1 6 cs), (cs =? 60); done.
Qed.

Lemma tra_st_spec (cs : Z) :
  tra_st cs = true ->
  16 <= cs <= 59 /\ ign_st cs = false /\ size_st cs = false /\
  chunk_state_of cs = MOG_CHUNK_STATE_TRAILER.
Proof.
  unfold tra_st, ign_st, size_st, chunk_state_of. intros H. apply rng_true in H.
  replace (rng 7 15 cs) with false by (symmetry; apply rng_false; lia).
  replace (rng 1 6 cs) with false by (symmetry; apply rng_false; lia).
  destruct (Z.eqb_spec cs 60); [lia|]. done.
Qed.

Lemma ign_st_spec (cs : Z) :
  ign_st cs = true ->
  7 <= cs <= 15 /\ tra_st cs = false /\ size_st cs = false /\
  chunk_state_of cs = MOG_CHUNK_STATE_TRAILER.
Proof.
  unfold tra_st, ign_st, size_st, chunk_state_of. intros H. apply rng_true in H.
  replace (rng 16 59 cs) with false by (symmetry; apply rng_false; lia).
  replace (rng 1 6 cs) with false by (symmetry; apply rng_false; lia).
  destruct (Z.eqb_spec cs 60); [lia|]. done.
Qed.

Lemma size_st_spec (cs : Z) :
  1 <= cs <= 6 \/ cs = 60 ->
  ign_st cs = false /\ tra_st cs = false /\ size_st cs = true.
Proof.
  unfold tra_st, ign_st, size_st. intros H.
  replace (rng 16 59 cs) with false by (symmetry; apply rng_false; lia).
  replace (rng 7 15 cs) with false by (symmetry; apply rng_false; lia).
  split_and!; try done. apply orb_true_iff. rewrite rng_true, Z.eqb_eq. lia.
Qed.

(** Moving to the next character without touching the connection. *)
Lemma inv_advance (buf : list Z) (cs p : Z) (s : crun) (n : Z) :
  Inv buf cs p s -> p < zlen buf -> 1 <= n < 60 ->
  chunk_state_of n = chunk_state_of cs ->
  ((1 <= n <= 3 \/ 7 <= n <= 59) -> content_len (c_http s) = 0) ->
  (cr_st n = true -> char_at buf p = 13) ->
  (33 <= n <= 56 -> tmp_tip (c_http s) = p + 1 - (n - 32) /\ 0 <= tmp_tip (c_http s) /\
     md5_shape (slice (tmp_tip (c_http s)) (n - 32) buf)) ->
  Inv buf n (p + 1) s.
Proof.
  intros H Hp Hn Hst Hlen Hcr Hmd5. destruct H. constructor; try done; try lia.
  - congruence.
  - intros Hs. assert (size_st cs = true) as Hs' by by eapply size_st_state.
    specialize (inv_script0 Hs'). lia.
  - intros Hc. replace (p + 1 - 1) with p by lia. split; [lia|auto].
Qed.

(** Remembering the position of a line feed. *)
Lemma inv_set_line (buf : list Z) (n p : Z) (s : crun) :
  Inv buf n (p + 1) s -> 0 <= p -> char_at buf p = 10 ->
  Inv buf n (p + 1) (upd (set_line_end p) s).
Proof. intros H Hp Hc. destruct H. constructor; cbn; try done. intros _. split; [lia|done]. Qed.

Section Preservation.
Context (buf : list Z) (Hmax : zlen buf <= UINT16_MAX).

Lemma to_u16_ok {A} (p : Z) (k : Z -> jump A) :
  p <= zlen buf -> to_u16 p k = k p.
Proof. intros. unfold to_u16. destruct (Z.leb_spec p UINT16_MAX); [done|lia]. Qed.

Lemma rewind_ok (cs p : Z) (s : crun) :
  Inv buf cs p s -> p < zlen buf -> tra_st cs = true ->
  ok_jump buf (measure buf cs p s) (rewind buf s).
Proof.
  intros H Hp Hcs. unfold rewind.
  assert (forall q, 0 <= q <= p ->
            (0 < line_end (c_http s) -> line_end (c_http s) < q + 1) ->
            ok_jump buf (measure buf cs p s) (GoSt 7 q s)) as Hgo.
  { intros q Hqp Hql. apply tra_st_spec in Hcs as Hcs'. destruct Hcs' as (? & Hi & _ & Hst').
    destruct H as [? ? ? Hlen0 Hst ? ? ? Hl0 Hl ? ? ? ? ?]. split.
    - constructor; try done; try lia. by rewrite Hst, Hst'.
    - unfold measure. rewrite Hi, Hcs. cbn. lia. }
  destruct (Z.ltb_spec 0 (line_end (c_http s))) as [Hl|Hl].
  - destruct (inv_line _ _ _ _ H Hl) as [Hlt Hc]. rewrite Hc. cbn [negb Z.eqb Pos.eqb].
    destruct (Z.leb_spec (line_end (c_http s) + 1) (zlen buf)); [|lia].
    cbn [negb]. apply Hgo; lia.
  - apply Hgo; [|lia]. pose proof (inv_p _ _ _ _ H). lia.
Qed.

(** A line feed inside the trailers. *)
Lemma mark_line_ok (cs p : Z) (s : crun) (n : Z) :
  Inv buf cs p s -> p < zlen buf -> ign_st cs = true \/ tra_st cs = true ->
  cr_st cs = true -> char_at buf p = 10 -> 7 <= n <= 32 \/ n = 59 ->
  cr_st n = false ->
  ok_jump buf (measure buf cs p s)
    (to_u16 p (fun e => GoSt n p (upd (set_line_end e) s))).
Proof.
  intros H Hp Hcs Hcr Hc Hn Hncr. rewrite to_u16_ok by lia.
  destruct (inv_cr _ _ _ _ H Hcr) as [Hp0 H13].
  assert (chunk_state_of n = MOG_CHUNK_STATE_TRAILER /\
          ign_st n || tra_st n = true) as [Hn1 Hn2].
  { destruct (ign_st n) eqn:E; [apply ign_st_spec in E as (_ & _ & _ & ->); done|].
    destruct (tra_st n) eqn:E'; [apply tra_st_spec in E' as (_ & _ & _ & ->); done|].
    apply rng_false in E, E'. lia. }
  assert (chunk_state_of cs = MOG_CHUNK_STATE_TRAILER /\ 7 <= cs <= 59) as [Hst Hr].
  { destruct Hcs as [E|E]; [apply ign_st_spec in E as (? & _ & _ & ?)
                           |apply tra_st_spec in E as (? & _ & _ & ?)]; split; (done || lia). }
  pose proof (inv_p _ _ _ _ H). pose proof (inv_line0 _ _ _ _ H) as Hl0.
  pose proof (inv_line _ _ _ _ H) as Hl. split.
  - apply inv_set_line; [|lia|done].
    apply (inv_advance _ cs); [done|lia|lia|congruence| |congruence|intros ?; exfalso; lia].
    intros _. apply (inv_len0 _ _ _ _ H). lia.
  - unfold measure. cbn.
    destruct Hcs as [E|E].
    + rewrite E. destruct (ign_st n); [nia|]. cbn in Hn2. rewrite Hn2. nia.
    + apply tra_st_spec in E as E'. destruct E' as (_ & -> & _). rewrite E.
      destruct (ign_st n); [nia|]. cbn in Hn2. rewrite Hn2. nia.
Qed.

Lemma md5_decode_ok (p : Z) (s : crun) (n : Z) :
  Inv buf 56 p s -> p < zlen buf -> 57 <= n <= 58 ->
  (n = 58 -> char_at buf p = 13) ->
  ok_jump buf (measure buf 56 p s) (md5_decode n buf p s).
Proof.
  intros H Hp Hn H58. unfold md5_decode. rewrite to_u16_ok by lia.
  destruct (inv_md5 _ _ _ _ H ltac:(lia)) as (Htip & Ht0 & Hsh).
  rewrite Htip in *. destruct (Z.ltb_spec p (p - (56 - 32))); [lia|].
  replace (p - (p - (56 - 32))) with 24 by lia.
  assert (length (slice (p - (56 - 32)) (56 - 32) buf) = 24%nat) as Hl24.
  { pose proof (zlen_slice (p - (56 - 32)) (56 - 32) buf ltac:(lia) ltac:(lia) ltac:(lia)) as Hz.
    unfold zlen in Hz. lia. }
  destruct (md5_shape_24 _ Hsh Hl24) as (l & Hl & Ha & Heq).
  change (56 - 32) with 24 in *. rewrite Heq.
  destruct (base64_md5_ok l Hl Ha) as (md5 & -> & Hm & _).
  destruct (Z.eqb_spec (zlen md5) 16); [|unfold zlen in *; lia].
  assert (Inv buf n (p + 1) s) as Hi.
  { apply (inv_advance _ 56); [done|done|lia| | | |intros ?; exfalso; lia].
    - assert (n = 57 \/ n = 58) as [-> | ->] by lia; done.
    - intros _. apply (inv_len0 _ _ _ _ H). lia.
    - intros Hc. apply H58. assert (n = 57 \/ n = 58) as [-> | ->] by lia; done. }
  split.
  - destruct Hi. constructor; cbn; try done; lia.
  - unfold measure; cbn.
    replace (ign_st n) with false by (symmetry; apply rng_false; lia).
    replace (tra_st n) with true by (symmetry; apply rng_true; lia). cbn. lia.
Qed.

Lemma size_digit_ok (cs p : Z) (s : crun) :
  Inv buf cs p s -> p < zlen buf -> cs = 1 \/ cs = 3 \/ cs = 4 ->
  hex (char_at buf p) = true ->
  ok_jump buf (measure buf cs p s)
    (size_digit 4 buf p s (fun s => GoSt 4 p s)).
Proof.
  intros H Hp Hcs Hx. unfold size_digit.
  destruct (hexchar2off_hex _ Hx) as (d & -> & Hd).
  pose proof (inv_p _ _ _ _ H) as Hp0.
  set (len := wrap64 (_ + d)).
  pose proof (wrap64_range (wrap64 (content_len (c_http s) * 16) + d)) as Hr.
  fold len in Hr. clearbody len. unfold is_off in Hr.
  destruct (Z.ltb_spec len (content_len (c_http s))).
  - apply post_error; cbn; [lia|by right|apply (inv_rd _ _ _ _ H)].
  - assert (Inv buf 4 (p + 1) s) as Hi.
    { apply (inv_advance _ cs); [done..|lia| |lia|done|lia].
      destruct Hcs as [->|[->| ->]]; done. }
    pose proof (inv_len _ _ _ _ H). split.
    + destruct Hi. constructor; cbn; try done; unfold OFF_MAX in *; lia.
    + unfold measure; cbn. destruct Hcs as [->|[->| ->]]; cbn; lia.
Qed.

(** The empty chunk: back one character, on to the trailers. *)
Lemma last_chunk_ok (p : Z) (s : crun) (n : Z) :
  Inv buf 60 p s -> p < zlen buf -> content_len (c_http s) = 0 ->
  ok_jump buf (measure buf 60 p s) (chunk_data n buf p s).
Proof.
  intros H Hp H0. unfold chunk_data. rewrite H0. cbn [Z.eqb].
  pose proof (inv_60 _ _ _ _ H eq_refl) as H60.
  destruct H as [? ? ? ? ? ? ? ? Hl0 Hl ? ? ? ? ?].
  assert (forall e, 0 <= e < zlen buf -> (0 < e -> e < p /\ char_at buf e = 10) ->
    ok_jump buf (measure buf 60 p s)
      (GoSt 16 (p - 1) (upd (set_line_end e) (upd (set_chunk_state MOG_CHUNK_STATE_TRAILER) s)))) as Hgo.
  { intros e He1 He2. split.
    - constructor; cbn; try done; try lia.
    - unfold measure; cbn. nia. }
  destruct (Z.leb_spec 0 (p - 1)).
  - rewrite H60 by lia. rewrite Z.eqb_refl, to_u16_ok by lia. apply Hgo; [lia|].
    intros _. split; [lia|apply H60; lia].
  - specialize (Hgo (line_end (c_http s))).
    assert (line_end (c_http s) = 0) as Hz by (destruct (Z.eq_dec (line_end (c_http s)) 0); [done|lia]).
    replace (upd (set_line_end (line_end (c_http s))) _)
      with (upd (set_chunk_state MOG_CHUNK_STATE_TRAILER) s) in Hgo by (by destruct s as [[] ]).
    apply Hgo; lia.
Qed.

(** The data of a chunk, written as far as the buffer has it. *)
Lemma chunk_bytes_ok (p : Z) (s : crun) (n : Z) :
  Inv buf 60 p s -> p < zlen buf -> content_len (c_http s) <> 0 ->
  ok_jump buf (measure buf 60 p s) (chunk_data n buf p s).
Proof.
  intros H Hp Hn0. unfold chunk_data.
  destruct H as [Hp0 ? Hlen ? Hst (f & Hf & Hoff) ? Hscr Hl0 Hl ? ? ? Herr Hrd].
  specialize (Hscr eq_refl).
  destruct (Z.eqb_spec (content_len (c_http s)) 0); [lia|].
  destruct (Z.ltb_spec 0 (content_len (c_http s))); [|lia]. cbn [negb].
  destruct (Z.eqb_spec (zlen buf - p) 0); [lia|].
  destruct (Z.ltb_spec 0 (zlen buf - p)); [|lia]. cbn [negb].
  set (wr := Z.min (content_len (c_http s)) (zlen buf - p)).
  destruct (Z.eqb_spec wr 0); [lia|]. rewrite Hf.
  assert (zlen (slice p wr buf) = wr) as Hsl by (apply zlen_slice; lia).
  unfold mog_http_write_full. rewrite Hsl. destruct (Z.eqb_spec wr 0); [lia|].
  destruct (pwrite_loop_spec (c_script s) (slice p wr buf) (hash_write (slice p wr buf) f) None)
    as (b & f' & s' & e' & w & -> & Hw & Hb & Hf' & Hpr & He1 & He2).
  { unfold hash_write. destruct (digest_ctx f); done. }
  { intros E. rewrite E, zlen_nil in Hsl. lia. }
  { lia. }
  assert (foff f' = foff f + w) as Hoff'
    by (rewrite Hf'; unfold hash_write; destruct (digest_ctx f); done).
  destruct b; cbn [negb]; cycle 1.
  { apply post_error; cbn; [lia|right; auto|done]. }
  assert (w = wr) as -> by (rewrite <- Hsl; by apply Hb).
  destruct (Z.ltb_spec (p + wr - 1) (zlen buf)); [|lia]. cbn.
  destruct (Z.ltb_spec 0 (content_len (c_http s) - wr)).
  { apply post_data; cbn; [lia|done|done|lia|exists f'; split; [done|lia]|done|auto]. }
  replace (content_len (c_http s) - wr) with 0 by lia. cbn.
  assert (ok_jump buf (measure buf 60 p s)
    (GoSt 1 (p + wr - 1) (upd (set_chunk_state MOG_CHUNK_STATE_SIZE)
      (upd (set_content_len 0) (CRun (set_forward (Some f') (c_http s)) e' (c_really_done s) s')))))
    as Hgo; [|by destruct (wr =? zlen buf - p)].
  split; [|unfold measure; cbn; lia].
  constructor; cbn; try done; try lia.
  - exists f'. split; [done|lia].
  - by destruct (He2 eq_refl) as [->| ->]; auto.
Qed.

(** Within one phase the measure counts the characters left. *)
Lemma measure_next (cs n p : Z) (s : crun) :
  ign_st n = ign_st cs -> tra_st n = tra_st cs ->
  measure buf n (p + 1) s < measure buf cs p s.
Proof. unfold measure. intros -> ->. destruct (ign_st cs), (tra_st cs); lia. Qed.

(** One more character of a Content-MD5 value. *)
Lemma md5_next (cs p : Z) (s : crun) (n : Z) :
  Inv buf cs p s -> p < zlen buf -> 33 <= cs -> n = cs + 1 -> n <= 56 ->
  (n <= 54 -> alpha (char_at buf p) = true) ->
  (55 <= n -> char_at buf p = 61) ->
  tmp_tip (c_http s) = p + 1 - (n - 32) /\ 0 <= tmp_tip (c_http s) /\
  md5_shape (slice (tmp_tip (c_http s)) (n - 32) buf).
Proof.
  intros H Hp Hcs -> Hn Ha He.
  destruct (inv_md5 _ _ _ _ H) as (Ht & Ht0 & Hsh); [lia|].
  split_and!; [lia|done|]. replace (cs + 1 - 32) with (cs - 32 + 1) by lia.
  rewrite slice_snoc by lia. apply md5_shape_snoc; [done|].
  rewrite Ht. replace (p - (cs - 32) + (cs - 32)) with p by lia.
  pose proof (zlen_slice (p - (cs - 32)) (cs - 32) buf ltac:(lia) ltac:(lia) ltac:(lia)) as Hz.
  unfold zlen in Hz. case_decide; [apply Ha|apply He]; lia.
Qed.

(** A plain [goto stN]. *)
Lemma plain_goto_ok (cs p : Z) (s : crun) (n : Z) :
  Inv buf cs p s -> p < zlen buf -> n <> 0 -> ok_st cs (char_at buf p) n = true ->
  ok_jump buf (measure buf cs p s) (GoSt n p s).
Proof.
  intros H Hp Hn Hok. unfold ok_st in Hok. apply andb_true_iff in Hok as [Hcr Hok].
  assert (cr_st n = true -> char_at buf p = 13) as Hcr'
    by (intros E; rewrite E in Hcr; by apply Z.eqb_eq in Hcr).
  pose proof (inv_p _ _ _ _ H) as Hp0. pose proof (inv_len0 _ _ _ _ H) as Hl0.
  rewrite !orb_true_iff, !andb_true_iff, !orb_true_iff, !andb_true_iff, !Z.eqb_eq,
    !rng_true in Hok.
  destruct Hok as [[[?|Hs]|[Hi ?]]|[Ht Hok]]; [done|..].
  - destruct (size_st_spec cs ltac:(lia)) as (Hic & Htc & _).
    destruct (size_st_spec n ltac:(lia)) as (Hin & Htn & _).
    split; [apply (inv_advance _ cs); try done; try lia|apply measure_next; congruence].
    unfold chunk_state_of. by rewrite !(proj2 (rng_true _ _ _)) by lia.
  - assert (ign_st n = true) as Hn' by (apply rng_true; lia).
    destruct (ign_st_spec _ Hi) as (? & Htc & _ & Hst).
    destruct (ign_st_spec _ Hn') as (? & Htn & _ & Hstn).
    split; [|apply measure_next; congruence].
    apply (inv_advance _ cs); try done; try lia; congruence.
  - assert (tra_st n = true) as Hn' by (apply rng_true; lia).
    destruct (tra_st_spec _ Ht) as (? & Hi & _ & Hst).
    destruct (tra_st_spec _ Hn') as (? & Hin & _ & Hstn).
    split; [|apply measure_next; congruence].
    apply (inv_advance _ cs); try done; try lia; [congruence|].
    intros Hr. apply (md5_next cs); try done; try lia; intros ?;
      destruct Hok as [[[?|?]|[[??]?]]|[[??]?]]; done || lia.
Qed.

(** The start of a Content-MD5 value. *)
Lemma md5_start_ok (cs p : Z) (s : crun) :
  Inv buf cs p s -> p < zlen buf -> 29 <= cs <= 32 -> alpha (char_at buf p) = true ->
  ok_jump buf (measure buf cs p s)
    (to_u16 p (fun e => GoSt 33 p (upd (set_tmp_tip e) s))).
Proof.
  intros H Hp Hcs Ha. rewrite to_u16_ok by lia.
  assert (tra_st cs = true) as Ht by (apply rng_true; lia).
  destruct (tra_st_spec _ Ht) as (_ & Hi & _ & Hst).
  destruct H as [Hp0 ? ? Hlen0 Hst' ? ? ? ? ? ? ? ? ? ?]. split.
  - constructor; cbn; try done; try lia; [congruence|].
    intros _. split_and!; [lia|lia|].
    change (33 - 32) with 1. assert (slice p 1 buf = [char_at buf p]) as ->.
    { change 1 with (0 + 1). rewrite slice_snoc by lia. rewrite Z.add_0_r.
      unfold slice. by rewrite take_0. }
    intros i c Hc. apply list_lookup_singleton_Some in Hc as [-> <-]. by case_decide; [|lia].
  - apply (measure_next cs 33 p (upd (set_tmp_tip p) s)); by rewrite ?Hi, ?Ht.
Qed.

(** The empty line that ends the trailers. *)
Lemma body_end_ok (cs p : Z) (s : crun) (n : Z) :
  Inv buf cs p s -> p < zlen buf -> char_at buf p = 10 ->
  Post buf n (p + 1) (set_really_done (upd (fun h => set_line_end p
               (set_chunk_state MOG_CHUNK_STATE_DONE h)) s)).
Proof.
  intros H Hp Hc. destruct H. apply post_done; cbn; try done; try lia.
  by replace (p + 1 - 1) with p by lia.
Qed.

Lemma act_ok (cs p : Z) (s : crun) (k : Z) :
  Inv buf cs p s -> p < zlen buf -> ok_tr cs (char_at buf p) k = true ->
  ok_jump buf (measure buf cs p s) (act k buf p s).
Proof.
  intros H Hp Hok. unfold ok_tr in Hok.
  pose proof (inv_p _ _ _ _ H) as Hp0.
  rewrite !orb_true_iff, !andb_true_iff, ?orb_true_iff, ?andb_true_iff, !Z.eqb_eq,
    !rng_true in Hok.
  destruct Hok as [[[[[[[[[((->&?)&?)|((->& ->)&?)]|(?& ->)]|(((?&?)&?)&?)]|(Hk&?)]
    |(((->&?)&?)&?)]|((->&?)&?)]|(((Hk&?)&?)&?)]|(->& ->)]|((->& ->)&?)].
  - apply size_digit_ok; try done; lia.
  - split; [|by apply (measure_next 6 60 p (upd (set_chunk_state MOG_CHUNK_STATE_DATA) s))].
    pose proof (inv_script _ _ _ _ H eq_refl) as Hsc.
    destruct H. constructor; cbn; try done; try lia.
    intros _ _. by replace (p + 1 - 1) with p by lia.
  - destruct (Z.eq_dec (content_len (c_http s)) 0);
      assert (k = 64 \/ k = 65) as [-> | ->] by lia;
      (by apply last_chunk_ok) || by apply chunk_bytes_ok.
  - assert (k = 13 \/ k = 14) as [-> | ->] by lia; apply mark_line_ok; auto; lia.
  - destruct Hk as [-> | ->]; cbn [act]; [by apply rewind_ok|].
    destruct (has_expect_md5 (c_http s)); [by apply rewind_ok|].
    apply post_error; cbn; [lia|by left|apply (inv_rd _ _ _ _ H)].
  - cbn [act]. rewrite to_u16_ok by lia. by eapply body_end_ok.
  - apply md5_start_ok; try done; lia.
  - destruct Hk as [-> | ->]; apply mark_line_ok; auto; lia.
  - apply md5_decode_ok; done || lia.
  - apply md5_decode_ok; done || lia.
Qed.

Lemma step_ok (cs p : Z) (s : crun) :
  Forall is_char buf -> Inv buf cs p s -> p < zlen buf ->
  ok_jump buf (measure buf cs p s) (step buf cs p s).
Proof.
  intros Hch H Hp. unfold step.
  pose proof (inv_p _ _ _ _ H) as Hp0.
  pose proof (goto_ok cs (char_at buf p) (inv_cs _ _ _ _ H)
    (char_at_Forall is_char buf p Hch ltac:(lia))) as Hok.
  unfold ok_goto in Hok. destruct (goto cs (char_at buf p)) as [[n|k]|]; [| |done].
  - destruct (Z.eqb_spec n 0) as [->|Hn]; [|by apply plain_goto_ok].
    apply post_error; [lia|by left|apply (inv_rd _ _ _ _ H)].
  - by apply act_ok.
Qed.
End Preservation.

(** ** The contract of [mog_chunk_parse] *)

(** A connection on which [mog_chunk_parse] may be called with the bytes
    [buf], and enough replies of the kernel for the writes it may make. *)
Definition ready (buf : list Z) (script : list reply) (h : mog_http) : Prop :=
  Inv buf (cs h) (offset h) (CRun h None false script).

(** What the caller finds for each returned state. *)
Definition parse_post (buf : list Z) (st : mog_parser_state) (h : mog_http)
    (script : list reply) (err : option errno) : Prop :=
  match st with
  | MOG_PARSER_ERROR => cs h = chunk_parser_error \/ err <> None
  | MOG_PARSER_CONTINUE => offset h = zlen buf /\ ready buf script h
  | MOG_PARSER_DONE =>
      match chunk_state h with
      | MOG_CHUNK_STATE_DONE =>
          0 < offset h /\ char_at buf (offset h - 1) = 10
      | MOG_CHUNK_STATE_DATA =>
          offset h = zlen buf /\ 0 <= content_len h <= OFF_MAX
      | _ => False
      end
  end.

Lemma measure_fuel (buf : list Z) (cs p : Z) (s : crun) :
  0 <= p <= zlen buf -> 0 <= line_end (c_http s) ->
  measure buf cs p s < Z.of_nat (chunk_fuel (zlen buf)).
Proof.
  intros Hp Hl. unfold chunk_fuel, measure.
  rewrite Z2Nat.id by nia. destruct (ign_st cs), (tra_st cs); nia.
Qed.

Lemma measure_nonneg (buf : list Z) (cs p : Z) (s : crun) :
  Inv buf cs p s -> 0 <= measure buf cs p s.
Proof.
  intros H. pose proof (inv_p _ _ _ _ H). pose proof (inv_line0 _ _ _ _ H).
  assert (line_end (c_http s) <= zlen buf)
    by (destruct (Z.eq_dec (line_end (c_http s)) 0);
        [lia | pose proof (inv_line _ _ _ _ H ltac:(lia)); lia]).
  unfold measure. destruct (ign_st cs), (tra_st cs); nia.
Qed.

(** The machine returns from every state of the invariant. *)
Lemma machine_total (buf : list Z) (cs p : Z) (s : crun) :
  zlen buf <= UINT16_MAX -> Forall is_char buf -> Inv buf cs p s ->
  exists n p' s', enter step (chunk_fuel (zlen buf)) buf cs p s = Ok (Regs n p' s') /\
    Post buf n p' s'.
Proof.
  intros Hmax Hch H.
  apply (enter_total step buf (fun cs p s => Inv buf cs p s /\ p < zlen buf)
           (Post buf) (measure buf)).
  - intros cs' p' s' [H' Hp']. pose proof (inv_p _ _ _ _ H').
    split_and!; [lia|lia|by apply measure_nonneg|].
    pose proof (step_ok buf Hmax cs' p' s' Hch H' Hp') as Hj.
    destruct (step buf cs' p' s') as [n q t|n q t|w]; [|done..].
    destruct Hj as [Hi Hlt]. destruct (Z.eqb_spec (q + 1) (zlen buf)).
    + by apply post_resume.
    + pose proof (inv_p _ _ _ _ Hi). split_and!; [done|lia|done].
  - intros ->. by apply post_resume.
  - intros Hne. pose proof (inv_p _ _ _ _ H). split_and!; [done|lia|].
    apply measure_fuel; [done|apply (inv_line0 _ _ _ _ H)].
Qed.

(** Bytes appended to the buffer keep a resumable connection resumable. *)
Lemma char_at_grow (buf more : list Z) (p : Z) :
  0 <= p < zlen buf -> char_at (buf ++ more) p = char_at buf p.
Proof. apply char_at_app_l. Qed.

Lemma slice_grow (buf more : list Z) (off len : Z) :
  0 <= off -> 0 <= len -> off + len <= zlen buf ->
  slice off len (buf ++ more) = slice off len buf.
Proof.
  intros. unfold slice, zlen in *. rewrite drop_app_le by lia.
  apply take_app_le. rewrite length_drop. lia.
Qed.

Lemma inv_grow (buf more : list Z) (cs p : Z) (h : mog_http) err rd sc sc' :
  Inv buf cs p (CRun h err rd sc) -> p = zlen buf -> zlen more <= progress sc' ->
  Inv (buf ++ more) cs p (CRun h err rd sc').
Proof.
  intros H -> Hsc. pose proof (zlen_nonneg buf). pose proof (zlen_nonneg more).
  destruct H as [? ? ? ? ? ? ? ? Hl0 Hl H60 Hcr Hmd5 ? ?]. cbn in *.
  constructor; cbn; try done; try (autorewrite with zlen; lia).
  - intros Hlt. destruct (Hl Hlt). split; [done|]. rewrite char_at_grow; [done|lia].
  - intros Hc Hp. rewrite char_at_grow by lia. auto.
  - intros Hc. destruct (Hcr Hc). split; [done|]. rewrite char_at_grow; [done|lia].
  - intros Hc. destruct (Hmd5 Hc) as (? & ? & ?). split_and!; try done.
    rewrite slice_grow by lia. done.
Qed.

(** A fresh chunked body is ready for any first buffer. *)
Lemma init_ready (h : mog_http) (f : mog_file) (buf : list Z) (script : list reply) :
  chunked h = true -> forward h = Some f -> 0 <= foff f -> wbuf h = WNull ->
  zlen buf <= progress script ->
  exists h', mog_chunk_init h = Ok h' /\ ready buf script h'.
Proof.
  intros Hc Hf Hoff Hw Hsc. unfold mog_chunk_init. rewrite Hc. cbn [assert_].
  eexists. split; [done|]. pose proof (zlen_nonneg buf).
  constructor; cbn; unfold chunk_parser_start; try done; try lia; eauto.
Qed.

(** The invariant does not depend on the two fields the epilogue stores. *)
Lemma ready_stored (buf : list Z) (n p : Z) (s : crun) :
  Inv buf n p s -> c_err s = None ->
  ready buf (c_script s) (set_offset p (set_cs n (c_http s))).
Proof. intros H He. unfold ready. destruct H. constructor; cbn; auto. Qed.

Lemma parse_total (buf : list Z) (h : mog_http) (script : list reply) :
  zlen buf <= UINT16_MAX -> Forall is_char buf -> ready buf script h ->
  exists st h' script' err,
    mog_chunk_parse h buf script = Ok (st, h', script', err) /\
    0 <= offset h' <= zlen buf /\ parse_post buf st h' script' err.
Proof.
  intros Hmax Hch Hr. unfold mog_chunk_parse.
  pose proof (inv_wbuf _ _ _ _ Hr) as Hw. cbn in Hw. rewrite Hw. cbn [is_wnull assert_].
  pose proof (inv_p _ _ _ _ Hr) as Hp.
  destruct (Z.leb_spec (offset h) (zlen buf)); [|lia]. cbn [assert_].
  destruct (machine_total buf (cs h) (offset h) (CRun h None false script) Hmax Hch Hr)
    as (n & p & s & -> & Hpost). cbn [res_bind r_s r_cs r_p].
  assert (0 <= p <= zlen buf) as Hpp by (destruct Hpost; lia).
  destruct (c_err s) as [e|] eqn:He.
  { rewrite bool_decide_true, orb_true_r by done. do 4 eexists.
    split; [reflexivity|]. split; [done|]. by right. }
  rewrite bool_decide_false, orb_false_r by (by intros []).
  assert ((p <=? zlen buf) = true) as Hle by (apply Z.leb_le; lia).
  destruct Hpost as [? [Hn|?] Hrd|Hi Hpe|Hpe Hrd Hst Hl _ _ _|Hq Hrd Hst Hl Hc _ _ _];
    [|done|..]; subst; rewrite ?Hrd, ?(inv_rd _ _ _ _ Hi); cbn; rewrite ?Hle; cbn.
  - do 4 eexists. split; [reflexivity|]. split; [done|]. by left.
  - pose proof (inv_cs _ _ _ _ Hi). destruct (Z.eqb_spec n chunk_parser_error); [unfold chunk_parser_error in *; lia|].
    destruct (Z.eqb_spec n chunk_parser_first_final) as [->|].
    + do 4 eexists. split; [reflexivity|]. cbn. rewrite (inv_state _ _ _ _ Hi). cbn.
      split; [done|]. split; [done|]. apply (inv_len _ _ _ _ Hi).
    + do 4 eexists. split; [reflexivity|]. split; [done|]. split; [done|]. by apply ready_stored.
  - do 4 eexists. split; [reflexivity|]. split; [done|]. cbn. rewrite Hst. split; [done|lia].
  - do 4 eexists. split; [reflexivity|]. split; [done|]. cbn. rewrite Hst. split; [lia|done].
Qed.

(** ** Feeding a body in pieces *)

(** The caller appends what it has read to the buffer and calls the parser
    again as long as it asks for more; each call comes with the replies the
    kernel gives to its writes. *)
Fixpoint feed (h : mog_http) (buf : list Z) (segs : list (list Z * list reply))
  : res (mog_parser_state * mog_http * list Z) :=
  match segs with
  | [] => Ok (MOG_PARSER_CONTINUE, h, buf)
  | (more, script) :: segs' =>
      let* ' (st, h', _, _) := mog_chunk_parse h (buf ++ more) script in
      match st with
      | MOG_PARSER_CONTINUE => feed h' (buf ++ more) segs'
      | _ => Ok (st, h', buf ++ more)
      end
  end.

Definition seg_ok (s : list Z * list reply) : Prop :=
  Forall is_char s.1 /\ zlen s.1 <= progress s.2.

(** Growing the buffer of a connection that waits for more bytes. *)
Lemma ready_grow (buf more : list Z) (sc sc' : list reply) (h : mog_http) :
  ready buf sc h -> offset h = zlen buf -> zlen more <= progress sc' ->
  ready (buf ++ more) sc' h.
Proof. intros H He Hs. by eapply inv_grow. Qed.

Lemma feed_total (segs : list (list Z * list reply)) (h : mog_http) (buf : list Z)
    (sc : list reply) :
  ready buf sc h -> offset h = zlen buf -> Forall is_char buf -> Forall seg_ok segs ->
  zlen (buf ++ concat (map fst segs)) <= UINT16_MAX ->
  exists st h' buf', feed h buf segs = Ok (st, h', buf') /\
    0 <= offset h' <= zlen buf' /\
    (exists rest, buf' ++ rest = buf ++ concat (map fst segs)) /\
    exists sc' err, parse_post buf' st h' sc' err.
Proof.
  revert h buf sc. induction segs as [|[more script] segs IH]; intros h buf sc Hr He Hch Hs Hmax.
  - pose proof (zlen_nonneg buf). eexists _, _, _. split; [reflexivity|]. split; [lia|].
    split; [by exists []|]. exists sc, None. by split.
  - apply Forall_cons_1 in Hs as [[Hc1 Hp1] Hs]. cbn [feed map concat fst] in *.
    rewrite !app_assoc in Hmax |- *. pose proof (zlen_nonneg (concat (map fst segs))).
    rewrite zlen_app in Hmax.
    assert (Forall is_char (buf ++ more)) as Hch' by by apply Forall_app.
    destruct (parse_total (buf ++ more) h script ltac:(lia) Hch')
      as (st & h' & sc' & err & -> & Ho & Hpost).
    { by eapply ready_grow. }
    cbn [res_bind]. destruct st; [by eauto 12..|].
    destruct Hpost as [He' Hr']. eapply IH; try done. by rewrite zlen_app.
Qed.

(** ** Properties *)


Definition http0 : mog_http :=
  MogHttp 0 MOG_HTTP_METHOD_PUT true true false false false false false
    MOG_CHUNK_STATE_SIZE 0 0 0 0 (Some (MogFile 0 0 None None None [])) 0 0 0 0
    None WNull [].

