(* ===== verification/ChunkDecode.v ===== *)
(** What the chunk parser computes: the file receives exactly the
    concatenation of the chunks, for every legal spelling of the chunk sizes
    and of the chunk extensions; and the cases in which the generated code
    departs from the grammar it was generated from. *)
From S2P Require Import Prelude Fmt Ragel Base64 Http ChunkParser ChunkInv.
From stdpp Require Import base list numbers.
From Stdlib Require Import ZArith Lia.

#[local] Open Scope Z_scope.

(** ** The wire format *)

(** A chunk: the digits of its size, its extension and its data. *)
Record chunk := Chunk { digits : list Z; ext : list Z; data : list Z }.

Definition hexval (ds : list Z) : Z :=
  fold_left (fun acc c => acc * 16 + default 0 (hexchar2off c)) ds 0.

Definition legal_ext (e : list Z) : bool :=
  forallb (fun c => negb (c =? 10) && negb (c =? 13)) e &&
  match e with c :: _ => negb (hex c) | [] => true end.

(** A chunk whose size digits are right and fit the [off_t] of the parser. *)
Definition legal_chunk (c : chunk) : bool :=
  forallb hex (digits c) && negb (bool_decide (digits c = [])) && legal_ext (ext c) &&
  (hexval (digits c) =? zlen (data c)) && (zlen (data c) <=? OFF_MAX).

Definition header (c : chunk) : list Z := digits c ++ ext c ++ CRLF.

(** The chunks of a body followed by the terminator, here a chunk without
    data, and an empty trailer section. *)
Fixpoint encode (cs : list chunk) (fin : chunk) : list Z :=
  match cs with
  | [] => header fin ++ CRLF
  | c :: cs' => header c ++ data c ++ CRLF ++ encode cs' fin
  end.

Definition body (cs : list chunk) : list Z := concat (map data cs).

(** A kernel that neither fails nor interrupts a write, but may write less
    than asked. *)
Definition prompt (r : reply) : bool :=
  match r with Ret n => 0 <? n | Fail _ => false end.

(** ** Writing with such a kernel *)

Lemma progress_prompt (sc : list reply) :
  forallb prompt sc = true -> progress sc = zlen sc.
Proof.
  induction sc as [|[n|e] sc IH]; cbn [forallb prompt]; intros H; [done| |done].
  apply andb_true_iff in H as [_ H]. cbn [progress]. rewrite IH by done.
  autorewrite with zlen. lia.
Qed.

Lemma pwrite_loop_prompt (sc : list reply) (d : list Z) (f : mog_file) err :
  forallb prompt sc = true -> d <> [] -> zlen d <= zlen sc ->
  exists f' sc', pwrite_loop sc d f err = Ok (true, f', sc', err) /\
    forallb prompt sc' = true.
Proof.
  revert d f. induction sc as [|[n|e] sc IH]; cbn [forallb prompt]; intros d f Hs Hd Hle.
  - destruct d; [done|]. autorewrite with zlen in Hle. pose proof (zlen_nonneg d). lia.
  - apply andb_true_iff in Hs as [Hn Hs]. apply Z.ltb_lt in Hn.
    assert (0 < zlen d) as Hd0
      by (destruct d; [done|]; autorewrite with zlen; pose proof (zlen_nonneg d); lia).
    cbn [pwrite_loop]. destruct (Z.ltb_spec 0 (Z.min n (zlen d))); [|lia].
    destruct (Z.eqb_spec (Z.min n (zlen d)) (zlen d)); [by eauto|].
    apply IH; [done| |rewrite zlen_drop by lia; rewrite zlen_cons in Hle; lia].
    intros E. apply (f_equal zlen) in E. rewrite zlen_drop in E by lia.
    rewrite zlen_nil in E. lia.
  - done.
Qed.

Lemma write_full_prompt (sc : list reply) (d : list Z) (f : mog_file) err :
  forallb prompt sc = true -> d <> [] -> zlen d <= zlen sc -> 0 <= foff f ->
  exists sc', mog_http_write_full sc f d err = Ok (true, file_append d f, sc', None) /\
    forallb prompt sc' = true /\ zlen sc - zlen d <= zlen sc'.
Proof.
  intros Hs Hd Hle Hoff. unfold mog_http_write_full.
  assert (0 < zlen d) as Hd0
    by (destruct d; [done|]; autorewrite with zlen; pose proof (zlen_nonneg d); lia).
  destruct (Z.eqb_spec (zlen d) 0); [lia|].
  assert (foff (hash_write d f) = foff f /\ contents (hash_write d f) = contents f) as [Hf1 Hf2]
    by (unfold hash_write; by destruct (digest_ctx f)).
  destruct (pwrite_loop_prompt sc d (hash_write d f) None Hs Hd Hle) as (f' & sc' & Heq & Hs').
  destruct (pwrite_loop_spec sc d (hash_write d f) None) as
    (b & f2 & sc2 & e2 & w & Heq2 & Hw & Hb & Hf & Hp & _).
  { by rewrite Hf1. } { done. } { by rewrite progress_prompt. }
  rewrite Heq in Heq2. simplify_eq. assert (w = zlen d) as -> by by apply Hb.
  exists sc2. split_and!; [|done|rewrite !progress_prompt in Hp by done; lia].
  rewrite Heq. do 4 f_equal. destruct (Z.eqb_spec (zlen d) 0); [lia|].
  rewrite Hf1, Hf2. unfold zlen at 2. rewrite Nat2Z.id, firstn_all. by destruct d.
Qed.

(** ** Running the machine over one chunk *)

Abbreviation runs := (Ragel.runs step).

Lemma step_at (pre : list Z) (c : Z) (suf : list Z) (cs : Z) (s : crun) (l : label) :
  goto cs c = Some l ->
  step (pre ++ c :: suf) cs (zlen pre) s =
    match l with
    | St n => if n =? 0 then GoOut 0 (zlen pre) s else GoSt n (zlen pre) s
    | Tr k => act k (pre ++ c :: suf) (zlen pre) s
    end.
Proof. intros H. unfold step. by rewrite char_at_mid, H. Qed.

Definition accum (acc : Z) (ds : list Z) : Z :=
  fold_left (fun acc c => acc * 16 + default 0 (hexchar2off c)) ds acc.

Lemma accum_ge (ds : list Z) (acc : Z) :
  forallb hex ds = true -> 0 <= acc -> acc <= accum acc ds.
Proof.
  revert acc. induction ds as [|c ds IH]; intros acc H H0; cbn [accum fold_left]; [done|].
  apply andb_true_iff in H as [Hc H]. destruct (hexchar2off_hex _ Hc) as (d & -> & Hd).
  cbn [default from_option id]. etransitivity; [|apply IH; [done|lia]]. lia.
Qed.

Lemma goto_hex (cs c : Z) : cs = 1 \/ cs = 3 \/ cs = 4 -> hex c = true -> goto cs c = Some (Tr 2).
Proof.
  intros Hcs Hx. unfold hex in Hx.
  rewrite !orb_true_iff, !rng_true in Hx.
  assert (is_char c) as Hc by (unfold is_char; lia).
  pose proof (check_table_sound [1; 3; 4]
    (fun cs c => implb (hex c) match goto cs c with Some (Tr 2) => true | _ => false end)
    ltac:(vm_compute; reflexivity) cs c) as Ht. cbn beta in Ht.
  assert (hex c = true) as E by (unfold hex; rewrite !orb_true_iff, !rng_true; lia).
  rewrite E in Ht. cbn [implb] in Ht.
  assert (In cs [1; 3; 4]) as Hin by (cbn; lia).
  specialize (Ht Hin Hc). destruct (goto cs c) as [[|n]|]; try done.
  destruct n as [|[|[]|]|]; done.
Qed.

Lemma run_size_digits (ds pre suf : list Z) (cs : Z) (s : crun) Q :
  forallb hex ds = true -> cs = 4 \/ ((cs = 1 \/ cs = 3) /\ ds <> []) ->
  0 <= content_len (c_http s) -> accum (content_len (c_http s)) ds <= OFF_MAX ->
  runs ((pre ++ ds) ++ suf) 4 (zlen (pre ++ ds))
    (upd (set_content_len (accum (content_len (c_http s)) ds)) s) Q ->
  runs (pre ++ ds ++ suf) cs (zlen pre) s Q.
Proof.
  revert pre cs s. induction ds as [|c ds IH]; intros pre cs s Hx Hcs H0 Hmax Hr.
  - destruct Hcs as [->|[_ ?]]; [|done]. rewrite app_nil_r in Hr. cbn in Hr.
    by destruct s as [[] ? ? ?].
  - apply andb_true_iff in Hx as [Hc Hx]. rewrite <- app_comm_cons.
    cbn [accum fold_left] in Hmax, Hr.
    destruct (hexchar2off_hex _ Hc) as (d & Hd & Hdr). rewrite Hd in Hmax, Hr.
    cbn [default from_option id] in Hmax, Hr.
    set (v := content_len (c_http s) * 16 + d) in *.
    pose proof (accum_ge ds v Hx ltac:(lia)). change (fold_left _ ds v) with (accum v ds) in *.
    unfold OFF_MAX in *.
    eapply (runs_char _ _ _ _ _ _ 4 (upd (set_content_len v) s)).
    + rewrite (step_at _ _ _ _ _ (Tr 2)) by (apply goto_hex; [intuition|done]).
      cbn [act]. unfold size_digit. rewrite char_at_mid, Hd.
      rewrite !wrap64_id by (unfold is_off; rewrite ?wrap64_id; unfold is_off; lia).
      fold v. destruct (Z.ltb_spec v (content_len (c_http s))); [lia|done].
    + apply IH; [done|by left|cbn; lia|cbn; unfold OFF_MAX; lia|].
      rewrite <- !app_assoc in *. exact Hr.
Qed.

Lemma goto_ext (cs c : Z) :
  c <> 10 -> c <> 13 -> cs = 5 \/ (cs = 4 /\ hex c = false) -> goto cs c = Some (St 5).
Proof.
  intros H10 H13. unfold hex. rewrite !orb_false_iff, !rng_false.
  intros [->|[-> Hx]]; cbn; split_ifs; try done; try lia;
    rewrite ?rng_true in *; lia.
Qed.

Lemma run_ext_end (pre suf : list Z) (cs : Z) (s : crun) Q :
  cs = 4 \/ cs = 5 ->
  runs ((pre ++ CRLF) ++ suf) 60 (zlen (pre ++ CRLF))
    (upd (set_chunk_state MOG_CHUNK_STATE_DATA) s) Q ->
  runs (pre ++ CRLF ++ suf) cs (zlen pre) s Q.
Proof.
  intros Hcs Hr. cbn [CRLF app]. eapply (runs_char _ _ _ _ _ _ 6 s).
  - rewrite (step_at _ _ _ _ _ (St 6)); [done|]. by destruct Hcs as [-> | ->].
  - eapply (runs_char _ _ _ _ _ _ 60).
    + by rewrite (step_at _ _ _ _ _ (Tr 6)).
    + cbn [CRLF] in Hr. by rewrite <- !app_assoc in *.
Qed.

Lemma run_ext (e pre suf : list Z) (cs : Z) (s : crun) Q :
  forallb (fun c => negb (c =? 10) && negb (c =? 13)) e = true ->
  (cs = 5 \/ (cs = 4 /\ match e with c :: _ => negb (hex c) | [] => true end = true)) ->
  runs ((pre ++ e ++ CRLF) ++ suf) 60 (zlen (pre ++ e ++ CRLF))
    (upd (set_chunk_state MOG_CHUNK_STATE_DATA) s) Q ->
  runs (pre ++ (e ++ CRLF) ++ suf) cs (zlen pre) s Q.
Proof.
  revert pre cs. induction e as [|c e IH]; intros pre cs He Hcs Hr.
  - apply run_ext_end; [lia|done].
  - apply andb_true_iff in He as [Hc He]. apply andb_true_iff in Hc as [H10 H13].
    apply negb_true_iff, Z.eqb_neq in H10, H13. cbn [app].
    eapply (runs_char _ _ _ _ _ _ 5 s).
    + rewrite (step_at _ _ _ _ _ (St 5)); [done|]. apply goto_ext; [done..|].
      destruct Hcs as [?|[? Hn]]; [by left|right]. by apply negb_true_iff in Hn.
    + apply IH; [done|by left|]. rewrite <- !app_assoc in *. exact Hr.
Qed.

(** The header of a chunk, up to the first byte of its data. *)
Lemma run_header (c : chunk) (pre suf : list Z) (cs : Z) (s : crun) Q :
  legal_chunk c = true -> cs = 1 \/ cs = 3 -> content_len (c_http s) = 0 ->
  runs ((pre ++ header c) ++ suf) 60 (zlen (pre ++ header c))
    (upd (set_chunk_state MOG_CHUNK_STATE_DATA)
       (upd (set_content_len (zlen (data c))) s)) Q ->
  runs (pre ++ header c ++ suf) cs (zlen pre) s Q.
Proof.
  intros Hl Hcs H0 Hr. unfold legal_chunk, legal_ext in Hl.
  rewrite !andb_true_iff, negb_true_iff, bool_decide_eq_false, Z.eqb_eq, Z.leb_le in Hl.
  destruct Hl as ((((Hhex & Hne) & (He1 & He2)) & Hval) & Hmax).
  unfold header in *. rewrite <- app_assoc.
  change (hexval (digits c)) with (accum 0 (digits c)) in Hval. rewrite <- H0 in Hval.
  apply run_size_digits; [done|by right|lia|by rewrite Hval|].
  apply run_ext; [done|by right|].
  rewrite Hval, <- !app_assoc in *. exact Hr.
Qed.

(** What is kept between two chunks. *)
Record between (s : crun) (f : mog_file) : Prop := {
  bt_len : content_len (c_http s) = 0;
  bt_file : forward (c_http s) = Some f;
  bt_off : 0 <= foff f;
  bt_err : c_err s = None;
  bt_rd : c_really_done s = false;
  bt_prompt : forallb prompt (c_script s) = true
}.

Lemma goto_60 (c : Z) : exists k, goto 60 c = Some (Tr k) /\ (k = 64 \/ k = 65).
Proof. cbn. split_ifs; eauto. Qed.

Lemma act_data (k : Z) (buf : list Z) (p : Z) (s : crun) :
  k = 64 \/ k = 65 -> exists n, act k buf p s = chunk_data n buf p s.
Proof. intros [-> | ->]; by eexists. Qed.

(** The whole data of a chunk, followed by more of the body. *)
Lemma run_data (d pre suf : list Z) (s : crun) (f : mog_file) Q :
  d <> [] -> suf <> [] -> content_len (c_http s) = zlen d ->
  forward (c_http s) = Some f -> 0 <= foff f -> c_really_done s = false ->
  forallb prompt (c_script s) = true -> zlen d <= zlen (c_script s) ->
  (forall s', between s' (file_append d f) ->
     zlen (c_script s) - zlen d <= zlen (c_script s') ->
     runs ((pre ++ d) ++ suf) 1 (zlen (pre ++ d)) s' Q) ->
  runs (pre ++ d ++ suf) 60 (zlen pre) s Q.
Proof.
  intros Hd Hs Hlen Hf Hoff Hrd Hpr Hsc Hk.
  pose proof (zlen_nonneg pre). pose proof (zlen_nonneg suf).
  assert (0 < zlen d) as Hd0
    by (destruct d; [done|]; autorewrite with zlen; pose proof (zlen_nonneg d); lia).
  destruct (write_full_prompt (c_script s) d f (c_err s) Hpr Hd Hsc Hoff) as (sc' & Hw & Hpr' & Hsc').
  set (s' := upd (set_chunk_state MOG_CHUNK_STATE_SIZE) (upd (set_content_len 0)
     (CRun (set_forward (Some (file_append d f)) (c_http s)) None (c_really_done s) sc'))).
  assert (step (pre ++ d ++ suf) 60 (zlen pre) s = GoSt 1 (zlen pre + zlen d - 1) s') as Hst.
  { unfold step. destruct (goto_60 (char_at (pre ++ d ++ suf) (zlen pre))) as (k & -> & Hk64).
    destruct (act_data k (pre ++ d ++ suf) (zlen pre) s Hk64) as (n & ->).
    unfold chunk_data. rewrite Hlen, Hf. autorewrite with zlen.
    replace (zlen pre + (zlen d + zlen suf) - zlen pre) with (zlen d + zlen suf) by lia.
    rewrite (Z.min_l (zlen d)) by lia.
    rewrite slice_app_mid, Hw by done. cbn.
    rewrite Z.sub_diag. cbn. split_ifs; try lia; done. }
  eapply runs_go; [|exact Hst|].
  - autorewrite with zlen. lia.
  - specialize (Hk s'). rewrite <- app_assoc in Hk.
    replace (zlen pre + zlen d - 1 + 1) with (zlen (pre ++ d)) by (autorewrite with zlen; lia).
    apply Hk; [|done]. constructor; try done. rewrite file_append_off. lia.
Qed.

(** The registers at the end of a body. *)
Definition finished (f : mog_file) (p : Z) (r : regs crun) : Prop :=
  r_p r = p /\ c_really_done (r_s r) = true /\ c_err (r_s r) = None /\
  chunk_state (c_http (r_s r)) = MOG_CHUNK_STATE_DONE /\
  forward (c_http (r_s r)) = Some f.

(** The terminating chunk and the empty trailer section. *)
Lemma run_final (fin : chunk) (pre suf : list Z) (cs : Z) (s : crun) (f : mog_file) :
  legal_chunk fin = true -> data fin = [] -> cs = 1 \/ cs = 3 -> between s f ->
  zlen (pre ++ header fin ++ CRLF) <= UINT16_MAX ->
  runs (pre ++ header fin ++ CRLF ++ suf) cs (zlen pre) s
    (finished f (zlen (pre ++ header fin ++ CRLF))).
Proof.
  intros Hl Hd Hcs Hb Hmax. destruct Hb as [H0 Hf _ Herr _ _].
  apply run_header; [done..|]. rewrite Hd.
  set (P := pre ++ digits fin ++ ext fin ++ [13]).
  assert (pre ++ header fin = P ++ [10]) as HP
    by (unfold P, header; by rewrite <- !app_assoc).
  rewrite !(app_assoc pre), HP in *. clearbody P. clear HP.
  pose proof (zlen_nonneg P). unfold CRLF in Hmax. autorewrite with zlen in Hmax.
  set (s1 := upd (set_chunk_state MOG_CHUNK_STATE_DATA) _).
  set (s2 := upd (set_line_end (zlen P)) (upd (set_chunk_state MOG_CHUNK_STATE_TRAILER) s1)).
  assert (step ((P ++ [10]) ++ CRLF ++ suf) 60 (zlen (P ++ [10])) s1 = GoSt 16 (zlen P) s2) as Hst.
  { unfold step. destruct (goto_60 (char_at ((P ++ [10]) ++ CRLF ++ suf) (zlen (P ++ [10])))) as (k & -> & Hk).
    destruct (act_data k ((P ++ [10]) ++ CRLF ++ suf) (zlen (P ++ [10])) s1 Hk) as (n & ->).
    unfold chunk_data. change (content_len (c_http s1)) with 0. cbn [Z.eqb].
    replace (zlen (P ++ [10]) - 1) with (zlen P) by (autorewrite with zlen; lia).
    destruct (Z.leb_spec 0 (zlen P)); [|lia].
    rewrite <- app_assoc. cbn [app]. rewrite char_at_mid, Z.eqb_refl.
    unfold to_u16. destruct (Z.leb_spec (zlen P) UINT16_MAX); [done|lia]. }
  eapply runs_go; [|exact Hst|].
  { unfold CRLF. autorewrite with zlen. pose proof (zlen_nonneg suf). lia. }
  replace (zlen P + 1) with (zlen (P ++ [10])) by (by autorewrite with zlen).
  cbn [CRLF app]. eapply (runs_char _ _ _ _ _ _ 17 s2); [by rewrite (step_at _ _ _ _ _ (St 17))|].
  eapply runs_out.
  - rewrite (step_at _ _ _ _ _ (Tr 19)) by done. cbn [act]. unfold to_u16.
    destruct (Z.leb_spec (zlen ((P ++ [10]) ++ [13])) UINT16_MAX) as [_|Hgt]; [done|].
    autorewrite with zlen in Hgt. lia.
  - split_and!; try done. cbn [r_p]. unfold CRLF. autorewrite with zlen. lia.
Qed.

Lemma run_crlf (pre suf : list Z) (s : crun) Q :
  runs ((pre ++ CRLF) ++ suf) 3 (zlen (pre ++ CRLF)) s Q ->
  runs (pre ++ CRLF ++ suf) 1 (zlen pre) s Q.
Proof.
  intros Hr. cbn [CRLF app]. eapply (runs_char _ _ _ _ _ _ 2 s); [by rewrite (step_at _ _ _ _ _ (St 2))|].
  eapply (runs_char _ _ _ _ _ _ 3 s); [by rewrite (step_at _ _ _ _ _ (St 3))|].
  cbn [CRLF] in Hr. by rewrite <- !app_assoc in *.
Qed.

Lemma encode_not_nil (cs : list chunk) (fin : chunk) : encode cs fin <> [].
Proof.
  destruct cs as [|c cs]; cbn [encode]; unfold header, CRLF; intros E;
    apply (f_equal length) in E; rewrite !length_app in E; cbn in E; lia.
Qed.

Lemma run_encode (cs : list chunk) (fin : chunk) (suf : list Z) :
  legal_chunk fin = true -> data fin = [] ->
  forallb legal_chunk cs = true -> Forall (fun c => data c <> []) cs ->
  forall pre st s f, st = 1 \/ st = 3 -> between s f ->
  zlen (body cs) <= zlen (c_script s) -> zlen (pre ++ encode cs fin) <= UINT16_MAX ->
  runs (pre ++ encode cs fin ++ suf) st (zlen pre) s
    (finished (file_append (body cs) f) (zlen (pre ++ encode cs fin))).
Proof.
  intros Hfin Hfd. induction cs as [|c cs IH]; intros Hl Hne pre st s f Hst Hb Hsc Hmax.
  - cbn [encode body concat map file_append] in *. rewrite <- app_assoc. by apply run_final.
  - cbn [encode] in *. apply andb_true_iff in Hl as [Hlc Hl].
    apply Forall_cons_1 in Hne as [Hd Hne]. unfold body in *. cbn [map concat] in *.
    pose proof Hb as [H0 Hf Hoff Herr Hrd Hpr]. rewrite zlen_app in Hsc.
    pose proof (zlen_nonneg (concat (map data cs))).
    rewrite <- (app_assoc (header c)). apply run_header; [done..|]. rewrite <- (app_assoc (data c)).
    apply (run_data _ _ _ _ f); try done; [cbn; lia|].
    intros s' Hb' Hsc'. cbn in Hsc'. rewrite <- (app_assoc CRLF). apply run_crlf.
    rewrite <- file_append_app by done.
    replace (pre ++ header c ++ data c ++ CRLF ++ encode cs fin)
      with ((((pre ++ header c) ++ data c) ++ CRLF) ++ encode cs fin) in *
      by (by rewrite <- !app_assoc).
    apply IH; try done; [by right|lia].
Qed.

Lemma body_le (cs : list chunk) (fin : chunk) : zlen (body cs) <= zlen (encode cs fin).
Proof.
  induction cs as [|c cs IH]; unfold body in *; cbn [map concat encode].
  - apply zlen_nonneg.
  - rewrite !zlen_app. pose proof (zlen_nonneg (header c)). pose proof (zlen_nonneg CRLF). lia.
Qed.

(** ** Properties *)

(** C3.  Chunked decoding is exact.  For every list of chunks with correct
    sizes, spelled with any hexadecimal digits and any legal extensions, and
    whatever follows the body in the buffer, one call of [mog_chunk_parse]
    writes the concatenation of the chunk data to the file at its offset,
    feeds exactly these bytes to the digest, and stops right behind the body
    with state DONE, however short the kernel's writes are. *)
Theorem chunk_body_decoded (h : mog_http) (f : mog_file) (cs : list chunk)
    (fin : chunk) (suf : list Z) (script : list reply) :
  chunked h = true -> forward h = Some f -> 0 <= foff f -> wbuf h = WNull ->
  forallb legal_chunk cs = true -> Forall (fun c => data c <> []) cs ->
  legal_chunk fin = true -> data fin = [] ->
  Forall is_char (encode cs fin ++ suf) -> zlen (encode cs fin ++ suf) <= UINT16_MAX ->
  forallb prompt script = true -> zlen (encode cs fin ++ suf) <= zlen script ->
  exists h0 h' script',
    mog_chunk_init h = Ok h0 /\
    mog_chunk_parse h0 (encode cs fin ++ suf) script
      = Ok (MOG_PARSER_DONE, h', script', None) /\
    chunk_state h' = MOG_CHUNK_STATE_DONE /\ offset h' = zlen (encode cs fin) /\
    forward h' = Some (file_append (body cs) f).
Proof.
  intros Hc Hf Hoff Hw Hl Hne Hfin Hfd Hch Hmax Hpr Hsc.
  destruct (init_ready h f (encode cs fin ++ suf) script Hc Hf Hoff Hw) as (h0 & Hi & Hr);
    [by rewrite progress_prompt|].
  assert (between (CRun h0 None false script) f /\ offset h0 = 0 /\
          Http.cs h0 = 1 /\ wbuf h0 = WNull) as (Hb & Ho & Hcs & Hw0)
    by (unfold mog_chunk_init in Hi; rewrite Hc in Hi; injection Hi as <-; done).
  pose proof (zlen_nonneg suf). rewrite zlen_app in Hmax, Hsc. pose proof (body_le cs fin).
  pose proof (run_encode cs fin suf Hfin Hfd Hl Hne [] 1 (CRun h0 None false script) f
    ltac:(by left) Hb ltac:(cbn; lia) ltac:(cbn [app]; lia)) as Hrun.
  destruct (machine_total (encode cs fin ++ suf) 1 0 (CRun h0 None false script))
    as (n & p & s & Hent & _); [by rewrite zlen_app|done| |].
  { unfold ready in Hr. by rewrite Ho, Hcs in Hr. }
  pose proof (runs_enter _ _ _ _ _ _ _ _ Hrun Hent) as (Hp & Hrd & Herr & Hst & Hfw).
  cbn in Hp, Hrd, Herr, Hst, Hfw. eexists h0, _, _. split; [done|].
  unfold mog_chunk_parse. rewrite Hw0, Ho, Hcs. cbn [is_wnull assert_].
  destruct (Z.leb_spec 0 (zlen (encode cs fin ++ suf)));
    [|pose proof (zlen_nonneg (encode cs fin ++ suf)); lia].
  cbn [assert_]. rewrite Hent. cbn [res_bind r_s r_cs r_p]. rewrite Hrd, Herr.
  rewrite bool_decide_false by (by intros []). cbn. subst p.
  destruct (Z.leb_spec (zlen (encode cs fin)) (zlen (encode cs fin ++ suf)));
    [|rewrite zlen_app in *; lia]. done.
Qed.

Definition chunk_hi : chunk := Chunk [48; 50] [59; 120] [104; 105].
Definition chunk_end : chunk := Chunk [48] [] [].

Lemma chunk_body_decoded_witness :
  exists h0 h' script',
    mog_chunk_init http0 = Ok h0 /\
    mog_chunk_parse h0 (encode [chunk_hi] chunk_end ++ [71]) (replicate 17 (Ret 1))
      = Ok (MOG_PARSER_DONE, h', script', None) /\
    chunk_state h' = MOG_CHUNK_STATE_DONE /\ offset h' = 15 /\
    forward h' = Some (MogFile 0 2 None None None [104; 105]).
Proof.
  apply (chunk_body_decoded http0 (MogFile 0 0 None None None []) [chunk_hi] chunk_end
           [71] (replicate 17 (Ret 1)));
    try reflexivity; try (vm_compute; discriminate).
  - repeat constructor; vm_compute; discriminate.
  - repeat constructor; vm_compute; discriminate.
Defined.

(** The overflow check of the chunk size compares the wrapped product
    with the previous value, so it misses sizes whose wrapped value is larger:
    the seventeen digits of 2^64 + 2^63 - 1 are accepted as the size 2^63 - 1,
    while the seventeen digits of 2^64 are rejected. *)
Theorem chunk_size_wraps :
  match mog_chunk_init http0 with
  | Ok h0 =>
      let parse buf :=
        match mog_chunk_parse h0 (buf ++ CRLF) [] with
        | Ok (st, h', _, err) => Some (st, content_len h', err)
        | Crash _ => None
        end in
      let wrapped := 49 :: 55 :: replicate 15 70 in
      hexval wrapped = 2 ^ 64 + OFF_MAX /\
      parse wrapped = Some (MOG_PARSER_DONE, OFF_MAX, None) /\
      parse (49 :: replicate 16 48) = Some (MOG_PARSER_ERROR, -1, Some ERANGE)
  | Crash _ => False
  end.
Proof. vm_compute. split_and!; reflexivity. Qed.

(** An interrupted write turns a correct chunk into a parse error: the
    data is on disk, but the stale EINTR makes [mog_chunk_parse] return
    MOG_PARSER_ERROR. *)
Theorem chunk_eintr_rejected :
  match mog_chunk_init http0 with
  | Ok h0 =>
      match mog_chunk_parse h0 (encode [chunk_hi] chunk_end) [Fail EINTR; Ret 2] with
      | Ok (st, h', _, err) =>
          st = MOG_PARSER_ERROR /\ err = Some EINTR /\
          chunk_state h' = MOG_CHUNK_STATE_DONE /\
          forward h' = Some (MogFile 0 2 None None None [104; 105])
      | Crash _ => False
      end
  | Crash _ => False
  end.
Proof. vm_compute. split_and!; reflexivity. Qed.

(** Trailers other than Content-MD5 are skipped from their second
    character on: the rewind leaves the pointer on the first character of the
    line and the jump to [ignored_trailer] steps over it.  A trailer with a
    one-character name is therefore rejected, and a name may start with a
    character that is not allowed in names. *)
Theorem trailer_first_char_skipped :
  match mog_chunk_init http0 with
  | Ok h0 =>
      let parse line :=
        match mog_chunk_parse h0 (header chunk_end ++ line ++ CRLF ++ CRLF) [] with
        | Ok (st, h', _, _) => Some st
        | Crash _ => None
        end in
      parse [70; 111; 58; 32; 98] = Some MOG_PARSER_DONE /\
      parse [70; 58; 32; 98] = Some MOG_PARSER_ERROR /\
      parse [64; 70; 58; 32; 98] = Some MOG_PARSER_DONE
  | Crash _ => False
  end.
Proof. vm_compute. split_and!; reflexivity. Qed.
