(* ===== verification/HttpParser.v ===== *)
(** The parser of HTTP requests: http_parser.c, generated by Ragel from
    http_parser.rl and http_common.rl.

    The transition code of the 472 states is translated block by block into the
    [cases_*] tables, in the order of the source; the actions (the [tr] labels)
    follow.  [mog_http_parse] is the whole function: it is called again on a
    growing buffer until the empty line that ends the header. *)
From S2P Require Import Prelude Ragel Base64 Http ChunkParser HttpResp.
From stdpp Require Import base list numbers.
From Stdlib Require Import ZArith Lia.

#[local] Open Scope Z_scope.

Definition http_parser_first_final : Z := 468.
Definition http_parser_error : Z := 0.

(** ** Transition tables *)

(** [case 1] to [case 1] (http_parser.c, lines 96-104). *)
Definition cases_1 (cs c : Z) : option label :=
  match cs with
  | 1 => Some (if c =? 68 then Tr 0
      else if c =? 71 then Tr 2
      else if c =? 72 then Tr 3
      else if c =? 77 then Tr 4
      else if c =? 80 then Tr 5
      else St 0)
  | _ => None
  end.

(** [case 2] to [case 18] (http_parser.c, lines 238-383). *)
Definition cases_2 (cs c : Z) : option label :=
  match cs with
  | 2 => Some (if c =? 69 then St 3
      else St 0)
  | 3 => Some (if c =? 76 then St 4
      else St 0)
  | 4 => Some (if c =? 69 then St 5
      else St 0)
  | 5 => Some (if c =? 84 then St 6
      else St 0)
  | 6 => Some (if c =? 69 then St 7
      else St 0)
  | 7 => Some (if c =? 32 then St 8
      else St 0)
  | 8 => Some (if c =? 47 then Tr 12
      else if c =? 104 then St 222
      else St 0)
  | 9 => Some (if c =? 32 then Tr 14
      else if c =? 47 then Tr 12
      else if c <? 65 then if rng 45 57 c then St 186
        else St 0
      else if 90 <? c then if rng 97 122 c then St 186
        else St 0
      else St 186)
  | 10 => Some (if c =? 72 then St 11
      else St 0)
  | 11 => Some (if c =? 84 then St 12
      else St 0)
  | 12 => Some (if c =? 84 then St 13
      else St 0)
  | 13 => Some (if c =? 80 then St 14
      else St 0)
  | 14 => Some (if c =? 47 then St 15
      else St 0)
  | 15 => Some (if c =? 49 then St 16
      else St 0)
  | 16 => Some (if c =? 46 then St 17
      else St 0)
  | 17 => Some (if c =? 48 then St 18
      else if c =? 49 then Tr 24
      else St 0)
  | 18 => Some (if c =? 13 then St 19
      else St 0)
  | _ => None
  end.

(** [case 19] to [case 31] (http_parser.c, lines 387-522). *)
Definition cases_3 (cs c : Z) : option label :=
  match cs with
  | 19 => Some (if c =? 10 then Tr 26
      else St 0)
  | 20 => Some (if c =? 13 then St 21
      else if (c =? 67) || (c =? 99) then St 22
      else if (c =? 82) || (c =? 114) then St 101
      else if (c =? 84) || (c =? 116) then St 119
      else Tr 27)
  | 21 => Some (if c =? 10 then Tr 32
      else St 0)
  | 468 => Some (St 0)
  | 22 => Some (if (c =? 79) || (c =? 111) then St 23
      else Tr 27)
  | 23 => Some (if (c =? 78) || (c =? 110) then St 24
      else Tr 27)
  | 24 => Some (if (c =? 78) || (c =? 110) then St 25
      else if (c =? 84) || (c =? 116) then St 51
      else Tr 27)
  | 25 => Some (if (c =? 69) || (c =? 101) then St 26
      else Tr 27)
  | 26 => Some (if (c =? 67) || (c =? 99) then St 27
      else Tr 27)
  | 27 => Some (if (c =? 84) || (c =? 116) then St 28
      else Tr 27)
  | 28 => Some (if (c =? 73) || (c =? 105) then St 29
      else Tr 27)
  | 29 => Some (if (c =? 79) || (c =? 111) then St 30
      else Tr 27)
  | 30 => Some (if (c =? 78) || (c =? 110) then St 31
      else Tr 27)
  | 31 => Some (if c =? 58 then St 32
      else Tr 27)
  | _ => None
  end.

(** [case 32] to [case 43] (http_parser.c, lines 526-667). *)
Definition cases_4 (cs c : Z) : option label :=
  match cs with
  | 32 => Some (if (c =? 9) || (c =? 32) then St 32
      else if c =? 13 then St 33
      else if (c =? 67) || (c =? 99) then St 36
      else if (c =? 75) || (c =? 107) then St 42
      else Tr 27)
  | 33 => Some (if c =? 10 then Tr 47
      else Tr 27)
  | 34 => Some (if (c =? 9) || (c =? 32) then St 35
      else Tr 27)
  | 35 => Some (if (c =? 9) || (c =? 32) then St 35
      else if (c =? 67) || (c =? 99) then St 36
      else if (c =? 75) || (c =? 107) then St 42
      else Tr 27)
  | 36 => Some (if (c =? 76) || (c =? 108) then St 37
      else Tr 27)
  | 37 => Some (if (c =? 79) || (c =? 111) then St 38
      else Tr 27)
  | 38 => Some (if (c =? 83) || (c =? 115) then St 39
      else Tr 27)
  | 39 => Some (if (c =? 69) || (c =? 101) then Tr 52
      else Tr 27)
  | 40 => Some (if (c =? 9) || (c =? 32) then St 40
      else if c =? 13 then St 41
      else Tr 27)
  | 41 => Some (if c =? 10 then Tr 26
      else Tr 27)
  | 42 => Some (if (c =? 69) || (c =? 101) then St 43
      else Tr 27)
  | 43 => Some (if (c =? 69) || (c =? 101) then St 44
      else Tr 27)
  | _ => None
  end.

(** [case 44] to [case 59] (http_parser.c, lines 671-811). *)
Definition cases_5 (cs c : Z) : option label :=
  match cs with
  | 44 => Some (if (c =? 80) || (c =? 112) then St 45
      else Tr 27)
  | 45 => Some (if c =? 45 then St 46
      else Tr 27)
  | 46 => Some (if (c =? 65) || (c =? 97) then St 47
      else Tr 27)
  | 47 => Some (if (c =? 76) || (c =? 108) then St 48
      else Tr 27)
  | 48 => Some (if (c =? 73) || (c =? 105) then St 49
      else Tr 27)
  | 49 => Some (if (c =? 86) || (c =? 118) then St 50
      else Tr 27)
  | 50 => Some (if (c =? 69) || (c =? 101) then Tr 63
      else Tr 27)
  | 51 => Some (if (c =? 69) || (c =? 101) then St 52
      else Tr 27)
  | 52 => Some (if (c =? 78) || (c =? 110) then St 53
      else Tr 27)
  | 53 => Some (if (c =? 84) || (c =? 116) then St 54
      else Tr 27)
  | 54 => Some (if c =? 45 then St 55
      else Tr 27)
  | 55 => Some (if (c =? 76) || (c =? 108) then St 56
      else if (c =? 77) || (c =? 109) then St 67
      else if (c =? 82) || (c =? 114) then St 166
      else Tr 27)
  | 56 => Some (if (c =? 69) || (c =? 101) then St 57
      else Tr 27)
  | 57 => Some (if (c =? 78) || (c =? 110) then St 58
      else Tr 27)
  | 58 => Some (if (c =? 71) || (c =? 103) then St 59
      else Tr 27)
  | 59 => Some (if (c =? 84) || (c =? 116) then St 60
      else Tr 27)
  | _ => None
  end.

(** [case 60] to [case 72] (http_parser.c, lines 815-954). *)
Definition cases_6 (cs c : Z) : option label :=
  match cs with
  | 60 => Some (if (c =? 72) || (c =? 104) then St 61
      else Tr 27)
  | 61 => Some (if c =? 58 then St 62
      else Tr 27)
  | 62 => Some (if (c =? 9) || (c =? 32) then St 62
      else if c =? 13 then St 63
      else if rng 48 57 c then Tr 79
      else Tr 77)
  | 63 => Some (if c =? 10 then Tr 80
      else Tr 27)
  | 64 => Some (if (c =? 9) || (c =? 32) then St 65
      else Tr 27)
  | 65 => Some (if (c =? 9) || (c =? 32) then St 65
      else if rng 48 57 c then Tr 79
      else Tr 77)
  | 66 => Some (if (c =? 9) || (c =? 32) then St 40
      else if c =? 13 then St 41
      else if rng 48 57 c then Tr 79
      else Tr 77)
  | 67 => Some (if (c =? 68) || (c =? 100) then St 68
      else Tr 27)
  | 68 => Some (if c =? 53 then St 69
      else Tr 27)
  | 69 => Some (if c =? 58 then St 70
      else Tr 27)
  | 70 => Some (if (c =? 9) || (c =? 32) then St 70
      else if c =? 13 then St 71
      else if c =? 43 then Tr 87
      else if c <? 65 then if rng 47 57 c then Tr 87
        else Tr 85
      else if 90 <? c then if rng 97 122 c then Tr 87
        else Tr 85
      else Tr 87)
  | 71 => Some (if c =? 10 then Tr 88
      else Tr 27)
  | 72 => Some (if (c =? 9) || (c =? 32) then St 73
      else Tr 27)
  | _ => None
  end.

(** [case 73] to [case 81] (http_parser.c, lines 958-1097). *)
Definition cases_7 (cs c : Z) : option label :=
  match cs with
  | 73 => Some (if (c =? 9) || (c =? 32) then St 73
      else if c =? 43 then Tr 87
      else if c <? 65 then if rng 47 57 c then Tr 87
        else Tr 85
      else if 90 <? c then if rng 97 122 c then Tr 87
        else Tr 85
      else Tr 87)
  | 74 => Some (if c =? 43 then St 75
      else if c <? 65 then if rng 47 57 c then St 75
        else Tr 85
      else if 90 <? c then if rng 97 122 c then St 75
        else Tr 85
      else St 75)
  | 75 => Some (if c =? 43 then St 76
      else if c <? 65 then if rng 47 57 c then St 76
        else Tr 85
      else if 90 <? c then if rng 97 122 c then St 76
        else Tr 85
      else St 76)
  | 76 => Some (if c =? 43 then St 77
      else if c <? 65 then if rng 47 57 c then St 77
        else Tr 85
      else if 90 <? c then if rng 97 122 c then St 77
        else Tr 85
      else St 77)
  | 77 => Some (if c =? 43 then St 78
      else if c <? 65 then if rng 47 57 c then St 78
        else Tr 85
      else if 90 <? c then if rng 97 122 c then St 78
        else Tr 85
      else St 78)
  | 78 => Some (if c =? 43 then St 79
      else if c <? 65 then if rng 47 57 c then St 79
        else Tr 85
      else if 90 <? c then if rng 97 122 c then St 79
        else Tr 85
      else St 79)
  | 79 => Some (if c =? 43 then St 80
      else if c <? 65 then if rng 47 57 c then St 80
        else Tr 85
      else if 90 <? c then if rng 97 122 c then St 80
        else Tr 85
      else St 80)
  | 80 => Some (if c =? 43 then St 81
      else if c <? 65 then if rng 47 57 c then St 81
        else Tr 85
      else if 90 <? c then if rng 97 122 c then St 81
        else Tr 85
      else St 81)
  | 81 => Some (if c =? 43 then St 82
      else if c <? 65 then if rng 47 57 c then St 82
        else Tr 85
      else if 90 <? c then if rng 97 122 c then St 82
        else Tr 85
      else St 82)
  | _ => None
  end.

(** [case 82] to [case 91] (http_parser.c, lines 1101-1247). *)
Definition cases_8 (cs c : Z) : option label :=
  match cs with
  | 82 => Some (if c =? 43 then St 83
      else if c <? 65 then if rng 47 57 c then St 83
        else Tr 85
      else if 90 <? c then if rng 97 122 c then St 83
        else Tr 85
      else St 83)
  | 83 => Some (if c =? 43 then St 84
      else if c <? 65 then if rng 47 57 c then St 84
        else Tr 85
      else if 90 <? c then if rng 97 122 c then St 84
        else Tr 85
      else St 84)
  | 84 => Some (if c =? 43 then St 85
      else if c <? 65 then if rng 47 57 c then St 85
        else Tr 85
      else if 90 <? c then if rng 97 122 c then St 85
        else Tr 85
      else St 85)
  | 85 => Some (if c =? 43 then St 86
      else if c <? 65 then if rng 47 57 c then St 86
        else Tr 85
      else if 90 <? c then if rng 97 122 c then St 86
        else Tr 85
      else St 86)
  | 86 => Some (if c =? 43 then St 87
      else if c <? 65 then if rng 47 57 c then St 87
        else Tr 85
      else if 90 <? c then if rng 97 122 c then St 87
        else Tr 85
      else St 87)
  | 87 => Some (if c =? 43 then St 88
      else if c <? 65 then if rng 47 57 c then St 88
        else Tr 85
      else if 90 <? c then if rng 97 122 c then St 88
        else Tr 85
      else St 88)
  | 88 => Some (if c =? 43 then St 89
      else if c <? 65 then if rng 47 57 c then St 89
        else Tr 85
      else if 90 <? c then if rng 97 122 c then St 89
        else Tr 85
      else St 89)
  | 89 => Some (if c =? 43 then St 90
      else if c <? 65 then if rng 47 57 c then St 90
        else Tr 85
      else if 90 <? c then if rng 97 122 c then St 90
        else Tr 85
      else St 90)
  | 90 => Some (if c =? 43 then St 91
      else if c <? 65 then if rng 47 57 c then St 91
        else Tr 85
      else if 90 <? c then if rng 97 122 c then St 91
        else Tr 85
      else St 91)
  | 91 => Some (if c =? 43 then St 92
      else if c <? 65 then if rng 47 57 c then St 92
        else Tr 85
      else if 90 <? c then if rng 97 122 c then St 92
        else Tr 85
      else St 92)
  | _ => None
  end.

(** [case 92] to [case 101] (http_parser.c, lines 1251-1395). *)
Definition cases_9 (cs c : Z) : option label :=
  match cs with
  | 92 => Some (if c =? 43 then St 93
      else if c <? 65 then if rng 47 57 c then St 93
        else Tr 85
      else if 90 <? c then if rng 97 122 c then St 93
        else Tr 85
      else St 93)
  | 93 => Some (if c =? 43 then St 94
      else if c <? 65 then if rng 47 57 c then St 94
        else Tr 85
      else if 90 <? c then if rng 97 122 c then St 94
        else Tr 85
      else St 94)
  | 94 => Some (if c =? 43 then St 95
      else if c <? 65 then if rng 47 57 c then St 95
        else Tr 85
      else if 90 <? c then if rng 97 122 c then St 95
        else Tr 85
      else St 95)
  | 95 => Some (if c =? 61 then St 96
      else Tr 85)
  | 96 => Some (if c =? 61 then St 97
      else Tr 85)
  | 97 => Some (if (c =? 9) || (c =? 32) then Tr 113
      else if c =? 13 then Tr 114
      else Tr 85)
  | 98 => Some (if (c =? 9) || (c =? 32) then St 98
      else if c =? 13 then St 99
      else Tr 85)
  | 99 => Some (if c =? 10 then Tr 117
      else Tr 85)
  | 100 => Some (if c =? 13 then St 21
      else if (c =? 67) || (c =? 99) then St 22
      else if (c =? 82) || (c =? 114) then St 101
      else if (c =? 84) || (c =? 116) then St 119
      else Tr 85)
  | 101 => Some (if (c =? 65) || (c =? 97) then St 102
      else Tr 27)
  | _ => None
  end.

(** [case 102] to [case 115] (http_parser.c, lines 1399-1532). *)
Definition cases_10 (cs c : Z) : option label :=
  match cs with
  | 102 => Some (if (c =? 78) || (c =? 110) then St 103
      else Tr 27)
  | 103 => Some (if (c =? 71) || (c =? 103) then St 104
      else Tr 27)
  | 104 => Some (if (c =? 69) || (c =? 101) then St 105
      else Tr 27)
  | 105 => Some (if c =? 58 then St 106
      else Tr 27)
  | 106 => Some (if (c =? 9) || (c =? 32) then St 106
      else if c =? 13 then St 107
      else if c =? 98 then Tr 125
      else Tr 123)
  | 107 => Some (if c =? 10 then Tr 126
      else Tr 27)
  | 108 => Some (if (c =? 9) || (c =? 32) then St 109
      else Tr 27)
  | 109 => Some (if (c =? 9) || (c =? 32) then St 109
      else if c =? 98 then Tr 125
      else Tr 123)
  | 110 => Some (if c =? 121 then St 111
      else Tr 123)
  | 111 => Some (if c =? 116 then St 112
      else Tr 123)
  | 112 => Some (if c =? 101 then St 113
      else Tr 123)
  | 113 => Some (if c =? 115 then St 114
      else Tr 123)
  | 114 => Some (if c =? 61 then St 115
      else Tr 123)
  | 115 => Some (if c =? 45 then St 116
      else if rng 48 57 c then Tr 134
      else Tr 123)
  | _ => None
  end.

(** [case 116] to [case 128] (http_parser.c, lines 1545-1677). *)
Definition cases_11 (cs c : Z) : option label :=
  match cs with
  | 116 => Some (if (c =? 9) || (c =? 32) then St 117
      else if c =? 13 then St 118
      else if rng 48 57 c then Tr 137
      else Tr 123)
  | 117 => Some (if (c =? 9) || (c =? 32) then St 117
      else if c =? 13 then St 118
      else Tr 27)
  | 118 => Some (if c =? 10 then Tr 138
      else Tr 27)
  | 119 => Some (if (c =? 82) || (c =? 114) then St 120
      else Tr 27)
  | 120 => Some (if (c =? 65) || (c =? 97) then St 121
      else Tr 27)
  | 121 => Some (if (c =? 73) || (c =? 105) then St 122
      else if (c =? 78) || (c =? 110) then St 141
      else Tr 27)
  | 122 => Some (if (c =? 76) || (c =? 108) then St 123
      else Tr 27)
  | 123 => Some (if (c =? 69) || (c =? 101) then St 124
      else Tr 27)
  | 124 => Some (if (c =? 82) || (c =? 114) then St 125
      else Tr 27)
  | 125 => Some (if c =? 58 then St 126
      else Tr 27)
  | 126 => Some (if (c =? 9) || (c =? 32) then St 126
      else if c =? 13 then St 127
      else if c =? 44 then St 40
      else if c =? 45 then St 130
      else if (c =? 67) || (c =? 99) then St 131
      else if c <? 65 then if rng 48 57 c then St 130
        else Tr 27
      else if 90 <? c then if rng 97 122 c then St 130
        else Tr 27
      else St 130)
  | 127 => Some (if c =? 10 then Tr 150
      else Tr 27)
  | 128 => Some (if (c =? 9) || (c =? 32) then St 129
      else Tr 27)
  | _ => None
  end.

(** [case 129] to [case 135] (http_parser.c, lines 1681-1827). *)
Definition cases_12 (cs c : Z) : option label :=
  match cs with
  | 129 => Some (if (c =? 9) || (c =? 32) then St 129
      else if c =? 44 then St 40
      else if c =? 45 then St 130
      else if (c =? 67) || (c =? 99) then St 131
      else if c <? 65 then if rng 48 57 c then St 130
        else Tr 27
      else if 90 <? c then if rng 97 122 c then St 130
        else Tr 27
      else St 130)
  | 130 => Some (if (c =? 9) || (c =? 32) then St 40
      else if c =? 13 then St 41
      else if c =? 45 then St 130
      else if c <? 65 then if rng 48 57 c then St 130
        else Tr 27
      else if 90 <? c then if rng 97 122 c then St 130
        else Tr 27
      else St 130)
  | 131 => Some (if (c =? 9) || (c =? 32) then St 40
      else if c =? 13 then St 41
      else if c =? 45 then St 130
      else if (c =? 79) || (c =? 111) then St 132
      else if c <? 65 then if rng 48 57 c then St 130
        else Tr 27
      else if 90 <? c then if rng 97 122 c then St 130
        else Tr 27
      else St 130)
  | 132 => Some (if (c =? 9) || (c =? 32) then St 40
      else if c =? 13 then St 41
      else if c =? 45 then St 130
      else if (c =? 78) || (c =? 110) then St 133
      else if c <? 65 then if rng 48 57 c then St 130
        else Tr 27
      else if 90 <? c then if rng 97 122 c then St 130
        else Tr 27
      else St 130)
  | 133 => Some (if (c =? 9) || (c =? 32) then St 40
      else if c =? 13 then St 41
      else if c =? 45 then St 130
      else if (c =? 84) || (c =? 116) then St 134
      else if c <? 65 then if rng 48 57 c then St 130
        else Tr 27
      else if 90 <? c then if rng 97 122 c then St 130
        else Tr 27
      else St 130)
  | 134 => Some (if (c =? 9) || (c =? 32) then St 40
      else if c =? 13 then St 41
      else if c =? 45 then St 130
      else if (c =? 69) || (c =? 101) then St 135
      else if c <? 65 then if rng 48 57 c then St 130
        else Tr 27
      else if 90 <? c then if rng 97 122 c then St 130
        else Tr 27
      else St 130)
  | 135 => Some (if (c =? 9) || (c =? 32) then St 40
      else if c =? 13 then St 41
      else if c =? 45 then St 130
      else if (c =? 78) || (c =? 110) then St 136
      else if c <? 65 then if rng 48 57 c then St 130
        else Tr 27
      else if 90 <? c then if rng 97 122 c then St 130
        else Tr 27
      else St 130)
  | _ => None
  end.

(** [case 136] to [case 145] (http_parser.c, lines 1831-1972). *)
Definition cases_13 (cs c : Z) : option label :=
  match cs with
  | 136 => Some (if (c =? 9) || (c =? 32) then St 40
      else if c =? 13 then St 41
      else if c =? 45 then St 130
      else if (c =? 84) || (c =? 116) then St 137
      else if c <? 65 then if rng 48 57 c then St 130
        else Tr 27
      else if 90 <? c then if rng 97 122 c then St 130
        else Tr 27
      else St 130)
  | 137 => Some (if (c =? 9) || (c =? 32) then St 40
      else if c =? 13 then St 41
      else if c =? 45 then St 138
      else if c <? 65 then if rng 48 57 c then St 130
        else Tr 27
      else if 90 <? c then if rng 97 122 c then St 130
        else Tr 27
      else St 130)
  | 138 => Some (if (c =? 9) || (c =? 32) then St 40
      else if c =? 13 then St 41
      else if c =? 45 then St 130
      else if (c =? 77) || (c =? 109) then St 139
      else if c <? 65 then if rng 48 57 c then St 130
        else Tr 27
      else if 90 <? c then if rng 97 122 c then St 130
        else Tr 27
      else St 130)
  | 139 => Some (if (c =? 9) || (c =? 32) then St 40
      else if c =? 13 then St 41
      else if c =? 45 then St 130
      else if (c =? 68) || (c =? 100) then St 140
      else if c <? 65 then if rng 48 57 c then St 130
        else Tr 27
      else if 90 <? c then if rng 97 122 c then St 130
        else Tr 27
      else St 130)
  | 140 => Some (if (c =? 9) || (c =? 32) then St 40
      else if c =? 13 then St 41
      else if c =? 45 then St 130
      else if c =? 53 then Tr 161
      else if c <? 65 then if rng 48 57 c then St 130
        else Tr 27
      else if 90 <? c then if rng 97 122 c then St 130
        else Tr 27
      else St 130)
  | 141 => Some (if (c =? 83) || (c =? 115) then St 142
      else Tr 27)
  | 142 => Some (if (c =? 70) || (c =? 102) then St 143
      else Tr 27)
  | 143 => Some (if (c =? 69) || (c =? 101) then St 144
      else Tr 27)
  | 144 => Some (if (c =? 82) || (c =? 114) then St 145
      else Tr 27)
  | 145 => Some (if c =? 45 then St 146
      else Tr 27)
  | _ => None
  end.

(** [case 146] to [case 161] (http_parser.c, lines 1976-2122). *)
Definition cases_14 (cs c : Z) : option label :=
  match cs with
  | 146 => Some (if (c =? 69) || (c =? 101) then St 147
      else Tr 27)
  | 147 => Some (if (c =? 78) || (c =? 110) then St 148
      else Tr 27)
  | 148 => Some (if (c =? 67) || (c =? 99) then St 149
      else Tr 27)
  | 149 => Some (if (c =? 79) || (c =? 111) then St 150
      else Tr 27)
  | 150 => Some (if (c =? 68) || (c =? 100) then St 151
      else Tr 27)
  | 151 => Some (if (c =? 73) || (c =? 105) then St 152
      else Tr 27)
  | 152 => Some (if (c =? 78) || (c =? 110) then St 153
      else Tr 27)
  | 153 => Some (if (c =? 71) || (c =? 103) then St 154
      else Tr 27)
  | 154 => Some (if c =? 58 then St 155
      else Tr 27)
  | 155 => Some (if (c =? 9) || (c =? 32) then St 155
      else if c =? 13 then St 156
      else if (c =? 67) || (c =? 99) then St 159
      else Tr 27)
  | 156 => Some (if c =? 10 then Tr 178
      else Tr 27)
  | 157 => Some (if (c =? 9) || (c =? 32) then St 158
      else Tr 27)
  | 158 => Some (if (c =? 9) || (c =? 32) then St 158
      else if (c =? 67) || (c =? 99) then St 159
      else Tr 27)
  | 159 => Some (if (c =? 72) || (c =? 104) then St 160
      else Tr 27)
  | 160 => Some (if (c =? 85) || (c =? 117) then St 161
      else Tr 27)
  | 161 => Some (if (c =? 78) || (c =? 110) then St 162
      else Tr 27)
  | _ => None
  end.

(** [case 162] to [case 178] (http_parser.c, lines 2126-2272). *)
Definition cases_15 (cs c : Z) : option label :=
  match cs with
  | 162 => Some (if (c =? 75) || (c =? 107) then St 163
      else Tr 27)
  | 163 => Some (if (c =? 69) || (c =? 101) then St 164
      else Tr 27)
  | 164 => Some (if (c =? 68) || (c =? 100) then St 165
      else Tr 27)
  | 165 => Some (if (c =? 9) || (c =? 32) then Tr 186
      else if c =? 13 then Tr 187
      else Tr 27)
  | 166 => Some (if (c =? 65) || (c =? 97) then St 167
      else Tr 27)
  | 167 => Some (if (c =? 78) || (c =? 110) then St 168
      else Tr 27)
  | 168 => Some (if (c =? 71) || (c =? 103) then St 169
      else Tr 27)
  | 169 => Some (if (c =? 69) || (c =? 101) then St 170
      else Tr 27)
  | 170 => Some (if c =? 58 then St 171
      else Tr 27)
  | 171 => Some (if (c =? 9) || (c =? 32) then St 171
      else if c =? 13 then St 172
      else if c =? 98 then St 175
      else Tr 27)
  | 172 => Some (if c =? 10 then Tr 195
      else Tr 27)
  | 173 => Some (if (c =? 9) || (c =? 32) then St 174
      else Tr 27)
  | 174 => Some (if (c =? 9) || (c =? 32) then St 174
      else if c =? 98 then St 175
      else Tr 27)
  | 175 => Some (if c =? 121 then St 176
      else Tr 27)
  | 176 => Some (if c =? 116 then St 177
      else Tr 27)
  | 177 => Some (if c =? 101 then St 178
      else Tr 27)
  | 178 => Some (if c =? 115 then St 179
      else Tr 27)
  | _ => None
  end.

(** [case 179] to [case 189] (http_parser.c, lines 2276-2410). *)
Definition cases_16 (cs c : Z) : option label :=
  match cs with
  | 179 => Some (if (c =? 9) || (c =? 32) then St 180
      else Tr 27)
  | 180 => Some (if (c =? 9) || (c =? 32) then St 180
      else if rng 48 57 c then Tr 203
      else Tr 202)
  | 181 => Some (if c =? 45 then St 182
      else if rng 48 57 c then Tr 203
      else Tr 202)
  | 182 => Some (if rng 48 57 c then Tr 206
      else Tr 205)
  | 183 => Some (if c =? 47 then St 184
      else if rng 48 57 c then Tr 206
      else Tr 205)
  | 184 => Some (if c =? 42 then St 185
      else Tr 27)
  | 185 => Some (if (c =? 9) || (c =? 32) then Tr 209
      else if c =? 13 then Tr 210
      else Tr 27)
  | 186 => Some (if c =? 32 then Tr 14
      else if c <? 65 then if rng 45 57 c then St 187
        else St 0
      else if 90 <? c then if rng 97 122 c then St 187
        else St 0
      else St 187)
  | 187 => Some (if c =? 32 then Tr 14
      else if c <? 65 then if rng 45 57 c then St 188
        else St 0
      else if 90 <? c then if rng 97 122 c then St 188
        else St 0
      else St 188)
  | 188 => Some (if c =? 32 then Tr 14
      else if c <? 65 then if rng 45 57 c then St 189
        else St 0
      else if 90 <? c then if rng 97 122 c then St 189
        else St 0
      else St 189)
  | 189 => Some (if c =? 32 then Tr 14
      else if c <? 65 then if rng 45 57 c then St 190
        else St 0
      else if 90 <? c then if rng 97 122 c then St 190
        else St 0
      else St 190)
  | _ => None
  end.

(** [case 190] to [case 199] (http_parser.c, lines 2414-2560). *)
Definition cases_17 (cs c : Z) : option label :=
  match cs with
  | 190 => Some (if c =? 32 then Tr 14
      else if c <? 65 then if rng 45 57 c then St 191
        else St 0
      else if 90 <? c then if rng 97 122 c then St 191
        else St 0
      else St 191)
  | 191 => Some (if c =? 32 then Tr 14
      else if c <? 65 then if rng 45 57 c then St 192
        else St 0
      else if 90 <? c then if rng 97 122 c then St 192
        else St 0
      else St 192)
  | 192 => Some (if c =? 32 then Tr 14
      else if c <? 65 then if rng 45 57 c then St 193
        else St 0
      else if 90 <? c then if rng 97 122 c then St 193
        else St 0
      else St 193)
  | 193 => Some (if c =? 32 then Tr 14
      else if c <? 65 then if rng 45 57 c then St 194
        else St 0
      else if 90 <? c then if rng 97 122 c then St 194
        else St 0
      else St 194)
  | 194 => Some (if c =? 32 then Tr 14
      else if c <? 65 then if rng 45 57 c then St 195
        else St 0
      else if 90 <? c then if rng 97 122 c then St 195
        else St 0
      else St 195)
  | 195 => Some (if c =? 32 then Tr 14
      else if c <? 65 then if rng 45 57 c then St 196
        else St 0
      else if 90 <? c then if rng 97 122 c then St 196
        else St 0
      else St 196)
  | 196 => Some (if c =? 32 then Tr 14
      else if c <? 65 then if rng 45 57 c then St 197
        else St 0
      else if 90 <? c then if rng 97 122 c then St 197
        else St 0
      else St 197)
  | 197 => Some (if c =? 32 then Tr 14
      else if c <? 65 then if rng 45 57 c then St 198
        else St 0
      else if 90 <? c then if rng 97 122 c then St 198
        else St 0
      else St 198)
  | 198 => Some (if c =? 32 then Tr 14
      else if c <? 65 then if rng 45 57 c then St 199
        else St 0
      else if 90 <? c then if rng 97 122 c then St 199
        else St 0
      else St 199)
  | 199 => Some (if c =? 32 then Tr 14
      else if c <? 65 then if rng 45 57 c then St 200
        else St 0
      else if 90 <? c then if rng 97 122 c then St 200
        else St 0
      else St 200)
  | _ => None
  end.

(** [case 200] to [case 209] (http_parser.c, lines 2564-2710). *)
Definition cases_18 (cs c : Z) : option label :=
  match cs with
  | 200 => Some (if c =? 32 then Tr 14
      else if c <? 65 then if rng 45 57 c then St 201
        else St 0
      else if 90 <? c then if rng 97 122 c then St 201
        else St 0
      else St 201)
  | 201 => Some (if c =? 32 then Tr 14
      else if c <? 65 then if rng 45 57 c then St 202
        else St 0
      else if 90 <? c then if rng 97 122 c then St 202
        else St 0
      else St 202)
  | 202 => Some (if c =? 32 then Tr 14
      else if c <? 65 then if rng 45 57 c then St 203
        else St 0
      else if 90 <? c then if rng 97 122 c then St 203
        else St 0
      else St 203)
  | 203 => Some (if c =? 32 then Tr 14
      else if c <? 65 then if rng 45 57 c then St 204
        else St 0
      else if 90 <? c then if rng 97 122 c then St 204
        else St 0
      else St 204)
  | 204 => Some (if c =? 32 then Tr 14
      else if c <? 65 then if rng 45 57 c then St 205
        else St 0
      else if 90 <? c then if rng 97 122 c then St 205
        else St 0
      else St 205)
  | 205 => Some (if c =? 32 then Tr 14
      else if c <? 65 then if rng 45 57 c then St 206
        else St 0
      else if 90 <? c then if rng 97 122 c then St 206
        else St 0
      else St 206)
  | 206 => Some (if c =? 32 then Tr 14
      else if c <? 65 then if rng 45 57 c then St 207
        else St 0
      else if 90 <? c then if rng 97 122 c then St 207
        else St 0
      else St 207)
  | 207 => Some (if c =? 32 then Tr 14
      else if c <? 65 then if rng 45 57 c then St 208
        else St 0
      else if 90 <? c then if rng 97 122 c then St 208
        else St 0
      else St 208)
  | 208 => Some (if c =? 32 then Tr 14
      else if c <? 65 then if rng 45 57 c then St 209
        else St 0
      else if 90 <? c then if rng 97 122 c then St 209
        else St 0
      else St 209)
  | 209 => Some (if c =? 32 then Tr 14
      else if c <? 65 then if rng 45 57 c then St 210
        else St 0
      else if 90 <? c then if rng 97 122 c then St 210
        else St 0
      else St 210)
  | _ => None
  end.

(** [case 210] to [case 219] (http_parser.c, lines 2714-2860). *)
Definition cases_19 (cs c : Z) : option label :=
  match cs with
  | 210 => Some (if c =? 32 then Tr 14
      else if c <? 65 then if rng 45 57 c then St 211
        else St 0
      else if 90 <? c then if rng 97 122 c then St 211
        else St 0
      else St 211)
  | 211 => Some (if c =? 32 then Tr 14
      else if c <? 65 then if rng 45 57 c then St 212
        else St 0
      else if 90 <? c then if rng 97 122 c then St 212
        else St 0
      else St 212)
  | 212 => Some (if c =? 32 then Tr 14
      else if c <? 65 then if rng 45 57 c then St 213
        else St 0
      else if 90 <? c then if rng 97 122 c then St 213
        else St 0
      else St 213)
  | 213 => Some (if c =? 32 then Tr 14
      else if c <? 65 then if rng 45 57 c then St 214
        else St 0
      else if 90 <? c then if rng 97 122 c then St 214
        else St 0
      else St 214)
  | 214 => Some (if c =? 32 then Tr 14
      else if c <? 65 then if rng 45 57 c then St 215
        else St 0
      else if 90 <? c then if rng 97 122 c then St 215
        else St 0
      else St 215)
  | 215 => Some (if c =? 32 then Tr 14
      else if c <? 65 then if rng 45 57 c then St 216
        else St 0
      else if 90 <? c then if rng 97 122 c then St 216
        else St 0
      else St 216)
  | 216 => Some (if c =? 32 then Tr 14
      else if c <? 65 then if rng 45 57 c then St 217
        else St 0
      else if 90 <? c then if rng 97 122 c then St 217
        else St 0
      else St 217)
  | 217 => Some (if c =? 32 then Tr 14
      else if c <? 65 then if rng 45 57 c then St 218
        else St 0
      else if 90 <? c then if rng 97 122 c then St 218
        else St 0
      else St 218)
  | 218 => Some (if c =? 32 then Tr 14
      else if c <? 65 then if rng 45 57 c then St 219
        else St 0
      else if 90 <? c then if rng 97 122 c then St 219
        else St 0
      else St 219)
  | 219 => Some (if c =? 32 then Tr 14
      else if c <? 65 then if rng 45 57 c then St 220
        else St 0
      else if 90 <? c then if rng 97 122 c then St 220
        else St 0
      else St 220)
  | _ => None
  end.

(** [case 220] to [case 237] (http_parser.c, lines 2864-3009). *)
Definition cases_20 (cs c : Z) : option label :=
  match cs with
  | 220 => Some (if c =? 32 then Tr 14
      else if c <? 65 then if rng 45 57 c then St 221
        else St 0
      else if 90 <? c then if rng 97 122 c then St 221
        else St 0
      else St 221)
  | 221 => Some (if c =? 32 then Tr 14
      else St 0)
  | 222 => Some (if c =? 116 then St 223
      else St 0)
  | 223 => Some (if c =? 116 then St 224
      else St 0)
  | 224 => Some (if c =? 112 then St 225
      else St 0)
  | 225 => Some (if c =? 58 then St 226
      else St 0)
  | 226 => Some (if c =? 47 then St 227
      else St 0)
  | 227 => Some (if c =? 47 then St 228
      else St 0)
  | 228 => Some (if c =? 47 then St 0
      else St 229)
  | 229 => Some (if c =? 47 then Tr 12
      else St 229)
  | 230 => Some (if c =? 69 then St 231
      else St 0)
  | 231 => Some (if c =? 84 then St 7
      else St 0)
  | 232 => Some (if c =? 69 then St 233
      else St 0)
  | 233 => Some (if c =? 65 then St 234
      else St 0)
  | 234 => Some (if c =? 68 then St 7
      else St 0)
  | 235 => Some (if c =? 75 then St 236
      else St 0)
  | 236 => Some (if c =? 67 then St 237
      else St 0)
  | 237 => Some (if c =? 79 then St 238
      else St 0)
  | _ => None
  end.

(** [case 238] to [case 249] (http_parser.c, lines 3013-3159). *)
Definition cases_21 (cs c : Z) : option label :=
  match cs with
  | 238 => Some (if c =? 76 then St 7
      else St 0)
  | 239 => Some (if c =? 85 then St 231
      else St 0)
  | 240 => Some (if c =? 45 then St 241
      else if c <? 65 then if rng 48 57 c then St 241
        else St 0
      else if 90 <? c then if rng 97 122 c then St 241
        else St 0
      else St 241)
  | 241 => Some (if c =? 45 then St 241
      else if c =? 58 then St 242
      else if c <? 65 then if rng 48 57 c then St 241
        else St 0
      else if 90 <? c then if rng 97 122 c then St 241
        else St 0
      else St 241)
  | 242 => Some (if (c =? 9) || (c =? 32) then St 242
      else if c =? 13 then St 246
      else if c =? 127 then St 0
      else if rng 0 31 c then St 0
      else St 243)
  | 243 => Some (if c =? 9 then St 244
      else if c =? 13 then St 245
      else if c =? 127 then St 0
      else if rng 0 31 c then St 0
      else St 243)
  | 244 => Some (if (c =? 9) || (c =? 32) then St 244
      else if c =? 13 then St 245
      else St 0)
  | 245 => Some (if c =? 10 then Tr 265
      else St 0)
  | 469 => Some (St 0)
  | 246 => Some (if c =? 10 then Tr 266
      else St 0)
  | 247 => Some (if (c =? 9) || (c =? 32) then St 248
      else St 0)
  | 248 => Some (if (c =? 9) || (c =? 32) then St 248
      else if c =? 127 then St 0
      else if rng 0 31 c then St 0
      else St 243)
  | 249 => Some (if c =? 13 then St 250
      else if (c =? 67) || (c =? 99) then St 251
      else Tr 268)
  | _ => None
  end.

(** [case 250] to [case 263] (http_parser.c, lines 3163-3300). *)
Definition cases_22 (cs c : Z) : option label :=
  match cs with
  | 250 => Some (if c =? 10 then Tr 271
      else St 0)
  | 470 => Some (St 0)
  | 251 => Some (if (c =? 79) || (c =? 111) then St 252
      else Tr 268)
  | 252 => Some (if (c =? 78) || (c =? 110) then St 253
      else Tr 268)
  | 253 => Some (if (c =? 84) || (c =? 116) then St 254
      else Tr 268)
  | 254 => Some (if (c =? 69) || (c =? 101) then St 255
      else Tr 268)
  | 255 => Some (if (c =? 78) || (c =? 110) then St 256
      else Tr 268)
  | 256 => Some (if (c =? 84) || (c =? 116) then St 257
      else Tr 268)
  | 257 => Some (if c =? 45 then St 258
      else Tr 268)
  | 258 => Some (if (c =? 77) || (c =? 109) then St 259
      else Tr 268)
  | 259 => Some (if (c =? 68) || (c =? 100) then St 260
      else Tr 268)
  | 260 => Some (if c =? 53 then St 261
      else Tr 268)
  | 261 => Some (if c =? 58 then St 262
      else Tr 268)
  | 262 => Some (if (c =? 9) || (c =? 32) then St 262
      else if c =? 13 then St 263
      else if c =? 43 then Tr 285
      else if c <? 65 then if rng 47 57 c then Tr 285
        else Tr 283
      else if 90 <? c then if rng 97 122 c then Tr 285
        else Tr 283
      else Tr 285)
  | 263 => Some (if c =? 10 then Tr 286
      else Tr 268)
  | _ => None
  end.

(** [case 264] to [case 272] (http_parser.c, lines 3308-3442). *)
Definition cases_23 (cs c : Z) : option label :=
  match cs with
  | 264 => Some (if (c =? 9) || (c =? 32) then St 265
      else Tr 268)
  | 265 => Some (if (c =? 9) || (c =? 32) then St 265
      else if c =? 43 then Tr 285
      else if c <? 65 then if rng 47 57 c then Tr 285
        else Tr 283
      else if 90 <? c then if rng 97 122 c then Tr 285
        else Tr 283
      else Tr 285)
  | 266 => Some (if c =? 43 then St 267
      else if c <? 65 then if rng 47 57 c then St 267
        else Tr 283
      else if 90 <? c then if rng 97 122 c then St 267
        else Tr 283
      else St 267)
  | 267 => Some (if c =? 43 then St 268
      else if c <? 65 then if rng 47 57 c then St 268
        else Tr 283
      else if 90 <? c then if rng 97 122 c then St 268
        else Tr 283
      else St 268)
  | 268 => Some (if c =? 43 then St 269
      else if c <? 65 then if rng 47 57 c then St 269
        else Tr 283
      else if 90 <? c then if rng 97 122 c then St 269
        else Tr 283
      else St 269)
  | 269 => Some (if c =? 43 then St 270
      else if c <? 65 then if rng 47 57 c then St 270
        else Tr 283
      else if 90 <? c then if rng 97 122 c then St 270
        else Tr 283
      else St 270)
  | 270 => Some (if c =? 43 then St 271
      else if c <? 65 then if rng 47 57 c then St 271
        else Tr 283
      else if 90 <? c then if rng 97 122 c then St 271
        else Tr 283
      else St 271)
  | 271 => Some (if c =? 43 then St 272
      else if c <? 65 then if rng 47 57 c then St 272
        else Tr 283
      else if 90 <? c then if rng 97 122 c then St 272
        else Tr 283
      else St 272)
  | 272 => Some (if c =? 43 then St 273
      else if c <? 65 then if rng 47 57 c then St 273
        else Tr 283
      else if 90 <? c then if rng 97 122 c then St 273
        else Tr 283
      else St 273)
  | _ => None
  end.

(** [case 273] to [case 282] (http_parser.c, lines 3446-3592). *)
Definition cases_24 (cs c : Z) : option label :=
  match cs with
  | 273 => Some (if c =? 43 then St 274
      else if c <? 65 then if rng 47 57 c then St 274
        else Tr 283
      else if 90 <? c then if rng 97 122 c then St 274
        else Tr 283
      else St 274)
  | 274 => Some (if c =? 43 then St 275
      else if c <? 65 then if rng 47 57 c then St 275
        else Tr 283
      else if 90 <? c then if rng 97 122 c then St 275
        else Tr 283
      else St 275)
  | 275 => Some (if c =? 43 then St 276
      else if c <? 65 then if rng 47 57 c then St 276
        else Tr 283
      else if 90 <? c then if rng 97 122 c then St 276
        else Tr 283
      else St 276)
  | 276 => Some (if c =? 43 then St 277
      else if c <? 65 then if rng 47 57 c then St 277
        else Tr 283
      else if 90 <? c then if rng 97 122 c then St 277
        else Tr 283
      else St 277)
  | 277 => Some (if c =? 43 then St 278
      else if c <? 65 then if rng 47 57 c then St 278
        else Tr 283
      else if 90 <? c then if rng 97 122 c then St 278
        else Tr 283
      else St 278)
  | 278 => Some (if c =? 43 then St 279
      else if c <? 65 then if rng 47 57 c then St 279
        else Tr 283
      else if 90 <? c then if rng 97 122 c then St 279
        else Tr 283
      else St 279)
  | 279 => Some (if c =? 43 then St 280
      else if c <? 65 then if rng 47 57 c then St 280
        else Tr 283
      else if 90 <? c then if rng 97 122 c then St 280
        else Tr 283
      else St 280)
  | 280 => Some (if c =? 43 then St 281
      else if c <? 65 then if rng 47 57 c then St 281
        else Tr 283
      else if 90 <? c then if rng 97 122 c then St 281
        else Tr 283
      else St 281)
  | 281 => Some (if c =? 43 then St 282
      else if c <? 65 then if rng 47 57 c then St 282
        else Tr 283
      else if 90 <? c then if rng 97 122 c then St 282
        else Tr 283
      else St 282)
  | 282 => Some (if c =? 43 then St 283
      else if c <? 65 then if rng 47 57 c then St 283
        else Tr 283
      else if 90 <? c then if rng 97 122 c then St 283
        else Tr 283
      else St 283)
  | _ => None
  end.

(** [case 283] to [case 292] (http_parser.c, lines 3596-3742). *)
Definition cases_25 (cs c : Z) : option label :=
  match cs with
  | 283 => Some (if c =? 43 then St 284
      else if c <? 65 then if rng 47 57 c then St 284
        else Tr 283
      else if 90 <? c then if rng 97 122 c then St 284
        else Tr 283
      else St 284)
  | 284 => Some (if c =? 43 then St 285
      else if c <? 65 then if rng 47 57 c then St 285
        else Tr 283
      else if 90 <? c then if rng 97 122 c then St 285
        else Tr 283
      else St 285)
  | 285 => Some (if c =? 43 then St 286
      else if c <? 65 then if rng 47 57 c then St 286
        else Tr 283
      else if 90 <? c then if rng 97 122 c then St 286
        else Tr 283
      else St 286)
  | 286 => Some (if c =? 43 then St 287
      else if c <? 65 then if rng 47 57 c then St 287
        else Tr 283
      else if 90 <? c then if rng 97 122 c then St 287
        else Tr 283
      else St 287)
  | 287 => Some (if c =? 61 then St 288
      else Tr 283)
  | 288 => Some (if c =? 61 then St 289
      else Tr 283)
  | 289 => Some (if (c =? 9) || (c =? 32) then Tr 311
      else if c =? 13 then Tr 312
      else Tr 283)
  | 290 => Some (if (c =? 9) || (c =? 32) then St 290
      else if c =? 13 then St 291
      else Tr 283)
  | 291 => Some (if c =? 10 then Tr 315
      else Tr 283)
  | 292 => Some (if c =? 13 then St 250
      else if (c =? 67) || (c =? 99) then St 251
      else Tr 283)
  | _ => None
  end.

(** [case 293] to [case 302] (http_parser.c, lines 3746-3888). *)
Definition cases_26 (cs c : Z) : option label :=
  match cs with
  | 293 => Some (if c =? 45 then St 294
      else if c <? 65 then if rng 48 57 c then St 294
        else St 0
      else if 90 <? c then if rng 97 122 c then St 294
        else St 0
      else St 294)
  | 294 => Some (if c =? 45 then St 294
      else if c =? 58 then St 295
      else if c <? 65 then if rng 48 57 c then St 294
        else St 0
      else if 90 <? c then if rng 97 122 c then St 294
        else St 0
      else St 294)
  | 295 => Some (if (c =? 9) || (c =? 32) then St 295
      else if c =? 13 then St 299
      else if c =? 127 then St 0
      else if rng 0 31 c then St 0
      else St 296)
  | 296 => Some (if c =? 9 then St 297
      else if c =? 13 then St 298
      else if c =? 127 then St 0
      else if rng 0 31 c then St 0
      else St 296)
  | 297 => Some (if (c =? 9) || (c =? 32) then St 297
      else if c =? 13 then St 298
      else St 0)
  | 298 => Some (if c =? 10 then Tr 322
      else St 0)
  | 471 => Some (St 0)
  | 299 => Some (if c =? 10 then Tr 323
      else St 0)
  | 300 => Some (if (c =? 9) || (c =? 32) then St 301
      else St 0)
  | 301 => Some (if (c =? 9) || (c =? 32) then St 301
      else if c =? 127 then St 0
      else if rng 0 31 c then St 0
      else St 296)
  | 302 => Some (if c =? 13 then St 303
      else if (c =? 67) || (c =? 99) then St 304
      else if (c =? 82) || (c =? 114) then St 383
      else if (c =? 84) || (c =? 116) then St 401
      else Tr 27)
  | _ => None
  end.

(** [case 303] to [case 316] (http_parser.c, lines 3892-4030). *)
Definition cases_27 (cs c : Z) : option label :=
  match cs with
  | 303 => Some (if c =? 10 then Tr 329
      else St 0)
  | 472 => Some (St 0)
  | 304 => Some (if (c =? 79) || (c =? 111) then St 305
      else Tr 27)
  | 305 => Some (if (c =? 78) || (c =? 110) then St 306
      else Tr 27)
  | 306 => Some (if (c =? 78) || (c =? 110) then St 307
      else if (c =? 84) || (c =? 116) then St 333
      else Tr 27)
  | 307 => Some (if (c =? 69) || (c =? 101) then St 308
      else Tr 27)
  | 308 => Some (if (c =? 67) || (c =? 99) then St 309
      else Tr 27)
  | 309 => Some (if (c =? 84) || (c =? 116) then St 310
      else Tr 27)
  | 310 => Some (if (c =? 73) || (c =? 105) then St 311
      else Tr 27)
  | 311 => Some (if (c =? 79) || (c =? 111) then St 312
      else Tr 27)
  | 312 => Some (if (c =? 78) || (c =? 110) then St 313
      else Tr 27)
  | 313 => Some (if c =? 58 then St 314
      else Tr 27)
  | 314 => Some (if (c =? 9) || (c =? 32) then St 314
      else if c =? 13 then St 315
      else if (c =? 67) || (c =? 99) then St 318
      else if (c =? 75) || (c =? 107) then St 324
      else Tr 27)
  | 315 => Some (if c =? 10 then Tr 344
      else Tr 27)
  | 316 => Some (if (c =? 9) || (c =? 32) then St 317
      else Tr 27)
  | _ => None
  end.

(** [case 317] to [case 329] (http_parser.c, lines 4034-4174). *)
Definition cases_28 (cs c : Z) : option label :=
  match cs with
  | 317 => Some (if (c =? 9) || (c =? 32) then St 317
      else if (c =? 67) || (c =? 99) then St 318
      else if (c =? 75) || (c =? 107) then St 324
      else Tr 27)
  | 318 => Some (if (c =? 76) || (c =? 108) then St 319
      else Tr 27)
  | 319 => Some (if (c =? 79) || (c =? 111) then St 320
      else Tr 27)
  | 320 => Some (if (c =? 83) || (c =? 115) then St 321
      else Tr 27)
  | 321 => Some (if (c =? 69) || (c =? 101) then Tr 349
      else Tr 27)
  | 322 => Some (if (c =? 9) || (c =? 32) then St 322
      else if c =? 13 then St 323
      else Tr 27)
  | 323 => Some (if c =? 10 then Tr 352
      else Tr 27)
  | 324 => Some (if (c =? 69) || (c =? 101) then St 325
      else Tr 27)
  | 325 => Some (if (c =? 69) || (c =? 101) then St 326
      else Tr 27)
  | 326 => Some (if (c =? 80) || (c =? 112) then St 327
      else Tr 27)
  | 327 => Some (if c =? 45 then St 328
      else Tr 27)
  | 328 => Some (if (c =? 65) || (c =? 97) then St 329
      else Tr 27)
  | 329 => Some (if (c =? 76) || (c =? 108) then St 330
      else Tr 27)
  | _ => None
  end.

(** [case 330] to [case 345] (http_parser.c, lines 4178-4319). *)
Definition cases_29 (cs c : Z) : option label :=
  match cs with
  | 330 => Some (if (c =? 73) || (c =? 105) then St 331
      else Tr 27)
  | 331 => Some (if (c =? 86) || (c =? 118) then St 332
      else Tr 27)
  | 332 => Some (if (c =? 69) || (c =? 101) then Tr 361
      else Tr 27)
  | 333 => Some (if (c =? 69) || (c =? 101) then St 334
      else Tr 27)
  | 334 => Some (if (c =? 78) || (c =? 110) then St 335
      else Tr 27)
  | 335 => Some (if (c =? 84) || (c =? 116) then St 336
      else Tr 27)
  | 336 => Some (if c =? 45 then St 337
      else Tr 27)
  | 337 => Some (if (c =? 76) || (c =? 108) then St 338
      else if (c =? 77) || (c =? 109) then St 349
      else if (c =? 82) || (c =? 114) then St 448
      else Tr 27)
  | 338 => Some (if (c =? 69) || (c =? 101) then St 339
      else Tr 27)
  | 339 => Some (if (c =? 78) || (c =? 110) then St 340
      else Tr 27)
  | 340 => Some (if (c =? 71) || (c =? 103) then St 341
      else Tr 27)
  | 341 => Some (if (c =? 84) || (c =? 116) then St 342
      else Tr 27)
  | 342 => Some (if (c =? 72) || (c =? 104) then St 343
      else Tr 27)
  | 343 => Some (if c =? 58 then St 344
      else Tr 27)
  | 344 => Some (if (c =? 9) || (c =? 32) then St 344
      else if c =? 13 then St 345
      else if rng 48 57 c then Tr 376
      else Tr 77)
  | 345 => Some (if c =? 10 then Tr 377
      else Tr 27)
  | _ => None
  end.

(** [case 346] to [case 356] (http_parser.c, lines 4327-4465). *)
Definition cases_30 (cs c : Z) : option label :=
  match cs with
  | 346 => Some (if (c =? 9) || (c =? 32) then St 347
      else Tr 27)
  | 347 => Some (if (c =? 9) || (c =? 32) then St 347
      else if rng 48 57 c then Tr 376
      else Tr 77)
  | 348 => Some (if (c =? 9) || (c =? 32) then St 322
      else if c =? 13 then St 323
      else if rng 48 57 c then Tr 376
      else Tr 77)
  | 349 => Some (if (c =? 68) || (c =? 100) then St 350
      else Tr 27)
  | 350 => Some (if c =? 53 then St 351
      else Tr 27)
  | 351 => Some (if c =? 58 then St 352
      else Tr 27)
  | 352 => Some (if (c =? 9) || (c =? 32) then St 352
      else if c =? 13 then St 353
      else if c =? 43 then Tr 383
      else if c <? 65 then if rng 47 57 c then Tr 383
        else Tr 85
      else if 90 <? c then if rng 97 122 c then Tr 383
        else Tr 85
      else Tr 383)
  | 353 => Some (if c =? 10 then Tr 384
      else Tr 27)
  | 354 => Some (if (c =? 9) || (c =? 32) then St 355
      else Tr 27)
  | 355 => Some (if (c =? 9) || (c =? 32) then St 355
      else if c =? 43 then Tr 383
      else if c <? 65 then if rng 47 57 c then Tr 383
        else Tr 85
      else if 90 <? c then if rng 97 122 c then Tr 383
        else Tr 85
      else Tr 383)
  | 356 => Some (if c =? 43 then St 357
      else if c <? 65 then if rng 47 57 c then St 357
        else Tr 85
      else if 90 <? c then if rng 97 122 c then St 357
        else Tr 85
      else St 357)
  | _ => None
  end.

(** [case 357] to [case 366] (http_parser.c, lines 4469-4615). *)
Definition cases_31 (cs c : Z) : option label :=
  match cs with
  | 357 => Some (if c =? 43 then St 358
      else if c <? 65 then if rng 47 57 c then St 358
        else Tr 85
      else if 90 <? c then if rng 97 122 c then St 358
        else Tr 85
      else St 358)
  | 358 => Some (if c =? 43 then St 359
      else if c <? 65 then if rng 47 57 c then St 359
        else Tr 85
      else if 90 <? c then if rng 97 122 c then St 359
        else Tr 85
      else St 359)
  | 359 => Some (if c =? 43 then St 360
      else if c <? 65 then if rng 47 57 c then St 360
        else Tr 85
      else if 90 <? c then if rng 97 122 c then St 360
        else Tr 85
      else St 360)
  | 360 => Some (if c =? 43 then St 361
      else if c <? 65 then if rng 47 57 c then St 361
        else Tr 85
      else if 90 <? c then if rng 97 122 c then St 361
        else Tr 85
      else St 361)
  | 361 => Some (if c =? 43 then St 362
      else if c <? 65 then if rng 47 57 c then St 362
        else Tr 85
      else if 90 <? c then if rng 97 122 c then St 362
        else Tr 85
      else St 362)
  | 362 => Some (if c =? 43 then St 363
      else if c <? 65 then if rng 47 57 c then St 363
        else Tr 85
      else if 90 <? c then if rng 97 122 c then St 363
        else Tr 85
      else St 363)
  | 363 => Some (if c =? 43 then St 364
      else if c <? 65 then if rng 47 57 c then St 364
        else Tr 85
      else if 90 <? c then if rng 97 122 c then St 364
        else Tr 85
      else St 364)
  | 364 => Some (if c =? 43 then St 365
      else if c <? 65 then if rng 47 57 c then St 365
        else Tr 85
      else if 90 <? c then if rng 97 122 c then St 365
        else Tr 85
      else St 365)
  | 365 => Some (if c =? 43 then St 366
      else if c <? 65 then if rng 47 57 c then St 366
        else Tr 85
      else if 90 <? c then if rng 97 122 c then St 366
        else Tr 85
      else St 366)
  | 366 => Some (if c =? 43 then St 367
      else if c <? 65 then if rng 47 57 c then St 367
        else Tr 85
      else if 90 <? c then if rng 97 122 c then St 367
        else Tr 85
      else St 367)
  | _ => None
  end.

(** [case 367] to [case 376] (http_parser.c, lines 4619-4765). *)
Definition cases_32 (cs c : Z) : option label :=
  match cs with
  | 367 => Some (if c =? 43 then St 368
      else if c <? 65 then if rng 47 57 c then St 368
        else Tr 85
      else if 90 <? c then if rng 97 122 c then St 368
        else Tr 85
      else St 368)
  | 368 => Some (if c =? 43 then St 369
      else if c <? 65 then if rng 47 57 c then St 369
        else Tr 85
      else if 90 <? c then if rng 97 122 c then St 369
        else Tr 85
      else St 369)
  | 369 => Some (if c =? 43 then St 370
      else if c <? 65 then if rng 47 57 c then St 370
        else Tr 85
      else if 90 <? c then if rng 97 122 c then St 370
        else Tr 85
      else St 370)
  | 370 => Some (if c =? 43 then St 371
      else if c <? 65 then if rng 47 57 c then St 371
        else Tr 85
      else if 90 <? c then if rng 97 122 c then St 371
        else Tr 85
      else St 371)
  | 371 => Some (if c =? 43 then St 372
      else if c <? 65 then if rng 47 57 c then St 372
        else Tr 85
      else if 90 <? c then if rng 97 122 c then St 372
        else Tr 85
      else St 372)
  | 372 => Some (if c =? 43 then St 373
      else if c <? 65 then if rng 47 57 c then St 373
        else Tr 85
      else if 90 <? c then if rng 97 122 c then St 373
        else Tr 85
      else St 373)
  | 373 => Some (if c =? 43 then St 374
      else if c <? 65 then if rng 47 57 c then St 374
        else Tr 85
      else if 90 <? c then if rng 97 122 c then St 374
        else Tr 85
      else St 374)
  | 374 => Some (if c =? 43 then St 375
      else if c <? 65 then if rng 47 57 c then St 375
        else Tr 85
      else if 90 <? c then if rng 97 122 c then St 375
        else Tr 85
      else St 375)
  | 375 => Some (if c =? 43 then St 376
      else if c <? 65 then if rng 47 57 c then St 376
        else Tr 85
      else if 90 <? c then if rng 97 122 c then St 376
        else Tr 85
      else St 376)
  | 376 => Some (if c =? 43 then St 377
      else if c <? 65 then if rng 47 57 c then St 377
        else Tr 85
      else if 90 <? c then if rng 97 122 c then St 377
        else Tr 85
      else St 377)
  | _ => None
  end.

(** [case 377] to [case 388] (http_parser.c, lines 4769-4913). *)
Definition cases_33 (cs c : Z) : option label :=
  match cs with
  | 377 => Some (if c =? 61 then St 378
      else Tr 85)
  | 378 => Some (if c =? 61 then St 379
      else Tr 85)
  | 379 => Some (if (c =? 9) || (c =? 32) then Tr 409
      else if c =? 13 then Tr 410
      else Tr 85)
  | 380 => Some (if (c =? 9) || (c =? 32) then St 380
      else if c =? 13 then St 381
      else Tr 85)
  | 381 => Some (if c =? 10 then Tr 413
      else Tr 85)
  | 382 => Some (if c =? 13 then St 303
      else if (c =? 67) || (c =? 99) then St 304
      else if (c =? 82) || (c =? 114) then St 383
      else if (c =? 84) || (c =? 116) then St 401
      else Tr 85)
  | 383 => Some (if (c =? 65) || (c =? 97) then St 384
      else Tr 27)
  | 384 => Some (if (c =? 78) || (c =? 110) then St 385
      else Tr 27)
  | 385 => Some (if (c =? 71) || (c =? 103) then St 386
      else Tr 27)
  | 386 => Some (if (c =? 69) || (c =? 101) then St 387
      else Tr 27)
  | 387 => Some (if c =? 58 then St 388
      else Tr 27)
  | 388 => Some (if (c =? 9) || (c =? 32) then St 388
      else if c =? 13 then St 389
      else if c =? 98 then Tr 420
      else Tr 123)
  | _ => None
  end.

(** [case 389] to [case 402] (http_parser.c, lines 4917-5062). *)
Definition cases_34 (cs c : Z) : option label :=
  match cs with
  | 389 => Some (if c =? 10 then Tr 421
      else Tr 27)
  | 390 => Some (if (c =? 9) || (c =? 32) then St 391
      else Tr 27)
  | 391 => Some (if (c =? 9) || (c =? 32) then St 391
      else if c =? 98 then Tr 420
      else Tr 123)
  | 392 => Some (if c =? 121 then St 393
      else Tr 123)
  | 393 => Some (if c =? 116 then St 394
      else Tr 123)
  | 394 => Some (if c =? 101 then St 395
      else Tr 123)
  | 395 => Some (if c =? 115 then St 396
      else Tr 123)
  | 396 => Some (if c =? 61 then St 397
      else Tr 123)
  | 397 => Some (if c =? 45 then St 398
      else if rng 48 57 c then Tr 429
      else Tr 123)
  | 398 => Some (if (c =? 9) || (c =? 32) then St 399
      else if c =? 13 then St 400
      else if rng 48 57 c then Tr 432
      else Tr 123)
  | 399 => Some (if (c =? 9) || (c =? 32) then St 399
      else if c =? 13 then St 400
      else Tr 27)
  | 400 => Some (if c =? 10 then Tr 433
      else Tr 27)
  | 401 => Some (if (c =? 82) || (c =? 114) then St 402
      else Tr 27)
  | 402 => Some (if (c =? 65) || (c =? 97) then St 403
      else Tr 27)
  | _ => None
  end.

(** [case 403] to [case 412] (http_parser.c, lines 5066-5195). *)
Definition cases_35 (cs c : Z) : option label :=
  match cs with
  | 403 => Some (if (c =? 73) || (c =? 105) then St 404
      else if (c =? 78) || (c =? 110) then St 423
      else Tr 27)
  | 404 => Some (if (c =? 76) || (c =? 108) then St 405
      else Tr 27)
  | 405 => Some (if (c =? 69) || (c =? 101) then St 406
      else Tr 27)
  | 406 => Some (if (c =? 82) || (c =? 114) then St 407
      else Tr 27)
  | 407 => Some (if c =? 58 then St 408
      else Tr 27)
  | 408 => Some (if (c =? 9) || (c =? 32) then St 408
      else if c =? 13 then St 409
      else if c =? 44 then St 322
      else if c =? 45 then St 412
      else if (c =? 67) || (c =? 99) then St 413
      else if c <? 65 then if rng 48 57 c then St 412
        else Tr 27
      else if 90 <? c then if rng 97 122 c then St 412
        else Tr 27
      else St 412)
  | 409 => Some (if c =? 10 then Tr 445
      else Tr 27)
  | 410 => Some (if (c =? 9) || (c =? 32) then St 411
      else Tr 27)
  | 411 => Some (if (c =? 9) || (c =? 32) then St 411
      else if c =? 44 then St 322
      else if c =? 45 then St 412
      else if (c =? 67) || (c =? 99) then St 413
      else if c <? 65 then if rng 48 57 c then St 412
        else Tr 27
      else if 90 <? c then if rng 97 122 c then St 412
        else Tr 27
      else St 412)
  | 412 => Some (if (c =? 9) || (c =? 32) then St 322
      else if c =? 13 then St 323
      else if c =? 45 then St 412
      else if c <? 65 then if rng 48 57 c then St 412
        else Tr 27
      else if 90 <? c then if rng 97 122 c then St 412
        else Tr 27
      else St 412)
  | _ => None
  end.

(** [case 413] to [case 419] (http_parser.c, lines 5199-5340). *)
Definition cases_36 (cs c : Z) : option label :=
  match cs with
  | 413 => Some (if (c =? 9) || (c =? 32) then St 322
      else if c =? 13 then St 323
      else if c =? 45 then St 412
      else if (c =? 79) || (c =? 111) then St 414
      else if c <? 65 then if rng 48 57 c then St 412
        else Tr 27
      else if 90 <? c then if rng 97 122 c then St 412
        else Tr 27
      else St 412)
  | 414 => Some (if (c =? 9) || (c =? 32) then St 322
      else if c =? 13 then St 323
      else if c =? 45 then St 412
      else if (c =? 78) || (c =? 110) then St 415
      else if c <? 65 then if rng 48 57 c then St 412
        else Tr 27
      else if 90 <? c then if rng 97 122 c then St 412
        else Tr 27
      else St 412)
  | 415 => Some (if (c =? 9) || (c =? 32) then St 322
      else if c =? 13 then St 323
      else if c =? 45 then St 412
      else if (c =? 84) || (c =? 116) then St 416
      else if c <? 65 then if rng 48 57 c then St 412
        else Tr 27
      else if 90 <? c then if rng 97 122 c then St 412
        else Tr 27
      else St 412)
  | 416 => Some (if (c =? 9) || (c =? 32) then St 322
      else if c =? 13 then St 323
      else if c =? 45 then St 412
      else if (c =? 69) || (c =? 101) then St 417
      else if c <? 65 then if rng 48 57 c then St 412
        else Tr 27
      else if 90 <? c then if rng 97 122 c then St 412
        else Tr 27
      else St 412)
  | 417 => Some (if (c =? 9) || (c =? 32) then St 322
      else if c =? 13 then St 323
      else if c =? 45 then St 412
      else if (c =? 78) || (c =? 110) then St 418
      else if c <? 65 then if rng 48 57 c then St 412
        else Tr 27
      else if 90 <? c then if rng 97 122 c then St 412
        else Tr 27
      else St 412)
  | 418 => Some (if (c =? 9) || (c =? 32) then St 322
      else if c =? 13 then St 323
      else if c =? 45 then St 412
      else if (c =? 84) || (c =? 116) then St 419
      else if c <? 65 then if rng 48 57 c then St 412
        else Tr 27
      else if 90 <? c then if rng 97 122 c then St 412
        else Tr 27
      else St 412)
  | 419 => Some (if (c =? 9) || (c =? 32) then St 322
      else if c =? 13 then St 323
      else if c =? 45 then St 420
      else if c <? 65 then if rng 48 57 c then St 412
        else Tr 27
      else if 90 <? c then if rng 97 122 c then St 412
        else Tr 27
      else St 412)
  | _ => None
  end.

(** [case 420] to [case 432] (http_parser.c, lines 5344-5490). *)
Definition cases_37 (cs c : Z) : option label :=
  match cs with
  | 420 => Some (if (c =? 9) || (c =? 32) then St 322
      else if c =? 13 then St 323
      else if c =? 45 then St 412
      else if (c =? 77) || (c =? 109) then St 421
      else if c <? 65 then if rng 48 57 c then St 412
        else Tr 27
      else if 90 <? c then if rng 97 122 c then St 412
        else Tr 27
      else St 412)
  | 421 => Some (if (c =? 9) || (c =? 32) then St 322
      else if c =? 13 then St 323
      else if c =? 45 then St 412
      else if (c =? 68) || (c =? 100) then St 422
      else if c <? 65 then if rng 48 57 c then St 412
        else Tr 27
      else if 90 <? c then if rng 97 122 c then St 412
        else Tr 27
      else St 412)
  | 422 => Some (if (c =? 9) || (c =? 32) then St 322
      else if c =? 13 then St 323
      else if c =? 45 then St 412
      else if c =? 53 then Tr 456
      else if c <? 65 then if rng 48 57 c then St 412
        else Tr 27
      else if 90 <? c then if rng 97 122 c then St 412
        else Tr 27
      else St 412)
  | 423 => Some (if (c =? 83) || (c =? 115) then St 424
      else Tr 27)
  | 424 => Some (if (c =? 70) || (c =? 102) then St 425
      else Tr 27)
  | 425 => Some (if (c =? 69) || (c =? 101) then St 426
      else Tr 27)
  | 426 => Some (if (c =? 82) || (c =? 114) then St 427
      else Tr 27)
  | 427 => Some (if c =? 45 then St 428
      else Tr 27)
  | 428 => Some (if (c =? 69) || (c =? 101) then St 429
      else Tr 27)
  | 429 => Some (if (c =? 78) || (c =? 110) then St 430
      else Tr 27)
  | 430 => Some (if (c =? 67) || (c =? 99) then St 431
      else Tr 27)
  | 431 => Some (if (c =? 79) || (c =? 111) then St 432
      else Tr 27)
  | 432 => Some (if (c =? 68) || (c =? 100) then St 433
      else Tr 27)
  | _ => None
  end.

(** [case 433] to [case 447] (http_parser.c, lines 5494-5632). *)
Definition cases_38 (cs c : Z) : option label :=
  match cs with
  | 433 => Some (if (c =? 73) || (c =? 105) then St 434
      else Tr 27)
  | 434 => Some (if (c =? 78) || (c =? 110) then St 435
      else Tr 27)
  | 435 => Some (if (c =? 71) || (c =? 103) then St 436
      else Tr 27)
  | 436 => Some (if c =? 58 then St 437
      else Tr 27)
  | 437 => Some (if (c =? 9) || (c =? 32) then St 437
      else if c =? 13 then St 438
      else if (c =? 67) || (c =? 99) then St 441
      else Tr 27)
  | 438 => Some (if c =? 10 then Tr 473
      else Tr 27)
  | 439 => Some (if (c =? 9) || (c =? 32) then St 440
      else Tr 27)
  | 440 => Some (if (c =? 9) || (c =? 32) then St 440
      else if (c =? 67) || (c =? 99) then St 441
      else Tr 27)
  | 441 => Some (if (c =? 72) || (c =? 104) then St 442
      else Tr 27)
  | 442 => Some (if (c =? 85) || (c =? 117) then St 443
      else Tr 27)
  | 443 => Some (if (c =? 78) || (c =? 110) then St 444
      else Tr 27)
  | 444 => Some (if (c =? 75) || (c =? 107) then St 445
      else Tr 27)
  | 445 => Some (if (c =? 69) || (c =? 101) then St 446
      else Tr 27)
  | 446 => Some (if (c =? 68) || (c =? 100) then St 447
      else Tr 27)
  | 447 => Some (if (c =? 9) || (c =? 32) then Tr 481
      else if c =? 13 then Tr 482
      else Tr 27)
  | _ => None
  end.

(** [case 448] to [case 463] (http_parser.c, lines 5636-5782). *)
Definition cases_39 (cs c : Z) : option label :=
  match cs with
  | 448 => Some (if (c =? 65) || (c =? 97) then St 449
      else Tr 27)
  | 449 => Some (if (c =? 78) || (c =? 110) then St 450
      else Tr 27)
  | 450 => Some (if (c =? 71) || (c =? 103) then St 451
      else Tr 27)
  | 451 => Some (if (c =? 69) || (c =? 101) then St 452
      else Tr 27)
  | 452 => Some (if c =? 58 then St 453
      else Tr 27)
  | 453 => Some (if (c =? 9) || (c =? 32) then St 453
      else if c =? 13 then St 454
      else if c =? 98 then St 457
      else Tr 27)
  | 454 => Some (if c =? 10 then Tr 490
      else Tr 27)
  | 455 => Some (if (c =? 9) || (c =? 32) then St 456
      else Tr 27)
  | 456 => Some (if (c =? 9) || (c =? 32) then St 456
      else if c =? 98 then St 457
      else Tr 27)
  | 457 => Some (if c =? 121 then St 458
      else Tr 27)
  | 458 => Some (if c =? 116 then St 459
      else Tr 27)
  | 459 => Some (if c =? 101 then St 460
      else Tr 27)
  | 460 => Some (if c =? 115 then St 461
      else Tr 27)
  | 461 => Some (if (c =? 9) || (c =? 32) then St 462
      else Tr 27)
  | 462 => Some (if (c =? 9) || (c =? 32) then St 462
      else if rng 48 57 c then Tr 497
      else Tr 202)
  | 463 => Some (if c =? 45 then St 464
      else if rng 48 57 c then Tr 497
      else Tr 202)
  | _ => None
  end.

(** [case 464] to [case 467] (http_parser.c, lines 5786-5824). *)
Definition cases_40 (cs c : Z) : option label :=
  match cs with
  | 464 => Some (if rng 48 57 c then Tr 499
      else Tr 205)
  | 465 => Some (if c =? 47 then St 466
      else if rng 48 57 c then Tr 499
      else Tr 205)
  | 466 => Some (if c =? 42 then St 467
      else Tr 27)
  | 467 => Some (if (c =? 9) || (c =? 32) then Tr 502
      else if c =? 13 then Tr 503
      else Tr 27)
  | _ => None
  end.

(** All the tables; the first that has the state decides. *)
Definition goto (cs c : Z) : option label :=
  match cases_1 cs c with Some l => Some l | None =>
  match cases_2 cs c with Some l => Some l | None =>
  match cases_3 cs c with Some l => Some l | None =>
  match cases_4 cs c with Some l => Some l | None =>
  match cases_5 cs c with Some l => Some l | None =>
  match cases_6 cs c with Some l => Some l | None =>
  match cases_7 cs c with Some l => Some l | None =>
  match cases_8 cs c with Some l => Some l | None =>
  match cases_9 cs c with Some l => Some l | None =>
  match cases_10 cs c with Some l => Some l | None =>
  match cases_11 cs c with Some l => Some l | None =>
  match cases_12 cs c with Some l => Some l | None =>
  match cases_13 cs c with Some l => Some l | None =>
  match cases_14 cs c with Some l => Some l | None =>
  match cases_15 cs c with Some l => Some l | None =>
  match cases_16 cs c with Some l => Some l | None =>
  match cases_17 cs c with Some l => Some l | None =>
  match cases_18 cs c with Some l => Some l | None =>
  match cases_19 cs c with Some l => Some l | None =>
  match cases_20 cs c with Some l => Some l | None =>
  match cases_21 cs c with Some l => Some l | None =>
  match cases_22 cs c with Some l => Some l | None =>
  match cases_23 cs c with Some l => Some l | None =>
  match cases_24 cs c with Some l => Some l | None =>
  match cases_25 cs c with Some l => Some l | None =>
  match cases_26 cs c with Some l => Some l | None =>
  match cases_27 cs c with Some l => Some l | None =>
  match cases_28 cs c with Some l => Some l | None =>
  match cases_29 cs c with Some l => Some l | None =>
  match cases_30 cs c with Some l => Some l | None =>
  match cases_31 cs c with Some l => Some l | None =>
  match cases_32 cs c with Some l => Some l | None =>
  match cases_33 cs c with Some l => Some l | None =>
  match cases_34 cs c with Some l => Some l | None =>
  match cases_35 cs c with Some l => Some l | None =>
  match cases_36 cs c with Some l => Some l | None =>
  match cases_37 cs c with Some l => Some l | None =>
  match cases_38 cs c with Some l => Some l | None =>
  match cases_39 cs c with Some l => Some l | None =>
  cases_40 cs c
  end end end end end end end end end end end end end end end end end end end end end end end end end end end end end end end end end end end end end end end.

(** ** Actions *)

(** The connection being parsed and the locals [errno] and [really_done]. *)
Record hrun := HRun { r_http : mog_http; r_err : option errno; r_done : bool }.

Definition updh (f : mog_http -> mog_http) (s : hrun) : hrun :=
  HRun (f (r_http s)) (r_err s) (r_done s).
Definition set_rerr (e : errno) (s : hrun) : hrun := HRun (r_http s) (Some e) (r_done s).
Definition set_rdone (s : hrun) : hrun := HRun (r_http s) (r_err s) true.

(** [to_u8] (http_util.h) in front of a continuation. *)
Definition to_u8 {A} (len : Z) (k : Z -> jump A) : jump A :=
  if len <=? UINT8_MAX then k len else Stop AssertFailed.

(** [length_incr]: the new value, and whether it is valid. *)
Definition length_incr (len c : Z) : Z * bool :=
  let len' := wrap64 (wrap64 (len * 10) + (c - 48)) in
  if len <=? len' then (len', true) else (-1, false).

(** A digit of a length: [get] and [set] select the field, [n] is the state. *)
Definition length_digit (n : Z) (get : mog_http -> Z) (set : Z -> mog_http -> mog_http)
    (buf : list Z) (p : Z) (s : hrun) : jump hrun :=
  let '(v, ok) := length_incr (get (r_http s)) (char_at buf p) in
  let s := updh (set v) s in
  if ok then GoSt n p s else GoOut n (p + 1) (set_rerr ERANGE s).

(** The error action of [header_line]: back to the start of the line, to be
    skipped by [ignored_header]. *)
Definition rewind_header (buf : list Z) (s : hrun) : jump hrun :=
  let le := line_end (r_http s) in
  if negb (0 <? le) then Stop AssertFailed
  else if negb (char_at buf le =? 10) then Stop AssertFailed
  else if negb (le + 1 <=? zlen buf) then Stop AssertFailed
  else GoSt 293 (le + 1) s.

(** The error action of [trailer_line], which this machine includes too. *)
Definition rewind_trailer (buf : list Z) (s : hrun) : jump hrun :=
  let le := line_end (r_http s) in
  if 0 <? le then
    if negb (char_at buf le =? 10) then Stop AssertFailed
    else if negb (le + 1 <=? zlen buf) then Stop AssertFailed
    else GoSt 240 (le + 1) s
  else GoSt 240 0 s.

(** [errno = EINVAL; fbreak;] *)
Definition einval (p : Z) (s : hrun) : jump hrun := GoOut 0 (p + 1) (set_rerr EINVAL s).

(** The action at the end of [b64_val]. *)
Definition md5_value (n : Z) (buf : list Z) (p : Z) (s : hrun) : jump hrun :=
  to_u16 p (fun tmp_end =>
    let tip := tmp_tip (r_http s) in
    if tmp_end <? tip then Stop OutOfBounds
    else match base64_decode_ctx (slice tip (tmp_end - tip) buf) 16 with
    | Ok (true, out) =>
        if zlen out =? 16
        then GoSt n p (updh (fun h => set_has_expect_md5 true (set_expect_md5 out h)) s)
        else Stop AssertFailed
    | Ok (false, _) => Stop AssertFailed
    | Crash w => Stop w
    end).

(** Setting a field and going on. *)
Definition assign (n : Z) (f : mog_http -> mog_http) (p : Z) (s : hrun) : jump hrun :=
  GoSt n p (updh f s).

(** The labels of [LF]: [http->line_end = to_u16(p - buf)]. *)
Definition mark_line (n : Z) (p : Z) (s : hrun) : jump hrun :=
  to_u16 p (fun e => GoSt n p (updh (set_line_end e) s)).

(** A digit of a Range header: [-1] means that there was none yet. *)
Definition range_digit (n : Z) (get : mog_http -> Z) (set : Z -> mog_http -> mog_http)
    (buf : list Z) (p : Z) (s : hrun) : jump hrun :=
  let s := if get (r_http s) <? 0 then updh (set 0) s else s in
  length_digit n get set buf p s.

(** Where each label that marks a line goes. *)
Definition line_target (k : Z) : option Z :=
  match k with
  | 26 => Some 20 | 47 => Some 34 | 80 => Some 64 | 88 => Some 72 | 117 => Some 100
  | 126 => Some 108 | 150 => Some 128 | 178 => Some 157 | 195 => Some 173
  | 266 => Some 247 | 286 => Some 264 | 315 => Some 292 | 323 => Some 300
  | 344 => Some 316 | 352 => Some 302 | 377 => Some 346 | 384 => Some 354
  | 413 => Some 382 | 421 => Some 390 | 445 => Some 410 | 473 => Some 439
  | 490 => Some 455
  | 265 => Some 249 (* fgoto more_trailers *)
  | 322 => Some 302 (* fgoto more_headers *)
  | _ => None
  end.

(** The [tr] labels. *)
Definition act (k : Z) (buf : list Z) (p : Z) (s : hrun) : jump hrun :=
  match line_target k with
  | Some n => mark_line n p s
  | None =>
  match k with
  (* the request line *)
  | 0 => assign 2 (set_http_method MOG_HTTP_METHOD_DELETE) p s
  | 2 => assign 230 (set_http_method MOG_HTTP_METHOD_GET) p s
  | 3 => assign 232 (set_http_method MOG_HTTP_METHOD_HEAD) p s
  | 4 => assign 235 (set_http_method MOG_HTTP_METHOD_MKCOL) p s
  | 5 => assign 239 (set_http_method MOG_HTTP_METHOD_PUT) p s
  | 12 => to_u8 p (fun e => GoSt 9 p (updh (set_path_tip e) s))
  | 14 => to_u8 p (fun e => GoSt 10 p (updh (set_path_end e) s))
  (* Connection *)
  | 24 => assign 18 (set_persistent true) p s
  | 63 => assign 40 (set_persistent true) p s
  | 361 => assign 322 (set_persistent true) p s
  | 52 => assign 40 (set_persistent false) p s
  | 349 => assign 322 (set_persistent false) p s
  (* the end of the header *)
  | 32 => GoOut 468 (p + 1) (set_rdone s)
  | 329 => GoOut 472 (p + 1) (set_rdone s)
  | 271 => to_u16 p (fun e => GoOut 470 (p + 1)
             (set_rdone (updh (fun h => set_line_end e (set_chunk_state MOG_CHUNK_STATE_DONE h)) s)))
  (* errors *)
  | 27 => rewind_header buf s
  | 77 | 123 | 202 | 205 => einval p s
  | 85 => if negb (has_expect_md5 (r_http s)) then einval p s else rewind_header buf s
  | 268 => rewind_trailer buf s
  | 283 => if negb (has_expect_md5 (r_http s)) then einval p s else rewind_trailer buf s
  (* Content-Length *)
  | 79 => length_digit 66 content_len set_content_len buf p s
  | 376 => length_digit 348 content_len set_content_len buf p s
  (* Content-MD5 *)
  | 87 => to_u16 p (fun e => GoSt 74 p (updh (set_tmp_tip e) s))
  | 285 => to_u16 p (fun e => GoSt 266 p (updh (set_tmp_tip e) s))
  | 383 => to_u16 p (fun e => GoSt 356 p (updh (set_tmp_tip e) s))
  | 113 => md5_value 98 buf p s
  | 114 => md5_value 99 buf p s
  | 311 => md5_value 290 buf p s
  | 312 => md5_value 291 buf p s
  | 409 => md5_value 380 buf p s
  | 410 => md5_value 381 buf p s
  (* Range *)
  | 125 => assign 110 (fun h => set_range_beg (-1) (set_range_end (-1) h)) p s
  | 420 => assign 392 (fun h => set_range_beg (-1) (set_range_end (-1) h)) p s
  | 134 => range_digit 115 range_beg set_range_beg buf p s
  | 137 => range_digit 116 range_end set_range_end buf p s
  | 429 => range_digit 397 range_beg set_range_beg buf p s
  | 432 => range_digit 398 range_end set_range_end buf p s
  | 138 => to_u16 p (fun e => GoSt 20 p (updh (fun h => set_has_range true (set_line_end e h)) s))
  | 433 => to_u16 p (fun e => GoSt 302 p (updh (fun h => set_has_range true (set_line_end e h)) s))
  (* Trailer, Transfer-Encoding *)
  | 161 => assign 130 (set_has_trailer_md5 true) p s
  | 456 => assign 412 (set_has_trailer_md5 true) p s
  | 186 => assign 40 (set_chunked true) p s
  | 187 => assign 41 (set_chunked true) p s
  | 481 => assign 322 (set_chunked true) p s
  | 482 => assign 323 (set_chunked true) p s
  (* Content-Range *)
  | 203 => length_digit 181 range_beg set_range_beg buf p s
  | 206 => length_digit 183 range_end set_range_end buf p s
  | 497 => length_digit 463 range_beg set_range_beg buf p s
  | 499 => length_digit 465 range_end set_range_end buf p s
  | 209 => assign 40 (set_has_content_range true) p s
  | 210 => assign 41 (set_has_content_range true) p s
  | 502 => assign 322 (set_has_content_range true) p s
  | 503 => assign 323 (set_has_content_range true) p s
  | _ => Stop AssertFailed
  end
  end.

Definition step (buf : list Z) (cs p : Z) (s : hrun) : jump hrun :=
  match goto cs (char_at buf p) with
  | Some (St n) => if n =? 0 then GoOut 0 p s else GoSt n p s
  | Some (Tr k) => act k buf p s
  | None => GoOut 1 p s
  end.

(** ** [mog_http_init] and [mog_http_parse] *)

Definition mog_http_init (h : mog_http) : mog_http :=
  mog_http_reset_parser (set_h_rbuf None h).

(** Steps that are always enough for a buffer of [len] bytes: header lines
    may be scanned twice. *)
Definition http_fuel (len : Z) : nat := Z.to_nat (2 * (len + 2) * (2 * (len + 2))).

Definition mog_http_parse (h : mog_http) (buf : list Z)
  : res (mog_parser_state * mog_http * option errno) :=
  assert! is_wnull (wbuf h);
  assert! offset h <=? zlen buf;
  let* r := enter step (http_fuel (zlen buf)) buf (cs h) (offset h) (HRun h None false) in
  let s := r_s r in
  let cs := if r_done s then http_parser_first_final else r_cs r in
  let h := set_offset (r_p r) (set_cs cs (r_http s)) in
  if (cs =? http_parser_error) || bool_decide (r_err s <> None)
  then Ok (MOG_PARSER_ERROR, h, r_err s)
  else
    assert! r_p r <=? zlen buf;
    assert! offset h <=? zlen buf;
    if cs =? http_parser_first_final
    then Ok (MOG_PARSER_DONE, h, r_err s)
    else Ok (MOG_PARSER_CONTINUE, h, r_err s).
