(* ===== verification/HttpParserInv.v ===== *)
(** Safety of the HTTP parser and the contract it offers to the handlers. *)
From S2P Require Import Prelude Fmt Ragel Base64 Http ChunkParser ChunkInv HttpResp HttpParser.
From stdpp Require Import base list numbers.
From Stdlib Require Import ZArith Lia.

#[local] Open Scope Z_scope.

(** ** The parts of the machine *)

Definition path_st (cs : Z) : bool := (cs =? 9) || rng 186 221 cs.
Definition ver_st (cs : Z) : bool := rng 10 19 cs.
Definition meth_st (cs : Z) : bool := rng 1 8 cs || rng 222 239 cs.
Definition hdr_st (cs : Z) : bool := rng 20 185 cs || rng 302 467 cs.
Definition skip_st (cs : Z) : bool := rng 293 301 cs.

(** The number of characters of a Content-MD5 value that were read. *)
Definition md5_read (cs : Z) : Z :=
  if rng 74 97 cs then cs - 73 else if rng 356 379 cs then cs - 355 else 0.

Definition plain_hdr (n : Z) : bool := hdr_st n && (md5_read n =? 0).

Definition ok_hst (cs c n : Z) : bool :=
  (n =? 0)
  || (meth_st cs && negb (cs =? 1) && meth_st n && negb (n =? 1))
  || (path_st cs && path_st n)
  || (ver_st cs && ver_st n)
  || (skip_st cs && skip_st n)
  || (hdr_st cs && plain_hdr n)
  || (hdr_st cs && hdr_st n && (md5_read n =? md5_read cs + 1) && (2 <=? md5_read n)
      && (if md5_read n <=? 22 then alpha c else c =? 61)).

(** Labels that only store a header field. *)
Definition field_label (k : Z) : bool :=
  existsb (Z.eqb k) [63; 361; 52; 349; 79; 376; 125; 420; 134; 137; 429; 432; 161; 456;
    186; 187; 481; 482; 203; 206; 497; 499; 209; 210; 502; 503].

Definition ok_htr (cs c k : Z) : bool :=
  match line_target k with
  | Some n => (c =? 10) && ((ver_st cs && plain_hdr n) || (hdr_st cs && plain_hdr n)
                || (skip_st cs && (plain_hdr n || skip_st n)))
  | None =>
      (existsb (Z.eqb k) [0; 2; 3; 4; 5] && (cs =? 1))
      || ((k =? 12) && ((meth_st cs && negb (cs =? 1)) || path_st cs) && (c =? 47))
      || ((k =? 14) && path_st cs && (c =? 32))
      || ((k =? 24) && ver_st cs)
      || (existsb (Z.eqb k) [138; 433] && hdr_st cs && (c =? 10))
      || (existsb (Z.eqb k) [32; 329] && hdr_st cs && (c =? 10))
      || (existsb (Z.eqb k) [27; 85; 77; 123; 202; 205] && hdr_st cs)
      || (existsb (Z.eqb k) [87; 383] && hdr_st cs && alpha c)
      || (existsb (Z.eqb k) [113; 114; 409; 410] && hdr_st cs && (md5_read cs =? 24))
      || (field_label k && hdr_st cs)
  end.

Definition ok_hgoto (cs c : Z) : bool :=
  match goto cs c with
  | Some (St n) => ok_hst cs c n
  | Some (Tr k) => ok_htr cs c k
  | None => false
  end.

Definition live (cs : Z) : bool := rng 1 239 cs || rng 293 467 cs.

Lemma hgoto_ok (cs c : Z) : live cs = true -> is_char c -> ok_hgoto cs c = true.
Proof.
  intros Hcs Hc.
  apply (check_table_sound (zrange 1 239 ++ zrange 293 175) ok_hgoto); [vm_compute; reflexivity| |done].
  unfold live in Hcs. rewrite orb_true_iff, !rng_true in Hcs. apply in_app_iff.
  destruct Hcs; [left|right]; apply zrange_spec; lia.
Qed.

(** ** The invariant *)

Inductive phase := PMeth | PPath | PVer | PHdr | PSkip.

Definition phase_of (cs : Z) : phase :=
  if path_st cs then PPath else if ver_st cs then PVer
  else if hdr_st cs then PHdr else if skip_st cs then PSkip else PMeth.

(** The request path: where it starts, and where it ends. *)
Definition path_begun (buf : list Z) (p : Z) (h : mog_http) : Prop :=
  0 <= path_tip h < p /\ path_tip h <= 255 /\ char_at buf (path_tip h) = 47.
Definition path_known (buf : list Z) (p : Z) (h : mog_http) : Prop :=
  0 <= path_tip h < path_end h /\ path_end h <= 255 /\ path_end h < p /\
  char_at buf (path_tip h) = 47.
Definition line_known (buf : list Z) (p : Z) (h : mog_http) : Prop :=
  0 < line_end h < p /\ path_end h < line_end h /\ char_at buf (line_end h) = 10.

Definition phase_inv (ph : phase) (buf : list Z) (p : Z) (h : mog_http) : Prop :=
  match ph with
  | PMeth => True
  | PPath => path_begun buf p h
  | PVer => path_known buf p h
  | PHdr | PSkip => path_known buf p h /\ line_known buf p h
  end.

Record HInv (buf : list Z) (cs p : Z) (s : hrun) : Prop := {
  hi_p : 0 <= p <= zlen buf;
  hi_live : live cs = true;
  hi_started : cs <> 1 -> 0 < p /\ http_method (r_http s) <> MOG_HTTP_METHOD_NONE;
  hi_phase : phase_inv (phase_of cs) buf p (r_http s);
  hi_md5 : 0 < md5_read cs ->
    tmp_tip (r_http s) = p - md5_read cs /\ 0 <= tmp_tip (r_http s) /\
    md5_shape (slice (tmp_tip (r_http s)) (md5_read cs) buf);
  hi_wbuf : wbuf (r_http s) = WNull;
  hi_err : r_err s = None;
  hi_rd : r_done s = false
}.

(** How the machine is left. *)
Inductive HPost (buf : list Z) (n p : Z) (s : hrun) : Prop :=
  | hpost_error : 0 <= p <= zlen buf -> n = 0 \/ r_err s <> None -> r_done s = false ->
      HPost buf n p s
  | hpost_resume : HInv buf n p s -> p = zlen buf -> HPost buf n p s
  | hpost_done : 0 < p <= zlen buf -> r_done s = true -> r_err s = None ->
      http_method (r_http s) <> MOG_HTTP_METHOD_NONE ->
      path_known buf p (r_http s) -> wbuf (r_http s) = WNull -> HPost buf n p s.

Definition hmeasure (buf : list Z) (cs p : Z) (s : hrun) : Z :=
  let len := zlen buf in
  let lines := (len - line_end (r_http s)) * (2 * (len + 2)) in
  match phase_of cs with
  | PSkip => lines + (len - p)
  | PHdr => lines + (len + 2) + (len - p)
  | _ => (len + 2) * (2 * (len + 2)) + (len - p)
  end.

(** A step is fine; the only assertion that may fail is the one on the width of
    the path offsets, and only in a buffer longer than 255 bytes. *)
Definition ok_hjump (buf : list Z) (mu : Z) (j : jump hrun) : Prop :=
  match j with
  | GoSt n p s => HInv buf n (p + 1) s /\ hmeasure buf n (p + 1) s < mu
  | GoOut n p s => HPost buf n p s
  | Stop w => w = AssertFailed /\ 255 < zlen buf
  end.

(** ** Phases *)

Ltac st_cases H :=
  unfold path_st, ver_st, meth_st, hdr_st, skip_st, plain_hdr in H;
  rewrite ?andb_true_iff, ?orb_true_iff, ?rng_true, ?Z.eqb_eq in H.

Ltac phase_solve :=
  unfold phase_of, path_st, ver_st, hdr_st, skip_st;
  repeat match goal with
  | |- context [rng ?a ?b ?c] => destruct (rng a b c) eqn:?
  | |- context [?a =? ?b] => destruct (Z.eqb_spec a b)
  end; cbn; rewrite ?rng_true, ?rng_false in *; (done || lia).

Lemma path_phase (cs : Z) : path_st cs = true -> phase_of cs = PPath /\ live cs = true /\ cs <> 1 /\ md5_read cs = 0.
Proof.
  intros H. split; [by unfold phase_of; rewrite H|]. st_cases H.
  split_and!; [unfold live; rewrite orb_true_iff, !rng_true; lia|lia|].
  unfold md5_read. rewrite !(proj2 (rng_false _ _ _)) by lia. done.
Qed.

Lemma ver_phase (cs : Z) : ver_st cs = true -> phase_of cs = PVer /\ live cs = true /\ cs <> 1 /\ md5_read cs = 0.
Proof.
  intros H. st_cases H. split_and!; [phase_solve|unfold live; rewrite orb_true_iff, !rng_true; lia|lia|].
  unfold md5_read. rewrite !(proj2 (rng_false _ _ _)) by lia. done.
Qed.

Lemma meth_phase (cs : Z) : meth_st cs = true -> phase_of cs = PMeth /\ live cs = true /\ md5_read cs = 0.
Proof.
  intros H. st_cases H. split_and!; [phase_solve|unfold live; rewrite orb_true_iff, !rng_true; lia|].
  unfold md5_read. rewrite !(proj2 (rng_false _ _ _)) by lia. done.
Qed.

Lemma skip_phase (cs : Z) : skip_st cs = true -> phase_of cs = PSkip /\ live cs = true /\ cs <> 1 /\ md5_read cs = 0.
Proof.
  intros H. st_cases H. split_and!; [phase_solve|unfold live; rewrite orb_true_iff, !rng_true; lia|lia|].
  unfold md5_read. rewrite !(proj2 (rng_false _ _ _)) by lia. done.
Qed.

Lemma hdr_phase (cs : Z) : hdr_st cs = true -> phase_of cs = PHdr /\ live cs = true /\ cs <> 1.
Proof.
  intros H. st_cases H. split_and!; [phase_solve|unfold live; rewrite orb_true_iff, !rng_true; lia|lia].
Qed.

Lemma plain_phase (cs : Z) :
  plain_hdr cs = true -> phase_of cs = PHdr /\ live cs = true /\ cs <> 1 /\ md5_read cs = 0.
Proof.
  intros H. apply andb_true_iff in H as [H Hm]. apply Z.eqb_eq in Hm.
  destruct (hdr_phase _ H) as (? & ? & ?). done.
Qed.

(** ** Preservation *)

Lemma phase_inv_next (ph : phase) (buf : list Z) (p q : Z) (h h' : mog_http) :
  phase_inv ph buf p h -> p <= q -> path_tip h' = path_tip h -> path_end h' = path_end h ->
  line_end h' = line_end h -> phase_inv ph buf q h'.
Proof.
  unfold phase_inv, path_begun, path_known, line_known. intros H Hq Ht He Hl.
  rewrite Ht, He, Hl. destruct ph; try done; intuition lia.
Qed.

(** Entering a state that reads no Content-MD5 value. *)
Lemma hinv_enter (buf : list Z) (n p : Z) (s : hrun) :
  0 <= p < zlen buf -> live n = true -> md5_read n = 0 ->
  http_method (r_http s) <> MOG_HTTP_METHOD_NONE -> wbuf (r_http s) = WNull ->
  r_err s = None -> r_done s = false -> phase_inv (phase_of n) buf (p + 1) (r_http s) ->
  HInv buf n (p + 1) s.
Proof. intros. constructor; try done; [lia|split; [lia|done]|lia]. Qed.

Section Preservation.
Context (buf : list Z) (Hmax : zlen buf <= UINT16_MAX) (Hch : Forall is_char buf).

Lemma hto_u16_ok {A} (p : Z) (k : Z -> jump A) : p <= zlen buf -> to_u16 p k = k p.
Proof. intros. unfold to_u16. destruct (Z.leb_spec p UINT16_MAX); [done|lia]. Qed.

(** The same phase, other fields. *)
Lemma same_phase_ok (cs p n : Z) (s s' : hrun) :
  HInv buf cs p s -> p < zlen buf -> cs <> 1 -> live n = true -> md5_read n = 0 ->
  phase_of n = phase_of cs ->
  http_method (r_http s') = http_method (r_http s) -> wbuf (r_http s') = WNull ->
  path_tip (r_http s') = path_tip (r_http s) -> path_end (r_http s') = path_end (r_http s) ->
  line_end (r_http s') = line_end (r_http s) -> r_err s' = None -> r_done s' = false ->
  ok_hjump buf (hmeasure buf cs p s) (GoSt n p s').
Proof.
  intros H Hp Hcs Hl Hm Hph Hme Hw Ht He Hle Herr Hrd.
  destruct (hi_started _ _ _ _ H Hcs) as [Hp0 Hmeth]. split.
  - apply hinv_enter; try done; [lia|congruence|]. rewrite Hph.
    eapply phase_inv_next; [apply (hi_phase _ _ _ _ H)|lia|done..].
  - unfold hmeasure. rewrite Hph, Hle. destruct (phase_of cs); lia.
Qed.

(** A line feed. *)
Lemma line_ok (cs p n : Z) (s s' : hrun) :
  HInv buf cs p s -> p < zlen buf -> char_at buf p = 10 ->
  phase_of cs <> PMeth -> phase_of cs <> PPath -> cs <> 1 ->
  live n = true -> md5_read n = 0 -> (phase_of n = PHdr \/ phase_of n = PSkip) ->
  http_method (r_http s') = http_method (r_http s) -> wbuf (r_http s') = WNull ->
  path_tip (r_http s') = path_tip (r_http s) -> path_end (r_http s') = path_end (r_http s) ->
  line_end (r_http s') = p -> r_err s' = None -> r_done s' = false ->
  ok_hjump buf (hmeasure buf cs p s) (GoSt n p s').
Proof.
  intros H Hp H10 Hp1 Hp2 Hcs Hl Hm Hph Hme Hw Ht He Hle Herr Hrd.
  destruct (hi_started _ _ _ _ H Hcs) as [Hp0 Hmeth].
  assert (path_known buf p (r_http s)) as Hk.
  { pose proof (hi_phase _ _ _ _ H) as Hi. destruct (phase_of cs); cbn in Hi; try done; tauto. }
  assert (path_known buf (p + 1) (r_http s') /\ line_known buf (p + 1) (r_http s')) as Hnew.
  { unfold path_known, line_known in *. rewrite Ht, He, Hle. intuition lia. }
  split.
  - apply hinv_enter; try done; [lia|congruence|]. by destruct Hph as [-> | ->].
  - unfold hmeasure. rewrite Hle. pose proof (hi_phase _ _ _ _ H) as Hi.
    destruct (phase_of cs) eqn:E; try done; cbn in Hi; unfold line_known in Hi;
      destruct Hph as [-> | ->]; nia.
Qed.

Lemma rewind_header_ok (cs p : Z) (s : hrun) :
  HInv buf cs p s -> p < zlen buf -> hdr_st cs = true ->
  ok_hjump buf (hmeasure buf cs p s) (rewind_header buf s).
Proof.
  intros H Hp Hcs. destruct (hdr_phase _ Hcs) as (Hph & _ & Hc1).
  pose proof (hi_phase _ _ _ _ H) as Hi. rewrite Hph in Hi. destruct Hi as [Hpk (Hl & Hpl & Hc)].
  unfold rewind_header. rewrite Hc. destruct (Z.ltb_spec 0 (line_end (r_http s))); [|lia].
  destruct (Z.leb_spec (line_end (r_http s) + 1) (zlen buf)); [|lia].
  cbn [negb Z.eqb Pos.eqb]. destruct (hi_started _ _ _ _ H Hc1) as [Hp0 Hm].
  destruct (skip_phase 293 eq_refl) as (Hph' & Hl' & _ & Hm').
  pose proof (hi_wbuf _ _ _ _ H). pose proof (hi_err _ _ _ _ H). pose proof (hi_rd _ _ _ _ H).
  split.
  - apply hinv_enter; try done; [lia|]. rewrite Hph'.
    unfold phase_inv, path_known, line_known in *. intuition lia.
  - unfold hmeasure. rewrite Hph, Hph'. lia.
Qed.

Lemma einval_ok (cs p : Z) (s : hrun) :
  HInv buf cs p s -> p < zlen buf -> ok_hjump buf (hmeasure buf cs p s) (einval p s).
Proof.
  intros H Hp. apply hpost_error; cbn; [pose proof (hi_p _ _ _ _ H); lia|by right|apply (hi_rd _ _ _ _ H)].
Qed.

(** A digit of a length that may be too large. *)
Lemma length_digit_ok (cs p n : Z) (s : hrun) get set :
  HInv buf cs p s -> p < zlen buf -> hdr_st cs = true -> plain_hdr n = true ->
  (forall v h, http_method (set v h) = http_method h /\ wbuf (set v h) = wbuf h /\
     path_tip (set v h) = path_tip h /\ path_end (set v h) = path_end h /\
     line_end (set v h) = line_end h) ->
  ok_hjump buf (hmeasure buf cs p s) (length_digit n get set buf p s).
Proof.
  intros H Hp Hcs Hn Hset. unfold length_digit.
  destruct (length_incr _ _) as [v ok]. destruct (Hset v (r_http s)) as (E1 & E2 & E3 & E4 & E5).
  destruct (plain_phase _ Hn) as (Hph & Hl & _ & Hm). destruct (hdr_phase _ Hcs) as (Hphc & _ & Hc1).
  destruct ok.
  - apply same_phase_ok; try done; [congruence|..]; cbn; try done.
    + by rewrite E2, (hi_wbuf _ _ _ _ H).
    + apply (hi_err _ _ _ _ H).
    + apply (hi_rd _ _ _ _ H).
  - apply hpost_error; cbn; [pose proof (hi_p _ _ _ _ H); lia|by right|apply (hi_rd _ _ _ _ H)].
Qed.

Lemma assign_ok (cs p n : Z) (s : hrun) f :
  HInv buf cs p s -> p < zlen buf -> cs <> 1 -> live n = true -> md5_read n = 0 ->
  phase_of n = phase_of cs ->
  (http_method (f (r_http s)) = http_method (r_http s) /\ wbuf (f (r_http s)) = wbuf (r_http s) /\
     path_tip (f (r_http s)) = path_tip (r_http s) /\ path_end (f (r_http s)) = path_end (r_http s) /\
     line_end (f (r_http s)) = line_end (r_http s)) ->
  ok_hjump buf (hmeasure buf cs p s) (assign n f p s).
Proof.
  intros H Hp Hc1 Hl Hm Hph (E1 & E2 & E3 & E4 & E5).
  apply same_phase_ok; try done; cbn; [by rewrite E2, (hi_wbuf _ _ _ _ H)| |].
  - apply (hi_err _ _ _ _ H).
  - apply (hi_rd _ _ _ _ H).
Qed.

Lemma hinv_frame (cs p : Z) (s : hrun) f :
  HInv buf cs p s ->
  (http_method (f (r_http s)) = http_method (r_http s) /\ wbuf (f (r_http s)) = wbuf (r_http s) /\
     path_tip (f (r_http s)) = path_tip (r_http s) /\ path_end (f (r_http s)) = path_end (r_http s) /\
     line_end (f (r_http s)) = line_end (r_http s) /\ tmp_tip (f (r_http s)) = tmp_tip (r_http s)) ->
  HInv buf cs p (updh f s) /\ hmeasure buf cs p (updh f s) = hmeasure buf cs p s.
Proof.
  intros [? ? ? Hph ? ? ? ?] (E1 & E2 & E3 & E4 & E5 & E6).
  split; [|unfold hmeasure; cbn; by rewrite E5].
  constructor; cbn; rewrite ?E1, ?E2, ?E6; try done.
  by eapply phase_inv_next; [exact Hph|lia|..].
Qed.

Lemma range_digit_ok (cs p n : Z) (s : hrun) get set :
  HInv buf cs p s -> p < zlen buf -> hdr_st cs = true -> plain_hdr n = true ->
  (forall v h, http_method (set v h) = http_method h /\ wbuf (set v h) = wbuf h /\
     path_tip (set v h) = path_tip h /\ path_end (set v h) = path_end h /\
     line_end (set v h) = line_end h /\ tmp_tip (set v h) = tmp_tip h) ->
  ok_hjump buf (hmeasure buf cs p s) (range_digit n get set buf p s).
Proof.
  intros H Hp Hcs Hn Hset. unfold range_digit.
  assert (forall s', HInv buf cs p s' -> hmeasure buf cs p s' = hmeasure buf cs p s ->
    ok_hjump buf (hmeasure buf cs p s) (length_digit n get set buf p s')) as Hd.
  { intros s' Hs' <-. apply length_digit_ok; try done. intros v h. destruct (Hset v h); tauto. }
  destruct (get (r_http s) <? 0); [|by apply Hd].
  destruct (hinv_frame cs p s (set 0) H (Hset 0 _)). by apply Hd.
Qed.

Lemma hmd5_start_ok (cs p n : Z) (s : hrun) :
  HInv buf cs p s -> p < zlen buf -> hdr_st cs = true -> alpha (char_at buf p) = true ->
  n = 74 \/ n = 356 ->
  ok_hjump buf (hmeasure buf cs p s) (to_u16 p (fun e => GoSt n p (updh (set_tmp_tip e) s))).
Proof.
  intros H Hp Hcs Ha Hn. rewrite hto_u16_ok by lia.
  destruct (hdr_phase _ Hcs) as (Hph & _ & Hc1). destruct (hi_started _ _ _ _ H Hc1) as [Hp0 Hm].
  assert (phase_of n = PHdr /\ live n = true /\ md5_read n = 1) as (Hn1 & Hn2 & Hn3)
    by (destruct Hn as [-> | ->]; done).
  destruct H as [? ? ? Hi ? ? ? ?]. split.
  - constructor; cbn; try done; [lia|intros _; split; [lia|done]| |].
    + rewrite Hn1. rewrite Hph in Hi. by eapply phase_inv_next; [exact Hi|lia|..].
    + intros _. rewrite Hn3. split_and!; [lia|lia|].
      assert (slice p 1 buf = [char_at buf p]) as ->.
      { change 1 with (0 + 1). rewrite slice_snoc by lia. rewrite Z.add_0_r.
        unfold slice. by rewrite take_0. }
      intros i c Hc. apply list_lookup_singleton_Some in Hc as [-> <-]. by case_decide; [|lia].
  - unfold hmeasure. rewrite Hph, Hn1. cbn. lia.
Qed.

Lemma md5_value_ok (cs p n : Z) (s : hrun) :
  HInv buf cs p s -> p < zlen buf -> hdr_st cs = true -> md5_read cs = 24 -> plain_hdr n = true ->
  ok_hjump buf (hmeasure buf cs p s) (md5_value n buf p s).
Proof.
  intros H Hp Hcs H24 Hn. unfold md5_value. rewrite hto_u16_ok by lia.
  destruct (hi_md5 _ _ _ _ H ltac:(lia)) as (Htip & Ht0 & Hsh). rewrite H24 in *.
  destruct (Z.ltb_spec p (tmp_tip (r_http s))); [lia|].
  replace (p - tmp_tip (r_http s)) with 24 by lia.
  assert (length (slice (tmp_tip (r_http s)) 24 buf) = 24%nat) as Hl24.
  { pose proof (zlen_slice (tmp_tip (r_http s)) 24 buf ltac:(lia) ltac:(lia) ltac:(lia)) as Hz.
    unfold zlen in Hz. lia. }
  destruct (md5_shape_24 _ Hsh Hl24) as (l & Hl & Ha & ->).
  destruct (base64_md5_ok l Hl Ha) as (md5 & -> & Hm & _).
  destruct (Z.eqb_spec (zlen md5) 16); [|unfold zlen in *; lia].
  destruct (plain_phase _ Hn) as (Hph & Hlv & _ & Hm0). destruct (hdr_phase _ Hcs) as (Hphc & _ & Hc1).
  apply (assign_ok cs p n s (fun h => set_has_expect_md5 true (set_expect_md5 md5 h))); try done. congruence.
Qed.

Lemma md5_more_ok (cs p n : Z) (s : hrun) :
  HInv buf cs p s -> p < zlen buf -> hdr_st cs = true -> hdr_st n = true ->
  md5_read n = md5_read cs + 1 -> 2 <= md5_read n ->
  (if md5_read n <=? 22 then alpha (char_at buf p) else char_at buf p =? 61) = true ->
  ok_hjump buf (hmeasure buf cs p s) (GoSt n p s).
Proof.
  intros H Hp Hcs Hn Hr H2 Hc. destruct (hdr_phase _ Hcs) as (Hph & _ & Hc1).
  destruct (hdr_phase _ Hn) as (Hphn & Hl & _). destruct (hi_started _ _ _ _ H Hc1) as [Hp0 Hm].
  destruct (hi_md5 _ _ _ _ H ltac:(lia)) as (Htip & Ht0 & Hsh).
  destruct H as [? ? ? Hi ? ? ? ?]. split.
  - constructor; try done; [lia|intros _; split; [lia|done]| |].
    + rewrite Hphn. rewrite Hph in Hi. by eapply phase_inv_next; [exact Hi|lia|..].
    + intros _. split_and!; [lia|done|]. rewrite Hr, slice_snoc by lia. apply md5_shape_snoc; [done|].
      replace (tmp_tip (r_http s) + md5_read cs) with p by lia.
      pose proof (zlen_slice (tmp_tip (r_http s)) (md5_read cs) buf ltac:(lia) ltac:(lia) ltac:(lia)) as Hz.
      unfold zlen in Hz. destruct (Z.leb_spec (md5_read n) 22); case_decide; done || lia.
  - unfold hmeasure. rewrite Hph, Hphn. lia.
Qed.

(** A plain [goto stN]. *)
Lemma plain_hst_ok (cs p n : Z) (s : hrun) :
  HInv buf cs p s -> p < zlen buf -> n <> 0 -> ok_hst cs (char_at buf p) n = true ->
  ok_hjump buf (hmeasure buf cs p s) (GoSt n p s).
Proof.
  intros H Hp Hn0 Hok.
  assert (forall n', phase_of n' = phase_of cs -> live n' = true -> md5_read n' = 0 -> cs <> 1 ->
    ok_hjump buf (hmeasure buf cs p s) (GoSt n' p s)) as Hsame.
  { intros n' Hph Hl Hm Hc. apply same_phase_ok; try done;
      [apply (hi_wbuf _ _ _ _ H)|apply (hi_err _ _ _ _ H)|apply (hi_rd _ _ _ _ H)]. }
  unfold ok_hst in Hok.
  rewrite !orb_true_iff, !andb_true_iff, !negb_true_iff, !Z.eqb_eq, !Z.eqb_neq, Z.leb_le in Hok.
  destruct Hok as [[[[[[?|[[[Hc ?] Hn] ?]]|[Hc Hn]]|[Hc Hn]]|[Hc Hn]]|[Hc Hn]]|[[[[Hc Hn] Hr] H2] Hx]]; [done|..].
  - destruct (meth_phase _ Hc) as (? & ? & ?), (meth_phase _ Hn) as (? & ? & ?). apply Hsame; congruence.
  - destruct (path_phase _ Hc) as (? & ? & ? & ?), (path_phase _ Hn) as (? & ? & ? & ?). apply Hsame; congruence.
  - destruct (ver_phase _ Hc) as (? & ? & ? & ?), (ver_phase _ Hn) as (? & ? & ? & ?). apply Hsame; congruence.
  - destruct (skip_phase _ Hc) as (? & ? & ? & ?), (skip_phase _ Hn) as (? & ? & ? & ?). apply Hsame; congruence.
  - destruct (hdr_phase _ Hc) as (? & ? & ?), (plain_phase _ Hn) as (? & ? & ? & ?). apply Hsame; congruence.
  - by apply md5_more_ok.
Qed.

(** The method, known from its first letter. *)
Lemma method_ok (p n : Z) (s : hrun) m :
  HInv buf 1 p s -> p < zlen buf -> meth_st n = true -> n <> 1 -> m <> MOG_HTTP_METHOD_NONE ->
  ok_hjump buf (hmeasure buf 1 p s) (assign n (set_http_method m) p s).
Proof.
  intros H Hp Hn Hn1 Hm. destruct (meth_phase _ Hn) as (Hph & Hl & H0).
  pose proof (hi_p _ _ _ _ H). pose proof (hi_wbuf _ _ _ _ H).
  pose proof (hi_err _ _ _ _ H). pose proof (hi_rd _ _ _ _ H). split.
  - apply hinv_enter; try done; [lia|]. by rewrite Hph.
  - unfold hmeasure. rewrite Hph. cbn. lia.
Qed.

(** The offsets of the path, which must fit a byte. *)
Lemma path_tip_ok (cs p : Z) (s : hrun) :
  HInv buf cs p s -> p < zlen buf -> cs <> 1 -> phase_of cs = PMeth \/ phase_of cs = PPath ->
  char_at buf p = 47 ->
  ok_hjump buf (hmeasure buf cs p s) (to_u8 p (fun e => GoSt 9 p (updh (set_path_tip e) s))).
Proof.
  intros H Hp Hc1 Hph H47. unfold to_u8, UINT8_MAX.
  destruct (hi_started _ _ _ _ H Hc1) as [Hp0 Hm].
  destruct (Z.leb_spec p 255); [|split; [done|lia]].
  destruct H as [? ? ? _ _ ? ? ?]. split.
  - apply hinv_enter; try done; [lia|]. cbn. unfold path_begun. cbn. split_and!; done || lia.
  - unfold hmeasure. cbn. destruct Hph as [-> | ->]; lia.
Qed.

Lemma path_end_ok (cs p : Z) (s : hrun) :
  HInv buf cs p s -> p < zlen buf -> path_st cs = true ->
  ok_hjump buf (hmeasure buf cs p s) (to_u8 p (fun e => GoSt 10 p (updh (set_path_end e) s))).
Proof.
  intros H Hp Hcs. destruct (path_phase _ Hcs) as (Hph & _ & Hc1 & _). unfold to_u8, UINT8_MAX.
  destruct (hi_started _ _ _ _ H Hc1) as [Hp0 Hm].
  destruct (Z.leb_spec p 255); [|split; [done|lia]].
  destruct H as [? ? ? Hi _ ? ? ?]. rewrite Hph in Hi. cbn in Hi. unfold path_begun in Hi. split.
  - apply hinv_enter; try done; [lia|]. cbn. unfold path_known. cbn. intuition lia.
  - unfold hmeasure. rewrite Hph. cbn. lia.
Qed.

(** The empty line. *)
Lemma header_end_ok (cs p n : Z) (s : hrun) :
  HInv buf cs p s -> p < zlen buf -> hdr_st cs = true -> HPost buf n (p + 1) (set_rdone s).
Proof.
  intros H Hp Hcs. destruct (hdr_phase _ Hcs) as (Hph & _ & Hc1).
  destruct (hi_started _ _ _ _ H Hc1) as [Hp0 Hm].
  destruct H as [? ? ? Hi _ ? ? ?]. rewrite Hph in Hi. destruct Hi as [Hk _].
  apply hpost_done; cbn; try done; [lia|]. unfold path_known in *. intuition lia.
Qed.

(** Labels of the header section that store one field. *)
Lemma field_ok (cs p k : Z) (s : hrun) :
  HInv buf cs p s -> p < zlen buf -> hdr_st cs = true -> field_label k = true ->
  ok_hjump buf (hmeasure buf cs p s) (act k buf p s).
Proof.
  intros H Hp Hcs Hk. destruct (hdr_phase _ Hcs) as (Hph & _ & Hc1).
  unfold field_label in Hk. rewrite existsb_exists in Hk. destruct Hk as (k' & Hin & He).
  apply Z.eqb_eq in He as <-. cbn [In] in Hin.
  repeat destruct Hin as [<- | Hin]; try done; cbn [act line_target];
    first [apply length_digit_ok | apply range_digit_ok | apply assign_ok];
    try done; try (by rewrite Hph).
Qed.

(** A line feed inside the header. *)
Lemma mark_ok (cs p n : Z) (s : hrun) f :
  HInv buf cs p s -> p < zlen buf -> char_at buf p = 10 ->
  ver_st cs || hdr_st cs || skip_st cs = true -> plain_hdr n || skip_st n = true ->
  (forall h, http_method (f h) = http_method h /\ wbuf (f h) = wbuf h /\
     path_tip (f h) = path_tip h /\ path_end (f h) = path_end h /\ line_end (f h) = line_end h) ->
  ok_hjump buf (hmeasure buf cs p s)
    (to_u16 p (fun e => GoSt n p (updh (fun h => f (set_line_end e h)) s))).
Proof.
  intros H Hp H10 Hcs Hn Hf. rewrite hto_u16_ok by lia.
  destruct (Hf (set_line_end p (r_http s))) as (E1 & E2 & E3 & E4 & E5). cbn in E1, E2, E3, E4, E5.
  assert (phase_of cs <> PMeth /\ phase_of cs <> PPath /\ cs <> 1) as (H1 & H2 & H3).
  { rewrite !orb_true_iff in Hcs. destruct Hcs as [[Hc|Hc]|Hc];
      [destruct (ver_phase _ Hc) as (-> & _ & ? & _)|destruct (hdr_phase _ Hc) as (-> & _ & ?)
      |destruct (skip_phase _ Hc) as (-> & _ & ? & _)]; done. }
  assert (live n = true /\ md5_read n = 0 /\ (phase_of n = PHdr \/ phase_of n = PSkip)) as (H4 & H5 & H6).
  { rewrite orb_true_iff in Hn. destruct Hn as [Hn|Hn];
      [destruct (plain_phase _ Hn) as (-> & ? & _ & ?)|destruct (skip_phase _ Hn) as (-> & ? & _ & ?)]; auto. }
  apply line_ok; try done; cbn.
  - by rewrite E2, (hi_wbuf _ _ _ _ H).
  - apply (hi_err _ _ _ _ H).
  - apply (hi_rd _ _ _ _ H).
Qed.

Lemma existsb_eqb (k : Z) (l : list Z) : existsb (Z.eqb k) l = true -> In k l.
Proof. rewrite existsb_exists. intros (x & Hin & He). apply Z.eqb_eq in He. by subst. Qed.

Lemma hact_ok (cs p k : Z) (s : hrun) :
  HInv buf cs p s -> p < zlen buf -> ok_htr cs (char_at buf p) k = true ->
  ok_hjump buf (hmeasure buf cs p s) (act k buf p s).
Proof.
  intros H Hp Hok. unfold ok_htr in Hok. destruct (line_target k) as [n|] eqn:Ek.
  { unfold act. rewrite Ek. apply andb_true_iff in Hok as [H10 Hok]. apply Z.eqb_eq in H10.
    apply (mark_ok cs p n s (fun h => h)); try done; revert Hok;
      destruct (ver_st cs), (hdr_st cs), (skip_st cs), (plain_hdr n), (skip_st n); done. }
  rewrite !orb_true_iff, !andb_true_iff, !orb_true_iff, !andb_true_iff, !negb_true_iff,
    !Z.eqb_eq, Z.eqb_neq in Hok.
  destruct Hok as [[[[[[[[[[Hk ->]|[[-> Hc] H47]]|[[-> Hc] H32]]|[-> Hc]]|[[Hk Hc] H10]]
    |[[Hk Hc] H10]]|[Hk Hc]]|[[Hk Hc] Ha]]|[[Hk Hc] H24]]|[Hk Hc]];
    try lazymatch type of Hk with existsb _ _ = true => apply existsb_eqb in Hk; cbn [In] in Hk end.
  - repeat destruct Hk as [<- | Hk]; try done; cbn [act line_target]; by apply method_ok.
  - cbn [act line_target]. destruct Hc as [[Hc Hc1]|Hc].
    + destruct (meth_phase _ Hc) as (? & _ & _). apply path_tip_ok; auto.
    + destruct (path_phase _ Hc) as (? & _ & ? & _). apply path_tip_ok; auto.
  - cbn [act line_target]. by apply path_end_ok.
  - cbn [act line_target]. destruct (ver_phase _ Hc) as (Hph & _ & Hc1 & _).
    by apply assign_ok.
  - assert (plain_hdr 20 = true /\ plain_hdr 302 = true) as [? ?] by done.
    repeat destruct Hk as [<- | Hk]; try done; cbn [act line_target];
      apply (mark_ok cs p _ s (set_has_range true)); try done; by rewrite Hc, orb_true_r.
  - repeat destruct Hk as [<- | Hk]; try done; cbn [act line_target ok_hjump]; by eapply header_end_ok.
  - repeat destruct Hk as [<- | Hk]; try done; cbn [act line_target];
      try (by apply rewind_header_ok); try (by apply einval_ok).
    destruct (has_expect_md5 (r_http s)); cbn [negb]; [by apply rewind_header_ok|by apply einval_ok].
  - repeat destruct Hk as [<- | Hk]; try done; cbn [act line_target]; apply hmd5_start_ok; auto.
  - repeat destruct Hk as [<- | Hk]; try done; cbn [act line_target]; by apply md5_value_ok.
  - by apply field_ok.
Qed.

Lemma hstep_ok (cs p : Z) (s : hrun) :
  HInv buf cs p s -> p < zlen buf -> ok_hjump buf (hmeasure buf cs p s) (step buf cs p s).
Proof.
  intros H Hp. unfold step. pose proof (hi_p _ _ _ _ H) as Hp0.
  pose proof (hgoto_ok cs (char_at buf p) (hi_live _ _ _ _ H)
    (char_at_Forall is_char buf p Hch ltac:(lia))) as Hok.
  unfold ok_hgoto in Hok. destruct (goto cs (char_at buf p)) as [[n|k]|]; [| |done].
  - destruct (Z.eqb_spec n 0) as [->|Hn]; [|by apply plain_hst_ok].
    apply hpost_error; [lia|by left|apply (hi_rd _ _ _ _ H)].
  - by apply hact_ok.
Qed.
End Preservation.

(** ** The contract of [mog_http_parse] *)

(** A connection on which [mog_http_parse] may be called with [buf]. *)
Definition http_ready (buf : list Z) (h : mog_http) : Prop :=
  HInv buf (cs h) (offset h) (HRun h None false).

(** What the caller finds for each returned state. *)
Definition http_parse_post (buf : list Z) (st : mog_parser_state) (h : mog_http)
    (err : option errno) : Prop :=
  match st with
  | MOG_PARSER_ERROR => cs h = http_parser_error \/ err <> None
  | MOG_PARSER_CONTINUE => offset h = zlen buf /\ http_ready buf h
  | MOG_PARSER_DONE => 0 < offset h /\ http_method h <> MOG_HTTP_METHOD_NONE /\
      path_known buf (offset h) h /\ wbuf h = WNull
  end.

Lemma hline_bound (buf : list Z) (cs p : Z) (s : hrun) :
  HInv buf cs p s -> phase_of cs = PHdr \/ phase_of cs = PSkip -> 0 < line_end (r_http s) < zlen buf.
Proof.
  intros H Hph. pose proof (hi_p _ _ _ _ H). pose proof (hi_phase _ _ _ _ H) as Hi.
  destruct Hph as [E|E]; rewrite E in Hi; cbn in Hi; unfold line_known in Hi; lia.
Qed.

Lemma hmeasure_bounds (buf : list Z) (cs p : Z) (s : hrun) :
  HInv buf cs p s -> 0 <= hmeasure buf cs p s < Z.of_nat (http_fuel (zlen buf)).
Proof.
  intros H. pose proof (hi_p _ _ _ _ H). pose proof (hline_bound _ _ _ _ H) as Hl.
  unfold hmeasure, http_fuel. rewrite Z2Nat.id by nia.
  destruct (phase_of cs) eqn:E; try nia; specialize (Hl ltac:(auto)); nia.
Qed.

Lemma http_machine (buf : list Z) (cs p : Z) (s : hrun) :
  zlen buf <= UINT16_MAX -> Forall is_char buf -> HInv buf cs p s ->
  (exists n p' s', enter step (http_fuel (zlen buf)) buf cs p s = Ok (Regs n p' s') /\
     HPost buf n p' s') \/
  (enter step (http_fuel (zlen buf)) buf cs p s = Crash AssertFailed /\ 255 < zlen buf).
Proof.
  intros Hmax Hch H.
  destruct (exec_outcome step buf (fun cs p s => HInv buf cs p s /\ p < zlen buf)
    (HPost buf) (fun w => w = AssertFailed /\ 255 < zlen buf) (hmeasure buf)) with
    (cs := cs) (p := p) (s := s) (fuel := http_fuel (zlen buf)) as [?|(w & ? & -> & ?)]; auto.
  - intros cs' p' s' [H' Hp']. pose proof (hi_p _ _ _ _ H').
    split_and!; [lia|lia|by apply hmeasure_bounds|].
    pose proof (hstep_ok buf Hmax Hch cs' p' s' H' Hp') as Hj.
    destruct (step buf cs' p' s') as [n q t|n q t|w]; [|done..].
    destruct Hj as [Hi Hlt]. destruct (Z.eqb_spec (q + 1) (zlen buf)); [by apply hpost_resume|].
    pose proof (hi_p _ _ _ _ Hi). split_and!; [done|lia|done].
  - intros ->. by apply hpost_resume.
  - intros Hne. pose proof (hi_p _ _ _ _ H). pose proof (hmeasure_bounds _ _ _ _ H).
    split_and!; [done|lia|lia].
Qed.

Lemma hinv_stored (buf : list Z) (n p : Z) (s : hrun) :
  HInv buf n p s -> http_ready buf (set_offset p (set_cs n (r_http s))).
Proof. intros H. unfold http_ready. destruct H. by constructor. Qed.

Lemma http_parse_spec (buf : list Z) (h : mog_http) :
  zlen buf <= UINT16_MAX -> Forall is_char buf -> http_ready buf h ->
  (exists st h' err, mog_http_parse h buf = Ok (st, h', err) /\ 0 <= offset h' <= zlen buf /\
     http_parse_post buf st h' err) \/
  (mog_http_parse h buf = Crash AssertFailed /\ 255 < zlen buf).
Proof.
  intros Hmax Hch Hr. unfold mog_http_parse.
  pose proof (hi_wbuf _ _ _ _ Hr) as Hw. cbn in Hw. rewrite Hw. cbn [is_wnull assert_].
  pose proof (hi_p _ _ _ _ Hr) as Hp.
  destruct (Z.leb_spec (offset h) (zlen buf)); [|lia]. cbn [assert_].
  destruct (http_machine buf (cs h) (offset h) (HRun h None false) Hmax Hch Hr)
    as [(n & p & s & -> & Hpost)|[-> ?]]; [left|by right]. cbn [res_bind r_s r_cs r_p].
  assert (0 <= p <= zlen buf) as Hpp by (destruct Hpost; lia).
  destruct (r_err s) as [e|] eqn:He.
  { rewrite bool_decide_true, orb_true_r by done. do 3 eexists.
    split; [reflexivity|]. split; [done|]. by right. }
  rewrite bool_decide_false, orb_false_r by (by intros []).
  assert ((p <=? zlen buf) = true) as Hle by (apply Z.leb_le; lia).
  destruct Hpost as [? [Hn|?] Hrd|Hi Hpe|Hq Hrd _ Hm Hk Hwb];
    [|done|..]; subst; rewrite ?Hrd, ?(hi_rd _ _ _ _ Hi); cbn; rewrite ?Hle; cbn.
  - do 3 eexists. split; [reflexivity|]. split; [done|]. by left.
  - pose proof (hi_live _ _ _ _ Hi) as Hlv. unfold live in Hlv. rewrite orb_true_iff, !rng_true in Hlv.
    unfold http_parser_error, http_parser_first_final.
    destruct (Z.eqb_spec n 0); [lia|]. destruct (Z.eqb_spec n 468); [lia|].
    do 3 eexists. split; [reflexivity|]. split; [done|]. split; [done|]. by apply hinv_stored.
  - do 3 eexists. split; [reflexivity|]. split; [done|].
    split; [cbn; lia|]. split; [done|]. split; [exact Hk|done].
Qed.

(** A connection after [mog_http_init] or [mog_http_reset] is ready. *)
Lemma http_reset_ready (h : mog_http) (buf : list Z) : http_ready buf (mog_http_reset_parser h).
Proof. pose proof (zlen_nonneg buf). constructor; cbn; try done; lia. Qed.

(** More bytes behind the ones read change nothing. *)
Lemma hinv_grow (buf more : list Z) (cs p : Z) (s : hrun) :
  HInv buf cs p s -> HInv (buf ++ more) cs p s.
Proof.
  intros [Hp Hl Hs Hph Hm ? ? ?]. pose proof (zlen_nonneg more).
  constructor; try done; [rewrite zlen_app; lia| |].
  - revert Hph. unfold phase_inv, path_begun, path_known, line_known.
    destruct (phase_of cs); [done|..]; intros Hph; rewrite ?char_at_grow by lia; done.
  - intros H0. destruct (Hm H0) as (Ht & Ht0 & Hsh). rewrite slice_grow by lia. done.
Qed.

Lemma http_ready_grow (buf more : list Z) (h : mog_http) :
  http_ready buf h -> http_ready (buf ++ more) h.
Proof. apply hinv_grow. Qed.
