(* ===== verification/HttpRequest.v ===== *)
(** What the HTTP parser computes: requests that are written according to the
    grammar are parsed into their method, path and header fields, whatever
    follows them in the buffer. *)
From S2P Require Import Prelude Fmt Ragel Base64 Http ChunkParser.
From S2P Require Import ChunkInv HttpResp HttpParser HttpParserInv.
From stdpp Require Import base list numbers.
From Stdlib Require Import ZArith Lia.

#[local] Open Scope Z_scope.

Abbreviation hruns := (Ragel.runs step).

(** ** Literal parts *)

Abbreviation walk := (Ragel.walk goto).

Lemma hstep_table buf cs p (s : hrun) l :
  goto cs (char_at buf p) = Some l ->
  step buf cs p s =
    match l with
    | St n => if n =? 0 then GoOut 0 p s else GoSt n p s
    | Tr k => act k buf p s
    end.
Proof. intros H. unfold step. by rewrite H. Qed.

Lemma hstep_at (pre : list Z) (c : Z) (suf : list Z) (cs : Z) (s : hrun) (l : label) :
  goto cs c = Some l ->
  step (pre ++ c :: suf) cs (zlen pre) s =
    match l with
    | St n => if n =? 0 then GoOut 0 (zlen pre) s else GoSt n (zlen pre) s
    | Tr k => act k (pre ++ c :: suf) (zlen pre) s
    end.
Proof. apply (table_step_at goto act step hstep_table). Qed.

Definition run_walk := runs_walk goto act step hstep_table.
Definition run_act := runs_act goto act step hstep_table.

(** ** Requests *)

Definition method_bytes (m : mog_http_method) : list Z :=
  match m with
  | MOG_HTTP_METHOD_NONE => []
  | MOG_HTTP_METHOD_GET => str "GET "
  | MOG_HTTP_METHOD_HEAD => str "HEAD "
  | MOG_HTTP_METHOD_PUT => str "PUT "
  | MOG_HTTP_METHOD_DELETE => str "DELETE "
  | MOG_HTTP_METHOD_MKCOL => str "MKCOL "
  end.

(** The characters MogileFS uses in paths. *)
Definition path_char (c : Z) : bool := rng 45 57 c || rng 65 90 c || rng 97 122 c.

(** [/] and up to 36 characters, the first of which is not another [/]. *)
Definition legal_path (p : list Z) : bool :=
  match p with
  | c :: rest => (c =? 47) && forallb path_char rest && (zlen rest <=? 36) &&
                 match rest with c' :: _ => negb (c' =? 47) | [] => true end
  | [] => false
  end.

(** The headers that matter to the handlers. *)
Inductive header :=
  | HLen (digits : list Z)
  | HRange (beg end_ : list Z)
  | HChunked
  | HClose
  | HKeepAlive.

Definition header_bytes (x : header) : list Z :=
  match x with
  | HLen ds => str "Content-Length: " ++ ds ++ CRLF
  | HRange a b => str "Range: bytes=" ++ a ++ str "-" ++ b ++ CRLF
  | HChunked => str "Transfer-Encoding: chunked" ++ CRLF
  | HClose => str "Connection: close" ++ CRLF
  | HKeepAlive => str "Connection: keep-alive" ++ CRLF
  end.

Record request := Request {
  q_method : mog_http_method;
  q_path : list Z;
  q_minor : bool  (* HTTP/1.1 *);
  q_headers : list header
}.

Definition request_bytes (q : request) : list Z :=
  method_bytes (q_method q) ++ q_path q ++ str " HTTP/1." ++ (if q_minor q then str "1" else str "0")
  ++ CRLF ++ concat (map header_bytes (q_headers q)) ++ CRLF.

(** ** What a request means *)

Record fields := Fields {
  v_len : Z; v_beg : Z; v_end : Z; v_range : bool; v_chunked : bool; v_persistent : bool
}.

Definition fields_of (h : mog_http) : fields :=
  Fields (content_len h) (range_beg h) (range_end h) (has_range h) (chunked h) (persistent h).

(** Digits are appended to the length that is there already. *)
Definition append_digits (v : Z) (ds : list Z) : Z :=
  fold_left (fun acc c => acc * 10 + (c - 48)) ds v.

(** [-1] when the header leaves the number out. *)
Definition range_value (ds : list Z) : Z :=
  match ds with [] => -1 | _ => append_digits 0 ds end.

Definition apply_header (x : header) (v : fields) : fields :=
  match x with
  | HLen ds => Fields (append_digits (v_len v) ds) (v_beg v) (v_end v) (v_range v) (v_chunked v) (v_persistent v)
  | HRange a b => Fields (v_len v) (range_value a) (range_value b) true (v_chunked v) (v_persistent v)
  | HChunked => Fields (v_len v) (v_beg v) (v_end v) (v_range v) true (v_persistent v)
  | HClose => Fields (v_len v) (v_beg v) (v_end v) (v_range v) (v_chunked v) false
  | HKeepAlive => Fields (v_len v) (v_beg v) (v_end v) (v_range v) (v_chunked v) true
  end.

Definition request_fields (q : request) : fields :=
  fold_left (fun v x => apply_header x v) (q_headers q) (Fields 0 0 0 false false (q_minor q)).

(** Headers whose numbers fit an [off_t]. *)
Definition legal_header (x : header) (v : fields) : bool :=
  match x with
  | HLen ds => forallb is_digit ds && negb (bool_decide (ds = [])) &&
               (append_digits (v_len v) ds <=? OFF_MAX)
  | HRange a b => forallb is_digit a && forallb is_digit b &&
                  (append_digits 0 a <=? OFF_MAX) && (append_digits 0 b <=? OFF_MAX)
  | _ => true
  end.

Fixpoint legal_headers (xs : list header) (v : fields) : bool :=
  match xs with
  | [] => true
  | x :: xs' => legal_header x v && legal_headers xs' (apply_header x v)
  end.

Definition legal_request (q : request) : bool :=
  negb (bool_decide (q_method q = MOG_HTTP_METHOD_NONE)) && legal_path (q_path q) &&
  legal_headers (q_headers q) (Fields 0 0 0 false false (q_minor q)).

(** ** Digits *)

Lemma append_digits_ge (ds : list Z) (v : Z) :
  forallb is_digit ds = true -> 0 <= v -> v <= append_digits v ds.
Proof.
  revert v. induction ds as [|c ds IH]; intros v H H0; cbn [append_digits fold_left]; [done|].
  apply andb_true_iff in H as [Hc H]. apply rng_true in Hc.
  etransitivity; [|apply IH; [done|lia]]. lia.
Qed.

Lemma length_incr_ok (v c : Z) :
  0 <= v -> is_digit c = true -> v * 10 + (c - 48) <= OFF_MAX ->
  length_incr v c = (v * 10 + (c - 48), true).
Proof.
  intros Hv Hc Hm. apply rng_true in Hc. unfold length_incr, OFF_MAX in *.
  rewrite !wrap64_id by (unfold is_off; rewrite ?wrap64_id; unfold is_off; lia).
  destruct (Z.leb_spec v (v * 10 + (c - 48))); [done|lia].
Qed.

(** A run of digits, each of which takes [k] from state [n] to itself. *)
Lemma run_length_digits (ds : list Z) (n k : Z) (get : mog_http -> Z) (set : Z -> mog_http -> mog_http) suf Q :
  (forall c, is_digit c = true -> goto n c = Some (Tr k)) ->
  (forall buf p s, 0 <= get (r_http s) -> act k buf p s = length_digit n get set buf p s) ->
  (forall v h, get (set v h) = v) -> (forall v v' h, set v (set v' h) = set v h) ->
  (forall h, set (get h) h = h) ->
  forallb is_digit ds = true ->
  forall pre s, 0 <= get (r_http s) -> append_digits (get (r_http s)) ds <= OFF_MAX ->
  hruns ((pre ++ ds) ++ suf) n (zlen (pre ++ ds)) (updh (set (append_digits (get (r_http s)) ds)) s) Q ->
  hruns (pre ++ ds ++ suf) n (zlen pre) s Q.
Proof.
  intros Hg Ha Hgs Hss Hsg. induction ds as [|c ds IH]; intros Hd pre s H0 Hm Hr.
  - cbn in Hr. rewrite app_nil_r in Hr. unfold updh in Hr. rewrite Hsg in Hr. by destruct s.
  - apply andb_true_iff in Hd as [Hc Hd]. cbn [append_digits fold_left] in Hm, Hr.
    set (v := get (r_http s) * 10 + (c - 48)) in *.
    change (fold_left _ ds v) with (append_digits v ds) in Hm, Hr.
    assert (48 <= c <= 57) by by apply rng_true.
    pose proof (append_digits_ge ds v Hd ltac:(lia)).
    eapply (run_act pre (ds ++ suf) c n n k s (updh (set v) s)); [by apply Hg| |].
    + rewrite Ha by done. unfold length_digit. rewrite char_at_mid, length_incr_ok by (done || lia). done.
    + apply IH; [done|cbn; rewrite Hgs; lia|cbn; rewrite Hgs; lia|].
      cbn. rewrite Hgs. unfold updh in *. cbn. rewrite Hss. by rewrite <- !app_assoc in *.
Qed.

(** The digits of one number of a Range header, [-1] before the first. *)
Lemma run_range_digits (ds : list Z) (n k : Z) (get : mog_http -> Z) (set : Z -> mog_http -> mog_http) suf Q :
  (forall c, is_digit c = true -> goto n c = Some (Tr k)) ->
  (forall buf p s, act k buf p s = range_digit n get set buf p s) ->
  (forall v h, get (set v h) = v) -> (forall v v' h, set v (set v' h) = set v h) ->
  (forall h, set (get h) h = h) ->
  forallb is_digit ds = true -> append_digits 0 ds <= OFF_MAX ->
  forall pre s, get (r_http s) = -1 ->
  hruns ((pre ++ ds) ++ suf) n (zlen (pre ++ ds)) (updh (set (range_value ds)) s) Q ->
  hruns (pre ++ ds ++ suf) n (zlen pre) s Q.
Proof.
  intros Hg Ha Hgs Hss Hsg Hd Hm pre s Hneg Hr. destruct ds as [|c ds].
  - cbn in Hr. rewrite app_nil_r in Hr. unfold updh in Hr. rewrite <- Hneg, Hsg in Hr. by destruct s.
  - apply andb_true_iff in Hd as [Hc Hd]. cbn [range_value append_digits fold_left] in Hm, Hr.
    set (v := 0 * 10 + (c - 48)) in *.
    change (fold_left _ ds v) with (append_digits v ds) in Hm, Hr.
    assert (48 <= c <= 57) by by apply rng_true.
    pose proof (append_digits_ge ds v Hd ltac:(lia)).
    eapply (run_act pre (ds ++ suf) c n n k s (updh (set v) s)); [by apply Hg| |].
    + rewrite Ha. unfold range_digit. rewrite Hneg. cbn [Z.ltb Z.compare].
      unfold length_digit, updh. cbn. rewrite char_at_mid, Hgs, length_incr_ok by (done || lia).
      rewrite Hss. done.
    + apply (run_length_digits ds n k get set); try done.
      * intros buf p s0 Hs0. rewrite Ha. unfold range_digit.
        destruct (Z.ltb_spec (get (r_http s0)) 0); [lia|done].
      * cbn. rewrite Hgs. lia.
      * cbn. rewrite Hgs. lia.
      * cbn. rewrite Hgs. unfold updh in *. cbn. rewrite Hss. by rewrite <- !app_assoc in *.
Qed.

(** Transitions on digits, decided on the table. *)
Lemma goto_digit (n k : Z) (c : Z) :
  check_table [n] (fun n c => implb (is_digit c)
    match goto n c with Some (Tr k') => k' =? k | _ => false end) = true ->
  is_digit c = true -> goto n c = Some (Tr k).
Proof.
  intros Ht Hc. assert (is_char c) as Hch by (apply rng_true in Hc; unfold is_char; lia).
  pose proof (check_table_sound _ _ Ht n c ltac:(by left) Hch) as H. cbn beta in H.
  rewrite Hc in H. cbn [implb] in H. destruct (goto n c) as [[|k']|]; try done.
  by apply Z.eqb_eq in H as ->.
Qed.

(** ** Header lines *)

(** What stays when a header line is parsed. *)
Record next_state (s s' : hrun) (v : fields) : Prop := {
  ns_err : r_err s' = None;
  ns_done : r_done s' = false;
  ns_method : http_method (r_http s') = http_method (r_http s);
  ns_tip : path_tip (r_http s') = path_tip (r_http s);
  ns_end : path_end (r_http s') = path_end (r_http s);
  ns_fields : fields_of (r_http s') = v
}.

(** A line feed in state 41 or 19 ends the line. *)
Lemma run_eol (pre suf : list Z) (n m : Z) (s : hrun) Q :
  goto n 13 = Some (St m) -> goto m 10 = Some (Tr 26) -> m <> 0 -> zlen (pre ++ CRLF) <= UINT16_MAX ->
  hruns ((pre ++ CRLF) ++ suf) 20 (zlen (pre ++ CRLF)) (updh (set_line_end (zlen pre + 1)) s) Q ->
  hruns (pre ++ CRLF ++ suf) n (zlen pre) s Q.
Proof.
  intros H1 H2 Hm Hmax Hr. unfold CRLF in *. rewrite zlen_app in Hmax. autorewrite with zlen in Hmax.
  change ([13; 10] ++ suf) with ([13] ++ [10] ++ suf).
  apply (run_walk [13] _ _ n m); [cbn; rewrite H1; by destruct (Z.eqb_spec m 0)|].
  eapply (run_act _ _ 10 m 20 26); [done| |].
  - cbn [act line_target]. unfold mark_line, to_u16. autorewrite with zlen.
    destruct (Z.leb_spec (zlen pre + (0 + 1)) UINT16_MAX); [done|lia].
  - by rewrite <- !app_assoc in *.
Qed.

Lemma run_len (ds pre suf : list Z) (s : hrun) Q :
  legal_header (HLen ds) (fields_of (r_http s)) = true -> 0 <= content_len (r_http s) ->
  r_err s = None -> r_done s = false -> zlen (pre ++ header_bytes (HLen ds)) <= UINT16_MAX ->
  (forall s', next_state s s' (apply_header (HLen ds) (fields_of (r_http s))) ->
     hruns ((pre ++ header_bytes (HLen ds)) ++ suf) 20 (zlen (pre ++ header_bytes (HLen ds))) s' Q) ->
  hruns (pre ++ header_bytes (HLen ds) ++ suf) 20 (zlen pre) s Q.
Proof.
  intros Hl H0 He Hd Hmax Hk. cbn [legal_header header_bytes fields_of v_len] in *.
  rewrite !andb_true_iff, negb_true_iff, bool_decide_eq_false, Z.leb_le in Hl.
  destruct Hl as [[Hdig Hne] Hm]. rewrite <- !app_assoc.
  apply (run_walk _ _ _ 20 62); [done|].
  destruct ds as [|c ds]; [done|]. apply andb_true_iff in Hdig as [Hc Hdig].
  cbn [append_digits fold_left] in Hm. set (v := content_len (r_http s) * 10 + (c - 48)) in *.
  change (fold_left _ ds v) with (append_digits v ds) in Hm.
  assert (48 <= c <= 57) by by apply rng_true. pose proof (append_digits_ge ds v Hdig ltac:(lia)).
  rewrite <- app_comm_cons.
  eapply (run_act _ (ds ++ CRLF ++ suf) c 62 66 79 s (updh (set_content_len v) s)).
  - apply goto_digit; [vm_compute; reflexivity|done].
  - cbn [act line_target]. unfold length_digit. rewrite char_at_mid, length_incr_ok by (done || lia). done.
  - apply (run_length_digits ds 66 79 content_len set_content_len); try done.
    + intros c' Hc'. apply goto_digit; [vm_compute; reflexivity|done].
    + by intros [].
    + cbn. lia.
    + apply (run_eol _ _ 66 41); [done..| |].
      * rewrite <- !app_assoc. exact Hmax.
      * rewrite <- !app_assoc in *. apply Hk. constructor; done.
Qed.

Lemma run_range (a b pre suf : list Z) (s : hrun) Q :
  legal_header (HRange a b) (fields_of (r_http s)) = true ->
  r_err s = None -> r_done s = false -> zlen (pre ++ header_bytes (HRange a b)) <= UINT16_MAX ->
  (forall s', next_state s s' (apply_header (HRange a b) (fields_of (r_http s))) ->
     hruns ((pre ++ header_bytes (HRange a b)) ++ suf) 20 (zlen (pre ++ header_bytes (HRange a b))) s' Q) ->
  hruns (pre ++ header_bytes (HRange a b) ++ suf) 20 (zlen pre) s Q.
Proof.
  intros Hl He Hd Hmax Hk. cbn [legal_header header_bytes] in *.
  rewrite !andb_true_iff, !Z.leb_le in Hl. destruct Hl as [[[Ha Hb] Hma] Hmb].
  change (str "Range: bytes=") with (str "Range: " ++ [98] ++ str "ytes=") in *.
  change (str "-") with [45] in *.
  rewrite <- !app_assoc in *.
  apply (run_walk _ _ _ 20 106); [done|].
  eapply (run_act _ _ 98 106 110 125); [done|reflexivity|].
  apply (run_walk _ _ _ 110 115); [done|].
  apply (run_range_digits a 115 134 range_beg set_range_beg); try done;
    [intros c Hc; apply goto_digit; [vm_compute; reflexivity|done]|by intros []|].
  apply (run_walk [45] _ _ 115 116); [done|].
  apply (run_range_digits b 116 137 range_end set_range_end); try done;
    [intros c Hc; apply goto_digit; [vm_compute; reflexivity|done]|by intros []|].
  change (CRLF ++ suf) with ([13] ++ [10] ++ suf).
  apply (run_walk [13] _ _ 116 118); [done|].
  rewrite !zlen_app in Hmax. unfold CRLF in Hmax. autorewrite with zlen in Hmax.
  eapply (run_act _ _ 10 118 20 138); [done| |].
  - cbn [act line_target]. unfold to_u16. rewrite !zlen_app. autorewrite with zlen.
    match goal with |- (if ?b then _ else _) = _ =>
      replace b with true; [reflexivity|symmetry; apply Z.leb_le; lia] end.
  - unfold CRLF in Hk. rewrite <- !app_assoc in *. apply Hk. constructor; done.
Qed.

(** A header whose value is a fixed word: the last letter (or the carriage
    return) stores the field. *)
Lemma run_word (ws : list Z) (c n m k : Z) (f : mog_http -> mog_http) (pre suf : list Z) (s : hrun) Q :
  walk 20 ws = Some n -> goto n c = Some (Tr k) ->
  (forall buf p s, act k buf p s = assign m f p s) -> goto m 13 = Some (St 41) ->
  zlen (pre ++ (ws ++ [c]) ++ CRLF) <= UINT16_MAX ->
  hruns ((pre ++ (ws ++ [c]) ++ CRLF) ++ suf) 20 (zlen (pre ++ (ws ++ [c]) ++ CRLF))
    (updh (set_line_end (zlen (pre ++ ws ++ [c]) + 1)) (updh f s)) Q ->
  hruns (pre ++ ((ws ++ [c]) ++ CRLF) ++ suf) 20 (zlen pre) s Q.
Proof.
  intros Hw Hg Ha Hm Hmax Hr. rewrite <- !app_assoc. apply (run_walk _ _ _ 20 n); [done|].
  eapply (run_act _ _ c n m k); [done|by rewrite Ha|].
  apply (run_eol _ _ m 41); [done..| |].
  - by rewrite <- !app_assoc in *.
  - by rewrite <- !app_assoc in *.
Qed.

Lemma run_chunked (pre suf : list Z) (s : hrun) Q :
  zlen (pre ++ header_bytes HChunked) <= UINT16_MAX ->
  hruns ((pre ++ header_bytes HChunked) ++ suf) 20 (zlen (pre ++ header_bytes HChunked))
    (updh (set_line_end (zlen (pre ++ str "Transfer-Encoding: chunked") + 1)) (updh (set_chunked true) s)) Q ->
  hruns (pre ++ header_bytes HChunked ++ suf) 20 (zlen pre) s Q.
Proof.
  intros Hmax Hr. cbn [header_bytes] in *. rewrite <- !app_assoc in *.
  apply (run_walk _ _ _ 20 165); [done|]. change (CRLF ++ suf) with ([13] ++ [10] ++ suf).
  eapply (run_act _ _ 13 165 41 187); [done|reflexivity|].
  eapply (run_act _ _ 10 41 20 26); [done| |].
  - cbn [act line_target]. unfold mark_line, to_u16.
    destruct (Z.leb_spec (zlen ((pre ++ str "Transfer-Encoding: chunked") ++ [13])) UINT16_MAX) as [|Hgt]; [reflexivity|].
    rewrite !zlen_app in *. unfold CRLF in Hmax. autorewrite with zlen in *. lia.
  - unfold CRLF in Hr. replace (zlen ((pre ++ str "Transfer-Encoding: chunked") ++ [13]))
      with (zlen (pre ++ str "Transfer-Encoding: chunked") + 1) by (autorewrite with zlen; lia).
    by rewrite <- !app_assoc in *.
Qed.

Lemma run_hdr (x : header) (pre suf : list Z) (s : hrun) Q :
  legal_header x (fields_of (r_http s)) = true -> 0 <= content_len (r_http s) ->
  r_err s = None -> r_done s = false -> zlen (pre ++ header_bytes x) <= UINT16_MAX ->
  (forall s', next_state s s' (apply_header x (fields_of (r_http s))) ->
     hruns ((pre ++ header_bytes x) ++ suf) 20 (zlen (pre ++ header_bytes x)) s' Q) ->
  hruns (pre ++ header_bytes x ++ suf) 20 (zlen pre) s Q.
Proof.
  intros Hl H0 He Hd Hmax Hk. destruct x as [ds|a b| | |].
  - by apply run_len.
  - by apply run_range.
  - apply run_chunked; [done|]. apply Hk. by constructor.
  - apply (run_word (str "Connection: clos") 101 39 40 52 (set_persistent false)); try done.
    apply Hk. by constructor.
  - apply (run_word (str "Connection: keep-aliv") 101 50 40 63 (set_persistent true)); try done.
    apply Hk. by constructor.
Qed.

(** ** Whole requests *)

(** The registers at the end of a header. *)
Definition parsed (m : mog_http_method) (tip end_ : Z) (v : fields) (p : Z) (r : regs hrun) : Prop :=
  r_p r = p /\ r_done (r_s r) = true /\ r_err (r_s r) = None /\
  http_method (r_http (r_s r)) = m /\ path_tip (r_http (r_s r)) = tip /\
  path_end (r_http (r_s r)) = end_ /\ fields_of (r_http (r_s r)) = v.

Lemma apply_header_len (x : header) (v : fields) :
  legal_header x v = true -> 0 <= v_len v -> 0 <= v_len (apply_header x v).
Proof.
  destruct x as [ds|a b| | |]; cbn; try done. intros H H0.
  rewrite !andb_true_iff in H. destruct H as [[Hd _] _].
  pose proof (append_digits_ge ds (v_len v) Hd H0). lia.
Qed.

Lemma run_headers (xs : list header) (suf : list Z) :
  forall pre s, legal_headers xs (fields_of (r_http s)) = true -> 0 <= content_len (r_http s) ->
  r_err s = None -> r_done s = false ->
  zlen (pre ++ concat (map header_bytes xs) ++ CRLF) <= UINT16_MAX ->
  hruns (pre ++ (concat (map header_bytes xs) ++ CRLF) ++ suf) 20 (zlen pre) s
    (parsed (http_method (r_http s)) (path_tip (r_http s)) (path_end (r_http s))
       (fold_left (fun v x => apply_header x v) xs (fields_of (r_http s)))
       (zlen (pre ++ concat (map header_bytes xs) ++ CRLF))).
Proof.
  induction xs as [|x xs IH]; intros pre s Hl H0 He Hd Hmax; cbn [map concat fold_left legal_headers] in *.
  - cbn [app] in *. change (CRLF ++ suf) with ([13] ++ [10] ++ suf).
    apply (run_walk [13] _ _ 20 21); [done|]. cbn [app].
    eapply (runs_out _ _ 10 suf 21); [by rewrite (hstep_at _ _ _ _ _ (Tr 32))|].
    unfold CRLF. split_and!; try done. cbn. autorewrite with zlen. lia.
  - apply andb_true_iff in Hl as [Hx Hl]. rewrite <- !app_assoc in *.
    apply run_hdr; try done.
    { rewrite !zlen_app in *. pose proof (zlen_nonneg (concat (map header_bytes xs))).
      pose proof (zlen_nonneg CRLF). lia. }
    intros s' [He' Hd' Hm Ht Hp Hf]. rewrite <- Hm, <- Ht, <- Hp, <- Hf.
    specialize (IH (pre ++ header_bytes x) s'). rewrite <- !app_assoc in *.
    apply IH; try done; [by rewrite Hf|].
    change (content_len (r_http s')) with (v_len (fields_of (r_http s'))). rewrite Hf.
    by apply apply_header_len.
Qed.

(** The path: every character moves one state on. *)
Lemma path_states (c : Z) (n : Z) :
  path_char c = true -> (186 <= n <= 220 -> goto n c = Some (St (n + 1))) /\
  (c <> 47 -> goto 9 c = Some (St 186)).
Proof.
  intros Hc. assert (is_char c) as Hch.
  { unfold path_char in Hc. rewrite !orb_true_iff, !rng_true in Hc. unfold is_char. lia. }
  split.
  - intros Hn. pose proof (check_table_sound (zrange 186 35) (fun n c => implb (path_char c)
      match goto n c with Some (St n') => n' =? n + 1 | _ => false end)
      ltac:(vm_compute; reflexivity) n c ltac:(apply zrange_spec; lia) Hch) as H. cbn beta in H.
    rewrite Hc in H. cbn [implb] in H. destruct (goto n c) as [[n'|]|]; try done.
    by apply Z.eqb_eq in H as ->.
  - intros H47. pose proof (check_table_sound [9] (fun n c => implb (path_char c && negb (c =? 47))
      match goto n c with Some (St n') => n' =? 186 | _ => false end)
      ltac:(vm_compute; reflexivity) 9 c ltac:(by left) Hch) as H. cbn beta in H.
    rewrite Hc in H. destruct (Z.eqb_spec c 47); [done|]. cbn [implb andb negb] in H.
    destruct (goto 9 c) as [[n'|]|]; try done. by apply Z.eqb_eq in H as ->.
Qed.

Lemma walk_tail (rest : list Z) (n : Z) :
  forallb path_char rest = true -> 186 <= n -> n + zlen rest <= 221 ->
  walk n rest = Some (n + zlen rest).
Proof.
  revert n. induction rest as [|c rest IH]; intros n Hp Hn Hz.
  - cbn. f_equal. rewrite zlen_nil. lia.
  - apply andb_true_iff in Hp as [Hc Hp]. rewrite zlen_cons in *. pose proof (zlen_nonneg rest).
    destruct (path_states c n Hc) as [Hg _]. cbn [Ragel.walk]. rewrite Hg by lia.
    destruct (Z.eqb_spec (n + 1) 0); [lia|]. rewrite IH by (done || lia). f_equal. lia.
Qed.

(** After the path the machine waits for more of it or for a space. *)
Lemma walk_path (rest : list Z) :
  forallb path_char rest = true -> zlen rest <= 36 ->
  match rest with c :: _ => negb (c =? 47) | [] => true end = true ->
  exists n, walk 9 rest = Some n /\ goto n 32 = Some (Tr 14).
Proof.
  intros Hp Hz Hs. destruct rest as [|c rest]; [by exists 9|].
  apply andb_true_iff in Hp as [Hc Hp]. rewrite zlen_cons in Hz. pose proof (zlen_nonneg rest).
  assert (c <> 47) as H47 by (by apply negb_true_iff, Z.eqb_neq in Hs).
  destruct (path_states c 0 Hc) as [_ Hg]. exists (186 + zlen rest). cbn [Ragel.walk].
  rewrite (Hg H47). cbn [Z.eqb]. split; [apply walk_tail; (done || lia)|].
  pose proof (check_table_sound (zrange 186 36) (fun n c => implb (c =? 32)
    match goto n c with Some (Tr k) => k =? 14 | _ => false end)
    ltac:(vm_compute; reflexivity) (186 + zlen rest) 32 ltac:(apply zrange_spec; lia)
    ltac:(unfold is_char; lia)) as Ht. cbn beta in Ht. cbn [Z.eqb Pos.eqb implb] in Ht.
  destruct (goto (186 + zlen rest) 32) as [[|k]|]; try done. by apply Z.eqb_eq in Ht as ->.
Qed.

Lemma run_method (m : mog_http_method) (suf : list Z) (s : hrun) Q :
  m <> MOG_HTTP_METHOD_NONE ->
  hruns (method_bytes m ++ suf) 8 (zlen (method_bytes m)) (updh (set_http_method m) s) Q ->
  hruns (method_bytes m ++ suf) 1 0 s Q.
Proof.
  intros Hm Hr. change 0 with (zlen (@nil Z)).
  assert (forall c ws k n, goto 1 c = Some (Tr k) -> walk n ws = Some 8 ->
    (forall buf p s, act k buf p s = assign n (set_http_method m) p s) ->
    method_bytes m = c :: ws ->
    hruns (method_bytes m ++ suf) 1 (zlen (@nil Z)) s Q) as Hgo.
  { intros c ws k n Hg Hw Ha He. rewrite He in *.
    change ((c :: ws) ++ suf) with ([] ++ [c] ++ ws ++ suf) in *.
    eapply (run_act [] (ws ++ suf) c 1 n k); [done|by rewrite Ha|].
    apply (run_walk ws _ _ n 8); [done|]. exact Hr. }
  destruct m; [done|..];
    [apply (Hgo 71 (str "ET ") 2 230)|apply (Hgo 72 (str "EAD ") 3 232)
    |apply (Hgo 80 (str "UT ") 5 239)|apply (Hgo 68 (str "ELETE ") 0 2)
    |apply (Hgo 77 (str "KCOL ") 4 235)]; done.
Qed.

Lemma method_len (m : mog_http_method) : zlen (method_bytes m) <= 7.
Proof. destruct m; vm_compute; discriminate. Qed.

Lemma run_request (q : request) (suf : list Z) (s : hrun) :
  legal_request q = true -> zlen (request_bytes q) <= UINT16_MAX ->
  r_err s = None -> r_done s = false -> fields_of (r_http s) = Fields 0 0 0 false false false ->
  hruns (request_bytes q ++ suf) 1 0 s
    (parsed (q_method q) (zlen (method_bytes (q_method q)))
       (zlen (method_bytes (q_method q)) + zlen (q_path q)) (request_fields q)
       (zlen (request_bytes q))).
Proof.
  intros Hl Hmax He Hd Hf. unfold legal_request in Hl.
  rewrite !andb_true_iff, negb_true_iff, bool_decide_eq_false in Hl. destruct Hl as [[Hm Hpath] Hh].
  unfold legal_path in Hpath. destruct (q_path q) as [|c rest] eqn:Ep; [done|].
  rewrite !andb_true_iff, Z.eqb_eq, Z.leb_le in Hpath. destruct Hpath as [[[-> Hpc] Hpz] Hps].
  destruct (walk_path rest Hpc Hpz Hps) as (n & Hw & Hg).
  set (M := method_bytes (q_method q)) in *. pose proof (method_len (q_method q)) as HM. fold M in HM.
  unfold request_bytes in *. fold M in Hmax |- *. rewrite Ep in *.
  set (H := concat (map header_bytes (q_headers q)) ++ CRLF) in *.
  rewrite <- !app_assoc in *.
  pose proof (zlen_nonneg M). pose proof (zlen_nonneg rest).
  apply run_method; [done|]. fold M. change ((47 :: rest) ++ ?l) with ([47] ++ rest ++ l) in *.
  eapply (run_act M _ 47 8 9 12); [done| |].
  { cbn [act line_target]. unfold to_u8, UINT8_MAX. destruct (Z.leb_spec (zlen M) 255); [reflexivity|lia]. }
  apply (run_walk rest _ _ 9 n); [done|].
  change (str " HTTP/1.") with ([32] ++ str "HTTP/1.") in *. rewrite <- !(app_assoc [32]) in *.
  eapply (run_act _ _ 32 n 10 14); [done| |].
  { cbn [act line_target]. unfold to_u8, UINT8_MAX.
    destruct (Z.leb_spec (zlen ((M ++ [47]) ++ rest)) 255) as [|Hgt]; [reflexivity|].
    autorewrite with zlen in Hgt. lia. }
  apply (run_walk (str "HTTP/1.") _ _ 10 17); [done|].
  set (s1 := updh (set_path_end _) _).
  set (minor := if q_minor q then str "1" else str "0") in *.
  assert (hruns (((((((M ++ [47]) ++ rest) ++ [32]) ++ str "HTTP/1.") ++ minor)) ++ CRLF ++ H ++ suf) 18
    (zlen ((((((M ++ [47]) ++ rest) ++ [32]) ++ str "HTTP/1.") ++ minor)))
    (updh (set_persistent (q_minor q)) s1)
    (parsed (q_method q) (zlen M) (zlen M + zlen (47 :: rest)) (request_fields q)
      (zlen (M ++ [47] ++ rest ++ [32] ++ str "HTTP/1." ++ minor ++ CRLF ++ H)))) as Hrest.
  { apply (run_eol _ _ 18 19); [done..| |].
    - rewrite <- !app_assoc in *. unfold H in Hmax. rewrite !zlen_app in *.
      pose proof (zlen_nonneg (concat (map header_bytes (q_headers q)))). pose proof (zlen_nonneg CRLF). lia.
    - set (s2 := updh (set_line_end _) _). unfold H.
      pose proof (run_headers (q_headers q) suf
        (((((((M ++ [47]) ++ rest) ++ [32]) ++ str "HTTP/1.") ++ minor)) ++ CRLF) s2) as Hh2.
      assert (fields_of (r_http s2) = Fields 0 0 0 false false (q_minor q)) as Hf2.
      { unfold s2, s1. injection Hf as F1 F2 F3 F4 F5 F6. unfold fields_of. cbn. by rewrite F1, F2, F3, F4, F5. }
      replace (zlen M + zlen (47 :: rest)) with (path_end (r_http s2))
        by (cbn; autorewrite with zlen; lia).
      unfold request_fields. rewrite <- Hf2. rewrite <- !app_assoc in *. apply Hh2; try done.
      + by rewrite Hf2.
      + change (content_len (r_http s2)) with (v_len (fields_of (r_http s2))). by rewrite Hf2. }
  unfold minor in *. destruct (q_minor q).
  - eapply (run_act _ _ 49 17 18 24); [done|reflexivity|exact Hrest].
  - apply (run_walk (str "0") _ _ 17 18); [done|].
    replace (updh (set_persistent false) s1) with s1 in Hrest; [exact Hrest|].
    unfold s1. injection Hf as _ _ _ _ _ H6. destruct s as [[] ? ?]; cbn in *. by subst.
Qed.

(** Requests consist of characters. *)
Lemma parse_request (q : request) (suf : list Z) (h : mog_http) :
  legal_request q = true -> zlen (request_bytes q ++ suf) <= UINT16_MAX ->
  Forall is_char (request_bytes q ++ suf) ->
  exists h', mog_http_parse (mog_http_reset_parser h) (request_bytes q ++ suf)
      = Ok (MOG_PARSER_DONE, h', None) /\
    http_method h' = q_method q /\ offset h' = zlen (request_bytes q) /\
    slice (path_tip h') (path_end h' - path_tip h') (request_bytes q ++ suf) = q_path q /\
    fields_of h' = request_fields q.
Proof.
  intros Hl Hmax Hch. pose proof (zlen_nonneg suf). set (buf := request_bytes q ++ suf) in *.
  assert (zlen (request_bytes q) <= UINT16_MAX) as Hq by (unfold buf in Hmax; rewrite zlen_app in Hmax; lia).
  pose proof (run_request q suf (HRun (mog_http_reset_parser h) None false) Hl Hq eq_refl eq_refl eq_refl) as Hrun.
  fold buf in Hrun. unfold mog_http_parse. cbn [wbuf mog_http_reset_parser is_wnull assert_ offset cs].
  pose proof (zlen_nonneg buf). destruct (Z.leb_spec 0 (zlen buf)); [|lia]. cbn [assert_].
  destruct (http_machine buf 1 0 (HRun (mog_http_reset_parser h) None false) Hmax Hch (http_reset_ready h buf))
    as [(n & p & s & Hent & _)|[Hent _]]; 
    [|exfalso; by apply (runs_no_crash _ _ _ _ _ _ AssertFailed _ Hrun ltac:(done) Hent)].
  pose proof (runs_enter _ _ _ _ _ _ _ _ Hrun Hent) as (Hp & Hd & He & Hm & Ht & Hpe & Hf).
  cbn in Hp, Hd, He, Hm, Ht, Hpe, Hf. unfold http_parser_start. rewrite Hent. cbn [res_bind r_s r_cs r_p].
  rewrite Hd, He. rewrite bool_decide_false by (by intros []). cbn. subst p.
  destruct (Z.leb_spec (zlen (request_bytes q)) (zlen buf));
    [|unfold buf in *; rewrite zlen_app in *; lia].
  eexists. split; [done|]. cbn. split_and!; try done.
  rewrite Ht, Hpe. unfold buf, request_bytes. rewrite <- !app_assoc.
  apply slice_app_mid; lia.
Qed.

(** ** Properties *)


Definition sample_request : request :=
  Request MOG_HTTP_METHOD_GET (str "/dev1/0/1.fid") true [HRange (str "2") (str "15"); HClose].


(** Feeding a request in pieces. *)
Fixpoint http_feed (h : mog_http) (buf : list Z) (segs : list (list Z))
  : res (mog_parser_state * mog_http * list Z) :=
  match segs with
  | [] => Ok (MOG_PARSER_CONTINUE, h, buf)
  | more :: segs' =>
      let* ' (st, h', _) := mog_http_parse h (buf ++ more) in
      match st with
      | MOG_PARSER_CONTINUE => http_feed h' (buf ++ more) segs'
      | _ => Ok (st, h', buf ++ more)
      end
  end.



(** Three defects of the request grammar.  A request target of more than
    255 bytes in front of its last slash aborts the process; a repeated
    Content-Length header appends its digits to the value that is there; and a
    header with a one-character name is rejected, because the rewind to the
    start of the line steps over its first character. *)
Theorem http_grammar_defects (h : mog_http) :
  let parse lines := match mog_http_parse (mog_http_reset_parser h)
                              (concat (map (fun l => l ++ CRLF) lines)) with
                     | Ok (st, h', _) => Some (st, content_len h')
                     | Crash _ => None
                     end in
  let put := str "PUT /dev1/0/1.fid HTTP/1.1" in
  parse [str "GET " ++ replicate 300 47 ++ str " HTTP/1.1"; []] = None /\
  parse [put; str "Content-Length: 1"; str "Content-Length: 2"; []]
    = Some (MOG_PARSER_DONE, 12) /\
  parse [put; str "Xy: 1"; []] = Some (MOG_PARSER_DONE, 0) /\
  parse [put; str "X: 1"; []] = Some (MOG_PARSER_ERROR, 0).
Proof. vm_compute. split_and!; reflexivity. Qed.
