(* ===== verification/HttpResume.v ===== *)
(** Incremental parsing: a request may be given to [mog_http_parse] in pieces,
    and the result is that of parsing it at once.

    The machine reads only bytes it has passed, so its steps are the same on a
    longer buffer; and the fields [cs] and [offset], which the code stores
    between two calls, are not read inside the machine. *)
From S2P Require Import Prelude Fmt Ragel Base64 Http ChunkParser.
From S2P Require Import ChunkInv HttpResp HttpParser HttpParserInv HttpRequest.
From stdpp Require Import base list numbers.
From Stdlib Require Import ZArith Lia.

#[local] Open Scope Z_scope.

(** ** Steps look back only *)

(** Positions the actions look up are behind [p]. *)
Definition looks_back (p : Z) (s : hrun) : Prop :=
  0 <= tmp_tip (r_http s) /\ 0 <= line_end (r_http s) <= p.

Lemma rewind_header_local (buf more : list Z) (p : Z) (s : hrun) :
  looks_back p s -> p < zlen buf -> rewind_header (buf ++ more) s = rewind_header buf s.
Proof.
  intros [_ Hl] Hp. unfold rewind_header. rewrite char_at_grow by lia.
  pose proof (zlen_nonneg more). rewrite zlen_app.
  destruct (Z.leb_spec (line_end (r_http s) + 1) (zlen buf + zlen more)),
    (Z.leb_spec (line_end (r_http s) + 1) (zlen buf)); done || lia.
Qed.

Lemma rewind_trailer_local (buf more : list Z) (p : Z) (s : hrun) :
  looks_back p s -> p < zlen buf -> rewind_trailer (buf ++ more) s = rewind_trailer buf s.
Proof.
  intros [_ Hl] Hp. unfold rewind_trailer. rewrite char_at_grow by lia.
  pose proof (zlen_nonneg more). rewrite zlen_app.
  destruct (Z.leb_spec (line_end (r_http s) + 1) (zlen buf + zlen more)),
    (Z.leb_spec (line_end (r_http s) + 1) (zlen buf)); done || lia.
Qed.

Lemma md5_value_local (n : Z) (buf more : list Z) (p : Z) (s : hrun) :
  looks_back p s -> p < zlen buf -> md5_value n (buf ++ more) p s = md5_value n buf p s.
Proof.
  intros [Ht _] Hp. unfold md5_value, to_u16. destruct (_ <=? _); [|done].
  destruct (Z.ltb_spec p (tmp_tip (r_http s))); [done|]. by rewrite slice_grow by lia.
Qed.

Lemma act_local (k : Z) (buf more : list Z) (p : Z) (s : hrun) :
  looks_back p s -> 0 <= p < zlen buf -> act k (buf ++ more) p s = act k buf p s.
Proof.
  intros Hb Hp. unfold act. destruct (line_target k); [done|].
  unfold range_digit, length_digit. rewrite char_at_grow by lia.
  rewrite (rewind_header_local buf more p), (rewind_trailer_local buf more p), !md5_value_local by (done || lia).
  done.
Qed.

(** ** What no action touches *)

(** [f] changes only fields the machine neither reads nor writes. *)
Definition map_jump (f : mog_http -> mog_http) (j : jump hrun) : jump hrun :=
  match j with
  | GoSt n p s => GoSt n p (updh f s)
  | GoOut n p s => GoOut n p (updh f s)
  | Stop w => Stop w
  end.

(** Changing the fields a connection keeps between two calls. *)
Definition park (gc go : Z -> Z) (g : option rbuf -> option rbuf) (h : mog_http) : mog_http :=
  set_h_rbuf (g (h_rbuf h)) (set_offset (go (offset h)) (set_cs (gc (cs h)) h)).

(** Storing the registers between two calls. *)
Definition store (n p : Z) (h : mog_http) : mog_http := set_offset p (set_cs n h).

(** The connection behind a step. *)
Definition jump_http (j : jump hrun) : option mog_http :=
  match j with GoSt _ _ s | GoOut _ _ s => Some (r_http s) | Stop _ => None end.

(** The fields of a connection that belong to other components. *)
Definition outer (h : mog_http) : option mog_file * option rbuf * wbuf_ptr * bool :=
  (forward h, h_rbuf h, wbuf h, skip_rbuf_defer h).

(** Split on the label of an action. *)
Ltac each_action :=
  unfold act; destruct (line_target _);
  [|repeat match goal with |- context [match ?k with _ => _ end] =>
      match type of k with Z => destruct k | positive => destruct k end end].

Lemma act_park (k : Z) (buf : list Z) (p : Z) (s : hrun) gc go g :
  act k buf p (updh (park gc go g) s) = map_jump (park gc go g) (act k buf p s).
Proof.
  destruct s as [h e d].
  assert (forall n get set, (forall h, get (park gc go g h) = get h) ->
      (forall v h, set v (park gc go g h) = park gc go g (set v h)) ->
      length_digit n get set buf p (updh (park gc go g) (HRun h e d)) =
      map_jump (park gc go g) (length_digit n get set buf p (HRun h e d)) /\
      range_digit n get set buf p (updh (park gc go g) (HRun h e d)) =
      map_jump (park gc go g) (range_digit n get set buf p (HRun h e d))) as Hd.
  { intros n get set Hg Hs. unfold range_digit, length_digit, updh; cbn. rewrite Hg.
    split; [|destruct (_ <? _); cbn; rewrite ?Hs, ?Hg];
      destruct (length_incr _ _) as [v []]; cbn; by rewrite Hs. }
  each_action;
    try (apply Hd; done);
    try (unfold md5_value, mark_line, to_u16, to_u8, assign, einval, rewind_header, rewind_trailer, updh; cbn;
         repeat case_match; done).
Qed.

Lemma act_outer (k : Z) (buf : list Z) (p : Z) (s : hrun) (h : mog_http) :
  jump_http (act k buf p s) = Some h -> outer h = outer (r_http s).
Proof.
  assert (forall n get set, (forall v h, outer (set v h) = outer h) ->
      (jump_http (length_digit n get set buf p s) = Some h -> outer h = outer (r_http s)) /\
      (jump_http (range_digit n get set buf p s) = Some h -> outer h = outer (r_http s))) as Hd.
  { intros n get set Hs. unfold range_digit, length_digit.
    split; [|destruct (_ <? _); cbn];
      destruct (length_incr _ _) as [v []]; cbn; intros [= <-]; by rewrite ?Hs. }
  each_action; try (apply Hd; done);
    unfold md5_value, mark_line, to_u16, to_u8, assign, einval, rewind_header, rewind_trailer, updh; cbn;
    repeat case_match; cbn; intros H'; by simplify_eq.
Qed.

Lemma act_looks_back (k : Z) (buf : list Z) (p : Z) (s : hrun) :
  0 <= p -> looks_back p s ->
  match act k buf p s with
  | GoSt _ q s' => looks_back (q + 1) s' | GoOut _ q s' => looks_back q s' | Stop _ => True
  end.
Proof.
  intros Hp Hb.
  assert (forall n get set, (forall v h, tmp_tip (set v h) = tmp_tip h /\ line_end (set v h) = line_end h) ->
      match length_digit n get set buf p s with
      | GoSt _ q s' => looks_back (q + 1) s' | GoOut _ q s' => looks_back q s' | Stop _ => True end /\
      match range_digit n get set buf p s with
      | GoSt _ q s' => looks_back (q + 1) s' | GoOut _ q s' => looks_back q s' | Stop _ => True end) as Hd.
  { intros n get set Hs. unfold range_digit, length_digit, looks_back in *.
    split; [|destruct (_ <? _); cbn];
      destruct (length_incr _ _) as [v []]; cbn; rewrite ?(proj1 (Hs _ _)), ?(proj2 (Hs _ _)); lia || done. }
  each_action; try (apply Hd; done);
    unfold looks_back, md5_value, mark_line, to_u16, to_u8, assign, einval, rewind_header, rewind_trailer, updh in *; cbn;
    repeat case_match; cbn in *; simplify_eq; cbn; try done; lia.
Qed.

(** The three facts for a whole step. *)
Lemma step_local (buf more : list Z) (cs p : Z) (s : hrun) :
  looks_back p s -> 0 <= p < zlen buf -> step (buf ++ more) cs p s = step buf cs p s.
Proof.
  intros Hb Hp. unfold step. rewrite char_at_grow by lia.
  destruct (goto cs (char_at buf p)) as [[n|k]|]; [done|by apply act_local|done].
Qed.

Lemma step_park (buf : list Z) (cs p : Z) (s : hrun) gc go g :
  step buf cs p (updh (park gc go g) s) = map_jump (park gc go g) (step buf cs p s).
Proof.
  unfold step. destruct (goto cs (char_at buf p)) as [[n|k]|]; [by destruct (n =? 0)|apply act_park|done].
Qed.

Lemma step_outer (buf : list Z) (cs p : Z) (s : hrun) (h : mog_http) :
  jump_http (step buf cs p s) = Some h -> outer h = outer (r_http s).
Proof.
  unfold step. destruct (goto cs (char_at buf p)) as [[n|k]|]; [|apply act_outer|by intros [= <-]].
  destruct (n =? 0); by intros [= <-].
Qed.

Lemma step_looks_back (buf : list Z) (cs p : Z) (s : hrun) :
  0 <= p -> looks_back p s ->
  match step buf cs p s with
  | GoSt _ q s' => looks_back (q + 1) s' | GoOut _ q s' => looks_back q s' | Stop _ => True
  end.
Proof.
  intros Hp Hb. unfold step.
  destruct (goto cs (char_at buf p)) as [[n|k]|]; [|by apply act_looks_back|done].
  destruct (n =? 0); unfold looks_back in *; [done|lia].
Qed.

(** ** Runs *)

Definition map_regs (f : mog_http -> mog_http) (x : res (regs hrun)) : res (regs hrun) :=
  match x with
  | Ok r => Ok (Regs (r_cs r) (r_p r) (updh f (r_s r)))
  | Crash w => Crash w
  end.

Lemma exec_park (f : nat) (buf : list Z) (cs p : Z) (s : hrun) gc go g :
  exec step f buf cs p (updh (park gc go g) s) = map_regs (park gc go g) (exec step f buf cs p s).
Proof.
  revert cs p s. induction f as [|f IH]; intros cs p s; [done|]. cbn [exec].
  destruct (_ && _); [|done]. rewrite step_park.
  destruct (step buf cs p s) as [n p' s'|n p' s'|w]; cbn; [|done..].
  destruct (_ =? _); [done|]. apply IH.
Qed.

Lemma exec_outer (f : nat) (buf : list Z) (cs p : Z) (s : hrun) (r : regs hrun) :
  exec step f buf cs p s = Ok r -> outer (r_http (r_s r)) = outer (r_http s).
Proof.
  revert cs p s. induction f as [|f IH]; intros cs p s; [done|]. cbn [exec].
  destruct (_ && _); [|done]. pose proof (step_outer buf cs p s) as Ho.
  destruct (step buf cs p s) as [n p' s'|n p' s'|w]; cbn in Ho; [|intros [= <-]; by apply Ho|done].
  destruct (_ =? _); [intros [= <-]; by apply Ho|]. intros H.
  rewrite (IH _ _ _ H). by apply Ho.
Qed.

Lemma exec_looks_back (f : nat) (buf : list Z) (cs p : Z) (s : hrun) (r : regs hrun) :
  looks_back p s -> exec step f buf cs p s = Ok r -> looks_back (r_p r) (r_s r).
Proof.
  revert cs p s. induction f as [|f IH]; intros cs p s Hb; [done|]. cbn [exec].
  destruct (_ && _) eqn:E; [|done]. bool_to_prop. pose proof (step_looks_back buf cs p s ltac:(lia) Hb) as Ho.
  destruct (step buf cs p s) as [n p' s'|n p' s'|w]; [|by intros [= <-]|done].
  destruct (_ =? _); [by intros [= <-]|]. by apply IH.
Qed.

(** The end of [mog_http_parse], from the registers of the machine. *)
Definition parse_end (buf : list Z) (r : regs hrun) : res (mog_parser_state * mog_http * option errno) :=
  let s := r_s r in
  let cs := if r_done s then http_parser_first_final else r_cs r in
  let h := store cs (r_p r) (r_http s) in
  if (cs =? http_parser_error) || bool_decide (r_err s <> None)
  then Ok (MOG_PARSER_ERROR, h, r_err s)
  else
    assert! r_p r <=? zlen buf;
    assert! offset h <=? zlen buf;
    if cs =? http_parser_first_final
    then Ok (MOG_PARSER_DONE, h, r_err s)
    else Ok (MOG_PARSER_CONTINUE, h, r_err s).

Lemma parse_unfold (h : mog_http) (buf : list Z) :
  http_ready buf h ->
  mog_http_parse h buf
  = res_bind (enter step (http_fuel (zlen buf)) buf (cs h) (offset h) (HRun h None false)) (parse_end buf).
Proof.
  intros Hr. unfold mog_http_parse. pose proof (hi_wbuf _ _ _ _ Hr) as Hw. cbn in Hw. rewrite Hw.
  pose proof (hi_p _ _ _ _ Hr). destruct (Z.leb_spec (offset h) (zlen buf)); [done|lia].
Qed.

(** Parsing leaves the fields of other components alone. *)
Lemma parse_outer (h : mog_http) (buf : list Z) st h' err :
  http_ready buf h -> mog_http_parse h buf = Ok (st, h', err) -> outer h' = outer h.
Proof.
  intros Hr. rewrite parse_unfold by done. unfold enter.
  assert (forall r, outer (r_http (r_s r)) = outer h -> parse_end buf r = Ok (st, h', err) ->
    outer h' = outer h) as Hend.
  { intros r Ho. unfold parse_end, assert_. repeat case_match; intros; simplify_eq; unfold outer in *; cbn; congruence. }
  destruct (_ =? _); cbn [res_bind]; [by apply Hend|].
  destruct (exec step _ _ _ _ _) as [r|w] eqn:E; [|done]. cbn [res_bind].
  apply Hend. by rewrite (exec_outer _ _ _ _ _ _ E).
Qed.

(** ** Two calls are one *)

Section Resume.
Context (buf more : list Z) (Hmax : zlen (buf ++ more) <= UINT16_MAX).
Context (Hch : Forall is_char (buf ++ more)).

Definition resumable (cs p : Z) (s : hrun) : Prop :=
  HInv buf cs p s /\ looks_back p s.

Lemma resumable_step (cs p : Z) (s : hrun) :
  resumable cs p s -> p < zlen buf ->
  step (buf ++ more) cs p s = step buf cs p s /\
  match step buf cs p s with
  | GoSt n p' s' => resumable n (p' + 1) s' /\ p' + 1 <= zlen buf
  | _ => True
  end.
Proof.
  intros [Hi Hb] Hp. pose proof (hi_p _ _ _ _ Hi).
  split; [apply step_local; [done|lia]|].
  pose proof (zlen_nonneg more). rewrite zlen_app in Hmax.
  pose proof (hstep_ok buf ltac:(lia) (proj1 (proj1 (Forall_app _ _ _) Hch)) cs p s Hi Hp) as Hj.
  pose proof (step_looks_back buf cs p s ltac:(lia) Hb) as Hl.
  destruct (step buf cs p s) as [n p' s'|n p' s'|w]; [|done..].
  destruct Hj as [Hj _]. pose proof (hi_p _ _ _ _ Hj). split; [|lia]. by split.
Qed.
End Resume.

(** A connection that may be parsed now and resumed later. *)
Definition parse_ready (buf : list Z) (h : mog_http) : Prop :=
  http_ready buf h /\ 0 <= tmp_tip h /\ 0 <= line_end h <= offset h.

Lemma reset_parse_ready (buf : list Z) (h : mog_http) : parse_ready buf (mog_http_reset_parser h).
Proof. split; [apply http_reset_ready|]. cbn. lia. Qed.

Lemma parse_ready_grow (buf more : list Z) (h : mog_http) :
  parse_ready buf h -> parse_ready (buf ++ more) h.
Proof. intros [Hr Hb]. split; [by apply http_ready_grow|done]. Qed.

Lemma machine_outcome (buf : list Z) (cs p : Z) (s : hrun) :
  zlen buf <= UINT16_MAX -> Forall is_char buf -> HInv buf cs p s ->
  outcome step buf cs p s (enter step (http_fuel (zlen buf)) buf cs p s).
Proof.
  intros Hmax Hch Hi. split; [|by eexists].
  by destruct (http_machine buf cs p s Hmax Hch Hi) as [(n & p' & s' & -> & _)|[-> _]].
Qed.

Lemma parse_continue_ready (buf : list Z) (h h' : mog_http) (err : option errno) :
  zlen buf <= UINT16_MAX -> Forall is_char buf -> parse_ready buf h ->
  mog_http_parse h buf = Ok (MOG_PARSER_CONTINUE, h', err) -> parse_ready buf h' /\ offset h' = zlen buf.
Proof.
  intros Hmax Hch [Hr Hb] Hp.
  destruct (http_parse_spec buf h Hmax Hch Hr) as [(? & ? & ? & Hp' & _ & Hpost)|[? _]]; [|congruence].
  rewrite Hp in Hp'. injection Hp' as <- <- <-. destruct Hpost as [Ho Hr']. split; [|done].
  split; [done|]. rewrite parse_unfold in Hp by done. unfold enter in Hp.
  assert (forall r, looks_back (r_p r) (r_s r) -> parse_end buf r = Ok (MOG_PARSER_CONTINUE, h', err) ->
    0 <= tmp_tip h' /\ 0 <= line_end h' <= offset h') as Hend.
  { intros r [? ?]. unfold parse_end, assert_. repeat case_match; intros; simplify_eq; done. }
  destruct (_ =? _); cbn [res_bind] in Hp; [by eapply Hend; [|exact Hp]|].
  destruct (exec step _ _ _ _ _) as [r|w] eqn:E; [|done]. cbn [res_bind] in Hp.
  apply (Hend r); [|done]. by eapply exec_looks_back; [|exact E].
Qed.

Lemma enter_park (f : nat) (buf : list Z) (cs p : Z) (s : hrun) gc go g :
  enter step f buf cs p (updh (park gc go g) s) = map_regs (park gc go g) (enter step f buf cs p s).
Proof. unfold enter. destruct (_ =? _); [done|apply exec_park]. Qed.

Lemma enter_store (f : nat) (buf : list Z) (cs p : Z) (s : hrun) (a b : Z) :
  enter step f buf cs p (updh (store a b) s) = map_regs (store a b) (enter step f buf cs p s).
Proof. exact (enter_park f buf cs p s (fun _ => a) (fun _ => b) (fun r => r)). Qed.

Lemma parse_end_store (buf : list Z) (x : res (regs hrun)) (a b : Z) :
  res_bind (map_regs (store a b) x) (parse_end buf) = res_bind x (parse_end buf).
Proof. by destruct x. Qed.

Lemma parse_end_grow (buf more : list Z) (r : regs hrun) :
  r_p r <= zlen buf -> parse_end (buf ++ more) r = parse_end buf r.
Proof.
  intros Hp. unfold parse_end. cbn. rewrite zlen_app. pose proof (zlen_nonneg more).
  destruct (Z.leb_spec (r_p r) (zlen buf + zlen more)), (Z.leb_spec (r_p r) (zlen buf)); done || lia.
Qed.

(** A machine that ran out of input asks for more. *)
Lemma parse_end_resume (buf : list Z) (n : Z) (s : hrun) :
  HInv buf n (zlen buf) s ->
  parse_end buf (Regs n (zlen buf) s) = Ok (MOG_PARSER_CONTINUE, store n (zlen buf) (r_http s), None).
Proof.
  intros Hi. unfold parse_end. cbn. rewrite (hi_rd _ _ _ _ Hi), (hi_err _ _ _ _ Hi), Z.leb_refl.
  pose proof (hi_live _ _ _ _ Hi) as Hlv. unfold live in Hlv. rewrite orb_true_iff, !rng_true in Hlv.
  unfold http_parser_error, http_parser_first_final.
  destruct (Z.eqb_spec n 0); [lia|]. rewrite bool_decide_false by (by intros []).
  destruct (Z.eqb_spec n 468); [lia|done].
Qed.

(** What parsing [buf] says about parsing a longer buffer. *)
Definition resumes (buf more : list Z) (h : mog_http)
    (x : res (mog_parser_state * mog_http * option errno)) : Prop :=
  match x with
  | Ok (MOG_PARSER_CONTINUE, h', _) =>
      parse_ready buf h' /\ offset h' = zlen buf /\
      mog_http_parse h' (buf ++ more) = mog_http_parse h (buf ++ more)
  | _ => mog_http_parse h (buf ++ more) = x
  end.

Lemma parse_resumes (buf more : list Z) (h : mog_http) :
  zlen (buf ++ more) <= UINT16_MAX -> Forall is_char (buf ++ more) -> parse_ready buf h ->
  more <> [] -> resumes buf more h (mog_http_parse h buf).
Proof.
  intros Hmax Hch [Hr Hb] Hne.
  assert (0 < zlen more) as Hm by (destruct more; [done|]; autorewrite with zlen; pose proof (zlen_nonneg more); lia).
  pose proof (zlen_app buf more) as Hz.
  assert (Forall is_char buf) as Hchb by (by apply Forall_app in Hch as [? _]).
  pose proof (http_ready_grow buf more h Hr) as Hr'.
  pose proof (http_parse_spec buf h ltac:(lia) Hchb Hr) as Hspec.
  pose proof (http_parse_spec (buf ++ more) h Hmax Hch Hr') as Hspec'.
  pose proof (machine_outcome buf _ _ _ ltac:(lia) Hchb Hr) as [Hx _].
  destruct (outcome_resume step buf more (resumable buf)
      ltac:(intros ? ? ? [Hi _]; apply (hi_p _ _ _ _ Hi)) (resumable_step buf more Hmax Hch)
      _ _ _ _ _ (conj Hr Hb) (proj2 (hi_p _ _ _ _ Hr)) eq_refl Hx) as [Hsame|(n & s' & Hs & [Hi Hb'] & Hgo)].
  - (* left before the end of the buffer *)
    pose proof (outcome_det _ _ _ _ _ _ _ Hsame (machine_outcome (buf ++ more) _ _ _ Hmax Hch Hr')) as Heq.
    assert (mog_http_parse h (buf ++ more) = mog_http_parse h buf) as Hp.
    { rewrite !parse_unfold by done. rewrite <- Heq.
      destruct (http_machine buf _ _ _ ltac:(lia) Hchb Hr) as [(m & p & t & -> & Hpost)|[-> _]]; [|done].
      cbn [res_bind]. apply parse_end_grow. cbn. destruct Hpost; lia. }
    rewrite Hp in Hspec'. unfold resumes.
    destruct (mog_http_parse h buf) as [[[[] h'] err]|w]; try done. exfalso.
    destruct Hspec as [(? & ? & ? & [= <- <- <-] & _ & Ho & _)|[? _]]; [|done].
    destruct Hspec' as [(? & ? & ? & [= <- <- <-] & _ & Ho' & _)|[? _]]; [lia|done].
  - (* out of input *)
    rewrite (parse_unfold h buf Hr), Hs. cbn [res_bind]. rewrite parse_end_resume by done.
    unfold resumes. pose proof (hinv_stored _ _ _ _ Hi) as Hr1.
    split; [split; [exact Hr1|exact Hb']|]. split; [done|].
    rewrite !parse_unfold by (done || by apply http_ready_grow).
    pose proof (hinv_grow buf more _ _ _ Hi) as Hi'.
    rewrite (outcome_det _ _ _ _ _ _ _ (machine_outcome (buf ++ more) _ _ _ Hmax Hch Hr')
      (Hgo _ (machine_outcome (buf ++ more) _ _ _ Hmax Hch Hi'))).
    cbn [cs offset set_cs set_offset store].
    replace (HRun (store n (zlen buf) (r_http s')) None false) with (updh (store n (zlen buf)) s').
    + by rewrite enter_store, parse_end_store.
    + destruct s' as [h' e d]. unfold updh. cbn. pose proof (hi_err _ _ _ _ Hi) as E.
      pose proof (hi_rd _ _ _ _ Hi) as D. cbn in E, D. by subst.
Qed.

(** The read buffer of a connection is carried along. *)
Definition with_rbuf (r : option rbuf) (x : res (mog_parser_state * mog_http * option errno))
  : res (mog_parser_state * mog_http * option errno) :=
  match x with
  | Ok (st, h, err) => Ok (st, set_h_rbuf r h, err)
  | Crash w => Crash w
  end.

Lemma parse_rbuf (r : option rbuf) (buf : list Z) (h : mog_http) :
  mog_http_parse (set_h_rbuf r h) buf = with_rbuf r (mog_http_parse h buf).
Proof.
  unfold mog_http_parse, assert_. cbn. destruct (is_wnull (wbuf h)); [|done].
  destruct (offset h <=? zlen buf); [|done].
  change (HRun (set_h_rbuf r h) None false)
    with (updh (park (fun n => n) (fun n => n) (fun _ => r)) (HRun h None false)).
  rewrite enter_park. destruct (enter step _ _ _ _ _) as [[n p s]|w]; [|done]. cbn.
  repeat case_match; done.
Qed.

(** ** Properties *)

(** The result of parsing in pieces is that of parsing at once, except that a
    request that ends early leaves the rest of the pieces unread. *)
Definition same_result (whole : list Z) (at_once : res (mog_parser_state * mog_http * option errno))
    (pieces : res (mog_parser_state * mog_http * list Z)) : Prop :=
  match at_once with
  | Ok (st, h, _) => exists buf rest, pieces = Ok (st, h, buf) /\ buf ++ rest = whole /\
      (st = MOG_PARSER_CONTINUE -> rest = [])
  | Crash w => pieces = Crash w
  end.

Lemma feed_same (segs : list (list Z)) (h : mog_http) (buf : list Z) :
  parse_ready buf h -> Forall is_char (buf ++ concat segs) ->
  zlen (buf ++ concat segs) <= UINT16_MAX -> Forall (fun s => s <> []) segs -> segs <> [] ->
  same_result (buf ++ concat segs) (mog_http_parse h (buf ++ concat segs)) (http_feed h buf segs).
Proof.
  revert h buf. induction segs as [|more segs IH]; intros h buf Hr Hch Hmax Hne Hs; [done|].
  cbn [http_feed concat] in *. rewrite app_assoc in *. apply Forall_cons_1 in Hne as [_ Hne].
  destruct (decide (segs = [])) as [->|Hs'].
  { cbn [concat] in *. rewrite app_nil_r in *.
    destruct (mog_http_parse h (buf ++ more)) as [[[[] h'] err]|w]; cbn; try done;
      exists (buf ++ more), []; by rewrite app_nil_r. }
  assert (concat segs <> []) as Hc.
  { destruct Hne as [|s l Hx _]; [done|]. cbn. by destruct s. }
  pose proof (parse_resumes (buf ++ more) (concat segs) h Hmax Hch (parse_ready_grow _ _ _ Hr) Hc) as Hres.
  destruct (mog_http_parse h (buf ++ more)) as [[[st h'] err]|w]; cbn [resumes res_bind] in *;
    [|by rewrite Hres].
  destruct st; [rewrite Hres; exists (buf ++ more), (concat segs); done..|].
  destruct Hres as (Hr' & _ & <-). by apply IH.
Qed.

(** C8.  Requests may arrive in any pieces: feeding the parser one piece after
    the other, each call on the bytes received so far, gives the same state,
    the same connection and the same abort as one call on all the bytes; a
    request that is complete or wrong before the last piece is found so as
    soon as its last byte is there. *)
Theorem http_parse_incremental (segs : list (list Z)) (h : mog_http) :
  Forall is_char (concat segs) -> zlen (concat segs) <= UINT16_MAX ->
  Forall (fun s => s <> []) segs -> segs <> [] ->
  same_result (concat segs) (mog_http_parse (mog_http_reset_parser h) (concat segs))
    (http_feed (mog_http_reset_parser h) [] segs).
Proof. intros Hch Hmax Hne Hs. by apply (feed_same segs _ []); [apply reset_parse_ready|..]. Qed.

Lemma http_parse_incremental_witness :
  same_result (str "GET /x HTTP/1.0" ++ CRLF ++ CRLF ++ str "GE")
    (mog_http_parse (mog_http_reset_parser http0) (str "GET /x HTTP/1.0" ++ CRLF ++ CRLF ++ str "GE"))
    (http_feed (mog_http_reset_parser http0) []
       [str "GET /"; str "x HTTP/1.0" ++ [13]; [10; 13; 10; 71]; [69]]).
Proof.
  apply (http_parse_incremental [str "GET /"; str "x HTTP/1.0" ++ [13]; [10; 13; 10; 71]; [69]] http0);
    [repeat constructor; vm_compute; discriminate|vm_compute; discriminate|repeat constructor; discriminate|discriminate].
Defined.
