(* ===== verification/HttpGet.v ===== *)
(** GET and HEAD requests: http_get.c, [mog_http_path] of http.c and
    [mog_file_open_read] of file.c.

    The header and the body are functions of the connection and the [chan] to
    the client; opening runs in the monad of World.v.  [sendfile] sends the
    bytes of the file that is open, which may have become shorter than [stat]
    said. *)
From S2P Require Import Prelude Fmt Ragel ValidPath Http TryWrite HttpResp World.
From stdpp Require Import base list numbers.
From Stdlib Require Import ZArith Lia.

#[local] Open Scope Z_scope.

(** ** [mog_http_path] *)

(** The path in the buffer, or [NULL] with [errno]; the NUL byte the code
    stores behind the path is the end of the list. *)
Definition mog_http_path (h : mog_http) (buf : list Z) (err : option errno)
  : res (option (list Z) * option errno) :=
  let path := slice (path_tip h) (path_end h - path_tip h) buf in
  assert! path_tip h <? path_end h;
  let* ok := PathTraversal.mog_valid_path path in
  if negb ok then Ok (None, err)
  else if decide (http_method h = MOG_HTTP_METHOD_PUT) then
    let* ok := ValidPutPath.mog_valid_put_path path in
    if negb ok then Ok (None, Some EINVAL) else Ok (Some path, err)
  else Ok (Some path, err).

(** ** Opening *)

(** [errno] is [e], and [mog_fdmap_expire] has closed [expired] descriptors. *)
Definition mog_open_expire_retry (e : errno) (expired : Z) : bool :=
  match e with
  | ENFILE | EMFILE | ENOMEM => 0 <? expired
  | _ => false
  end.

(** [mog_file_open_read]: the file is zeroed except for [fsize]. *)
Definition mog_file_open_read {S} (p : name) : MS S (errno + mog_file) :=
  fd ← mog_open_read p;
  fd ← (match fd with
        | inl e =>
            match e with
            | ENFILE | EMFILE | ENOMEM =>
                n ← sys_value; (* mog_fdmap_expire *)
                if mog_open_expire_retry e n then mog_open_read p else mret fd
            | _ => mret fd
            end
        | inr _ => mret fd
        end);
  match fd with
  | inl e => mret (inl e)
  | inr c => mret (inr (MogFile (-1) 0 None None None c))
  end.

(** ** [http_get_resp_hdr] *)

Definition keep_alive (h : mog_http) : list Z :=
  if persistent h then str "keep-alive" else str "close".

Definition hdr_206 (date modified : list Z) (h : mog_http) (offset count size : Z) : list Z :=
  str "HTTP/1.1 206 Partial Content" ++ CRLF ++ str "Status: 206 Partial Content" ++ CRLF
  ++ str "Date: " ++ date ++ CRLF ++ str "Last-Modified: " ++ modified ++ CRLF
  ++ str "Content-Length: " ++ fmt_d count ++ CRLF
  ++ str "Content-Type: application/octet-stream" ++ CRLF
  ++ str "Content-Range: bytes " ++ fmt_d offset ++ str "-" ++ fmt_d (offset + count - 1)
  ++ str "/" ++ fmt_d size ++ CRLF
  ++ str "Connection: " ++ keep_alive h ++ CRLF ++ CRLF.

Definition hdr_200 (date modified : list Z) (h : mog_http) (count : Z) : list Z :=
  str "HTTP/1.1 200 OK" ++ CRLF ++ str "Status: 200 OK" ++ CRLF
  ++ str "Date: " ++ date ++ CRLF ++ str "Last-Modified: " ++ modified ++ CRLF
  ++ str "Content-Length: " ++ fmt_d count ++ CRLF
  ++ str "Content-Type: application/octet-stream" ++ CRLF
  ++ str "Accept-Ranges: bytes" ++ CRLF
  ++ str "Connection: " ++ keep_alive h ++ CRLF ++ CRLF.

Definition ERR416 : list Z := str "416 Requested Range Not Satisfiable".

Definition hdr_416 (date : list Z) (h : mog_http) (size : Z) : list Z :=
  str "HTTP/1.1 " ++ ERR416 ++ CRLF ++ str "Status: " ++ ERR416 ++ CRLF
  ++ str "Date: " ++ date ++ CRLF ++ str "Content-Length: 0" ++ CRLF
  ++ str "Content-Type: text/plain" ++ CRLF
  ++ str "Content-Range: bytes */" ++ fmt_d size ++ CRLF
  ++ str "Connection: " ++ keep_alive h ++ CRLF ++ CRLF.

(** The decision on the requested range: where control goes after the block
    that validates ranges, with the values of [http->range_end], [offset] and
    [count]. *)
Inductive range_verdict :=
  | BadRange
  | Resp200
  | Resp206 (range_end' offset count : Z).

Definition validate_range (h : mog_http) (size : Z) : res range_verdict :=
  let beg := range_beg h in
  let end_ := range_end h in
  if (end_ <? 0) && (beg <? 0) then Ok BadRange
  else if size <=? beg then Ok BadRange
  else if (0 <=? beg) && (0 <=? end_) && (end_ <? beg) then Ok BadRange
  else if end_ <? 0 then (* bytes=M- *)
    assert! 0 <=? beg;
    Ok (Resp206 end_ beg (size - beg))
  else if beg <? 0 then (* bytes=-N *)
    assert! 0 <=? end_;
    let offset := size - end_ in
    if offset <? 0 then Ok Resp200 else Ok (Resp206 end_ offset (size - offset))
  else (* bytes=M-N *)
    assert! (0 <=? beg) && (0 <=? end_);
    let end_ := if size <=? end_ then size - 1 else end_ in
    Ok (Resp206 end_ beg (wrap64 (end_ + 1) - beg)).

(** Returns the connection, the socket and the count. *)
Definition http_get_resp_hdr (date modified : list Z) (size : Z) (h : mog_http) (c : chan)
  : res (mog_http * chan * Z) :=
  let finish h buf count :=
    assert! (0 <? zlen buf) && (zlen buf <? FSBUF_SIZE);
    assert! match wbuf h with WNull => true | _ => false end;
    let count := if decide (http_method h = MOG_HTTP_METHOD_HEAD) then 0 else count in
    let* ' (w, c') := mog_trysend buf c in
    Ok (set_wbuf w h, c', count) in
  let resp_200 h := finish h (hdr_200 date modified h size) size in
  if has_range h then
    let* v := validate_range h size in
    match v with
    | BadRange =>
        match forward h with
        | Some _ => let h := set_forward None h in finish h (hdr_416 date h size) 0
        | None =>
            assert! bool_decide (http_method h = MOG_HTTP_METHOD_HEAD);
            finish h (hdr_416 date h size) 0
        end
    | Resp200 => resp_200 h
    | Resp206 end_ offset count =>
        let h := set_range_end end_ h in
        assert! 0 <? count;
        assert! 0 <=? offset;
        let h := match forward h with
                 | Some f => set_forward (Some (set_fsize (offset + count) (set_foff offset f))) h
                 | None => h
                 end in
        finish h (hdr_206 date modified h offset count size) count
    end
  else resp_200 h.

(** ** [mog_http_get_open] *)

Definition get_resp_hdr (date modified : list Z) (size : Z) : M unit := fun h w =>
  match http_get_resp_hdr date modified size h (w_chan w) with
  | Ok (h', c', _) => Ok (tt, h', set_chan c' w)
  | Crash r => Crash r
  end.

(** [modified] is the date of the file. *)
Definition mog_http_get_open (date modified : list Z) (buf : list Z) : M unit :=
  let forbidden := mog_http_resp date (str "403 Forbidden") true in
  let err :=
    w ← get_world;
    match w_err w with
    | Some EACCES => forbidden
    | Some ENOENT => mog_http_resp date (str "404 Not Found") true
    | _ => mog_http_resp date (str "500 Internal Server Error") true
    end in
  h ← get_http;
  w ← get_world;
  pe ← lift_res (mog_http_path h buf (w_err w));
  put_world (set_errno pe.2);;
  match pe.1 with
  | None => forbidden
  | Some path =>
      assertM (bool_decide (forward h = None));;
      assertM (char_at path 0 =? 47);;
      if zlen path =? 1 then get_resp_hdr date modified 0
      else if decide (http_method h = MOG_HTTP_METHOD_HEAD) then
        sb ← sys_stat (w_fs w !! path);
        match sb with
        | inl _ => err
        | inr sb => if negb (st_reg sb) then forbidden else get_resp_hdr date modified (st_size sb)
        end
      else
        f ← mog_file_open_read path;
        match f with
        | inl _ => err
        | inr f =>
            put_http (set_forward (Some f));;
            assertM (bool_decide (Http.path f = None));;
            sb ← sys_stat (Some (contents f));
            match sb with
            | inl _ => put_http (set_forward None);; err
            | inr sb =>
                if negb (st_reg sb) then put_http (set_forward None);; forbidden
                else
                  put_http (set_forward (Some (set_fsize (st_size sb) f)));;
                  get_resp_hdr date modified (st_size sb)
            end
        end
  end.

(** ** [mog_http_get_in_progress] *)

Definition max_sendfile : Z := 1024 * 1024 * 100.

(** [done:] of [mog_http_get_in_progress]. *)
Definition get_done (h : mog_http) : mog_next * mog_http :=
  if persistent h then (MOG_NEXT_ACTIVE, mog_http_reset (set_forward None h))
  else (MOG_NEXT_CLOSE, set_forward None h).

(** The label [retry]; [Ret n] is the most the socket accepts, and [sendfile]
    also stops at the end of the file. *)
Fixpoint sendfile_retry (rs : list reply) (out : list Z) (f : mog_file) (count : Z)
    (h : mog_http) : mog_next * mog_http * chan :=
  match rs with
  | [] => (MOG_NEXT_WAIT_WR, h, Chan [] out)
  | Ret n :: rs' =>
      let w := Z.max 0 (Z.min (Z.min n count) (zlen (contents f) - foff f)) in
      if 0 <? w then
        let f' := set_foff (foff f + w) f in
        let out' := out ++ slice (foff f) w (contents f) in
        let h' := set_forward (Some f') h in
        if foff f' =? fsize f' then (get_done h', Chan rs' out')
        else (MOG_NEXT_ACTIVE, h', Chan rs' out')
      else (get_done (set_persistent false h), Chan rs' out)
  | Fail e :: rs' =>
      if decide (e = EAGAIN) then (MOG_NEXT_WAIT_WR, h, Chan rs' out)
      else if decide (e = EINTR) then sendfile_retry rs' out f count h
      else (get_done (set_persistent false h), Chan rs' out)
  end.

Definition mog_http_get_in_progress (h : mog_http) (c : chan)
  : res (mog_next * mog_http * chan) :=
  assert! match wbuf h with WNull => true | _ => false end;
  match forward h with
  | None => Crash AssertFailed
  | Some f =>
      assert! 0 <=? fsize f;
      assert! 0 <=? foff f;
      let count := fsize f - foff f in
      let count := if max_sendfile <? count then max_sendfile else count in
      if count =? 0 then Ok (get_done h, c)
      else Ok (sendfile_retry (replies c) (sent c) f count h)
  end.

(** ** Ranges *)

(** Position [i] of a file of [size] bytes is asked for by the Range header:
    [beg] and [end_] are negative when the header leaves them out. *)
Definition requested (beg end_ size i : Z) : Prop :=
  0 <= i < size /\
  if beg <? 0 then size - end_ <= i else beg <= i /\ (end_ < 0 \/ i <= end_).

(** The header asks for nothing the file could have. *)
Definition unsatisfiable (beg end_ size : Z) : Prop :=
  (beg < 0 /\ end_ < 0) \/ (0 <= beg /\ size <= beg) \/ (0 <= end_ < beg).

Definition verdict_ok (beg end_ size : Z) (v : range_verdict) : Prop :=
  match v with
  | BadRange => unsatisfiable beg end_ size
  | Resp200 => forall i, 0 <= i < size -> requested beg end_ size i
  | Resp206 _ offset count =>
      0 <= offset /\ 0 <= count /\ offset + count <= size /\
      forall i, requested beg end_ size i <-> offset <= i < offset + count
  end.

Lemma validate_range_spec (h : mog_http) (size : Z) :
  0 <= size <= OFF_MAX -> range_beg h <= OFF_MAX -> range_end h <= OFF_MAX ->
  exists v, validate_range h size = Ok v /\ verdict_ok (range_beg h) (range_end h) size v /\
    (v <> BadRange -> ~ unsatisfiable (range_beg h) (range_end h) size) /\
    (forall e o n, v = Resp206 e o n -> 0 < n \/ (range_beg h < 0 /\ range_end h = 0)).
Proof.
  intros Hs Hb He. unfold validate_range, verdict_ok, unsatisfiable, requested, assert_, OFF_MAX in *.
  set (beg := range_beg h) in *. set (end_ := range_end h) in *. clearbody beg end_.
  split_ifs; try lia;
    (eexists; split; [reflexivity|];
     rewrite ?wrap64_id by (unfold is_off; lia);
     split; [|split; [intros ?; (done || lia)
                     |intros ? ? ? Heq; (discriminate Heq || (simplify_eq; lia))]]);
    try lia; try (split_and!; try lia; intros i; destruct (Z.ltb_spec beg 0); lia).
Qed.

(** Every header fits the buffer it is printed into. *)
Lemma keep_alive_len (h : mog_http) : zlen (keep_alive h) <= 10.
Proof. unfold keep_alive. destruct (persistent h); vm_compute; discriminate. Qed.

Ltac hdr_len :=
  rewrite !zlen_app;
  repeat match goal with
  | |- context [zlen (fmt_d ?z)] =>
      pose proof (fmt_d_max z); pose proof (zlen_nonneg (fmt_d z));
      generalize dependent (zlen (fmt_d z)); intros
  | |- context [zlen (keep_alive ?h)] =>
      pose proof (keep_alive_len h); pose proof (zlen_nonneg (keep_alive h));
      generalize dependent (zlen (keep_alive h)); intros
  | |- context [zlen (str ?s)] => change (zlen (str s)) with ltac:(let v := eval vm_compute in (zlen (str s)) in exact v)
  | |- context [zlen ERR416] => change (zlen ERR416) with 35
  | |- context [zlen CRLF] => change (zlen CRLF) with 2
  end; lia.

Lemma hdr_206_len (date modified : list Z) (h : mog_http) (o n s : Z) :
  zlen date = 29 -> zlen modified = 29 ->
  0 < zlen (hdr_206 date modified h o n s) < FSBUF_SIZE.
Proof. intros Hd Hm. unfold hdr_206, FSBUF_SIZE. hdr_len. Qed.

Lemma hdr_200_len (date modified : list Z) (h : mog_http) (n : Z) :
  zlen date = 29 -> zlen modified = 29 ->
  0 < zlen (hdr_200 date modified h n) < FSBUF_SIZE.
Proof. intros Hd Hm. unfold hdr_200, FSBUF_SIZE. hdr_len. Qed.

Lemma hdr_416_len (date : list Z) (h : mog_http) (s : Z) :
  zlen date = 29 -> 0 < zlen (hdr_416 date h s) < FSBUF_SIZE.
Proof. intros Hd. unfold hdr_416, FSBUF_SIZE. hdr_len. Qed.

(** ** Sending the body *)

(** What the client still has to get of an open file. *)
Definition todo (f : mog_file) : list Z := slice (foff f) (fsize f - foff f) (contents f).

Definition get_ok (f : mog_file) : Prop := 0 <= foff f <= fsize f.

(** One call: bytes of the file are sent in order from the current offset; the
    connection stays usable only if the whole range was sent. *)
Definition get_post (f : mog_file) (out : list Z) (nx : mog_next) (h : mog_http) (c : chan) : Prop :=
  exists acc, sent c = out ++ acc /\
  match forward h with
  | Some f' => get_ok f' /\ wbuf h = WNull /\ acc ++ todo f' = todo f /\
      fsize f' = fsize f /\ zlen acc = foff f' - foff f /\
      (nx = MOG_NEXT_ACTIVE \/ nx = MOG_NEXT_WAIT_WR)
  | None => (exists rest, acc ++ rest = todo f) /\
      (nx = MOG_NEXT_CLOSE \/
       (nx = MOG_NEXT_ACTIVE /\ acc = todo f /\ zlen acc = fsize f - foff f))
  end.

Lemma slice_split (off a b : Z) (l : list Z) :
  0 <= off -> 0 <= a -> 0 <= b -> slice off (a + b) l = slice off a l ++ slice (off + a) b l.
Proof.
  intros. unfold slice. rewrite !Z2Nat.inj_add by lia.
  rewrite <- drop_drop. rewrite take_take_drop. done.
Qed.

Lemma sendfile_retry_spec (rs : list reply) (out : list Z) (f : mog_file) (count : Z)
    (h : mog_http) :
  forward h = Some f -> wbuf h = WNull -> get_ok f -> 0 < count <= fsize f - foff f ->
  exists nx h' c, sendfile_retry rs out f count h = (nx, h', c) /\ get_post f out nx h' c.
Proof.
  intros Hf Hw Hok Hc.
  assert (forall nx rs', nx = MOG_NEXT_ACTIVE \/ nx = MOG_NEXT_WAIT_WR ->
    get_post f out nx h (Chan rs' out)) as Hkeep.
  { intros nx rs' Hn. exists []. rewrite app_nil_r. split; [done|]. rewrite Hf, zlen_nil.
    split_and!; (done || apply Hok || lia). }
  assert (forall rs', get_post f out MOG_NEXT_CLOSE (set_forward None (set_persistent false h))
                        (Chan rs' out)) as Hclose.
  { intros rs'. exists []. rewrite app_nil_r. split; [done|]. cbn. split; [by eexists|by left]. }
  induction rs as [|[n|e] rs IH]; cbn [sendfile_retry].
  - eexists _, _, _. split; [done|]. apply Hkeep. by right.
  - set (w := Z.max 0 (Z.min (Z.min n count) (zlen (contents f) - foff f))).
    destruct (Z.ltb_spec 0 w) as [Hw0|Hw0]; [|eexists _, _, _; split; [done|apply Hclose]].
    assert (w <= zlen (contents f) - foff f) as Hwl by lia. unfold get_ok in Hok.
    assert (todo f = slice (foff f) w (contents f) ++ todo (set_foff (foff f + w) f)) as Htodo.
    { unfold todo. cbn. replace (fsize f - foff f) with (w + (fsize f - (foff f + w))) by lia.
      apply slice_split; lia. }
    destruct (Z.eqb_spec (foff (set_foff (foff f + w) f)) (fsize (set_foff (foff f + w) f))) as [He|He];
      cbn in He.
    + assert (todo (set_foff (foff f + w) f) = []) as Hnil
        by (unfold todo; cbn; rewrite He, Z.sub_diag; unfold slice; apply take_0).
      rewrite Hnil, app_nil_r in Htodo.
      unfold get_done. destruct (persistent _); eexists _, _, _; (split; [done|]);
        exists (slice (foff f) w (contents f)); (split; [done|]); cbn;
        (split; [exists []; rewrite app_nil_r; done|]); [right|by left].
      split_and!; [done|done|]. rewrite zlen_slice; lia.
    + eexists _, _, _. split; [done|]. exists (slice (foff f) w (contents f)). split; [done|].
      cbn. split_and!; try done; [unfold get_ok; cbn; lia|rewrite zlen_slice; lia|by left].
  - case_decide; [eexists _, _, _; split; [done|]; apply Hkeep; by right|].
    case_decide; [done|]. eexists _, _, _; split; [done|apply Hclose].
Qed.

Lemma get_step_spec (h : mog_http) (f : mog_file) (c : chan) :
  forward h = Some f -> wbuf h = WNull -> get_ok f ->
  exists nx h' c', mog_http_get_in_progress h c = Ok (nx, h', c') /\ get_post f (sent c) nx h' c'.
Proof.
  intros Hf Hw Hok. unfold mog_http_get_in_progress. rewrite Hw, Hf. cbn [assert_].
  unfold get_ok in Hok.
  destruct (Z.leb_spec 0 (fsize f)); [|lia]. destruct (Z.leb_spec 0 (foff f)); [|lia]. cbn [assert_].
  set (count := if max_sendfile <? fsize f - foff f then max_sendfile else fsize f - foff f).
  assert (count = Z.min max_sendfile (fsize f - foff f)) as Hcount
    by (unfold count; destruct (Z.ltb_spec max_sendfile (fsize f - foff f)); lia).
  unfold max_sendfile in Hcount. clearbody count.
  destruct (Z.eqb_spec count 0) as [Hz|Hz].
  - assert (todo f = []) as Hnil
      by (unfold todo; replace (fsize f - foff f) with 0 by lia; unfold slice; apply take_0).
    unfold get_done. destruct (persistent h); eexists _, _, _; (split; [done|]); exists [];
      rewrite app_nil_r; (split; [done|]); cbn; rewrite Hnil; (split; [by exists []|]);
      [right|by left]. split_and!; [done|done|]. rewrite zlen_nil. lia.
  - destruct (sendfile_retry_spec (replies c) (sent c) f count h Hf Hw Hok) as (nx & h' & c' & -> & Hp);
      [lia|]. eauto.
Qed.

(** The event loop calls [mog_http_get_in_progress] until the file is closed;
    each call sees its own replies of the socket. *)
Fixpoint get_drive (rss : list (list reply)) (h : mog_http) (out : list Z)
  : res (mog_next * mog_http * list Z) :=
  match rss with
  | [] => Ok (MOG_NEXT_WAIT_WR, h, out)
  | rs :: rss' =>
      let* ' (nx, h', c) := mog_http_get_in_progress h (Chan rs out) in
      match forward h' with
      | Some _ => get_drive rss' h' (sent c)
      | None => Ok (nx, h', sent c)
      end
  end.

(** ** Properties *)

(** Range requests: for every file size and every Range header the parser
    can deliver, the header is rejected with 416 exactly when it is
    unsatisfiable, and otherwise the interval [offset .. offset + count - 1]
    of the 206 response is the set of requested positions that exist in the
    file; a suffix longer than the file gets the whole file. *)
Theorem get_range_exact (h : mog_http) (size : Z) :
  0 <= size <= OFF_MAX -> range_beg h <= OFF_MAX -> range_end h <= OFF_MAX ->
  exists v, validate_range h size = Ok v /\
    verdict_ok (range_beg h) (range_end h) size v /\
    (v = BadRange <-> unsatisfiable (range_beg h) (range_end h) size).
Proof.
  intros Hs Hb He. destruct (validate_range_spec h size Hs Hb He) as (v & Hv & Hok & Hn & _).
  exists v. split_and!; [done|done|]. split; [by intros ->|].
  intros Hu. destruct v; [done|exfalso; by apply Hn..].
Qed.

Definition get_req : mog_http :=
  MogHttp 0 MOG_HTTP_METHOD_GET true false false false false true false
    MOG_CHUNK_STATE_SIZE 0 0 0 0 (Some (MogFile 10 0 None None None (zrange 48 10))) 0 2 4 0
    None WNull [].

Lemma get_range_exact_witness :
  exists v, validate_range get_req 10 = Ok v /\ verdict_ok 2 4 10 v /\
    (v = BadRange <-> unsatisfiable 2 4 10).
Proof. apply (get_range_exact get_req 10); vm_compute; try split; discriminate. Defined.

(** The headers of a GET response, [n] being the length of the body. *)
Definition get_hdr_ok (date modified : list Z) (size : Z) (h h' : mog_http) (n : Z)
    (f : mog_file) (hdr : list Z) : Prop :=
  match forward h' with
  | None => has_range h = true /\ unsatisfiable (range_beg h) (range_end h) size /\
      hdr = hdr_416 date h' size
  | Some f' => get_ok f' /\ fsize f' <= size /\ fsize f' - foff f' = n /\
      contents f' = contents f /\
      (hdr = hdr_206 date modified h' (foff f') n size \/
       (hdr = hdr_200 date modified h' n /\ foff f' = 0 /\ n = size)) /\
      (forall i, foff f' <= i < fsize f' <->
         0 <= i < size /\ (has_range h = true -> requested (range_beg h) (range_end h) size i))
  end.

Lemma resp_hdr_spec (date modified : list Z) (size : Z) (h : mog_http) (f : mog_file) (c : chan) :
  zlen date = 29 -> zlen modified = 29 -> 0 <= size <= OFF_MAX ->
  range_beg h <= OFF_MAX -> range_end h <= OFF_MAX -> wbuf h = WNull ->
  http_method h = MOG_HTTP_METHOD_GET -> forward h = Some f -> foff f = 0 -> fsize f = size ->
  (has_range h = true -> range_beg h < 0 -> range_end h <> 0) ->
  exists h' c' n acc hdr,
    http_get_resp_hdr date modified size h c = Ok (h', c', n) /\
    sent c' = sent c ++ acc /\
    (wbuf h' <> WError -> acc ++ pending (wbuf h') = hdr) /\
    get_hdr_ok date modified size h h' n f hdr.
Proof.
  intros Hd Hm Hs Hb He Hw Hget Hf Hf0 Hfs Hsuf. unfold http_get_resp_hdr.
  assert (forall h1 buf n, wbuf h1 = WNull -> http_method h1 = MOG_HTTP_METHOD_GET ->
      0 < zlen buf < FSBUF_SIZE ->
      (forall w, get_hdr_ok date modified size h (set_wbuf w h1) n f buf) ->
    exists h' c' n' acc hdr,
      (assert! (0 <? zlen buf) && (zlen buf <? FSBUF_SIZE);
       assert! match wbuf h1 with WNull => true | _ => false end;
       let* ' (w, c'0) := mog_trysend buf c in
       Ok (set_wbuf w h1, c'0, if decide (http_method h1 = MOG_HTTP_METHOD_HEAD) then 0 else n))
      = Ok (h', c', n') /\
      sent c' = sent c ++ acc /\ (wbuf h' <> WError -> acc ++ pending (wbuf h') = hdr) /\
      get_hdr_ok date modified size h h' n' f hdr) as Hfin.
  { intros h1 buf n Hw1 Hm1 Hlen Hk. rewrite Hw1, Hm1. destruct Hlen as [H1 H2].
    apply Z.ltb_lt in H1 as ->. apply Z.ltb_lt in H2 as ->. cbn [andb assert_].
    destruct (lossless buf c) as (w & c' & acc & -> & Hsent & _ & Hall & _).
    cbn [res_bind]. eexists _, c', _, acc, buf. split; [done|]. split_and!; [done|done|apply Hk]. }
  destruct (has_range h) eqn:Hr; cycle 1.
  { apply Hfin; [done..|by apply hdr_200_len|]. intros w. unfold get_hdr_ok. cbn. rewrite Hf.
    unfold get_ok. split_and!; [lia|lia|lia|lia|done|by right|]. intros i.
    split; [intros ?; split; [lia|congruence]|lia]. }
  destruct (validate_range_spec h size Hs Hb He) as (v & -> & Hok & Hn & Hpos).
  cbn [res_bind]. destruct v as [| |e o n]; cbn [verdict_ok] in Hok.
  - rewrite Hf. apply Hfin; [done..|by apply hdr_416_len|]. intros w. unfold get_hdr_ok. cbn.
    split_and!; [done|done|]. unfold hdr_416. done.
  - apply Hfin; [done..|by apply hdr_200_len|]. intros w. unfold get_hdr_ok. cbn. rewrite Hf.
    unfold get_ok. split_and!; [lia|lia|lia|lia|done|by right|]. intros i.
    split; [intros ?; split; [lia|intros _; apply Hok; lia]|lia].
  - destruct Hok as (Ho & _ & Hsz & Hi).
    assert (0 < n) as Hn0 by (destruct (Hpos e o n eq_refl) as [|[]]; [done|exfalso; by apply Hsuf]).
    destruct (Z.ltb_spec 0 n); [|lia]. destruct (Z.leb_spec 0 o); [|lia]. cbn [assert_ set_range_end forward].
    rewrite Hf. apply Hfin; [done..|by apply hdr_206_len|]. intros w. unfold get_hdr_ok. cbn.
    unfold get_ok. cbn. split_and!; [lia|lia|lia|lia|done|by left|]. intros i. rewrite <- Hi.
    unfold requested. intuition.
Qed.



(** C6.  GET bodies: however the socket stalls, splits or interrupts the
    transfer, and even when the file was truncated meanwhile, every call of
    [mog_http_get_in_progress] returns, the client receives a prefix of the
    requested bytes in order, and the connection is kept for another request
    only if it received all of them. *)
Theorem get_body_stream (rss : list (list reply)) (h : mog_http) (f : mog_file) (out : list Z) :
  forward h = Some f -> wbuf h = WNull -> 0 <= foff f <= fsize f ->
  exists nx h' out', get_drive rss h out = Ok (nx, h', out') /\
    exists acc rest, out' = out ++ acc /\ acc ++ rest = todo f /\
    (forward h' = None -> nx <> MOG_NEXT_CLOSE ->
       acc = todo f /\ zlen acc = fsize f - foff f).
Proof.
  revert h f out. induction rss as [|rs rss IH]; intros h f out Hf Hw Hok; cbn [get_drive].
  - eexists _, _, _. split; [done|]. exists [], (todo f). rewrite app_nil_r, Hf. done.
  - destruct (get_step_spec h f (Chan rs out) Hf Hw Hok) as (nx & h' & c & -> & acc & Hs & Hp).
    cbn [res_bind sent] in *. destruct (forward h') as [f'|] eqn:Hf'.
    + destruct Hp as (Hok' & Hw' & Htodo & Hfs & Hza & _).
      destruct (IH h' f' (sent c) Hf' Hw' Hok') as (nx2 & h2 & out2 & -> & acc2 & rest & -> & Hr & Hfin).
      eexists _, _, _. split; [done|]. exists (acc ++ acc2), rest. rewrite Hs, app_assoc.
      split_and!; [done|by rewrite <- app_assoc, Hr|].
      intros Hn Hx. destruct (Hfin Hn Hx) as [Ha Hz]. rewrite zlen_app. split; [by rewrite Ha|lia].
    + destruct Hp as ((rest & Hr) & Hnx). eexists _, _, _. split; [done|].
      exists acc, rest. split_and!; [done|done|]. intros _ Hx.
      destruct Hnx as [?|(_ & ? & ?)]; done.
Qed.

Lemma get_body_stream_witness :
  exists nx h' out', get_drive [[Ret 3; Fail EINTR]; [Fail EINTR; Ret 9]] get_req [] = Ok (nx, h', out') /\
    exists acc rest, out' = acc /\ acc ++ rest = zrange 48 10 /\
    (forward h' = None -> nx <> MOG_NEXT_CLOSE -> acc = zrange 48 10 /\ zlen acc = 10).
Proof.
  apply (get_body_stream [[Ret 3; Fail EINTR]; [Fail EINTR; Ret 9]] get_req
    (MogFile 10 0 None None None (zrange 48 10)) []); vm_compute; try reflexivity.
  split; discriminate.
Defined.

(** Two Range headers abort the process: a suffix of length zero
    ([bytes=-0]) on any file, and any unsatisfiable range on GET of the root
    path, for which no file is open. *)
Theorem get_range_aborts (date modified : list Z) (size : Z) (h : mog_http) (c : chan) :
  has_range h = true -> 0 <= size <= OFF_MAX ->
  (range_beg h < 0 -> range_end h = 0 ->
     http_get_resp_hdr date modified size h c = Crash AssertFailed) /\
  (http_method h = MOG_HTTP_METHOD_GET -> forward h = None -> 0 <= range_beg h ->
     http_get_resp_hdr date modified 0 h c = Crash AssertFailed).
Proof.
  intros Hr Hs. unfold http_get_resp_hdr. rewrite Hr. split.
  - intros Hb He. unfold validate_range. rewrite He.
    destruct (Z.ltb_spec (range_beg h) 0); [|lia]. cbn [Z.ltb Z.compare andb].
    destruct (Z.leb_spec size (range_beg h)); [lia|].
    destruct (Z.leb_spec 0 (range_beg h)); [lia|]. cbn. rewrite !Z.sub_0_r.
    destruct (Z.ltb_spec size 0); [lia|]. by rewrite Z.sub_diag.
  - intros Hm Hf Hb. unfold validate_range.
    destruct (Z.ltb_spec (range_beg h) 0); [lia|]. rewrite andb_false_r.
    destruct (Z.leb_spec 0 (range_beg h)); [|lia]. cbn [res_bind]. by rewrite Hf, Hm.
Qed.

Lemma get_range_aborts_witness :
  http_get_resp_hdr [] [] 10 (set_range_beg (-1) (set_range_end 0 get_req)) (Chan [] []) = Crash AssertFailed.
Proof.
  refine (proj1 (get_range_aborts [] [] 10 (set_range_beg (-1) (set_range_end 0 get_req))
                   (Chan [] []) _ _) _ _);
    vm_compute; try reflexivity. split; discriminate.
Defined.
