(* ===== verification/MkPath.v ===== *)
(** Creation of the directories of a file (mkpath_for.c). *)
From S2P Require Import Prelude Fmt.
From stdpp Require Import base list numbers gmap.
From Stdlib Require Import ZArith Lia.

#[local] Open Scope Z_scope.

(** [strchr (path + from, '/')], as an offset into [path]. *)
Fixpoint slash_from (s : list Z) (off : Z) : option Z :=
  match s with
  | [] => None
  | c :: s' => if c =? 47 then Some off else slash_from s' (off + 1)
  end.

Definition strchr_slash (path : list Z) (from : Z) : option Z := slash_from (drop (Z.to_nat from) path) from.

Section MkPath.
(** [mog_mkdir] on some state of the file system: an error, or nothing. *)
Context {D : Type} (mkdir : list Z -> D -> option errno * D).

(** The loop, with [c] on a slash. *)
Fixpoint mkpath_loop (fuel : nat) (path : list Z) (i c : Z) (d : D) : res (option errno * D) :=
  match fuel with
  | O => Crash OutOfFuel
  | S fuel' =>
      let '(rc, d) := if 0 <? i then mkdir (take (Z.to_nat c) path) d else (None, d) in
      if bool_decide (rc <> None) && bool_decide (rc <> Some EEXIST) then Ok (rc, d)
      else match strchr_slash path (c + 1) with
           | Some c' => mkpath_loop fuel' path (i + 1) c' d
           | None => Ok (None, d)
           end
  end.

Definition mog_mkpath_for (path : list Z) (d : D) : res (option errno * D) :=
  if zlen path =? 0 then Crash OutOfBounds
  else match strchr_slash path 1 with
       | None => Ok (Some EACCES, d)
       | Some c => mkpath_loop (length path) path 0 c d
       end.
End MkPath.

(** ** Directories *)

(** The name without its last component. *)
Definition parent (p : list Z) : list Z :=
  (fix go (r : list Z) : list Z :=
     match r with [] => [] | c :: r' => if c =? 47 then reverse r' else go r' end) (reverse p).

(** The directories that exist, and faults to come ([Ret] for none). *)
Abbreviation dirs := (gset (list Z) * list reply)%type.

(** [mkdir] as POSIX has it. *)
Definition posix_mkdir (p : list Z) (d : dirs) : option errno * dirs :=
  match d with
  | (D, Fail e :: rs) => (Some e, (D, rs))
  | (D, rs) =>
      if bool_decide (p ∈ D) then (Some EEXIST, (D, tail rs))
      else if bool_decide (parent p ∈ D) then (None, ({[ p ]} ∪ D, tail rs))
      else (Some ENOENT, (D, tail rs))
  end.

(** A name of one component, and a path of several. *)
Definition component (x : list Z) : Prop := x <> [] /\ 47 ∉ x.
Definition path_of (xs : list (list Z)) : list Z := concat (map (fun x => 47 :: x) xs).

(** The directories below [p] on the way to the last of [comps]. *)
Fixpoint below (p : list Z) (comps : list (list Z)) : list (list Z) :=
  match comps with
  | [] => []
  | x :: xs => (p ++ 47 :: x) :: below (p ++ 47 :: x) xs
  end.

Lemma slash_from_skip (x s : list Z) (off : Z) :
  47 ∉ x -> slash_from (x ++ s) off = slash_from s (off + zlen x).
Proof.
  revert off. induction x as [|c x IH]; intros off Hx; [f_equal; rewrite zlen_nil; lia|].
  apply not_elem_of_cons in Hx as [Hc Hx]. cbn [app slash_from]. destruct (Z.eqb_spec c 47); [congruence|].
  rewrite IH by done. f_equal. rewrite zlen_cons. lia.
Qed.

(** The slash after the component at [zlen pre + 1]. *)
Lemma strchr_next (pre x suf : list Z) :
  47 ∉ x ->
  strchr_slash (pre ++ (47 :: x) ++ suf) (zlen pre + 1) = slash_from suf (zlen (pre ++ 47 :: x)).
Proof.
  intros Hx. unfold strchr_slash. assert (Z.to_nat (zlen pre + 1) = length (pre ++ [47])) as ->.
  { rewrite length_app. unfold zlen. cbn. lia. }
  assert (pre ++ (47 :: x) ++ suf = (pre ++ [47]) ++ x ++ suf) as -> by by rewrite <- app_assoc.
  rewrite drop_app_length, slash_from_skip by done. f_equal. rewrite zlen_app, zlen_cons. lia.
Qed.

Lemma parent_app (p x : list Z) : 47 ∉ x -> parent (p ++ 47 :: x) = p.
Proof.
  intros Hx. unfold parent. rewrite reverse_app, reverse_cons, <- app_assoc.
  assert (47 ∉ reverse x) as Hr by by rewrite elem_of_reverse. revert Hr. generalize (reverse x). clear.
  induction l as [|c l IH]; intros Hr; cbn [app].
  - rewrite Z.eqb_refl. apply reverse_involutive.
  - apply not_elem_of_cons in Hr as [Hc Hr]. destruct (Z.eqb_spec c 47); [congruence|auto].
Qed.

Lemma path_of_snoc (xs : list (list Z)) (x : list Z) : path_of (xs ++ [x]) = path_of xs ++ 47 :: x.
Proof. unfold path_of. rewrite map_app, concat_app. cbn. by rewrite app_nil_r. Qed.

Lemma path_of_app (xs ys : list (list Z)) : path_of (xs ++ ys) = path_of xs ++ path_of ys.
Proof. unfold path_of. by rewrite map_app, concat_app. Qed.

(** What a directory that is created, or was there, leads to. *)
Definition mkpath_post (P : list Z) (xs : list (list Z)) (D : gset (list Z)) (rs : list reply)
    (r : res (option errno * dirs)) : Prop :=
  exists err D' rs', r = Ok (err, (D', rs')) /\ D ⊆ D' /\ D' ⊆ D ∪ list_to_set (below P xs) /\
    (err = None -> list_to_set (below P xs) ⊆ D') /\
    (xs <> [] -> P ∉ D -> P ++ 47 :: hd [] xs ∉ D -> D' = D /\ err <> None) /\
    (P ∈ D \/ P ++ 47 :: hd [] xs ∈ D -> rs = [] -> err = None).

Lemma posix_mkdir_cases (P x : list Z) (D : gset (list Z)) (rs : list reply) :
  47 ∉ x -> Forall (fun r => r <> Fail EEXIST) rs ->
  exists e D', posix_mkdir (P ++ 47 :: x) (D, rs) = (e, (D', tail rs)) /\ D ⊆ D' /\ D' ⊆ D ∪ {[ P ++ 47 :: x ]} /\
    (e = None \/ e = Some EEXIST -> P ++ 47 :: x ∈ D') /\
    (P ∉ D -> P ++ 47 :: x ∉ D -> D' = D /\ e <> None /\ e <> Some EEXIST) /\
    (P ∈ D \/ P ++ 47 :: x ∈ D -> rs = [] -> e = None \/ e = Some EEXIST).
Proof.
  intros Hx Hrs. unfold posix_mkdir.
  assert (forall rs0 : list reply, exists e D',
    (if bool_decide (P ++ 47 :: x ∈ D) then (Some EEXIST, (D, rs0))
     else if bool_decide (parent (P ++ 47 :: x) ∈ D) then (None, ({[ P ++ 47 :: x ]} ∪ D, rs0))
     else (Some ENOENT, (D, rs0))) = (e, (D', rs0)) /\ D ⊆ D' /\ D' ⊆ D ∪ {[ P ++ 47 :: x ]} /\
    (e = None \/ e = Some EEXIST -> P ++ 47 :: x ∈ D') /\
    (P ∉ D -> P ++ 47 :: x ∉ D -> D' = D /\ e <> None /\ e <> Some EEXIST) /\
    (P ∈ D \/ P ++ 47 :: x ∈ D -> e = None \/ e = Some EEXIST)) as Hok.
  { intros rs0. rewrite parent_app by done. case_bool_decide; [|case_bool_decide].
    - exists (Some EEXIST), D. split; [done|]. split_and!; (set_solver || auto || done).
    - exists None, ({[ P ++ 47 :: x ]} ∪ D). split; [done|]. split_and!; (set_solver || auto || done).
    - exists (Some ENOENT), D. split; [done|]. split_and!; (set_solver || done). }
  destruct rs as [|[n|e] rs]; cbn [tail].
  - destruct (Hok []) as (e & D' & -> & ?). exists e, D'. naive_solver.
  - destruct (Hok rs) as (e & D' & -> & ?). exists e, D'. naive_solver.
  - exists (Some e), D. apply Forall_cons_1 in Hrs as [He _]. split; [done|].
    split_and!; [done|set_solver|intros [?|[= ->]]; congruence|intros; split_and!; congruence|done].
Qed.

Lemma mkpath_loop_step {D} (mkdir : list Z -> D -> option errno * D) (fuel : nat) (P x : list Z)
    (r : list (list Z)) (i : Z) (d : D) :
  0 < i ->
  mkpath_loop mkdir (S fuel) (P ++ path_of (x :: r)) i (zlen (P ++ 47 :: x)) d =
  let '(rc, d) := mkdir (P ++ 47 :: x) d in
  if bool_decide (rc <> None) && bool_decide (rc <> Some EEXIST) then Ok (rc, d)
  else match strchr_slash (P ++ path_of (x :: r)) (zlen (P ++ 47 :: x) + 1) with
       | Some c' => mkpath_loop mkdir fuel (P ++ path_of (x :: r)) (i + 1) c' d
       | None => Ok (None, d)
       end.
Proof.
  intros Hi. cbn [mkpath_loop]. destruct (Z.ltb_spec 0 i); [|lia].
  assert (take (Z.to_nat (zlen (P ++ 47 :: x))) (P ++ path_of (x :: r)) = P ++ 47 :: x) as ->; [|done].
  change (path_of (x :: r)) with ((47 :: x) ++ path_of r). rewrite app_assoc. unfold zlen.
  rewrite Nat2Z.id. apply take_app_length.
Qed.

Lemma mkpath_loop_ok (file : list Z) (xs : list (list Z)) (x P : list Z) (fuel : nat) (i : Z)
    (D : gset (list Z)) (rs : list reply) :
  Forall component (x :: xs) -> 47 ∉ file -> 0 < i -> (length xs < fuel)%nat ->
  Forall (fun r => r <> Fail EEXIST) rs ->
  mkpath_post P (x :: xs) D rs
    (mkpath_loop posix_mkdir fuel (P ++ path_of (x :: xs ++ [file])) i (zlen (P ++ 47 :: x)) (D, rs)).
Proof.
  revert x P fuel i D rs. induction xs as [|y xs IH]; intros x P fuel i D rs Hc Hf Hi Hfu Hrs;
    (destruct fuel as [|fuel]; [cbn in Hfu; lia|]); apply Forall_cons_1 in Hc as [[_ Hx] Hc].
  all: rewrite mkpath_loop_step by done.
  all: destruct (posix_mkdir_cases P x D rs Hx Hrs) as (e & D1 & -> & Hle & Hup & Hin & Hno & Hyes).
  all: destruct (decide (e = None \/ e = Some EEXIST)) as [He|He];
    [|rewrite !bool_decide_true by tauto; exists e, D1, (tail rs); split; [done|]; cbn [below list_to_set hd];
      split_and!; [set_solver|set_solver|tauto|intros; split; [by apply Hno|tauto]|intros; exfalso; auto]].
  all: match goal with |- context [if ?b then _ else _] => replace b with false
         by (symmetry; apply andb_false_iff; rewrite !bool_decide_eq_false; tauto) end.
  - exists None, D1, (tail rs). split; [|cbn [below list_to_set hd]; split_and!; [set_solver|set_solver|set_solver| |done]].
    + cbn [app]. change (path_of [x; file]) with ((47 :: x) ++ path_of [file]). rewrite app_assoc.
      unfold path_of; cbn [map concat]. by rewrite strchr_next.
    + intros _ H1 H2. destruct (Hno H1 H2) as (_ & ? & ?). tauto.
  - assert (P ++ path_of (x :: (y :: xs) ++ [file]) = (P ++ 47 :: x) ++ path_of (y :: xs ++ [file])) as -> by by rewrite <- app_assoc.
    apply Forall_cons_1 in Hc as Hy. destruct Hy as [[_ Hy] _].
    assert (strchr_slash ((P ++ 47 :: x) ++ path_of (y :: xs ++ [file])) (zlen (P ++ 47 :: x) + 1)
      = Some (zlen ((P ++ 47 :: x) ++ 47 :: y))) as ->.
    { change (path_of (y :: ?r)) with ((47 :: y) ++ path_of r). rewrite strchr_next by done. by destruct xs. }
    destruct (IH y (P ++ 47 :: x) fuel (i + 1) D1 (tail rs)) as (err & D2 & rs2 & -> & H1 & H2 & H3 & H4 & H5);
      [done|done|lia|cbn in *; lia|by destruct Hrs|].
    exists err, D2, rs2. split; [done|]. cbn [below list_to_set hd] in *. specialize (Hin He). split_and!.
    + clear -Hle H1. set_solver.
    + clear -H2 Hup. set_solver.
    + intros Hn. specialize (H3 Hn). clear -H3 H1 Hin. set_solver.
    + intros _ Ha Hb. destruct (Hno Ha Hb) as (_ & ? & ?). tauto.
    + intros Ha ->. apply H5; [by left|done].
Qed.

(** C19.  A PUT creates the directories its path needs, and never a device: for
    a path below a device, whatever calls fail, only directories between the
    device and the file are created; success means that all of them exist; it
    is certain when the device exists and no call fails; and when the device is
    missing (a disk that is not mounted) nothing is created at all. *)
Theorem mkpath_for_correct (dev file : list Z) (comps : list (list Z)) (D : gset (list Z)) (rs : list reply) :
  Forall component (dev :: comps) -> component file -> Forall (fun r => r <> Fail EEXIST) rs ->
  exists err D' rs', mog_mkpath_for posix_mkdir (path_of (dev :: comps ++ [file])) (D, rs) = Ok (err, (D', rs')) /\
    D ⊆ D' /\ D' ⊆ D ∪ list_to_set (below (path_of [dev]) comps) /\
    (err = None -> list_to_set (below (path_of [dev]) comps) ⊆ D') /\
    (path_of [dev] ∈ D -> rs = [] -> err = None) /\
    (path_of [dev] ∉ D -> (forall p, p ∈ D -> parent p ∈ D) -> D' = D).
Proof.
  intros Hc [_ Hf] Hrs. apply Forall_cons_1 in Hc as [[_ Hd] Hc]. unfold mog_mkpath_for.
  destruct (Z.eqb_spec (zlen (path_of (dev :: comps ++ [file]))) 0) as [H0|_].
  { revert H0. change (path_of (dev :: ?r)) with (47 :: dev ++ path_of r). rewrite zlen_cons.
    pose proof (zlen_nonneg (dev ++ path_of (comps ++ [file]))). lia. }
  assert (strchr_slash (path_of (dev :: comps ++ [file])) 1 = Some (zlen (path_of [dev]))) as ->.
  { change (path_of (dev :: ?r)) with ([] ++ (47 :: dev) ++ path_of r). rewrite (strchr_next [] dev) by done.
    unfold path_of at 2. cbn [map concat app]. rewrite app_nil_r. by destruct comps. }
  assert (length comps + 1 < length (path_of (dev :: comps ++ [file])))%nat as Hlen.
  { clear. change (path_of (dev :: ?r)) with (47 :: dev ++ path_of r). cbn [length]. rewrite length_app.
    assert (forall xs, length xs <= length (path_of xs))%nat as H.
    { induction xs as [|x xs IH]; [done|]. change (path_of (x :: xs)) with (47 :: x ++ path_of xs). cbn. rewrite length_app. lia. }
    specialize (H (comps ++ [file])). rewrite length_app in H. cbn in H. lia. }
  destruct (length (path_of (dev :: comps ++ [file]))) as [|fuel]; [lia|]. cbn [mkpath_loop].
  change (0 <? 0) with false. cbn [bool_decide]. rewrite bool_decide_false by auto. cbn [andb].
  change (path_of (dev :: comps ++ [file])) with (path_of ([dev] ++ comps ++ [file])). rewrite path_of_app.
  destruct comps as [|x xs].
  - exists None, D, rs. split; [|cbn [below list_to_set]; split_and!; (set_solver || done)].
    rewrite <- (app_nil_r (path_of [dev] ++ _)). unfold path_of at 2. cbn [map concat app]. rewrite !app_nil_r.
    pose proof (strchr_next (path_of [dev]) file [] Hf) as E. rewrite app_nil_r in E. by rewrite E.
  - assert (strchr_slash (path_of [dev] ++ path_of ((x :: xs) ++ [file])) (zlen (path_of [dev]) + 1)
      = Some (zlen (path_of [dev] ++ 47 :: x))) as ->.
    { apply Forall_cons_1 in Hc as [[_ Hx] _]. cbn [app]. change (path_of (x :: ?r)) with ((47 :: x) ++ path_of r).
      rewrite strchr_next by done. by destruct xs. }
    change ((x :: xs) ++ [file]) with (x :: xs ++ [file]).
    destruct (mkpath_loop_ok file xs x (path_of [dev]) fuel (0 + 1) D rs) as (err & D' & rs' & -> & H1 & H2 & H3 & H4 & H5);
      [done|done|lia|cbn in *; lia|done|].
    exists err, D', rs'. split; [done|]. split_and!; [done|done|done|intros; apply H5; auto|].
    intros Hn Hcl. apply H4; [done|done|]. intros Hin. apply Hcl in Hin. cbn [hd] in Hin.
    apply Forall_cons_1 in Hc as [[_ Hx] _]. by rewrite parent_app in Hin.
Qed.

Lemma mkpath_for_correct_witness :
  let dev := str "dev1" in
  let D := {[ []; path_of [dev] ]} : gset (list Z) in
  mog_mkpath_for posix_mkdir (str "/dev1/0/001/f.fid") (D, [])
    = Ok (None, ({[ str "/dev1/0/001" ]} ∪ ({[ str "/dev1/0" ]} ∪ D), [])) /\
  exists err D' rs', mog_mkpath_for posix_mkdir (path_of (dev :: [str "0"; str "001"] ++ [str "f.fid"])) (D, []) = Ok (err, (D', rs')) /\
    D ⊆ D' /\ D' ⊆ D ∪ list_to_set (below (path_of [dev]) [str "0"; str "001"]) /\
    (err = None -> list_to_set (below (path_of [dev]) [str "0"; str "001"]) ⊆ D') /\
    (path_of [dev] ∈ D -> @nil reply = [] -> err = None) /\
    (path_of [dev] ∉ D -> (forall p, p ∈ D -> parent p ∈ D) -> D' = D).
Proof.
  intros dev D. split; [vm_compute; reflexivity|]. apply mkpath_for_correct.
  - repeat constructor; try (vm_compute; congruence); rewrite list_elem_of_In; vm_compute; intuition congruence.
  - split; [vm_compute; congruence|]. rewrite list_elem_of_In. vm_compute. intuition congruence.
  - constructor.
Defined.
