(* ===== verification/HttpPut.v ===== *)
(** PUT requests: http_put.c with [mog_file_open_put] and [mog_file_close] of
    file.c.

    A PUT without Content-Range goes to a temporary file that is renamed over
    the destination when the whole body has arrived and its MD5, if the client
    sent one, is right.  The model of the docroot [w_fs] holds what a reader
    who opens a name sees once the writer has closed it. *)

From S2P Require Import Prelude Fmt Ragel ValidPath Base64 Http.
From S2P Require Import ChunkParser ChunkInv TryWrite HttpResp HttpGet World MkPath.
From stdpp Require Import base list numbers gmap.
From Stdlib Require Import ZArith Lia.

#[local] Open Scope Z_scope.

Section Put.
(** The date of responses and the digest of the MD5 library. *)
Variable date : list Z.
Variable md5 : list Z -> list Z.

(** ** Closing *)

(** [mog_file_close]: the contents written so far stay under the name the file
    has. *)
Definition close_contents (f : mog_file) (fs : gmap name (list Z)) : gmap name (list Z) :=
  match tmppath f, path f with
  | Some t, _ => if decide (is_Some (fs !! t)) then <[t := contents f]> fs else fs
  | None, Some p => <[p := contents f]> fs
  | None, None => fs
  end.

Definition file_close_null : M unit :=
  h ← get_http;
  match forward h with
  | None => mret tt
  | Some f =>
      (match tmppath f with
       | Some t =>
           e ← sys_reply;
           match e with
           | None => put_world (fun w => set_fs (delete t (w_fs w)) w)
           | Some _ => mret tt
           end
       | None => mret tt
       end);;
      put_world (fun w => set_fs (close_contents f (w_fs w)) w);;
      put_http (set_forward None)
  end.

(** [stop0]; [None] is the NULL status. *)
Definition stop0 (status : option (list Z)) : M mog_next :=
  (match status with
   | Some st => mog_http_resp date st false
   | None => mret tt
   end);;
  file_close_null;;
  mret MOG_NEXT_CLOSE.

Definition write_err (default_msg : option (list Z)) : M mog_next :=
  w ← get_world;
  match w_err w with
  | Some ERANGE | Some ENOSPC | Some EFBIG => stop0 (Some (str "507 Insufficient Storage"))
  | _ => stop0 (Some (default (str "500 Internal Server Error") default_msg))
  end.

(** ** Committing *)

Definition md5_ok (h : mog_http) (f : mog_file) : bool :=
  match digest_ctx f with
  | None => true
  | Some hashed => bool_decide (expect_md5 h = md5 hashed)
  end.

(** [set_perms_commit]: [fchmod], then [rename] unless there is no temporary
    file. *)
Definition set_perms_commit (f : mog_file) : M bool :=
  e ← sys_reply;
  match e with
  | Some _ => mret false
  | None =>
      match tmppath f, path f with
      | None, _ => mret true
      | Some _, None => crash AssertFailed
      | Some t, Some p =>
          e ← sys_reply;
          match e with
          | Some _ => mret false
          | None =>
              put_world (fun w => set_fs (<[p := contents f]> (delete t (w_fs w))) w);;
              put_http (set_forward (Some (set_tmppath None f)));;
              mret true
          end
      end
  end.

Definition put_commit_resp : M unit :=
  h ← get_http;
  match forward h with
  | None => crash OutOfBounds
  | Some f =>
      if md5_ok h f then
        ok ← set_perms_commit f;
        if (ok : bool) then
          file_close_null;; mog_http_resp date (str "201 Created") true
        else
          file_close_null;; mog_http_resp date (str "500 Internal Server Error") false
      else
        file_close_null;; mog_http_resp date (str "400 Bad Request") true
  end.

Definition http_put_commit : M mog_next :=
  put_commit_resp;;
  h ← get_http;
  match wbuf h with
  | WBuf _ _ => mret MOG_NEXT_WAIT_WR
  | WError => mret MOG_NEXT_CLOSE
  | WNull =>
      if negb (persistent h) then mret MOG_NEXT_CLOSE
      else put_http mog_http_reset;; mret MOG_NEXT_ACTIVE
  end.

(** ** The read buffer *)

(** [MOG_RBUF_BASE_SIZE]: 512 bytes with the two [size_t] in front. *)
Definition MOG_RBUF_BASE_SIZE : Z := 512 - 16.
Definition MOG_RBUF_MAX_SIZE : Z := UINT16_MAX.

(** [stash_advance_rbuf]: keep what follows the last line feed. *)
Definition stash_advance_rbuf (buf : list Z) (h : mog_http) : res mog_http :=
  let end_ := line_end h + 1 in
  if (line_end h =? 0) || (zlen buf <=? end_) then
    Ok (set_offset 0 (set_h_rbuf None h))
  else
    assert! char_at buf (line_end h) =? 10;
    assert! zlen buf <=? MOG_RBUF_MAX_SIZE;
    assert! end_ <=? offset h;
    let capa := match h_rbuf h with Some r => rcapa r | None => MOG_RBUF_BASE_SIZE end in
    if capa <? zlen buf - end_ then Crash OutOfBounds (* the memmove *)
    else
      let h := set_h_rbuf (Some (Rbuf capa (slice end_ (zlen buf - end_) buf))) h in
      let h := set_offset (offset h - end_) h in
      let h := if end_ <=? tmp_tip h then set_tmp_tip (tmp_tip h - end_) h else h in
      Ok (set_line_end 0 h).

Definition stash (buf : list Z) : M unit := fun h w =>
  match stash_advance_rbuf buf h with
  | Ok h' => Ok (tt, h', w)
  | Crash r => Crash r
  end.

(** ** Writing and parsing, with the scripts of the world *)

Definition write_full (buf : list Z) : M bool := fun h w =>
  match forward h with
  | None => Crash OutOfBounds
  | Some f =>
      match mog_http_write_full (w_pwrite w) f buf (w_err w) with
      | Ok (ok, f', sc, err) =>
          Ok (ok, set_forward (Some f') h, set_errno err (set_pwrite sc w))
      | Crash r => Crash r
      end
  end.

Definition chunk_parse (buf : list Z) : M mog_parser_state := fun h w =>
  match mog_chunk_parse h buf (w_pwrite w) with
  | Ok (st, h', sc, err) => Ok (st, h', set_errno err (set_pwrite sc w))
  | Crash r => Crash r
  end.

Definition chunk_init : M unit := fun h w =>
  match mog_chunk_init h with
  | Ok h' => Ok (tt, h', w)
  | Crash r => Crash r
  end.

(** ** The body that arrived with the header *)

Definition chunked_body_after_header (buf : list Z) : M unit :=
  h ← get_http;
  let tmpoff := offset h in
  chunk_init;;
  put_http (set_offset tmpoff);;
  st ← chunk_parse buf;
  match st with
  | MOG_PARSER_ERROR => _ ← write_err (Some (str "400 Bad Request")); mret tt
  | _ =>
      h ← get_http;
      (if decide (st = MOG_PARSER_CONTINUE)
       then assertM (bool_decide (chunk_state h <> MOG_CHUNK_STATE_DONE)) else mret tt);;
      match chunk_state h with
      | MOG_CHUNK_STATE_SIZE => assertM (offset h =? zlen buf)
      | MOG_CHUNK_STATE_DATA => assertM (offset h =? zlen buf)
      | MOG_CHUNK_STATE_TRAILER =>
          assertM (0 <? offset h);;
          stash buf;;
          put_http (set_skip_rbuf_defer true)
      | MOG_CHUNK_STATE_DONE =>
          put_commit_resp;;
          h ← get_http;
          assertM (0 <? offset h);;
          stash buf;;
          put_http (set_skip_rbuf_defer true)
      end
  end.

Definition identity_body_after_header (buf : list Z) : M unit :=
  h ← get_http;
  let body_len := zlen buf - offset h in
  let body_ptr := offset h in
  let body_len := if content_len h <? body_len then content_len h else body_len in
  if body_len =? 0 then mret tt
  else
    put_http (set_offset (offset h + body_len));;
    ok ← write_full (slice body_ptr body_len buf);
    if (ok : bool) then mret tt
    else _ ← write_err None; mret tt.

(** ** Starting a PUT *)

Definition lengths_ok (h : mog_http) : res bool :=
  if content_len h <? 0 then Ok false
  else if has_content_range h then
    if chunked h then Ok false
    else if (range_end h <? 0) || (range_beg h <? 0) then Ok false
    else
      assert! (0 <=? range_end h) && (0 <=? range_beg h);
      if range_end h <? range_beg h then Ok false
      else if 0 <=? content_len h then
        let expect := wrap64 (range_end h - range_beg h + 1) in
        Ok (content_len h =? expect)
      else Ok true
  else Ok true.

(** [tmppath_for]: the next random number and the process id. *)
Definition tmppath_for (pid : Z) (p : name) : M name := fun h w =>
  let '(r, rs) := match w_rnd w with [] => (0, []) | r :: rs => (r, rs) end in
  Ok (p ++ str "." ++ fmt_08x r ++ str "." ++ fmt_d pid ++ str ".tmp", h, set_rnd rs w).

(** [mog_mkdir (svc, path, svc->mkcol_perms)] takes the next reply. *)
Definition script_mkdir (p : list Z) (rs : list reply) : option errno * list reply :=
  match rs with
  | Fail e :: rs => (Some e, rs)
  | rs => (None, tail rs)
  end.

Definition mkpath_for {S} (p : name) : MS S (option errno) := fun h w =>
  match mog_mkpath_for script_mkdir p (w_sys w) with
  | Ok (e, rs) => Ok (e, h, set_sys rs w)
  | Crash r => Crash r
  end.

Definition mkpath_open_put (p : name) (excl : bool) : M (errno + list Z) :=
  fd ← sys_open p excl;
  match fd with
  | inl ENOENT =>
      e ← mkpath_for p;
      match e with
      | None => sys_open p excl
      | Some _ => put_world (set_errno (Some ENOENT));; mret (inl ENOENT)
      end
  | _ => mret fd
  end.

Definition mog_file_open_put (p : name) (excl : bool) : M (errno + mog_file) :=
  fd ← mkpath_open_put p excl;
  fd ← (match fd with
        | inl e =>
            match e with
            | ENFILE | EMFILE | ENOMEM =>
                n ← sys_value; (* mog_fdmap_expire *)
                if mog_open_expire_retry e n then mkpath_open_put p excl else mret fd
            | _ => mret fd
            end
        | inr _ => mret fd
        end);
  match fd with
  | inl e => mret (inl e)
  | inr c => mret (inr (MogFile 0 0 None None None c))
  end.

Definition open_put (pid : Z) (p : name) : M (errno + unit) :=
  h ← get_http;
  f ← (if has_content_range h then
         f ← mog_file_open_put p false;
         match f with
         | inl e => mret (inl e)
         | inr f =>
             assertM (bool_decide (tmppath f = None) && bool_decide (path f = None));;
             mret (inr f)
         end
       else
         tmp ← tmppath_for pid p;
         f ← mog_file_open_put tmp true;
         match f with
         | inl EEXIST =>
             tmp ← tmppath_for pid p;
             f ← mog_file_open_put tmp true;
             mret (match f with inl e => inl e | inr f => inr (set_tmppath (Some tmp) f) end)
         | inl e => mret (inl e)
         | inr f => mret (inr (set_tmppath (Some tmp) f))
         end);
  match f with
  | inl e => mret (inl e)
  | inr f =>
      let f := set_path (Some p) f in
      assertM (foff f =? 0);;
      let f := if has_content_range h then set_foff (range_beg h) f else f in
      let f := if has_trailer_md5 h || has_expect_md5 h
               then set_digest_ctx (Some []) f else f in
      put_http (set_forward (Some f));;
      mret (inr tt)
  end.

(** [mog_http_put]; [httpget] is the type of the connection's descriptor. *)
Definition mog_http_put (pid : Z) (httpget : bool) (buf : list Z) : M unit :=
  let err :=
    w ← get_world;
    match w_err w with
    | Some EINVAL => mog_http_resp date (str "400 Bad Request") false
    | Some ENOENT => mog_http_resp date (str "404 Not Found") false
    | Some EACCES => mog_http_resp date (str "403 Forbidden") false
    | _ => _ ← write_err None; mret tt
    end in
  if httpget then mog_http_resp date (str "405 Method Not Allowed") false
  else
    h ← get_http;
    w ← get_world;
    pe ← lift_res (mog_http_path h buf (w_err w));
    put_world (set_errno pe.2);;
    match pe.1 with
    | None => err
    | Some p =>
        assertM (bool_decide (forward h = None));;
        assertM (char_at p 0 =? 47);;
        ok ← lift_res (lengths_ok h);
        if negb ok then _ ← write_err (Some (str "400 Bad Request")); mret tt
        else
          f ← open_put pid p;
          match f with
          | inl _ => err
          | inr _ =>
              if zlen buf =? offset h then
                if chunked h then
                  put_http (set_h_rbuf None);; chunk_init;; put_http (set_offset (zlen buf))
                else mret tt
              else
                assertM ((offset h <? zlen buf) && (0 <? offset h));;
                if chunked h then chunked_body_after_header buf
                else identity_body_after_header buf
          end
    end.

(** ** Receiving the rest of the body *)

(** The labels [again] and [retry] of [identity_put_in_progress]. *)
Fixpoint identity_again (fuel : nat) (need buf_len : Z) : M mog_next :=
  match fuel with
  | O => crash OutOfFuel
  | S fuel' =>
      assertM (0 <? need);;
      let buf_len := if need <? buf_len then need else buf_len in
      r ← sys_read buf_len;
      match r with
      | inr [] => stop0 None
      | inr bs =>
          ok ← write_full bs;
          if negb ok then write_err None
          else
            let need := need - zlen bs in
            if need =? 0 then http_put_commit
            else identity_again fuel' need buf_len
      | inl EAGAIN => mret MOG_NEXT_WAIT_RD
      | inl EINTR => identity_again fuel' need buf_len
      | inl _ => stop0 None
      end
  end.

Definition identity_put_in_progress : M mog_next :=
  h ← get_http;
  w ← get_world;
  assertM (is_wnull (wbuf h));;
  match forward h with
  | None => crash AssertFailed
  | Some f =>
      let need := content_len h - foff f in
      let need := if has_content_range h then need + range_beg h else need in
      if need =? 0 then http_put_commit
      else identity_again (S (sock_size (w_sock w))) need FSBUF_SIZE
  end.

(** [read] again after an interrupt; [fuel] is the number of elements left. *)
Fixpoint read_eintr (fuel : nat) (len : Z) : M (errno + list Z) :=
  match fuel with
  | O => crash OutOfFuel
  | S fuel' =>
      r ← sys_read len;
      match r with
      | inl EINTR => read_eintr fuel' len
      | _ => mret r
      end
  end.

(** The label [read_err]. *)
Definition read_err (r : errno + list Z) : M mog_next :=
  match r with
  | inl EAGAIN => mret MOG_NEXT_WAIT_RD
  | _ => stop0 None
  end.

(** The label [again] of [chunked_put_in_progress]. *)
Fixpoint chunked_again (fuel : nat) (in_trailer : bool) : M mog_next :=
  match fuel with
  | O => crash OutOfFuel
  | S fuel' =>
      h ← get_http;
      w ← get_world;
      let rfuel := S (sock_size (w_sock w)) in
      assertM (is_wnull (wbuf h));;
      assertM (bool_decide (forward h <> None));;
      let read_header (in_trailer : bool) : M mog_next :=
        h ← get_http;
        let '(capa, prev) := match h_rbuf h with
                             | Some r => (rcapa r, rdata r)
                             | None => (MOG_RBUF_BASE_SIZE, [])
                             end in
        r ← read_eintr rfuel (capa - zlen prev);
        match r with
        | inr (b :: bs) =>
            let buf := prev ++ b :: bs in
            st ← chunk_parse buf;
            match st with
            | MOG_PARSER_ERROR => write_err (Some (str "400 Bad Request"))
            | _ =>
                h ← get_http;
                (if decide (st = MOG_PARSER_CONTINUE)
                 then assertM (bool_decide (chunk_state h <> MOG_CHUNK_STATE_DONE))
                 else mret tt);;
                match chunk_state h with
                | MOG_CHUNK_STATE_SIZE =>
                    assertM (negb in_trailer);;
                    put_http (fun h => set_offset 0 (set_h_rbuf None h));;
                    chunked_again fuel' in_trailer
                | MOG_CHUNK_STATE_DATA =>
                    assertM (negb in_trailer);;
                    put_http (set_h_rbuf None);;
                    chunked_again fuel' in_trailer
                | MOG_CHUNK_STATE_TRAILER =>
                    stash buf;;
                    chunked_again fuel' in_trailer
                | MOG_CHUNK_STATE_DONE =>
                    stash buf;;
                    h ← get_http;
                    (match h_rbuf h with
                     | Some r => assertM ((0 <? zlen (rdata r)) && (offset h =? 0))
                     | None => mret tt
                     end);;
                    http_put_commit
                end
            end
        | _ => read_err r
        end in
      match chunk_state h with
      | MOG_CHUNK_STATE_DATA =>
          assertM (match h_rbuf h with None => true | Some _ => false end);;
          if content_len h =? 0 then
            put_http (fun h => set_offset 0 (set_chunk_state MOG_CHUNK_STATE_TRAILER h));;
            read_header true
          else
            assertM (0 <? content_len h);;
            let buf_len := Z.min FSBUF_SIZE (content_len h) in
            r ← read_eintr rfuel buf_len;
            match r with
            | inr (b :: bs) =>
                ok ← write_full (b :: bs);
                if negb ok then write_err None
                else
                  let left_ := content_len h - zlen (b :: bs) in
                  put_http (set_content_len left_);;
                  (if left_ =? 0 then chunk_init else mret tt);;
                  chunked_again fuel' in_trailer
            | _ => read_err r
            end
      | MOG_CHUNK_STATE_TRAILER => read_header true
      | MOG_CHUNK_STATE_SIZE => read_header in_trailer
      | MOG_CHUNK_STATE_DONE => crash AssertFailed
      end
  end.

Definition chunked_put_in_progress : M mog_next :=
  w ← get_world;
  chunked_again (S (sock_size (w_sock w))) false.

Definition mog_http_put_in_progress : M mog_next :=
  h ← get_http;
  if chunked h then chunked_put_in_progress else identity_put_in_progress.
End Put.
