(* ===== verification/HttpPutInv.v ===== *)
(** Correctness of PUT: what reaches the disk, when the destination changes,
    and what the client is told. *)
From S2P Require Import Prelude Fmt Ragel ValidPath Base64 Http.
From S2P Require Import ChunkParser ChunkInv TryWrite HttpResp HttpGet World HttpPut.
From stdpp Require Import base list numbers gmap.
From Stdlib Require Import ZArith Lia.

#[local] Open Scope Z_scope.

(** ** Lengths and the read buffer *)

(** What the headers of an acceptable PUT say. *)
Definition lengths_spec (h : mog_http) : Prop :=
  0 <= content_len h /\
  (has_content_range h = true ->
     chunked h = false /\ 0 <= range_beg h <= range_end h /\
     content_len h = range_end h - range_beg h + 1).

Lemma lengths_ok_spec (h : mog_http) :
  is_off (content_len h) -> is_off (range_beg h) -> is_off (range_end h) ->
  exists b, lengths_ok h = Ok b /\ (b = true <-> lengths_spec h).
Proof.
  unfold is_off, lengths_ok, lengths_spec. intros Hc Hb He.
  destruct (Z.ltb_spec (content_len h) 0); [eexists; split; [done|]; split; [done|lia]|].
  destruct (has_content_range h); [|eexists; split; [done|]; split; [|done]; intros _; split; [lia|done]].
  destruct (chunked h); [eexists; split; [done|]; split; [done|]; intros [_ H']; by destruct (H' eq_refl)|].
  destruct (Z.ltb_spec (range_end h) 0); cbn [orb];
    [eexists; split; [done|]; split; [done|]; intros [_ H']; specialize (H' eq_refl); lia|].
  destruct (Z.ltb_spec (range_beg h) 0);
    [eexists; split; [done|]; split; [done|]; intros [_ H']; specialize (H' eq_refl); lia|].
  destruct (Z.leb_spec 0 (range_end h)); [|lia]. destruct (Z.leb_spec 0 (range_beg h)); [|lia].
  cbn [andb assert_].
  destruct (Z.ltb_spec (range_end h) (range_beg h));
    [eexists; split; [done|]; split; [done|]; intros [_ H']; specialize (H' eq_refl); lia|].
  destruct (Z.leb_spec 0 (content_len h)); [|lia].
  eexists. split; [done|]. rewrite Z.eqb_eq.
  destruct (Z.eq_dec (range_end h - range_beg h + 1) (2 ^ 63)) as [E|E].
  - rewrite E. change (wrap64 (2 ^ 63)) with (- 2 ^ 63). split; [lia|].
    intros [_ H']. specialize (H' eq_refl). lia.
  - rewrite wrap64_id by (unfold is_off; lia). split; [intros; split; [lia|]; intros _; split; [done|lia]|].
    intros [_ H']. specialize (H' eq_refl). lia.
Qed.

(** ** Closing and committing *)

Section Put.
Variable date : list Z.
Variable md5 : list Z -> list Z.

Lemma short_status (s : String.string) : (String.length s <= 3583)%nat -> zlen (str s) <= 3583.
Proof.
  intros H. unfold str, zlen. rewrite length_map.
  assert (length (String.list_ascii_of_string s) = String.length s) as ->; [|lia].
  clear H. induction s as [|a s IH]; cbn; [done|by rewrite IH].
Qed.

(** A file of a PUT without Content-Range. *)
Definition temporary (f : mog_file) (t p : name) : Prop :=
  tmppath f = Some t /\ path f = Some p /\ t <> p.

Lemma close_tmp (f : mog_file) (t p : name) h w (Q : unit -> mog_http -> world -> Prop) :
  forward h = Some f -> temporary f t p ->
  (forall w', (forall q, q <> t -> w_fs w' !! q = w_fs w !! q) -> w_chan w' = w_chan w ->
     Q tt (set_forward None h) w') ->
  wp file_close_null h w Q.
Proof.
  intros Hf (Ht & Hp & Hne) HQ. unfold file_close_null. do 2 wp_step. rewrite Hf, Ht.
  do 2 wp_step. apply wp_sys_reply. intros e rs err _.
  assert (forall w1, (forall q, q <> t -> w_fs w1 !! q = w_fs w !! q) -> w_chan w1 = w_chan w ->
    wp (put_world (fun w => set_fs (close_contents f (w_fs w)) w);; put_http (set_forward None)) h w1 Q) as Hrest.
  { intros w1 Hq Hc. do 2 wp_step. wp_step. apply HQ; [|done]. intros q Hqt. cbn.
    unfold close_contents. rewrite Ht. case_decide; [|auto]. rewrite lookup_insert_ne by done. auto. }
  destruct e; wp_step; apply Hrest; try done. intros q Hqt. cbn. by rewrite lookup_delete_ne.
Qed.

Lemma close_renamed (f : mog_file) (p : name) h w (Q : unit -> mog_http -> world -> Prop) :
  forward h = Some f -> tmppath f = None -> path f = Some p ->
  Q tt (set_forward None h) (set_fs (<[p := contents f]> (w_fs w)) w) ->
  wp file_close_null h w Q.
Proof.
  intros Hf Ht Hp HQ. unfold file_close_null. do 2 wp_step. rewrite Hf, Ht.
  do 4 wp_step. wp_step. unfold close_contents. by rewrite Ht, Hp.
Qed.

(** What one PUT may do to the docroot and tell the client. *)
Definition told (w w' : world) (status : list Z) : Prop :=
  exists acc rest keep, sent (w_chan w') = sent (w_chan w) ++ acc /\
    acc ++ rest = resp_bytes date status keep.

Definition untouched (w w' : world) (t p : name) : Prop :=
  forall q, q <> t -> q <> p -> w_fs w' !! q = w_fs w !! q.

Definition commit_post (t p : name) (h : mog_http) (f : mog_file) (w w' : world) : Prop :=
  untouched w w' t p /\
  ((told w w' (str "201 Created") /\ md5_ok md5 h f = true /\
    w_fs w' !! p = Some (contents f) /\ w_fs w' !! t = None) \/
   (told w w' (str "400 Bad Request") /\ md5_ok md5 h f = false /\ w_fs w' !! p = w_fs w !! p) \/
   (told w w' (str "500 Internal Server Error") /\ w_fs w' !! p = w_fs w !! p)).

Lemma resp_told status alive h (w w1 : world) (Q : unit -> mog_http -> world -> Prop) :
  zlen status <= 3583 -> wbuf h = WNull -> w_chan w1 = w_chan w ->
  (forall wb b c, told w (set_chan c w1) status ->
     Q tt (set_wbuf wb (set_persistent b h)) (set_chan c w1)) ->
  wp (mog_http_resp date status alive) h w1 Q.
Proof.
  intros Hs Hw Hc HQ. apply wp_resp; [done|done|]. intros wb c acc Hsent (rest & Hr).
  apply HQ. exists acc, rest, (alive && persistent h). rewrite <- Hc. done.
Qed.

(** [put_commit_resp] for a temporary file. *)
Lemma commit_resp_spec (f : mog_file) (t p : name) h w (Q : unit -> mog_http -> world -> Prop) :
  forward h = Some f -> temporary f t p -> wbuf h = WNull ->
  (forall wb b w', commit_post t p h f w w' ->
     Q tt (set_wbuf wb (set_persistent b (set_forward None h))) w') ->
  wp (put_commit_resp date md5) h w Q.
Proof.
  intros Hf Htmp Hw HQ. pose proof Htmp as (Ht & Hp & Hne). unfold put_commit_resp.
  do 2 wp_step. rewrite Hf. destruct (md5_ok md5 h f) eqn:Hmd5; cycle 1.
  { wp_step. apply (close_tmp f t p); [done..|]. intros w' Hq Hc.
    apply (resp_told _ _ _ w); [by apply short_status; cbn; lia|done|done|].
    intros wb b c Htold. apply HQ. split; [intros q ??; apply Hq; done|].
    right; left. split_and!; [done|done|apply Hq; done]. }
  wp_step. unfold set_perms_commit. wp_step. apply wp_sys_reply. intros e1 rs1 err1 _.
  assert (forall w1, (forall q, w_fs w1 !! q = w_fs w !! q) -> w_chan w1 = w_chan w ->
    wp (file_close_null;; mog_http_resp date (str "500 Internal Server Error") false) h w1 Q) as H500.
  { intros w1 Hq1 Hc1. wp_step. apply (close_tmp f t p); [done..|]. intros w' Hq Hc.
    apply (resp_told _ _ _ w); [by apply short_status; cbn; lia|done|by rewrite Hc|].
    intros wb b c Htold. apply HQ. split; [intros q ??; cbn; rewrite Hq; done|].
    right; right. split; [done|]. cbn. by rewrite Hq. }
  destruct e1; [wp_step; by apply H500|]. rewrite Ht, Hp.
  wp_step. apply wp_sys_reply. intros e2 rs2 err2 _.
  destruct e2; [wp_step; by apply H500|]. do 4 wp_step. wp_step. wp_step.
  apply (close_renamed (set_tmppath None f) p); [done..|].
  apply (resp_told _ _ _ w); [by apply short_status; cbn; lia|done|done|].
  intros wb b c Htold. replace (set_forward None (set_forward (Some (set_tmppath None f)) h))
    with (set_forward None h) by (by destruct h).
  apply HQ. unfold commit_post, untouched. cbn [w_fs set_chan set_fs set_errno set_sys set_tmppath contents].
  split; [|left].
  - intros q Hqt Hqp. by rewrite !lookup_insert_ne, lookup_delete_ne.
  - split_and!; [done|done|by rewrite lookup_insert_eq|].
    by rewrite !lookup_insert_ne, lookup_delete_eq by done.
Qed.

Lemma put_commit_spec (f : mog_file) (t p : name) h w (Q : mog_next -> mog_http -> world -> Prop) :
  forward h = Some f -> temporary f t p -> wbuf h = WNull ->
  (forall nx h' w', commit_post t p h f w w' -> forward h' = None ->
     nx <> MOG_NEXT_WAIT_RD -> Q nx h' w') ->
  wp (http_put_commit date md5) h w Q.
Proof.
  intros Hf Htmp Hw HQ. unfold http_put_commit. wp_step.
  apply (commit_resp_spec f t p); [done..|]. intros wb b w' Hpost. wp_step. wp_step.
  destruct wb; cbn [wbuf set_wbuf].
  - cbn [persistent set_wbuf set_persistent]. destruct b; cbn [negb].
    + do 3 wp_step. apply HQ; done.
    + wp_step. apply HQ; done.
  - wp_step. apply HQ; done.
  - wp_step. apply HQ; done.
Qed.

(** Giving up: the temporary file is closed, nothing else changes. *)
Lemma stop_spec (status : option (list Z)) (f : mog_file) (t p : name) h w
    (Q : mog_next -> mog_http -> world -> Prop) :
  forward h = Some f -> temporary f t p -> wbuf h = WNull ->
  (forall s, status = Some s -> zlen s <= 3583) ->
  (forall h' w', (forall q, q <> t -> w_fs w' !! q = w_fs w !! q) -> forward h' = None ->
     Q MOG_NEXT_CLOSE h' w') ->
  wp (stop0 date status) h w Q.
Proof.
  intros Hf Htmp Hw Hs HQ. unfold stop0. wp_step.
  assert (forall h1 w1, forward h1 = Some f -> w_fs w1 = w_fs w ->
    wp (file_close_null;; mret MOG_NEXT_CLOSE) h1 w1 Q) as Hrest.
  { intros h1 w1 Hf1 Hfs. wp_step. apply (close_tmp f t p); [done..|].
    intros w' Hq _. wp_step. apply HQ; [|done]. intros q Hqt. by rewrite Hq, Hfs. }
  destruct status as [s|].
  - apply wp_resp; [by apply Hs|done|]. intros. by apply Hrest.
  - wp_step. by apply Hrest.
Qed.

Lemma write_err_spec (msg : option (list Z)) (f : mog_file) (t p : name) h w
    (Q : mog_next -> mog_http -> world -> Prop) :
  forward h = Some f -> temporary f t p -> wbuf h = WNull ->
  (forall s, msg = Some s -> zlen s <= 3583) ->
  (forall h' w', (forall q, q <> t -> w_fs w' !! q = w_fs w !! q) -> forward h' = None ->
     Q MOG_NEXT_CLOSE h' w') ->
  wp (write_err date msg) h w Q.
Proof.
  intros Hf Htmp Hw Hs HQ. unfold write_err. do 2 wp_step.
  assert (zlen (str "507 Insufficient Storage") <= 3583) as H507 by (apply short_status; cbn; lia).
  assert (forall s, Some (default (str "500 Internal Server Error") msg) = Some s -> zlen s <= 3583) as Hd.
  { intros s [= <-]. destruct msg; [by apply Hs|apply short_status; cbn; lia]. }
  destruct (w_err w) as [[]|]; apply (stop_spec _ f t p); try done; by intros s [= <-].
Qed.

(** ** The socket as a byte stream *)

Fixpoint stream (s : list rd) : list Z :=
  match s with
  | [] => []
  | RBytes bs :: s' => bs ++ stream s'
  | RErr _ :: s' => stream s'
  end.

(** One [read]: an error, the end, or a part of the stream. *)
Lemma wp_sys_read len h w (Q : errno + list Z -> mog_http -> world -> Prop) :
  0 <= len ->
  (forall e s err, stream s = stream (w_sock w) -> (e <> EAGAIN -> (sock_size s < sock_size (w_sock w))%nat) ->
     Q (inl e) h (set_errno err (set_sock s w))) ->
  (forall s, Q (inr []) h (set_sock s w)) ->
  (forall b bs s, stream (w_sock w) = (b :: bs) ++ stream s -> zlen (b :: bs) <= len ->
     (sock_size s < sock_size (w_sock w))%nat ->
     Q (inr (b :: bs)) h (set_sock s w)) ->
  wp (sys_read len) h w Q.
Proof.
  intros Hlen He Hz Hb. unfold wp, sys_read.
  destruct (w_sock w) as [|[bs|e] s] eqn:E.
  - eexists _, _, _. split; [done|]. specialize (He EAGAIN [] (Some EAGAIN) eq_refl ltac:(done)).
    destruct w; cbn in *; by subst.
  - destruct (Z.leb_spec (zlen bs) len) as [Hle|Hgt].
    + eexists _, _, _. split; [done|]. destruct bs as [|b bs]; [apply Hz|].
      apply Hb; [done|done|]. cbn. lia.
    + eexists _, _, _. split; [done|].
      destruct (take (Z.to_nat len) bs) as [|b bs'] eqn:Et; [apply Hz|].
      assert (zlen (b :: bs') = len) as Hl by (rewrite <- Et; apply zlen_take; lia).
      apply Hb; [|lia|].
      * cbn [stream]. rewrite <- Et, app_assoc, take_drop. done.
      * cbn [sock_size]. rewrite length_drop. unfold zlen in *. cbn in Hl. lia.
  - eexists _, _, _. split; [done|]. apply He; [done|]. cbn. lia.
Qed.

(** [write_full] in the monad. *)
Lemma wp_write_full (bs : list Z) (f : mog_file) h w (Q : bool -> mog_http -> world -> Prop) :
  forward h = Some f -> 0 <= foff f -> zlen bs <= progress (w_pwrite w) ->
  (forall sc err, progress (w_pwrite w) - zlen bs <= progress sc ->
     Q true (set_forward (Some (file_append bs f)) h) (set_errno err (set_pwrite sc w))) ->
  (forall f' sc err, path f' = path f -> tmppath f' = tmppath f ->
     Q false (set_forward (Some f') h) (set_errno err (set_pwrite sc w))) ->
  wp (write_full bs) h w Q.
Proof.
  intros Hf Hoff Hpr Ht Hfl. unfold wp, write_full. rewrite Hf.
  destruct (write_full_spec (w_pwrite w) f bs (w_err w) Hoff Hpr)
    as (ok & f' & sc & err & -> & Hok & _ & Hp & Htmp).
  eexists _, _, _. split; [done|]. destruct ok; [|by apply Hfl].
  destruct (Hok eq_refl) as [-> Hsc]. by apply Ht.
Qed.

Lemma file_append_names (bs : list Z) (f : mog_file) :
  path (file_append bs f) = path f /\ tmppath (file_append bs f) = tmppath f.
Proof. destruct bs; [done|]. unfold file_append, hash_write. by destruct (digest_ctx f). Qed.

Lemma temporary_append (bs : list Z) (f : mog_file) (t p : name) :
  temporary f t p -> temporary (file_append bs f) t p.
Proof. unfold temporary. destruct (file_append_names bs f) as [-> ->]. done. Qed.

(** What a call of [identity_put_in_progress] on a temporary file may do: wait
    for more with the bytes read so far appended, commit when all [need] bytes
    are there, or give up without a trace at the destination. *)
Definition identity_post (t p : name) (need : Z) (h : mog_http) (f : mog_file) (w : world)
    (nx : mog_next) (h' : mog_http) (w' : world) : Prop :=
  exists got rest, stream (w_sock w) = got ++ rest /\
    ((nx = MOG_NEXT_WAIT_RD /\ zlen got < need /\
      h' = set_forward (Some (file_append got f)) h /\ w_fs w' = w_fs w /\
      w_chan w' = w_chan w /\ stream (w_sock w') = rest /\
      progress (w_pwrite w) - zlen got <= progress (w_pwrite w')) \/
     (nx <> MOG_NEXT_WAIT_RD /\ zlen got = need /\ forward h' = None /\
      commit_post t p h (file_append got f) w w') \/
     (nx = MOG_NEXT_CLOSE /\ forward h' = None /\ forall q, q <> t -> w_fs w' !! q = w_fs w !! q)).

Lemma identity_post_close (t p : name) need h f w h' w' :
  forward h' = None -> (forall q, q <> t -> w_fs w' !! q = w_fs w !! q) ->
  identity_post t p need h f w MOG_NEXT_CLOSE h' w'.
Proof. intros Hf Hq. exists [], (stream (w_sock w)). split; [done|]. by right; right. Qed.

(** Reading [bs] first. *)
Lemma identity_post_read (t p : name) need h f w bs s err sc nx h' w' :
  0 <= foff f -> stream (w_sock w) = bs ++ stream s ->
  progress (w_pwrite w) - zlen bs <= progress sc ->
  identity_post t p (need - zlen bs) (set_forward (Some (file_append bs f)) h)
    (file_append bs f) (set_errno err (set_pwrite sc (set_sock s w))) nx h' w' ->
  identity_post t p need h f w nx h' w'.
Proof.
  intros Hoff Hs Hsc (got & rest & Hst & Hpost). cbn in Hst.
  exists (bs ++ got), rest. rewrite <- app_assoc, <- Hst. split; [done|].
  rewrite !file_append_app, zlen_app in * by done.
  destruct Hpost as [(-> & Hlt & -> & ?)|[(? & Hz & ? & Hc)|?]]; [left|right; left|by right; right].
  - cbn [w_pwrite set_errno set_pwrite w_fs w_chan set_sock] in *.
    split_and!; try lia; try (by destruct h); tauto.
  - split_and!; try done; lia.
Qed.

Lemma identity_again_spec (t p : name) (fuel : nat) :
  forall (need buf_len : Z) (f : mog_file) h w,
  forward h = Some f -> temporary f t p -> wbuf h = WNull -> 0 <= foff f ->
  0 < need -> 0 < buf_len -> (sock_size (w_sock w) < fuel)%nat ->
  zlen (stream (w_sock w)) <= progress (w_pwrite w) ->
  wp (identity_again date md5 fuel need buf_len) h w (identity_post t p need h f w).
Proof.
  induction fuel as [|fuel IH]; intros need buf_len f h w Hf Htmp Hw Hoff Hneed Hbuf Hfuel Hpr; [lia|].
  cbn [identity_again]. do 2 wp_step; [by apply Z.ltb_lt|].
  set (len := if need <? buf_len then need else buf_len).
  assert (0 < len <= need) as Hlen by (unfold len; destruct (Z.ltb_spec need buf_len); lia).
  clearbody len. wp_step.
  apply wp_sys_read; [lia|..].
  - intros e s err Hs Hsz. destruct e; try (apply (stop_spec _ f t p); try done;
      intros; by apply identity_post_close).
    + eapply wp_mono; [apply (IH need len f); try done; [lia|cbn; specialize (Hsz ltac:(done)); lia|by cbn; rewrite Hs]|].
      intros nx h' w' (got & rest & Hst & Hp). cbn in Hst. rewrite Hs in Hst. by exists got, rest.
    + wp_step. exists [], (stream (w_sock w)). split; [done|]. left. rewrite zlen_nil.
      split_and!; try done; [by destruct h; cbn in *; subst|cbn; lia].
  - intros s. apply (stop_spec _ f t p); try done. intros. by apply identity_post_close.
  - intros b bs s Hs Hle Hsz. rewrite Hs, zlen_app in Hpr. pose proof (zlen_nonneg (stream s)).
    wp_step. apply (wp_write_full _ f); [done|done|cbn; lia|..].
    + intros sc err Hsc. cbn [negb]. cbn in Hsc. rewrite zlen_cons in *.
      destruct (Z.eqb_spec (need - (zlen bs + 1)) 0) as [Hz|Hz].
      * apply (put_commit_spec (file_append (b :: bs) f) t p); [done|by apply temporary_append|done|].
        intros nx h' w' Hc Hfw Hnx. exists (b :: bs), (stream s). split; [done|]. right; left.
        rewrite zlen_cons. split_and!; try done; lia.
      * eapply wp_mono; [apply (IH (need - (zlen bs + 1)) len (file_append (b :: bs) f));
          try done; [by apply temporary_append| | | | |]|].
        { rewrite file_append_off. pose proof (zlen_nonneg (b :: bs)). lia. }
        { lia. } { lia. } { cbn. lia. } { cbn. lia. }
        intros nx h' w' Hp. eapply identity_post_read; [done|exact Hs| |]; by rewrite zlen_cons.
    + intros f' sc err Hp Ht. apply (write_err_spec _ f' t p); try done.
      { unfold temporary in *. by rewrite Hp, Ht. }
      intros. by apply identity_post_close.
Qed.

Lemma identity_put_spec (t p : name) (f : mog_file) h w :
  forward h = Some f -> temporary f t p -> wbuf h = WNull -> has_content_range h = false ->
  0 <= foff f <= content_len h -> zlen (stream (w_sock w)) <= progress (w_pwrite w) ->
  wp (identity_put_in_progress date md5) h w
     (identity_post t p (content_len h - foff f) h f w).
Proof.
  intros Hf Htmp Hw Hcr Hoff Hpr. unfold identity_put_in_progress. do 4 wp_step.
  do 2 wp_step; [by rewrite Hw|]. rewrite Hf, Hcr.
  destruct (Z.eqb_spec (content_len h - foff f) 0) as [Hz|Hz].
  - apply (put_commit_spec f t p); [done..|]. intros nx h' w' Hc Hfw Hnx.
    exists [], (stream (w_sock w)). split; [done|]. right; left. by rewrite zlen_nil, Hz.
  - apply identity_again_spec; done || lia.
Qed.

(** The event loop: more of the stream arrives, the handler is called again as
    long as it waits for input. *)
Fixpoint identity_drive (arrivals : list (list rd)) : M mog_next :=
  match arrivals with
  | [] => mret MOG_NEXT_WAIT_RD
  | s :: arrivals' =>
      put_world (fun w => set_sock (w_sock w ++ s) w);;
      nx ← identity_put_in_progress date md5;
      if decide (nx = MOG_NEXT_WAIT_RD) then identity_drive arrivals' else mret nx
  end.

Lemma stream_app (s s' : list rd) : stream (s ++ s') = stream s ++ stream s'.
Proof.
  induction s as [|[bs|e] s IH]; cbn; [done| |done]. by rewrite IH, app_assoc.
Qed.

(** What an upload of [total] bytes may end in, the socket having delivered
    [all]. *)
Definition upload_post (t p : name) (total : Z) (all : list Z) (h : mog_http) (f : mog_file)
    (w : world) (nx : mog_next) (h' : mog_http) (w' : world) : Prop :=
  exists got rest, all = got ++ rest /\
    ((nx = MOG_NEXT_WAIT_RD /\ zlen got <= total /\
      forward h' = Some (file_append got f) /\ w_fs w' = w_fs w /\ w_chan w' = w_chan w) \/
     (nx <> MOG_NEXT_WAIT_RD /\ zlen got = total /\ forward h' = None /\
      commit_post t p h (file_append got f) w w') \/
     (nx = MOG_NEXT_CLOSE /\ forward h' = None /\ forall q, q <> t -> w_fs w' !! q = w_fs w !! q)).

Lemma identity_drive_spec (t p : name) (arrivals : list (list rd)) :
  forall (f : mog_file) h w,
  forward h = Some f -> temporary f t p -> wbuf h = WNull -> has_content_range h = false ->
  0 <= foff f <= content_len h ->
  zlen (stream (w_sock w ++ concat arrivals)) <= progress (w_pwrite w) ->
  wp (identity_drive arrivals) h w
    (upload_post t p (content_len h - foff f) (stream (w_sock w ++ concat arrivals)) h f w).
Proof.
  induction arrivals as [|s arrivals IH]; intros f h w Hf Htmp Hw Hcr Hoff Hpr; cbn [identity_drive].
  - wp_step. exists [], (stream (w_sock w ++ concat [])). split; [done|]. left.
    rewrite zlen_nil. split_and!; try done; lia.
  - cbn [concat] in *. rewrite app_assoc in *. do 2 wp_step. wp_step. rewrite stream_app, zlen_app in Hpr.
    pose proof (zlen_nonneg (stream (concat arrivals))).
    eapply wp_mono; [apply (identity_put_spec t p f); [done..|cbn; lia]|].
    intros nx h1 w1 (got & rest & Hs & Hpost). cbn in Hs.
    destruct Hpost as [(-> & Hlt & -> & Hfs & Hch & Hrest & Hsc)|Hpost].
    + rewrite decide_True by done. rewrite Hs, zlen_app in Hpr. cbn in Hsc.
      eapply wp_mono; [apply (IH (file_append got f)); try done; [by apply temporary_append|..]|].
      { cbn. rewrite file_append_off. pose proof (zlen_nonneg got). lia. }
      { rewrite stream_app, Hrest, zlen_app. lia. }
      intros nx h' w' (got2 & rest2 & Hs2 & Hp). rewrite stream_app, Hrest in Hs2. cbn in Hp.
      exists (got ++ got2), rest2. rewrite stream_app, Hs, <- !app_assoc, <- Hs2. split; [done|].
      rewrite file_append_off in Hp. rewrite file_append_app in Hp by lia. rewrite zlen_app.
      unfold commit_post, untouched, told in *. rewrite Hfs, Hch in Hp. cbn [expect_md5 set_forward w_fs w_chan set_sock] in Hp.
      destruct Hp as [(-> & ? & ? & ? & ?)|[(? & ? & ? & Hc)|?]]; [left|right; left|by right; right].
      * split_and!; try done; lia.
      * split; [done|]. split; [lia|]. split; [done|exact Hc].
    + case_decide as Hn; [exfalso; destruct Hpost as [(? & _)|(? & _)]; congruence|]. wp_step.
      exists got, (rest ++ stream (concat arrivals)). rewrite stream_app, Hs, <- app_assoc.
      split; [done|]. destruct Hpost as [(? & ? & ? & ?)|?]; [by right; left|by right; right].
Qed.
End Put.

(** ** Keeping a partial trailer line *)

Lemma char_at_drop (n i : Z) (buf : list Z) :
  0 <= n -> 0 <= i -> char_at (drop (Z.to_nat n) buf) i = char_at buf (n + i).
Proof.
  intros. unfold char_at. rewrite Z2Nat.inj_add by lia.
  set (a := Z.to_nat n). set (b := Z.to_nat i). clearbody a b. clear. revert buf.
  induction a as [|a IH]; intros [|x buf]; cbn; try done; by destruct b.
Qed.

Lemma slice_drop (n off len : Z) (buf : list Z) :
  0 <= n -> 0 <= off -> slice off len (drop (Z.to_nat n) buf) = slice (n + off) len buf.
Proof. intros. unfold slice. rewrite drop_drop. do 2 f_equal. lia. Qed.

(** No line feed inside a Content-MD5 value. *)
Lemma md5_no_lf (tip len i : Z) (buf : list Z) :
  0 <= tip -> tip + len <= zlen buf -> md5_shape (slice tip len buf) -> tip <= i < tip + len ->
  char_at buf i <> 10.
Proof.
  intros Ht Hz Hm Hi Hc.
  assert (slice tip len buf !! Z.to_nat (i - tip) = Some (char_at buf i)) as Hl.
  { unfold slice. rewrite lookup_take_lt, lookup_drop by lia.
    replace (Z.to_nat tip + Z.to_nat (i - tip))%nat with (Z.to_nat i) by lia.
    unfold char_at, zlen in *. destruct (lookup_lt_is_Some_2 buf (Z.to_nat i)) as [x Hx]; [lia|].
    rewrite Hx. f_equal. symmetry. by apply nth_lookup_Some. }
  apply Hm in Hl. rewrite Hc in Hl. by case_decide.
Qed.

(** [stash_advance_rbuf] with a line feed in the buffer and something behind
    it: the rest of the buffer is kept and the parser goes on where it was. *)
Lemma stash_ready (buf : list Z) (sc sc' : list reply) (h : mog_http) :
  ready buf sc h -> offset h = zlen buf -> zlen buf <= UINT16_MAX ->
  chunk_state h = MOG_CHUNK_STATE_TRAILER -> 0 < line_end h -> line_end h + 1 < zlen buf ->
  zlen buf - (line_end h + 1) <= match h_rbuf h with Some r => rcapa r | None => MOG_RBUF_BASE_SIZE end ->
  exists h' r, stash_advance_rbuf buf h = Ok h' /\ h_rbuf h' = Some r /\
    rdata r = drop (Z.to_nat (line_end h + 1)) buf /\
    offset h' = zlen (rdata r) /\ ready (rdata r) sc' h'.
Proof.
  intros Hr Ho Hmax Hst Hle Hlen1 Hcap.
  destruct Hr as [Hp Hcs Hlen Hlen0 Hstate Hfile Hw Hscr Hl0 Hl H60 Hcr Hmd5 Herr Hrd].
  cbn in *. destruct (Hl Hle) as [Hlt Hlf]. set (end_ := line_end h + 1) in *.
  assert (zlen (drop (Z.to_nat end_) buf) = zlen buf - end_) as Hzd by (apply zlen_drop; lia).
  assert (7 <= cs h <= 59) as Hcs2.
  { revert Hstate. rewrite Hst. unfold chunk_state_of. destruct (rng 1 6 (cs h)) eqn:E; [done|].
    apply rng_false in E. destruct (Z.eqb_spec (cs h) 60); [done|lia]. }
  assert (33 <= cs h <= 56 -> end_ <= tmp_tip h) as Htip.
  { intros Hc. destruct (Hmd5 Hc) as (Ht & Ht0 & Hsh).
    destruct (Z.le_gt_cases end_ (tmp_tip h)); [done|]. exfalso.
    eapply (md5_no_lf (tmp_tip h) (cs h - 32) (line_end h) buf); try done; lia. }
  unfold stash_advance_rbuf. fold end_. rewrite Hlf. unfold MOG_RBUF_MAX_SIZE.
  destruct (Z.eqb_spec (line_end h) 0); [lia|]. cbn [orb Z.eqb Pos.eqb assert_].
  destruct (Z.leb_spec (zlen buf) end_); [lia|].
  destruct (Z.leb_spec (zlen buf) UINT16_MAX); [|lia].
  destruct (Z.leb_spec end_ (offset h)); [|lia]. cbn [assert_].
  match goal with |- context [if ?b then Crash _ else _] => destruct b eqn:Ecap end;
    [apply Z.ltb_lt in Ecap; lia|].
  assert (slice end_ (zlen buf - end_) buf = drop (Z.to_nat end_) buf) as Hsl.
  { unfold slice. apply take_ge. rewrite length_drop. unfold zlen in *. lia. }
  rewrite Hsl. eexists _, (Rbuf _ (drop (Z.to_nat end_) buf)). split; [done|].
  assert (forall h1, cs h1 = cs h -> content_len h1 = content_len h -> chunk_state h1 = chunk_state h ->
    forward h1 = forward h -> wbuf h1 = wbuf h -> offset h1 = offset h - end_ -> line_end h1 = 0 ->
    (33 <= cs h <= 56 -> tmp_tip h1 = tmp_tip h - end_) ->
    ready (drop (Z.to_nat end_) buf) sc' h1) as Hready.
  { intros h1 E1 E2 E3 E4 E5 E6 E7 E8.
    constructor; cbn; rewrite ?E1, ?E2, ?E3, ?E4, ?E5, ?E6, ?E7; try done; try lia.
    - intros Hz. exfalso. apply orb_true_iff in Hz. rewrite rng_true, Z.eqb_eq in Hz. lia.
    - intros Hc. destruct (Hcr Hc) as [Hp0 H13].
      assert (offset h - 1 <> line_end h) by (intros E; rewrite E in H13; congruence).
      split; [lia|]. rewrite char_at_drop by lia. rewrite <- H13. f_equal. lia.
    - intros Hc. destruct (Hmd5 Hc) as (Ht & Ht0 & Hsh). specialize (Htip Hc). rewrite E8 by done.
      split_and!; [lia|lia|]. rewrite slice_drop by lia.
      by replace (end_ + (tmp_tip h - end_)) with (tmp_tip h) by lia. }
  cbn. destruct (Z.leb_spec end_ (tmp_tip h)); cbn; rewrite Hzd;
    (split_and!; [reflexivity|done|lia|apply Hready; try done; try (cbn; lia)]).
Qed.

(** ** Properties *)


Definition put_file : mog_file :=
  MogFile 0 0 (Some (str "/dev1/a")) (Some (str "/dev1/a.tmp")) None [].
Definition put_req : mog_http :=
  MogHttp 0 MOG_HTTP_METHOD_PUT true false false false false false false
    MOG_CHUNK_STATE_SIZE 0 0 0 0 (Some put_file) 0 0 0 3 None WNull (replicate 16 0).
Definition put_world0 : world :=
  World {[ str "/dev1/a.tmp" := [] ]} [] (replicate 5 (Ret 1)) [] [] (Chan [] []) None true.


(** C16.  [lengths_ok] accepts a PUT exactly when its length is known to be
    valid, and with Content-Range exactly when the range is well formed, the
    body is not chunked and the length is that of the range; the computation
    never misjudges a range whose length overflows. *)
Theorem lengths_ok_exact (h : mog_http) :
  is_off (content_len h) -> is_off (range_beg h) -> is_off (range_end h) ->
  exists b, lengths_ok h = Ok b /\ (b = true <-> lengths_spec h).
Proof. apply lengths_ok_spec. Qed.

Lemma lengths_ok_exact_witness :
  exists b, lengths_ok put_req = Ok b /\ (b = true <-> lengths_spec put_req).
Proof. apply (lengths_ok_exact put_req); vm_compute; split; discriminate || reflexivity. Defined.

(** A partial trailer line survives the end of a read when the buffer
    holds an earlier line feed: the bytes behind the last line feed are moved
    to the front, and the parser may be resumed there with the read position
    and the start of a Content-MD5 value still on the same characters. *)
Theorem stash_resumable (buf : list Z) (sc sc' : list reply) (h : mog_http) :
  ready buf sc h -> offset h = zlen buf -> zlen buf <= UINT16_MAX ->
  chunk_state h = MOG_CHUNK_STATE_TRAILER -> 0 < line_end h -> line_end h + 1 < zlen buf ->
  zlen buf - (line_end h + 1) <= match h_rbuf h with Some r => rcapa r | None => MOG_RBUF_BASE_SIZE end ->
  exists h' r, stash_advance_rbuf buf h = Ok h' /\ h_rbuf h' = Some r /\
    rdata r = drop (Z.to_nat (line_end h + 1)) buf /\
    offset h' = zlen (rdata r) /\ ready (rdata r) sc' h'.
Proof. apply stash_ready. Qed.

Definition trailer_req : mog_http :=
  MogHttp 18 MOG_HTTP_METHOD_PUT true true false false false false false
    MOG_CHUNK_STATE_TRAILER 0 0 2 0 (Some put_file) 4 0 0 0 None WNull [].

Lemma stash_resumable_witness :
  exists h' r, stash_advance_rbuf [48; 13; 10; 67] trailer_req = Ok h' /\ h_rbuf h' = Some r /\
    rdata r = [67] /\ offset h' = zlen (rdata r) /\ ready (rdata r) [] h'.
Proof.
  apply (stash_resumable [48; 13; 10; 67] [] [] trailer_req); try (vm_compute; done).
  constructor; cbn; try done; try lia; eauto; try (vm_compute; done).
  by eexists.
Defined.

(** The chunked upload used to show the two defects below. *)
Definition chunked_req : mog_http :=
  MogHttp 1 MOG_HTTP_METHOD_PUT true true true false false false false
    MOG_CHUNK_STATE_SIZE 0 0 0 0 (Some put_file) 0 0 0 0 None WNull (replicate 16 0).

Definition chunked_run (packets : list (list Z)) : option (res (mog_next * mog_chunk_state)) :=
  let w := set_sock (map RBytes packets) put_world0 in
  match chunked_put_in_progress [] (fun _ => replicate 16 0) chunked_req w with
  | Ok (nx, h, _) => Some (Ok (nx, chunk_state h))
  | Crash r => Some (Crash r)
  end.

(** Trailers cut at unlucky places abort the process.  A Content-MD5
    trailer that starts a packet and continues in the next one is parsed with
    the start of its value pointing into the packet that is gone; a trailer
    that follows a packet ending in a line feed is skipped from the position of
    the old line feed.  Both fail an assertion, while the same bytes cut
    elsewhere are accepted. *)
Theorem chunked_trailer_aborts :
  let md5 := str "Content-MD5: AAAAAAAAAAAAAAAAAAAAAA==" ++ CRLF ++ CRLF in
  let zero := str "0" ++ CRLF in
  chunked_run [zero; md5] = Some (Ok (MOG_NEXT_WAIT_WR, MOG_CHUNK_STATE_DONE)) /\
  chunked_run [zero; take 20 md5; drop 20 md5] = Some (Crash AssertFailed) /\
  chunked_run [zero ++ str "Foo: bar" ++ CRLF ++ str "Baz: x" ++ CRLF ++ CRLF]
    = Some (Ok (MOG_NEXT_WAIT_WR, MOG_CHUNK_STATE_DONE)) /\
  chunked_run [zero ++ str "Foo: bar" ++ CRLF; str "Baz: x" ++ CRLF ++ CRLF]
    = Some (Crash AssertFailed).
Proof. vm_compute. split_and!; reflexivity. Qed.
