(* ===== verification/HttpQueue.v ===== *)
(** The HTTP state machine: http.c and http_dav.c, with the read buffers of
    alloc.c.

    [http_queue_step] is what a worker thread runs when a client is ready.  It
    flushes a pending response, or carries on with the file being sent or
    received, or reads and parses the next request and hands it to the handler
    of its method.  Bytes behind a request are kept for the next one. *)
From S2P Require Import Prelude Fmt Ragel ValidPath Base64 Http.
From S2P Require Import ChunkParser TryWrite HttpResp World HttpParser HttpGet HttpPut.
From stdpp Require Import base list numbers gmap.
From Stdlib Require Import ZArith Lia.

#[local] Open Scope Z_scope.

(** ** Read buffers (alloc.c) *)

(** [mog_rbuf_new]: a buffer for [size] bytes that holds [data]. *)
Definition mog_rbuf_new (size : Z) (data : list Z) : res rbuf :=
  assert! 0 <? size; Ok (Rbuf size data).

(** [mog_rbuf_grow (cur)]; [tls] says that [cur] is the buffer of the thread.
    [None] is NULL: the buffer was as large as it may get and is freed. *)
Definition mog_rbuf_grow (tls : bool) (cur : rbuf) : res (option rbuf) :=
  let rsize := zlen (rdata cur) in
  let new_size := rsize + 500 in
  if rsize =? MOG_RBUF_MAX_SIZE then
    assert! negb tls; Ok None
  else
    assert! rsize <? MOG_RBUF_MAX_SIZE;
    let new_size := if MOG_RBUF_MAX_SIZE <? new_size then MOG_RBUF_MAX_SIZE else new_size in
    if rcapa cur <? new_size then
      if rcapa cur =? MOG_RBUF_BASE_SIZE then
        let* r := mog_rbuf_new new_size (rdata cur) in Ok (Some r)
      else
        assert! negb tls; Ok (Some (Rbuf new_size (rdata cur)))
    else Ok (Some cur). (* mog_rbuf_detach *)

Section Queue.
(** The dates of responses and of files, the digest of the MD5 library, the
    process id, the type of the listener, and the bytes earlier requests left
    in the buffer of the thread. *)
Variables date modified : list Z.
Variable md5 : list Z -> list Z.
Variable pid : Z.
Variable httpget : bool.
Variable tls : list Z.

(** ** DELETE and MKCOL (http_dav.c) *)

Definition mog_http_delete (buf : list Z) : M unit :=
  if httpget then mog_http_resp date (str "405 Method Not Allowed") true
  else
    let forbidden := mog_http_resp date (str "403 Forbidden") true in
    h ← get_http;
    w ← get_world;
    pe ← lift_res (mog_http_path h buf (w_err w));
    put_world (set_errno pe.2);;
    match pe.1 with
    | None => forbidden
    | Some path =>
        assertM (char_at path 0 =? 47);;
        if zlen path =? 1 then forbidden
        else
          rc ← mog_unlink path;
          match rc with
          | None => mog_http_resp date (str "204 No Content") true
          | Some EPERM | Some EISDIR | Some EACCES => forbidden
          | Some ENOENT => mog_http_resp date (str "404 Not Found") true
          | Some _ => mog_http_resp date (str "500 Internal Server Error") true
          end
    end.

Definition mog_http_mkcol (buf : list Z) : M unit :=
  if httpget then mog_http_resp date (str "405 Method Not Allowed") true
  else
    h ← get_http;
    w ← get_world;
    pe ← lift_res (mog_http_path h buf (w_err w));
    put_world (set_errno pe.2);;
    match pe.1 with
    | Some _ => mog_http_resp date (str "400 Bad Request") true
    | None => mog_http_resp date (str "403 Forbidden") true
    end.

(** ** http.c *)

(** [http_defer_rbuf (http, rbuf, buf_len)]: [buf] are the [buf_len] bytes of
    [rbuf]; [owned] says that [rbuf] is [http->rbuf]. *)
Definition http_defer_rbuf (owned : bool) (buf : list Z) : M unit :=
  h ← get_http;
  let defer_bytes := wrap_u64 (zlen buf - offset h) in
  if skip_rbuf_defer h then put_http (set_skip_rbuf_defer false)
  else
    assertM (0 <=? offset h);;
    assertM (defer_bytes <=? MOG_RBUF_MAX_SIZE);;
    (if defer_bytes =? 0 then put_http (set_h_rbuf None)
     else
       let data := slice (offset h) defer_bytes buf in
       match h_rbuf h with
       | Some old => assertM owned;; put_http (set_h_rbuf (Some (Rbuf (rcapa old) data)))
       | None =>
           r ← lift_res (mog_rbuf_new defer_bytes data);
           put_http (set_h_rbuf (Some r))
       end);;
    put_http (set_offset 0).

Definition http_process_client (buf : list Z) : M unit :=
  h ← get_http;
  match http_method h with
  | MOG_HTTP_METHOD_NONE => crash AssertFailed
  | MOG_HTTP_METHOD_GET => mog_http_get_open date modified buf
  | MOG_HTTP_METHOD_HEAD => mog_http_get_open date modified buf
  | MOG_HTTP_METHOD_DELETE => mog_http_delete buf
  | MOG_HTTP_METHOD_MKCOL => mog_http_mkcol buf
  | MOG_HTTP_METHOD_PUT => mog_http_put date md5 pid httpget buf
  end.

(** [http_close]: the descriptor and the buffers of the connection are gone. *)
Definition http_close : M unit :=
  h ← get_http;
  assertM (match wbuf h with WNull | WError => true | WBuf _ _ => false end).

Definition flush : M mog_write_state := fun h w =>
  match mog_tryflush (wbuf h) (w_chan w) with
  | Ok (st, wb, c) => Ok (st, set_wbuf wb h, set_chan c w)
  | Crash r => Crash r
  end.

Definition http_wbuf_in_progress : M mog_next :=
  h ← get_http;
  assertM (match wbuf h with WError => false | _ => true end);;
  st ← flush;
  match st with
  | MOG_WRSTATE_ERR => mret MOG_NEXT_CLOSE
  | MOG_WRSTATE_DONE =>
      h ← get_http;
      if negb (persistent h) then mret MOG_NEXT_CLOSE
      else
        (match forward h with None => put_http mog_http_reset | Some _ => mret tt end);;
        h ← get_http;
        assertM (offset h =? 0);;
        mret MOG_NEXT_ACTIVE
  | MOG_WRSTATE_BUSY => mret MOG_NEXT_WAIT_WR
  end.

Definition get_in_progress : M mog_next := fun h w =>
  match mog_http_get_in_progress h (w_chan w) with
  | Ok (nx, h', c) => Ok (nx, h', set_chan c w)
  | Crash r => Crash r
  end.

Definition http_forward_in_progress : M mog_next :=
  h ← get_http;
  if decide (http_method h = MOG_HTTP_METHOD_GET) then get_in_progress
  else
    assertM (bool_decide (http_method h = MOG_HTTP_METHOD_PUT));;
    mog_http_put_in_progress date md5.

Definition http_parse (buf : list Z) : M mog_parser_state := fun h w =>
  match mog_http_parse h buf with
  | Ok (st, h', err) => Ok (st, h', set_errno err w)
  | Crash r => Crash r
  end.

(** After MOG_PARSER_DONE. *)
Definition http_request_done (owned : bool) (buf : list Z) : M mog_next :=
  http_process_client buf;;
  h ← get_http;
  match wbuf h with
  | WError => mret MOG_NEXT_CLOSE
  | WBuf _ _ => http_defer_rbuf owned buf;; mret MOG_NEXT_WAIT_WR
  | WNull =>
      match forward h with
      | Some _ => http_defer_rbuf owned buf;; http_forward_in_progress
      | None =>
          if negb (persistent h) then mret MOG_NEXT_CLOSE
          else http_defer_rbuf owned buf;; put_http mog_http_reset;; mret MOG_NEXT_ACTIVE
      end
  end.

Definition err400 : M mog_next :=
  mog_http_resp date (str "400 Bad Request") false;; mret MOG_NEXT_CLOSE.

Definition err507or400 : M mog_next :=
  w ← get_world;
  if decide (w_err w = Some ERANGE) then
    mog_http_resp date (str "507 Insufficient Storage") false;; mret MOG_NEXT_CLOSE
  else err400.

(** The label [parse], up to the [goto reread] of a partial request: [reread]
    is given whether the buffer is [http->rbuf], its size, and its bytes. *)
Definition http_parse_step (reread : bool -> Z -> list Z -> M mog_next)
    (owned : bool) (capa : Z) (buf : list Z) : M mog_next :=
  st ← http_parse buf;
  match st with
  | MOG_PARSER_ERROR => err507or400
  | MOG_PARSER_CONTINUE =>
      h ← get_http;
      assertM (is_wnull (wbuf h));;
      if capa <=? offset h then
        r ← lift_res (mog_rbuf_grow (negb owned) (Rbuf capa buf));
        put_http (set_h_rbuf r);;
        match r with
        | None => err400
        | Some r => reread true (rcapa r) buf
        end
      else reread owned capa buf
  | MOG_PARSER_DONE => http_request_done owned buf
  end.

(** The label [reread]: [buf] are the [buf_len] bytes of the buffer. *)
Fixpoint http_reread (fuel : nat) (owned : bool) (capa : Z) (buf : list Z) : M mog_next :=
  match fuel with
  | O => crash OutOfFuel
  | S fuel' =>
      h ← get_http;
      let off := offset h in
      let mem := if off <=? zlen buf then buf else tls in
      r ← sys_read (capa - off);
      match r with
      | inr [] => mret MOG_NEXT_CLOSE
      | inr bs =>
          http_parse_step (http_reread fuel') owned capa (take (Z.to_nat off) mem ++ bs)
      | inl EAGAIN =>
          (if 0 <? zlen buf then put_http (set_h_rbuf (Some (Rbuf capa buf))) else mret tt);;
          mret MOG_NEXT_WAIT_RD
      | inl EINTR => http_reread fuel' owned capa buf
      | inl _ => mret MOG_NEXT_CLOSE
      end
  end.

Definition http_queue_step : M mog_next :=
  h ← get_http;
  w ← get_world;
  match wbuf h with
  | WBuf _ _ | WError => http_wbuf_in_progress
  | WNull =>
      match forward h with
      | Some _ => http_forward_in_progress
      | None =>
          let '(owned, capa, buf) := match h_rbuf h with
                                     | Some r => (true, rcapa r, rdata r)
                                     | None => (false, MOG_RBUF_BASE_SIZE, [])
                                     end in
          let fuel := S (sock_size (w_sock w)) in
          assertM (0 <=? offset h);;
          assertM (offset h <? capa);;
          assertM (negb owned || (offset h <=? zlen buf));;
          assertM (zlen buf <=? capa);;
          if owned && (offset h <? zlen buf)
          then http_parse_step (http_reread fuel) owned capa buf
          else http_reread fuel owned capa buf
      end
  end.

Definition mog_http_queue_step : M mog_next :=
  rv ← http_queue_step;
  (if decide (rv = MOG_NEXT_CLOSE) then http_close else mret tt);;
  assertM (bool_decide (rv <> MOG_NEXT_IGNORE));;
  mret rv.

(** What [mog_http_quit_step] does with the connection. *)
Inductive quit_action := QuitWaitRd | QuitClosed | QuitActive | QuitWaitWr.

Definition mog_http_quit_step : M quit_action :=
  rv ← http_queue_step;
  match rv with
  | MOG_NEXT_WAIT_RD =>
      h ← get_http;
      match forward h, h_rbuf h with
      | None, None => http_close;; mret QuitClosed
      | _, _ => mret QuitWaitRd
      end
  | MOG_NEXT_CLOSE => http_close;; mret QuitClosed
  | MOG_NEXT_ACTIVE => mret QuitActive
  | MOG_NEXT_WAIT_WR => mret QuitWaitWr
  | MOG_NEXT_IGNORE => crash AssertFailed
  end.
End Queue.
