(* ===== verification/HttpQueueInv.v ===== *)
(** The HTTP state machine: requests are reassembled from the pieces in which
    they arrive, and bytes behind a request are kept for the next one. *)
From S2P Require Import Prelude Fmt Ragel ValidPath Base64 Http.
From S2P Require Import ChunkParser ChunkInv TryWrite HttpResp World HttpParser HttpParserInv.
From S2P Require Import HttpRequest HttpResume HttpGet HttpPut HttpPutInv HttpQueue.
From stdpp Require Import base list numbers gmap.
From Stdlib Require Import ZArith Lia.

#[local] Open Scope Z_scope.

(** ** A connection that waits for the rest of a request *)

(** [buf] has arrived and was parsed; parsing goes on as if from the start. *)
Record Reading (buf : list Z) (h : mog_http) : Prop := {
  rd_ready : parse_ready buf h;
  rd_off : offset h = zlen buf;
  rd_same : forall more, more <> [] -> zlen (buf ++ more) <= UINT16_MAX ->
    Forall is_char (buf ++ more) ->
    mog_http_parse h (buf ++ more) = mog_http_parse (mog_http_reset_parser h) (buf ++ more);
  rd_outer : outer h = (None, h_rbuf h, WNull, false)
}.

Lemma reading_reset (h : mog_http) : Reading [] (mog_http_reset_parser h).
Proof. constructor; [apply reset_parse_ready|done|done|done]. Qed.

(** Moving the bytes to another buffer changes nothing. *)
Lemma reading_rbuf (buf : list Z) (h : mog_http) (r : option rbuf) :
  Reading buf h -> Reading buf (set_h_rbuf r h).
Proof.
  intros [[Hr Hb] Ho Hs Hout]. constructor; cbn.
  - split; [|done]. unfold http_ready in *. cbn. destruct Hr. by constructor.
  - done.
  - intros more Hm Hz Hc. rewrite parse_rbuf, Hs by done. by rewrite <- parse_rbuf.
  - unfold outer in *. cbn. congruence.
Qed.

Lemma reading_continue (buf bs : list Z) (h h' : mog_http) (err : option errno) :
  Reading buf h -> bs <> [] -> zlen (buf ++ bs) <= UINT16_MAX -> Forall is_char (buf ++ bs) ->
  mog_http_parse h (buf ++ bs) = Ok (MOG_PARSER_CONTINUE, h', err) -> Reading (buf ++ bs) h'.
Proof.
  intros [Hr Ho Hs Hout] Hne Hz Hc Hp.
  pose proof (parse_ready_grow buf bs h Hr) as Hr'.
  pose proof (parse_outer _ _ _ _ _ (proj1 Hr') Hp) as Hout'.
  destruct (parse_continue_ready _ _ _ _ Hz Hc Hr' Hp) as [Hready Hoff].
  assert (h_rbuf h' = h_rbuf h) as Hrb by (unfold outer in Hout'; congruence).
  constructor; [done|done| |].
  - intros more Hm Hz' Hc'.
    pose proof (parse_resumes (buf ++ bs) more h Hz' Hc' Hr' Hm) as Hres. rewrite Hp in Hres.
    destruct Hres as (_ & _ & ->).
    rewrite <- app_assoc in *. rewrite Hs by (done || by destruct bs).
    unfold mog_http_reset_parser. by rewrite Hrb.
  - unfold outer in *. rewrite Hrb. congruence.
Qed.

(** The buffer that holds the bytes: the one of the connection, or that of the
    thread, which has the base size. *)
Definition slot (owned : bool) (capa : Z) (h : mog_http) : Prop :=
  if owned then exists d, h_rbuf h = Some (Rbuf capa d)
  else h_rbuf h = None /\ capa = MOG_RBUF_BASE_SIZE.

(** Growing a full buffer makes room, until the limit is reached. *)
Lemma rbuf_grow_spec (owned : bool) (capa : Z) (buf : list Z) :
  zlen buf = capa -> 0 < capa <= MOG_RBUF_MAX_SIZE -> (owned = false -> capa = MOG_RBUF_BASE_SIZE) ->
  mog_rbuf_grow (negb owned) (Rbuf capa buf)
  = Ok (if capa =? MOG_RBUF_MAX_SIZE then None
        else Some (Rbuf (Z.min (capa + 500) MOG_RBUF_MAX_SIZE) buf)).
Proof.
  intros Hz Hc Ho. unfold mog_rbuf_grow, mog_rbuf_new, MOG_RBUF_MAX_SIZE, MOG_RBUF_BASE_SIZE, UINT16_MAX in *.
  cbn [rdata rcapa]. rewrite Hz.
  destruct (Z.eqb_spec capa 65535) as [->|Hne].
  { destruct owned; [done|]. specialize (Ho eq_refl). lia. }
  destruct (Z.ltb_spec capa 65535); [|lia]. cbn [assert_].
  replace (if 65535 <? capa + 500 then 65535 else capa + 500) with (Z.min (capa + 500) 65535)
    by (destruct (Z.ltb_spec 65535 (capa + 500)); lia).
  destruct (Z.ltb_spec capa (Z.min (capa + 500) 65535)); [|lia].
  destruct (Z.eqb_spec capa (512 - 16)) as [->|Hb]; [done|].
  destruct owned; [done|]. by specialize (Ho eq_refl).
Qed.

Section Queue.
Variables date modified : list Z.
Variable md5 : list Z -> list Z.
Variable pid : Z.
Variable httpget : bool.
Variable tls : list Z.

#[local] Abbreviation done_ := (http_request_done date modified md5 pid httpget).
#[local] Abbreviation reread := (http_reread date modified md5 pid httpget tls).
#[local] Abbreviation step_ := (http_queue_step date modified md5 pid httpget tls).

(** What the label [parse] does with the bytes that are there. *)
Lemma parse_step_spec (k : bool -> Z -> list Z -> M mog_next) (owned : bool) (capa : Z)
    (pre bs : list Z) (h : mog_http) (w : world) :
  Reading pre h -> bs <> [] -> zlen (pre ++ bs) <= capa -> 0 < capa <= MOG_RBUF_MAX_SIZE ->
  Forall is_char (pre ++ bs) -> slot owned capa h ->
  let buf := pre ++ bs in
  let x := http_parse_step date modified md5 pid httpget k owned capa buf h w in
  match mog_http_parse (mog_http_reset_parser h) buf with
  | Ok (MOG_PARSER_DONE, h', err) => x = done_ owned buf h' (set_errno err w)
  | Ok (MOG_PARSER_ERROR, h', err) => x = err507or400 date h' (set_errno err w)
  | Ok (MOG_PARSER_CONTINUE, _, err) =>
      (exists owned' capa' h', x = k owned' capa' buf h' (set_errno err w) /\ Reading buf h' /\
         slot owned' capa' h' /\ zlen buf < capa' <= MOG_RBUF_MAX_SIZE) \/
      (zlen buf = MOG_RBUF_MAX_SIZE /\ exists h', x = err400 date h' (set_errno err w) /\ Reading buf h')
  | Crash r => x = Crash r
  end.
Proof.
  intros Hrd Hne Hle Hc Hch Hsl buf x. unfold MOG_RBUF_MAX_SIZE in *.
  assert (zlen (pre ++ bs) <= UINT16_MAX) as Hmax by lia.
  pose proof (rd_same _ _ Hrd bs Hne Hmax Hch) as Hsame. fold buf in Hsame, Hch, Hle, Hmax.
  unfold x, http_parse_step. rewrite bind_eq. unfold http_parse.
  rewrite <- Hsame. destruct (mog_http_parse h buf) as [[[[] h'] err]|r] eqn:Hp; try reflexivity.
  pose proof (reading_continue pre bs h h' err Hrd Hne Hmax Hch Hp) as Hrd'. fold buf in Hrd'.
  pose proof (parse_outer _ _ _ _ _ (proj1 (parse_ready_grow _ bs _ (rd_ready _ _ Hrd))) Hp) as Hout.
  pose proof (rd_off _ _ Hrd') as Ho. pose proof (rd_outer _ _ Hrd') as Hout'.
  assert (h_rbuf h' = h_rbuf h) as Hrb by (unfold outer in Hout; congruence).
  assert (wbuf h' = WNull) as Hw by (unfold outer in Hout'; congruence).
  rewrite !bind_eq. unfold get_http. rewrite !bind_eq. unfold assertM. rewrite Hw. cbn [is_wnull]. rewrite Ho.
  destruct (Z.leb_spec capa (zlen buf)) as [Hfull|Hroom]; cycle 1.
  { left. exists owned, capa, h'. split_and!; [done|done| |lia|lia].
    unfold slot in *. rewrite Hrb. done. }
  assert (zlen buf = capa) as Hz by lia.
  rewrite bind_eq, (rbuf_grow_spec owned capa buf Hz ltac:(unfold MOG_RBUF_MAX_SIZE; lia)) by (intros ->; apply Hsl).
  unfold lift_res. rewrite bind_eq. unfold put_http. unfold MOG_RBUF_MAX_SIZE in *.
  destruct (Z.eqb_spec capa UINT16_MAX) as [E|E].
  - right. split; [lia|]. eexists. split; [done|]. by apply reading_rbuf.
  - left. eexists true, _, _. split; [done|].
    split; [by apply reading_rbuf|]. split; [by eexists|]. cbn [rcapa]. lia.
Qed.

(** ** Reading a whole request *)

(** A connection between two events: nothing has arrived, part of a request
    has, or bytes behind the last request are waiting. *)
Inductive conn_ready (got : list Z) (h : mog_http) : Prop :=
  | conn_empty : Reading [] h -> h_rbuf h = None -> got = [] -> conn_ready got h
  | conn_partial capa : Reading got h -> h_rbuf h = Some (Rbuf capa got) -> got <> [] ->
      zlen got < capa <= MOG_RBUF_MAX_SIZE -> conn_ready got h
  | conn_pipelined capa : Reading [] h -> h_rbuf h = Some (Rbuf capa got) -> got <> [] ->
      zlen got <= capa <= MOG_RBUF_MAX_SIZE -> conn_ready got h.

(** Events on a socket that is neither closed nor broken: bytes and
    interrupts, in front of EAGAIN. *)
Definition quiet (s : list rd) : Prop :=
  Forall (fun r => match r with RBytes bs => bs <> [] | RErr e => e = EINTR end) s.

Context (q : request) (suf : list Z).
Hypothesis Hlegal : legal_request q = true.
Hypothesis Hsize : zlen (request_bytes q) < MOG_RBUF_MAX_SIZE.
Hypothesis Hchars : Forall is_char (request_bytes q ++ suf).

(** The request was parsed, and [suf1] is what was read behind it. *)
Record parsed_request (suf1 : list Z) (h : mog_http) : Prop := {
  pq_method : http_method h = q_method q;
  pq_off : offset h = zlen (request_bytes q);
  pq_path : slice (path_tip h) (path_end h - path_tip h) (request_bytes q ++ suf1) = q_path q;
  pq_fields : fields_of h = request_fields q;
  pq_known : path_known (request_bytes q ++ suf1) (offset h) h;
  pq_forward : forward h = None;
  pq_wbuf : wbuf h = WNull;
  pq_skip : skip_rbuf_defer h = false
}.

Lemma request_prefix (a b : list Z) (h : mog_http) :
  request_bytes q = a ++ b -> a <> [] -> b <> [] ->
  exists h' err, mog_http_parse (mog_http_reset_parser h) a = Ok (MOG_PARSER_CONTINUE, h', err).
Proof.
  intros Hab Ha Hb. unfold MOG_RBUF_MAX_SIZE in Hsize.
  assert (Forall is_char (request_bytes q)) as Hcq by (by apply Forall_app in Hchars as [? _]).
  destruct (parse_request q [] h Hlegal) as (h2 & Hp & _ & Ho & _);
    [by rewrite app_nil_r; lia|by rewrite app_nil_r|]. rewrite app_nil_r in Hp.
  rewrite Hab in Hp, Hsize, Hcq, Ho.
  pose proof (parse_resumes a b (mog_http_reset_parser h) ltac:(lia) Hcq (reset_parse_ready _ _) Hb) as Hres.
  destruct (http_parse_spec a (mog_http_reset_parser h)) as [(st & h1 & err & Hpa & Hoff & _)|[Hpa _]].
  { rewrite zlen_app in Hsize. pose proof (zlen_nonneg b). lia. }
  { by apply Forall_app in Hcq as [? _]. }
  { apply http_reset_ready. }
  - rewrite Hpa in Hres |- *. destruct st; cbn [resumes] in Hres; [congruence| |by eauto].
    exfalso. assert (h1 = h2) as -> by congruence. rewrite zlen_app in Ho.
    destruct b; [done|]. autorewrite with zlen in Ho. pose proof (zlen_nonneg b). lia.
  - rewrite Hpa in Hres. cbn [resumes] in Hres. congruence.
Qed.

Lemma request_complete (suf1 : list Z) (h : mog_http) :
  zlen (request_bytes q ++ suf1) <= MOG_RBUF_MAX_SIZE -> Forall is_char (request_bytes q ++ suf1) ->
  outer (mog_http_reset_parser h) = (None, h_rbuf h, WNull, false) ->
  exists h', mog_http_parse (mog_http_reset_parser h) (request_bytes q ++ suf1)
    = Ok (MOG_PARSER_DONE, h', None) /\ parsed_request suf1 h' /\ h_rbuf h' = h_rbuf h.
Proof.
  intros Hz Hc Hout. destruct (parse_request q suf1 h Hlegal Hz Hc) as (h' & Hp & Hm & Ho & Hpath & Hf).
  pose proof (http_reset_ready h (request_bytes q ++ suf1)) as Hr.
  pose proof (parse_outer _ _ _ _ _ Hr Hp) as Hout'.
  destruct (http_parse_spec _ _ Hz Hc Hr) as [(? & ? & ? & Hp' & _ & Hpost)|[? _]]; [|congruence].
  rewrite Hp in Hp'. injection Hp' as <- <- <-. destruct Hpost as (_ & _ & Hk & Hw).
  exists h'. split; [done|]. unfold outer in *. split; [constructor; try done; congruence|congruence].
Qed.

(** A prefix of the stream either lies inside the request or contains it. *)
Lemma prefix_split (buf rest : list Z) :
  buf ++ rest = request_bytes q ++ suf ->
  (exists b, request_bytes q = buf ++ b /\ b <> []) \/
  (exists s1, buf = request_bytes q ++ s1 /\ suf = s1 ++ rest).
Proof.
  intros H. destruct (Nat.le_gt_cases (length (request_bytes q)) (length buf)) as [Hle|Hgt].
  - right. apply app_eq_inv in H as [(k & H1 & H2)|(k & H1 & H2)]; [by eauto|].
    rewrite H1, length_app in Hle. assert (k = []) as -> by (destruct k; [done|cbn in Hle; lia]).
    rewrite app_nil_r in H1. exists []. rewrite app_nil_r. by subst.
  - left. apply app_eq_inv in H as [(k & H1 & H2)|(k & H1 & H2)].
    + exfalso. rewrite H1, length_app in Hgt. lia.
    + exists k. split; [done|]. intros ->. rewrite H1, app_nil_r in Hgt. lia.
Qed.

(** Reading changes nothing of the world but the socket and [errno]. *)
Definition only_read (w w' : world) : Prop := exists e s, w' = set_errno e (set_sock s w).

Lemma only_read_refl (w : world) : only_read w w.
Proof. exists (w_err w), (w_sock w). by destruct w. Qed.

Lemma only_read_trans (w1 w2 w3 : world) : only_read w1 w2 -> only_read w2 w3 -> only_read w1 w3.
Proof. intros (e & s & ->) (e' & s' & ->). by exists e', s'. Qed.

(** One read on a quiet socket. *)
Lemma quiet_read (len : Z) (h : mog_http) (w : world) :
  0 < len -> quiet (w_sock w) -> exists r w',
    sys_read len h w = Ok (r, h, w') /\ only_read w w' /\ quiet (w_sock w') /\
    match r with
    | inr bs => bs <> [] /\ zlen bs <= len /\ stream (w_sock w) = bs ++ stream (w_sock w') /\
        (sock_size (w_sock w') < sock_size (w_sock w))%nat
    | inl e => stream (w_sock w) = stream (w_sock w') /\
        ((e = EAGAIN /\ w_sock w' = []) \/
         (e = EINTR /\ (sock_size (w_sock w') < sock_size (w_sock w))%nat))
    end.
Proof.
  intros Hlen Hq. unfold sys_read. destruct (w_sock w) as [|[bs|e] s] eqn:E.
  - eexists (inl EAGAIN), _. split; [done|]. split; [exists (Some EAGAIN), []; by destruct w; cbn in *; subst|].
    cbn. rewrite E. split; [done|]. split; [done|by left].
  - apply Forall_cons_1 in Hq as [Hb Hq]. destruct (Z.leb_spec (zlen bs) len).
    + eexists (inr bs), _. split; [done|]. split; [by exists (w_err w), s|]. cbn.
      split_and!; try done; lia.
    + eexists (inr _), _. split; [done|]. split; [by eexists (w_err w), _|]. cbn.
      assert (zlen (take (Z.to_nat len) bs) = len) as Hz by (apply zlen_take; lia).
      assert (zlen (drop (Z.to_nat len) bs) = zlen bs - len) as Hz2 by (apply zlen_drop; lia).
      split; [apply Forall_cons; split; [intros Hd; rewrite Hd in Hz2; change (zlen []) with 0 in Hz2; lia|done]|].
      split; [intros Hd; rewrite Hd in Hz; change (zlen []) with 0 in Hz; lia|].
      split; [lia|]. split; [by rewrite app_assoc, take_drop|]. rewrite length_drop. unfold zlen in *. lia.
  - apply Forall_cons_1 in Hq as [He Hq]. eexists (inl e), _. split; [done|].
    split; [by eexists _, s|]. cbn. split; [done|]. split; [done|].
    right. split; [done|lia].
Qed.

(** What a step that reads may end in. *)
Definition wait_case (T : list Z) (w : world) (Q : mog_next -> mog_http -> world -> Prop) : Prop :=
  forall h' w', conn_ready T h' -> offset h' = zlen T -> w_sock w' = [] -> only_read w w' -> (exists b, request_bytes q = T ++ b /\ b <> []) -> Q MOG_NEXT_WAIT_RD h' w'.

Definition done_case (T : list Z) (w : world) (Q : mog_next -> mog_http -> world -> Prop) : Prop :=
  forall owned capa suf1 h' w', parsed_request suf1 h' -> slot owned capa h' ->
    T = (request_bytes q ++ suf1) ++ stream (w_sock w') -> quiet (w_sock w') -> only_read w w' ->
    zlen (request_bytes q ++ suf1) <= capa <= MOG_RBUF_MAX_SIZE ->
    wp (done_ owned (request_bytes q ++ suf1)) h' w' Q.

(** Parsing bytes that are there, when reading on is known to be right. *)
Lemma parse_step_request (k : bool -> Z -> list Z -> M mog_next) (owned : bool) (capa : Z)
    (pre bs rest : list Z) (h : mog_http) (w : world) Q :
  Reading pre h -> bs <> [] -> zlen (pre ++ bs) <= capa <= MOG_RBUF_MAX_SIZE -> slot owned capa h ->
  (pre ++ bs) ++ stream (w_sock w) ++ rest = request_bytes q ++ suf -> quiet (w_sock w) ->
  (forall owned' capa' h' w', Reading (pre ++ bs) h' -> slot owned' capa' h' ->
     zlen (pre ++ bs) < capa' <= MOG_RBUF_MAX_SIZE -> only_read w w' -> w_sock w' = w_sock w ->
     (exists b, request_bytes q = (pre ++ bs) ++ b /\ b <> []) ->
     wp (k owned' capa' (pre ++ bs)) h' w' Q) ->
  done_case ((pre ++ bs) ++ stream (w_sock w)) w Q ->
  wp (http_parse_step date modified md5 pid httpget k owned capa (pre ++ bs)) h w Q.
Proof.
  intros Hrd Hne Hle Hsl HT Hq Hk Hdone.
  assert (0 < zlen (pre ++ bs)) as Hpos.
  { rewrite zlen_app. destruct bs; [done|]. autorewrite with zlen. pose proof (zlen_nonneg pre). pose proof (zlen_nonneg bs). lia. }
  assert (Forall is_char (pre ++ bs)) as Hch by (rewrite <- HT in Hchars; by apply Forall_app in Hchars as [? _]).
  pose proof (parse_step_spec k owned capa pre bs h w Hrd Hne ltac:(lia) ltac:(lia) Hch Hsl) as Hs. cbv zeta in Hs.
  destruct (prefix_split _ _ HT) as [(b & Hb & Hb0)|(s1 & Hs1 & Hsuf)].
  - destruct (request_prefix (pre ++ bs) b h Hb) as (h1 & err & Hp); [|done|].
    { intros E. rewrite E in Hpos. change (zlen []) with 0 in Hpos. lia. }
    rewrite Hp in Hs. destruct Hs as [(o' & c' & h' & Hx & Hr' & Hsl' & Hc')|(Hfull & _)].
    + destruct (Hk o' c' h' (set_errno err w) Hr' Hsl' Hc') as (a & h2 & w2 & Ha & HQ);
        [by exists err, (w_sock w); destruct w|done|by eauto|].
      exists a, h2, w2. by rewrite Hx.
    + exfalso. rewrite Hb, zlen_app in Hsize. pose proof (zlen_nonneg b). lia.
  - destruct (request_complete s1 h) as (h' & Hp & Hpq & Hrb); [rewrite <- Hs1; lia|by rewrite <- Hs1|done|].
    rewrite <- Hs1 in Hp. rewrite Hp in Hs.
    destruct (Hdone owned capa s1 h' (set_errno None w) Hpq) as (a & h2 & w2 & Ha & HQ);
      [by unfold slot in *; rewrite Hrb|by rewrite <- Hs1|done|by exists None, (w_sock w); destruct w|rewrite <- Hs1; lia|].
    exists a, h2, w2. by rewrite Hs, Hs1.
Qed.

Lemma wait_case_mono (T : list Z) (w w' : world) Q :
  only_read w w' -> wait_case T w Q -> wait_case T w' Q.
Proof. intros Ho H h2 w2 ? ? ? ? ?. apply H; try done. by eapply only_read_trans. Qed.

Lemma done_case_mono (T : list Z) (w w' : world) Q :
  only_read w w' -> done_case T w Q -> done_case T w' Q.
Proof. intros Ho H o c s1 h2 w2 ? ? ? ? ? ?. apply (H o c); try done. by eapply only_read_trans. Qed.

(** The label [reread]. *)
Lemma reread_request (fuel : nat) : forall owned capa pre rest h w Q,
  Reading pre h -> slot owned capa h -> zlen pre < capa <= MOG_RBUF_MAX_SIZE ->
  (owned = true -> pre <> []) -> quiet (w_sock w) -> (sock_size (w_sock w) < fuel)%nat ->
  pre ++ stream (w_sock w) ++ rest = request_bytes q ++ suf ->
  (exists b, request_bytes q = pre ++ b /\ b <> []) ->
  wait_case (pre ++ stream (w_sock w)) w Q -> done_case (pre ++ stream (w_sock w)) w Q ->
  wp (reread fuel owned capa pre) h w Q.
Proof.
  induction fuel as [|fuel IH]; intros owned capa pre rest h w Q Hrd Hsl Hc Hne Hq Hf HT Hin Hwait Hdone; [lia|].
  pose proof (rd_off _ _ Hrd) as Hoff. pose proof (zlen_nonneg pre).
  destruct (quiet_read (capa - zlen pre) h w ltac:(lia) Hq) as (r & w' & Hr & Ho & Hq' & Hcase).
  cbn [http_reread]. wp_step. apply wp_get_http. rewrite Hoff. wp_step. exists r, h, w'. split; [done|].
  destruct r as [e|bs].
  - destruct Hcase as [Hst [[-> Hs0]|[-> Hlt]]].
    + destruct (Z.ltb_spec 0 (zlen pre)) as [Hp|Hp].
      * do 3 wp_step. rewrite Hst, Hs0, app_nil_r in Hwait. apply Hwait; try done.
        apply (conn_partial _ _ capa); [by apply reading_rbuf|done| |done].
        intros ->. change (zlen []) with 0 in Hp. lia.
      * assert (pre = []) as -> by (destruct pre; [done|]; autorewrite with zlen in *; pose proof (zlen_nonneg pre); lia).
        do 3 wp_step. rewrite Hst, Hs0 in Hwait. apply Hwait; try done.
        destruct owned; [by destruct (Hne eq_refl)|]. apply conn_empty; [done|apply Hsl|done].
    + rewrite Hst in *. apply (IH owned capa pre rest); try done; [lia|by eapply wait_case_mono|by eapply done_case_mono].
  - destruct Hcase as (Hbs & Hz & Hst & Hlt). destruct bs as [|b bs]; [done|]. rewrite Z.leb_refl.
    replace (Z.to_nat (zlen pre)) with (length pre) by (unfold zlen; lia). rewrite firstn_all.
    rewrite Hst, <- app_assoc, app_assoc in HT. rewrite Hst, app_assoc in Hwait, Hdone.
    apply (parse_step_request _ owned capa pre (b :: bs) rest); try done.
    + rewrite zlen_app. lia.
    + intros o' c' h' w2 Hrd' Hsl' Hc' Ho2 Hs2 Hin'. rewrite <- Hs2 in *.
      apply (IH o' c' _ rest); try done; [by destruct pre|lia| |].
      * apply (wait_case_mono _ w); [by apply (only_read_trans w w')|done].
      * apply (done_case_mono _ w); [by apply (only_read_trans w w')|done].
    + by eapply done_case_mono.
Qed.

(** One step of a connection that is not sending. *)
Lemma step_request (got rest : list Z) (h : mog_http) (w : world) Q :
  conn_ready got h -> quiet (w_sock w) ->
  got ++ stream (w_sock w) ++ rest = request_bytes q ++ suf ->
  (offset h = zlen got -> exists b, request_bytes q = got ++ b /\ b <> []) ->
  wait_case (got ++ stream (w_sock w)) w Q -> done_case (got ++ stream (w_sock w)) w Q ->
  wp step_ h w Q.
Proof.
  intros Hconn Hq HT Hin Hwait Hdone. unfold http_queue_step.
  assert (request_bytes q <> []) as Hq0.
  { unfold request_bytes, method_bytes. destruct (q_method q); cbn; try done. by destruct (q_path q). }
  assert (wbuf h = WNull /\ forward h = None) as [Hw Hfw].
  { destruct Hconn as [Hr _ _|c Hr _ _ _|c Hr _ _ _]; pose proof (rd_outer _ _ Hr) as Ho; unfold outer in Ho; split; congruence. }
  do 2 wp_step. wp_step. wp_step. rewrite Hw, Hfw.
  destruct Hconn as [Hr Hrb ->|capa Hr Hrb Hne Hc|capa Hr Hrb Hne Hc]; rewrite Hrb;
    pose proof (rd_off _ _ Hr) as Ho; rewrite Ho; cbn [negb orb andb].
  - do 4 (wp_step; wp_step; [done|]).
    apply (reread_request _ false MOG_RBUF_BASE_SIZE [] rest); try done; [lia|].
    by exists (request_bytes q).
  - pose proof (zlen_nonneg got).
    do 4 (wp_step; wp_step; [by rewrite ?Z.leb_le, ?Z.ltb_lt; cbn; lia|]).
    rewrite Z.ltb_irrefl. apply (reread_request _ true capa got rest); try done; [by eexists|cbn; lia|by apply Hin].
  - assert (0 < zlen got) by (destruct got; [done|]; autorewrite with zlen; pose proof (zlen_nonneg got); lia).
    change (zlen []) with 0 in *.
    do 4 (wp_step; wp_step; [by rewrite ?Z.leb_le, ?Z.ltb_lt; cbn; lia|]).
    cbn [rcapa rdata]. destruct (Z.ltb_spec 0 (zlen got)); [|lia].
    change got with ([] ++ got). apply (parse_step_request _ true capa [] got rest); try done; [by eexists|].
    intros o' c' h' w' Hr' Hsl' Hc' Ho' Hs' Hin'. cbn [app] in *. rewrite <- Hs' in *.
    apply (reread_request _ o' c' got rest); try done; [cbn; lia|by eapply wait_case_mono|by eapply done_case_mono].
Qed.

(** ** Connections that are woken up when bytes arrive *)

Fixpoint http_drive (arrivals : list (list rd)) : M mog_next :=
  match arrivals with
  | [] => mret MOG_NEXT_WAIT_RD
  | s :: arrivals' =>
      put_world (fun w => set_sock (w_sock w ++ s) w);;
      nx ← step_;
      if decide (nx = MOG_NEXT_WAIT_RD) then http_drive arrivals' else mret nx
  end.

(** However a request is cut into packets, its handler is called once, with
    the whole request and a part of what follows it. *)
Lemma drive_request (arrivals : list (list rd)) : forall got h w Q,
  conn_ready got h -> (offset h = zlen got -> exists b, request_bytes q = got ++ b /\ b <> []) ->
  w_sock w = [] -> quiet (concat arrivals) ->
  got ++ stream (concat arrivals) = request_bytes q ++ suf -> arrivals <> [] ->
  (forall owned capa suf1 later h' w', parsed_request suf1 h' -> slot owned capa h' -> only_read w w' ->
     zlen (request_bytes q ++ suf1) <= capa <= MOG_RBUF_MAX_SIZE ->
     later `suffix_of` arrivals -> suf = suf1 ++ stream (w_sock w' ++ concat later) ->
     wp (done_ owned (request_bytes q ++ suf1)) h' w' (fun nx h2 w2 => nx <> MOG_NEXT_WAIT_RD /\ Q nx h2 w2)) ->
  wp (http_drive arrivals) h w Q.
Proof.
  induction arrivals as [|s arrivals IH]; intros got h w Q Hconn Hin Hs0 Hq HT Hne Hdone; [done|].
  cbn [http_drive concat] in *. do 2 wp_step. rewrite Hs0. cbn [app].
  apply Forall_app in Hq as [Hq1 Hq2]. rewrite stream_app in HT.
  set (w0 := set_sock s w). assert (only_read w w0) as Hw0 by (exists (w_err w), s; by destruct w).
  wp_step. apply (step_request got (stream (concat arrivals))); try done.
  - (* still waiting *)
    intros h' w' Hc Ho Hsk Hrd [b [Hb Hb0]]. rewrite decide_True by done.
    apply (IH (got ++ stream s)); try done.
    + intros _. by exists b.
    + by rewrite <- app_assoc.
    + intros ->. cbn in HT. rewrite app_nil_r in HT. cbn in Hb. rewrite Hb, <- app_assoc in HT.
      apply (f_equal length) in HT. rewrite !length_app in HT. destruct b; [done|cbn in HT; lia].
    + intros. apply (Hdone owned capa suf1 later); try done; [|by apply suffix_cons_r].
      by apply (only_read_trans w w' _); [apply (only_read_trans w w0)|].
  - (* complete *)
    intros owned capa suf1 h' w' Hpq Hsl Heq Hq' Hrd Hz.
    eapply wp_mono; [apply (Hdone owned capa suf1 arrivals); try done|].
    + by exists [s].
    + rewrite stream_app. cbn in Heq. rewrite app_assoc, Heq, <- !app_assoc in HT.
      by apply app_inv_head in HT.
    + intros nx h2 w2 [Hnx HQ]. rewrite decide_False by done. by wp_step.
Qed.
End Queue.
