(* ===== verification/HttpServe.v ===== *)
(** Serving requests: from the bytes of a request, in whatever pieces they
    arrive, to the answer and to the state of the docroot. *)
From S2P Require Import Prelude Fmt Ragel ValidPath Base64 Http.
From S2P Require Import ChunkParser ChunkInv TryWrite HttpResp World HttpParser HttpParserInv.
From S2P Require Import HttpRequest HttpResume HttpGet HttpPut HttpPutInv HttpQueue HttpQueueInv.
From stdpp Require Import base list numbers gmap.
From Stdlib Require Import ZArith Lia.

#[local] Open Scope Z_scope.

(** ** Keeping pipelined bytes *)

(** The connection once the bytes [suf1] behind the request are put aside. *)
Definition deferred (owned : bool) (capa : Z) (suf1 : list Z) (h : mog_http) : mog_http :=
  set_offset 0 (set_h_rbuf
    (match suf1 with
     | [] => None
     | _ => Some (Rbuf (if owned then capa else zlen suf1) suf1)
     end) h).

Lemma defer_spec (owned : bool) (capa : Z) (R suf1 : list Z) (h : mog_http) (w : world) Q :
  offset h = zlen R -> slot owned capa h -> zlen (R ++ suf1) <= capa <= MOG_RBUF_MAX_SIZE ->
  skip_rbuf_defer h = false -> Q tt (deferred owned capa suf1 h) w ->
  wp (http_defer_rbuf owned (R ++ suf1)) h w Q.
Proof.
  intros Ho Hsl Hz Hsk HQ. unfold http_defer_rbuf. do 2 wp_step. rewrite Hsk, Ho.
  rewrite zlen_app in *. pose proof (zlen_nonneg R). pose proof (zlen_nonneg suf1).
  unfold MOG_RBUF_MAX_SIZE, UINT16_MAX in *.
  replace (zlen R + zlen suf1 - zlen R) with (zlen suf1) by lia. rewrite wrap_u64_id by lia.
  wp_step. wp_step; [by apply Z.leb_le|]. wp_step. wp_step; [apply Z.leb_le; lia|].
  destruct (Z.eqb_spec (zlen suf1) 0) as [E|E].
  - assert (suf1 = []) as -> by (destruct suf1; [done|]; autorewrite with zlen in E; pose proof (zlen_nonneg suf1); lia).
    do 3 wp_step. exact HQ.
  - assert (slice (zlen R) (zlen suf1) (R ++ suf1) = suf1) as ->.
    { replace (R ++ suf1) with (R ++ suf1 ++ []) by by rewrite app_nil_r. by apply slice_app_mid. }
    destruct suf1 as [|x suf1]; [done|]. destruct owned.
    + destruct Hsl as [d ->]. wp_step. wp_step. wp_step; [done|]. do 2 wp_step. exact HQ.
    + destruct Hsl as [-> _]. unfold mog_rbuf_new. destruct (Z.ltb_spec 0 (zlen (x :: suf1))); [|lia].
      wp_step. wp_step. exists (Rbuf (zlen (x :: suf1)) (x :: suf1)), h, w. split; [done|]. do 2 wp_step. exact HQ.
Qed.

Lemma deferred_ready (owned : bool) (capa : Z) (R suf1 : list Z) (h : mog_http) :
  zlen (R ++ suf1) <= capa <= MOG_RBUF_MAX_SIZE -> conn_ready suf1 (mog_http_reset (deferred owned capa suf1 h)).
Proof.
  intros Hz. rewrite zlen_app in Hz. pose proof (zlen_nonneg R).
  destruct suf1 as [|x suf1]; [by apply conn_empty; [apply reading_reset|..]|].
  eapply conn_pipelined; [apply reading_reset|done|done|]. destruct owned; lia.
Qed.

(** ** Answers without a body *)

(** After the answer the connection is closed, or it is ready for the bytes
    behind the request, at once or when the answer [wb] is flushed. *)
Definition answered (suf1 : list Z) (wb : wbuf_ptr) (nx : mog_next) (h : mog_http) : Prop :=
  nx = MOG_NEXT_CLOSE \/
  (nx = MOG_NEXT_WAIT_WR /\ wbuf h = wb /\ wb <> WError /\ wbuf_ok wb /\ forward h = None /\
   offset h = 0 /\ conn_ready suf1 (mog_http_reset h)) \/
  (nx = MOG_NEXT_ACTIVE /\ wb = WNull /\ conn_ready suf1 h).

(** What the client has and will get of a response. *)
Definition responded (date status : list Z) (w w' : world) (wb : wbuf_ptr) : Prop :=
  exists acc keep, sent (w_chan w') = sent (w_chan w) ++ acc /\
    (wb <> WError -> acc ++ pending wb = resp_bytes date status keep) /\
    (exists rest, acc ++ rest = resp_bytes date status keep).

Section Serve.
Variables date modified : list Z.
Variable md5 : list Z -> list Z.
Variable pid : Z.
Variable httpget : bool.
Variable tls : list Z.

#[local] Abbreviation client := (http_process_client date modified md5 pid httpget).
#[local] Abbreviation done_ := (http_request_done date modified md5 pid httpget).

(** A handler that only answers. *)
Lemma done_answered (owned : bool) (capa : Z) (R suf1 : list Z) (h : mog_http) (w : world)
    (P : wbuf_ptr -> world -> Prop) :
  offset h = zlen R -> slot owned capa h -> zlen (R ++ suf1) <= capa <= MOG_RBUF_MAX_SIZE ->
  skip_rbuf_defer h = false -> forward h = None ->
  wp (client (R ++ suf1)) h w (fun _ h' w' => exists wb keep, h' = set_wbuf wb (set_persistent keep h) /\
     wbuf_ok wb /\ P wb w') ->
  wp (done_ owned (R ++ suf1)) h w (fun nx h' w' =>
    nx <> MOG_NEXT_WAIT_RD /\ exists wb, answered suf1 wb nx h' /\ P wb w').
Proof.
  intros Ho Hsl Hz Hsk Hfw Hcl. unfold http_request_done. wp_step.
  eapply wp_mono; [exact Hcl|]. intros _ h' w' (wb & keep & -> & Hok & HP). do 2 wp_step.
  cbn [wbuf set_wbuf set_persistent forward persistent]. rewrite Hfw.
  assert (slot owned capa (set_wbuf wb (set_persistent keep h))) as Hsl' by (by destruct owned).
  destruct wb as [| |off d].
  - destruct keep; cbn [negb].
    + wp_step. apply (defer_spec owned capa); [done..|]. do 3 wp_step.
      split; [done|]. exists WNull. split; [|done]. right; right. split_and!; [done|done|].
      by apply (deferred_ready _ _ R).
    + wp_step. split; [done|]. exists WNull. split; [by left|done].
  - wp_step. split; [done|]. exists WError. split; [by left|done].
  - wp_step. apply (defer_spec owned capa); [done..|]. wp_step.
    split; [done|]. exists (WBuf off d). split; [|done]. right; left. split_and!; try done.
    by apply (deferred_ready _ _ R).
Qed.

(** A response as the last action of a handler. *)
Lemma resp_answers (status : list Z) (h : mog_http) (w0 w : world) (P : world -> Prop) :
  zlen status <= 3583 -> wbuf h = WNull -> w_chan w = w_chan w0 -> (forall c, P (set_chan c w)) ->
  wp (mog_http_resp date status true) h w (fun _ h' w' => exists wb keep,
    h' = set_wbuf wb (set_persistent keep h) /\ wbuf_ok wb /\ responded date status w0 w' wb /\ P w').
Proof.
  intros Hs Hw Hc HP. apply wp_resp_full; [done|done|]. intros wb c acc Hsent Hok Hall Hpre.
  exists wb, (true && persistent h). split; [done|]. split; [done|]. split; [|done].
  exists acc, (true && persistent h). cbn [w_chan set_chan]. rewrite <- Hc. done.
Qed.

(** ** Paths *)

(** The filter all the handlers apply to the path of a request. *)
Definition path_allowed (m : mog_http_method) (p : list Z) : bool :=
  (zlen p <? 38) && negb (PathTraversal.has_dotdot p) &&
  (if decide (m = MOG_HTTP_METHOD_PUT)
   then (0 <? zlen p) && negb (char_at p (zlen p - 1) =? 47) && ValidPutPath.put_prefixb 1 p
   else true).

Lemma http_path_spec (h : mog_http) (buf p : list Z) (err : option errno) :
  path_tip h < path_end h -> slice (path_tip h) (path_end h - path_tip h) buf = p ->
  exists err', mog_http_path h buf err
    = Ok (if path_allowed (http_method h) p then Some p else None, err').
Proof.
  intros Ht Hp. unfold mog_http_path, path_allowed. rewrite Hp.
  destruct (Z.ltb_spec (path_tip h) (path_end h)); [|lia]. cbn [assert_].
  rewrite PathTraversal.mog_valid_path_eq. cbn [res_bind].
  destruct ((zlen p <? 38) && _); cbn [negb andb]; [|by eexists].
  case_decide; [|by eexists]. rewrite ValidPutPath.mog_valid_put_path_eq. cbn [res_bind].
  destruct (_ && _ && _); by eexists.
Qed.

(** ** DELETE *)

(** What a DELETE does: [sys] are the replies of the system. *)
Definition delete_spec (sys : list reply) (p : name) (fs : gmap name (list Z))
  : list Z * gmap name (list Z) :=
  if negb (path_allowed MOG_HTTP_METHOD_DELETE p) || (zlen p =? 1) then (str "403 Forbidden", fs)
  else match sys, fs !! p with
  | Fail EPERM :: _, _ | Fail EISDIR :: _, _ | Fail EACCES :: _, _ => (str "403 Forbidden", fs)
  | Fail ENOENT :: _, _ => (str "404 Not Found", fs)
  | Fail _ :: _, _ => (str "500 Internal Server Error", fs)
  | _, Some _ => (str "204 No Content", delete p fs)
  | _, None => (str "404 Not Found", fs)
  end.

Lemma delete_answers (buf p : list Z) (h : mog_http) (w : world) :
  httpget = false -> wbuf h = WNull -> http_method h = MOG_HTTP_METHOD_DELETE ->
  path_tip h < path_end h -> slice (path_tip h) (path_end h - path_tip h) buf = p ->
  char_at p 0 = 47 ->
  wp (client buf) h w (fun _ h' w' => exists wb keep, h' = set_wbuf wb (set_persistent keep h) /\
    wbuf_ok wb /\ responded date (delete_spec (w_sys w) p (w_fs w)).1 w w' wb /\
    w_fs w' = (delete_spec (w_sys w) p (w_fs w)).2 /\ w_sock w' = w_sock w).
Proof.
  intros -> Hw Hm Ht Hp H0. unfold http_process_client, mog_http_delete. do 2 wp_step. rewrite Hm.
  do 4 wp_step. destruct (http_path_spec h buf p (w_err w) Ht Hp) as (err & E). rewrite E, Hm.
  wp_step. exists (if path_allowed MOG_HTTP_METHOD_DELETE p then Some p else None, err), h, w. split; [done|].
  cbn [fst snd]. do 2 wp_step. unfold delete_spec.
  destruct (path_allowed MOG_HTTP_METHOD_DELETE p); cbn [negb orb]; [|by apply resp_answers].
  wp_step. wp_step; [by apply Z.eqb_eq|]. destruct (zlen p =? 1); [by apply resp_answers|].
  wp_step. unfold mog_unlink, sys_reply. unfold wp at 1. rewrite !bind_eq. cbn [w_sys set_errno].
  destruct (w_sys w) as [|[n|e] rs] eqn:Es; rewrite bind_eq; cbn [get_world w_fs set_errno set_sys].
  - destruct (w_fs w !! p); eexists _, _, _; (split; [done|]); by apply resp_answers.
  - destruct (w_fs w !! p); eexists _, _, _; (split; [done|]); by apply resp_answers.
  - eexists _, _, _; split; [done|]. destruct e; by apply resp_answers.
Qed.
End Serve.

(** ** Properties *)

(** The request line holds the path: what the handlers assert. *)
Lemma parsed_path (q : request) (suf1 : list Z) (h : mog_http) :
  parsed_request q suf1 h -> path_tip h < path_end h /\ char_at (q_path q) 0 = 47.
Proof.
  intros H. destruct (pq_known _ _ _ H) as ((? & ?) & _ & Hlt & H47). split; [lia|].
  rewrite <- (pq_path _ _ _ H). unfold slice, char_at.
  destruct (Z.to_nat (path_end h - path_tip h)) as [|n] eqn:E; [lia|].
  unfold char_at in H47. change (Z.to_nat 0) with 0%nat.
  rewrite nth_firstn, nth_skipn, Nat.add_0_r. done.
Qed.


Definition delete_req : request := Request MOG_HTTP_METHOD_DELETE (str "/dev1/0/1.fid") true [].
Definition serve_world : world :=
  World {[ str "/dev1/0/1.fid" := [1; 2]; str "/dev1/0/2.fid" := [3] ]} [] [] [] [] (Chan [Ret 50; Ret 500] []) None true.


(** A response to a client whose socket takes nothing is buffered whole. *)
Lemma resp_full_socket (date status : list Z) (alive : bool) (h : mog_http) (w : world) :
  zlen status <= 3583 -> wbuf h = WNull -> replies (w_chan w) = [] ->
  exists h' w' d, mog_http_resp date status alive h w = Ok (tt, h', w') /\ wbuf h' = WBuf 0 d.
Proof.
  intros Hs Hw Hr. unfold mog_http_resp, mog_http_resp0, FSBUF_SIZE.
  destruct (Z.ltb_spec (zlen status * 2 + 1024) 8192); [|lia]. cbn [assert_].
  replace (wbuf (if alive && persistent h then h else set_persistent false h)) with WNull
    by (destruct (alive && persistent h); cbn; done). cbn [assert_].
  unfold mog_trywritev. destruct (Z.eqb_spec (fold_right (fun v acc => zlen v + acc) 0
    [resp_bytes date status (alive && persistent h)]) 0) as [E|_].
  - exfalso. cbn [fold_right] in E. unfold resp_bytes in E. rewrite zlen_app in E.
    change (zlen (str "HTTP/1.1 ")) with 9 in E.
    match type of E with 9 + zlen ?l + 0 = 0 => pose proof (zlen_nonneg l) end. lia.
  - rewrite Hr. cbn [trywritev_loop fold_right]. rewrite Z.add_0_r.
    unfold wbuf_newv. cbn [concat]. rewrite app_nil_r, Z.leb_refl. cbn [res_bind]. by eexists _, _, _.
Qed.

(** A malformed request aborts the process when the socket of the client
    cannot take the answer: [http_queue_step] returns MOG_NEXT_CLOSE with the
    400 or 507 response in the write buffer, and [http_close] asserts that
    there is none.  A client gets there with pipelined requests whose answers
    it does not read. *)
Theorem bad_request_aborts (date modified : list Z) (md5 : list Z -> list Z) (pid : Z)
    (httpget : bool) (tls bs : list Z) (h h' : mog_http) (err : option errno) (w : world) :
  conn_ready [] h -> w_sock w = [RBytes bs] -> bs <> [] -> zlen bs <= MOG_RBUF_BASE_SIZE ->
  Forall is_char bs -> mog_http_parse (mog_http_reset_parser h) bs = Ok (MOG_PARSER_ERROR, h', err) ->
  replies (w_chan w) = [] ->
  mog_http_queue_step date modified md5 pid httpget tls h w = Crash AssertFailed.
Proof.
  intros Hc Hs Hne Hz Hch Hp Hr.
  assert (Reading [] h /\ h_rbuf h = None) as [Hrd Hrb].
  { destruct Hc as [? ? _|? ? ? [] _|? ? ? [] _]; done. }
  pose proof (rd_outer _ _ Hrd) as Hout. pose proof (rd_off _ _ Hrd) as Ho. change (zlen []) with 0 in Ho.
  assert (outer h' = outer (mog_http_reset_parser h)) as Hout' by (eapply parse_outer; [apply http_reset_ready|exact Hp]).
  assert (wbuf h' = WNull) as Hw' by (unfold outer in Hout'; cbn in Hout'; congruence).
  set (w1 := set_sock [] w).
  assert (http_queue_step date modified md5 pid httpget tls h w
    = err507or400 date h' (set_errno err w1)) as Hstep.
  { unfold http_queue_step. rewrite !bind_eq. cbn [get_http]. rewrite !bind_eq. cbn [get_world].
    replace (wbuf h) with WNull by (unfold outer in Hout; congruence).
    replace (forward h) with (@None mog_file) by (unfold outer in Hout; congruence).
    rewrite Hrb, Ho, Hs. cbn [sock_size negb orb andb]. rewrite !assert_bind by done.
    cbn [http_reread]. rewrite !bind_eq. cbn [get_http]. rewrite bind_eq, Ho.
    unfold sys_read. rewrite Hs, Z.sub_0_r. destruct (Z.leb_spec (zlen bs) MOG_RBUF_BASE_SIZE); [|lia].
    destruct bs as [|b bs]; [done|]. cbn [Z.to_nat take app Z.leb Z.compare].
    pose proof (parse_step_spec date modified md5 pid httpget
      (http_reread date modified md5 pid httpget tls (S (length (b :: bs) + 0))) false MOG_RBUF_BASE_SIZE
      [] (b :: bs) h w1 Hrd Hne Hz ltac:(done) Hch (conj Hrb eq_refl)) as Hps. cbv zeta in Hps.
    cbn [app] in Hps. rewrite Hp in Hps. exact Hps. }
  unfold mog_http_queue_step. rewrite bind_eq, Hstep. unfold err507or400, err400.
  rewrite bind_eq. cbn [get_world w_err set_errno].
  case_decide; rewrite bind_eq.
  - destruct (resp_full_socket date (str "507 Insufficient Storage") false h' (set_errno err w1))
      as (h2 & w2 & d & -> & Hwb); [done|done|done|]. cbn -[http_close].
    rewrite bind_eq, decide_True by done.
    change (http_close h2 w2) with (assertM (match wbuf h2 with WNull | WError => true | WBuf _ _ => false end) h2 w2).
    by rewrite Hwb.
  - destruct (resp_full_socket date (str "400 Bad Request") false h' (set_errno err w1))
      as (h2 & w2 & d & -> & Hwb); [done|done|done|]. cbn -[http_close].
    rewrite bind_eq, decide_True by done.
    change (http_close h2 w2) with (assertM (match wbuf h2 with WNull | WError => true | WBuf _ _ => false end) h2 w2).
    by rewrite Hwb.
Qed.

Lemma bad_request_aborts_witness :
  mog_http_queue_step [] [] (fun l => l) 1 false [] (mog_http_reset_parser http0)
    (World ∅ [RBytes (str "BAD" ++ CRLF)] [] [] [] (Chan [] []) None true) = Crash AssertFailed.
Proof.
  eapply (bad_request_aborts [] [] (fun l => l) 1 false [] (str "BAD" ++ CRLF) (mog_http_reset_parser http0));
    try (vm_compute; done).
  - by apply conn_empty; [apply reading_reset|..].
  - repeat constructor; vm_compute; discriminate.
Defined.
