(* ===== verification/FsckQueue.v ===== *)
(** The queues of MD5 requests for fsck (fsck_queue.c).

    Per device at most [max_active] clients read at the same time; the others
    wait in a queue and are put back on the active queue of the worker threads
    when a reader is done, where they try again.  Each function runs under the
    lock of its queue, so the threads interleave whole calls. *)
From S2P Require Import Prelude.
From stdpp Require Import base list numbers gmap relations.
From Stdlib Require Import ZArith Lia.

#[local] Open Scope Z_scope.

(** Clients are named by their descriptors. *)
Record fsck_queue := FsckQueue {
  qhead : list Z;
  active : Z;
  max_active : Z
}.

Abbreviation fsck_queues := (gmap Z fsck_queue).

(** [fsck_queue_for]: [dev] is the device, [None] when [fstat] failed; a device
    seen for the first time gets a queue. *)
Definition fsck_queue_for (dev : option Z) (t : fsck_queues) : option (Z * fsck_queue * fsck_queues) :=
  match dev with
  | None => None
  | Some d =>
      match t !! d with
      | Some fq => Some (d, fq, t)
      | None => let fq := FsckQueue [] 0 1 in Some (d, fq, <[d := fq]> t)
      end
  end.

Definition mog_fsck_queue_ready (mgmt : Z) (dev : option Z) (t : fsck_queues) : bool * fsck_queues :=
  match fsck_queue_for dev t with
  | None => (true, t)
  | Some (d, fq, t) =>
      if active fq <? max_active fq
      then (true, <[d := FsckQueue (qhead fq) (wrap_u64 (active fq + 1)) (max_active fq)]> t)
      else (false, <[d := FsckQueue (qhead fq ++ [mgmt]) (active fq) (max_active fq)]> t)
  end.

(** The client that is pushed on the active queue, if any. *)
Definition mog_fsck_queue_next (dev : option Z) (t : fsck_queues) : option Z * fsck_queues :=
  match fsck_queue_for dev t with
  | None => (None, t)
  | Some (d, fq, t) =>
      let n := wrap_u64 (active fq - 1) in
      if n <? max_active fq then
        match qhead fq with
        | [] => (None, <[d := FsckQueue [] n (max_active fq)]> t)
        | m :: rest => (Some m, <[d := FsckQueue rest n (max_active fq)]> t)
        end
      else (None, <[d := FsckQueue (qhead fq) n (max_active fq)]> t)
  end.

(** ** Clients of one device *)

(** The queues, the clients that compute a digest, and the clients that were
    pushed on the active queue and have not run yet. *)
Record fsck_sys := FsckSys { tbl : fsck_queues; running : list Z; woken : list Z }.

(** Steps of the threads on device [d]: a new client or a woken one asks for
    its turn, or a running one finishes. *)
Inductive fsck_step (d : Z) : fsck_sys -> fsck_sys -> Prop :=
  | step_arrive c s b t :
      mog_fsck_queue_ready c (Some d) (tbl s) = (b, t) ->
      fsck_step d s (FsckSys t (if b then c :: running s else running s) (woken s))
  | step_retry c s b t w1 w2 :
      woken s = w1 ++ c :: w2 -> mog_fsck_queue_ready c (Some d) (tbl s) = (b, t) ->
      fsck_step d s (FsckSys t (if b then c :: running s else running s) (w1 ++ w2))
  | step_finish c s r1 r2 n t :
      running s = r1 ++ c :: r2 -> mog_fsck_queue_next (Some d) (tbl s) = (n, t) ->
      fsck_step d s (FsckSys t (r1 ++ r2) (match n with Some m => m :: woken s | None => woken s end)).

Definition fsck_init : fsck_sys := FsckSys ∅ [] [].

(** The counter is exact, the limit holds, and a client that waits will be
    woken: somebody is running, or was woken and has yet to run. *)
Definition fsck_inv (d : Z) (s : fsck_sys) : Prop :=
  match tbl s !! d with
  | None => running s = [] /\ woken s = []
  | Some fq =>
      max_active fq = 1 /\ active fq = zlen (running s) /\ active fq <= max_active fq /\
      (qhead fq <> [] -> running s <> [] \/ woken s <> [])
  end.

Lemma zlen_split {A} (l1 l2 : list A) (x : A) : zlen (l1 ++ x :: l2) = zlen (l1 ++ l2) + 1.
Proof. rewrite !zlen_app, zlen_cons. lia. Qed.

Lemma zlen_zero {A} (l : list A) : zlen l = 0 -> l = [].
Proof. destruct l; [done|]. rewrite zlen_cons. pose proof (zlen_nonneg l). lia. Qed.

(** Asking for a turn. *)
Lemma ready_inv (d c : Z) (t t' : fsck_queues) (run wok wok' : list Z) (b : bool) :
  fsck_inv d (FsckSys t run wok) -> mog_fsck_queue_ready c (Some d) t = (b, t') ->
  fsck_inv d (FsckSys t' (if b then c :: run else run) wok').
Proof.
  unfold fsck_inv, mog_fsck_queue_ready, fsck_queue_for. cbn [tbl running woken].
  destruct (t !! d) as [fq|] eqn:E; cbn.
  - intros (Hm & Ha & Hle & Hw). destruct (Z.ltb_spec (active fq) (max_active fq)); intros [= <- <-];
      rewrite lookup_insert_eq; cbn; rewrite ?Hm.
    + pose proof (zlen_nonneg run). rewrite wrap_u64_id by lia. rewrite zlen_cons.
      split_and!; [done|lia|lia|]. by left.
    + split_and!; [done|done|lia|]. intros _. left. intros ->. change (zlen []) with 0 in Ha. lia.
  - intros [-> _] [= <- <-]. rewrite lookup_insert_eq. cbn.
    change (wrap_u64 (0 + 1)) with 1. change (zlen [c]) with 1. split_and!; try done; lia.
Qed.

(** Finishing. *)
Lemma next_inv (d : Z) (t t' : fsck_queues) (r1 r2 wok : list Z) (c : Z) (n : option Z) :
  fsck_inv d (FsckSys t (r1 ++ c :: r2) wok) -> mog_fsck_queue_next (Some d) t = (n, t') ->
  fsck_inv d (FsckSys t' (r1 ++ r2) (match n with Some m => m :: wok | None => wok end)).
Proof.
  unfold fsck_inv, mog_fsck_queue_next, fsck_queue_for. cbn [tbl running woken].
  destruct (t !! d) as [fq|] eqn:E; cbn; [|intros [H _]; by destruct r1].
  intros (Hm & Ha & Hle & Hw). rewrite zlen_split in Ha. pose proof (zlen_nonneg (r1 ++ r2)).
  rewrite wrap_u64_id by lia. destruct (Z.ltb_spec (active fq - 1) (max_active fq)); [|lia].
  assert (zlen (r1 ++ r2) = 0) as Hz by lia.
  destruct (qhead fq) as [|m rest]; intros [= <- <-]; rewrite lookup_insert_eq; cbn;
    (split_and!; [lia|lia|lia|]); [done|by right].
Qed.

Lemma fsck_step_inv (d : Z) (s s' : fsck_sys) : fsck_inv d s -> fsck_step d s s' -> fsck_inv d s'.
Proof.
  intros Hi Hs. destruct Hs as [c s b t Hr|c s b t w1 w2 Hw Hr|c s r1 r2 n t Hrun Hn]; destruct s as [t0 run wok]; cbn in *.
  - by eapply ready_inv.
  - by eapply ready_inv.
  - subst run. by eapply next_inv.
Qed.


(** Two clients on device 5: the first computes, the second waits. *)
Definition fsck_two : fsck_sys := FsckSys {[ 5 := FsckQueue [8] 1 1 ]} [7] [].


(** The counter is not protected against a failing [fstat]: when it fails
    as a client asks for its turn, the client is let through uncounted, and
    when it then finishes the counter wraps around, so that every later client
    of the device waits and nobody is left to wake it. *)
Theorem fsck_fstat_wedges (d c1 c2 : Z) :
  let '(go1, t1) := mog_fsck_queue_ready c1 None ∅ in
  let '(n, t2) := mog_fsck_queue_next (Some d) t1 in
  let '(go2, t3) := mog_fsck_queue_ready c2 (Some d) t2 in
  go1 = true /\ n = None /\ go2 = false /\
  t3 !! d = Some (FsckQueue [c2] (2 ^ 64 - 1) 1).
Proof.
  unfold mog_fsck_queue_next, mog_fsck_queue_ready, fsck_queue_for. rewrite lookup_empty.
  cbn [active max_active qhead]. change (wrap_u64 (0 - 1)) with (2 ^ 64 - 1).
  change (2 ^ 64 - 1 <? 1) with false. cbv iota. rewrite !lookup_insert_eq.
  cbn [active max_active qhead]. change (2 ^ 64 - 1 <? 1) with false. cbv iota.
  by rewrite lookup_insert_eq.
Qed.
