(* ===== verification/MgmtFn.v ===== *)
(** Commands of the management protocol: mgmt_fn.c with [mog_mgmt_writev] of
    mgmt.c, and the digests of digest.c.

    The hash functions of the crypto library are arguments.  The NUL bytes that
    [get_path] and [mog_mgmt_fn_aio_threads] store in the read buffer fall on
    the end of the line, which is not read again: they are left out. *)
From S2P Require Import Prelude Fmt Ragel ValidPath Http ChunkParser TryWrite HttpResp.
From S2P Require Import World HttpGet FsckQueue.
From stdpp Require Import base list numbers gmap.
From Stdlib Require Import ZArith Lia.

#[local] Open Scope Z_scope.

(** ** [struct mog_mgmt] *)

Inductive mog_prio := MOG_PRIO_NONE | MOG_PRIO_FSCK.

(** [enum Gc_hash]; 0 is what [memset] leaves. *)
Inductive Gc_hash := GC_MD4 | GC_MD5 | GC_SHA1.

(** [mgmt->forward]: NULL, the mark MOG_IOSTAT, or a file. *)
Inductive mgmt_forward :=
  | FNull
  | FIostat
  | FFile (f : mog_file).

#[export] Instance mog_prio_eq_dec : EqDecision mog_prio.
Proof. solve_decision. Defined.
#[export] Instance Gc_hash_eq_dec : EqDecision Gc_hash.
Proof. solve_decision. Defined.

(** A read buffer of a management client, always of the base size: the bytes in
    it and [rsize], which is set only when bytes are put aside. *)
Record mrbuf := MRbuf { mr_mem : list Z; mr_rsize : Z }.

(** What the connection reaches through [mgmt->svc]: whether the listener is
    open ([mgmt_fd >= 0]), the number of threads that was asked for, whether
    [cmogstored_quit] was called, whether the client subscribed to device
    statistics, the fsck queues, and the clients pushed on the active queue. *)
Record mog_svc := MogSvc {
  s_accepting : bool;
  s_threads : option Z;
  s_quit : bool;
  s_subscribed : bool;
  s_fsck : fsck_queues;
  s_pushed : list Z
}.

Record mog_mgmt := MogMgmt {
  m_fd : Z;
  m_cs : Z;
  m_prio : mog_prio;
  m_forward : mgmt_forward;
  m_offset : Z;
  m_mark0 : Z;
  m_mark1 : Z;
  m_rbuf : option mrbuf;
  m_wbuf : wbuf_ptr;
  m_alg : Gc_hash;
  m_svc : mog_svc
}.

Definition set_m_cs (v : Z) (m : mog_mgmt) : mog_mgmt :=
  MogMgmt (m_fd m) v (m_prio m) (m_forward m) (m_offset m) (m_mark0 m) (m_mark1 m) (m_rbuf m) (m_wbuf m) (m_alg m) (m_svc m).
Definition set_m_prio (v : mog_prio) (m : mog_mgmt) : mog_mgmt :=
  MogMgmt (m_fd m) (m_cs m) v (m_forward m) (m_offset m) (m_mark0 m) (m_mark1 m) (m_rbuf m) (m_wbuf m) (m_alg m) (m_svc m).
Definition set_m_forward (v : mgmt_forward) (m : mog_mgmt) : mog_mgmt :=
  MogMgmt (m_fd m) (m_cs m) (m_prio m) v (m_offset m) (m_mark0 m) (m_mark1 m) (m_rbuf m) (m_wbuf m) (m_alg m) (m_svc m).
Definition set_m_offset (v : Z) (m : mog_mgmt) : mog_mgmt :=
  MogMgmt (m_fd m) (m_cs m) (m_prio m) (m_forward m) v (m_mark0 m) (m_mark1 m) (m_rbuf m) (m_wbuf m) (m_alg m) (m_svc m).
Definition set_m_mark0 (v : Z) (m : mog_mgmt) : mog_mgmt :=
  MogMgmt (m_fd m) (m_cs m) (m_prio m) (m_forward m) (m_offset m) v (m_mark1 m) (m_rbuf m) (m_wbuf m) (m_alg m) (m_svc m).
Definition set_m_mark1 (v : Z) (m : mog_mgmt) : mog_mgmt :=
  MogMgmt (m_fd m) (m_cs m) (m_prio m) (m_forward m) (m_offset m) (m_mark0 m) v (m_rbuf m) (m_wbuf m) (m_alg m) (m_svc m).
Definition set_m_rbuf (v : option mrbuf) (m : mog_mgmt) : mog_mgmt :=
  MogMgmt (m_fd m) (m_cs m) (m_prio m) (m_forward m) (m_offset m) (m_mark0 m) (m_mark1 m) v (m_wbuf m) (m_alg m) (m_svc m).
Definition set_m_wbuf (v : wbuf_ptr) (m : mog_mgmt) : mog_mgmt :=
  MogMgmt (m_fd m) (m_cs m) (m_prio m) (m_forward m) (m_offset m) (m_mark0 m) (m_mark1 m) (m_rbuf m) v (m_alg m) (m_svc m).
Definition set_m_alg (v : Gc_hash) (m : mog_mgmt) : mog_mgmt :=
  MogMgmt (m_fd m) (m_cs m) (m_prio m) (m_forward m) (m_offset m) (m_mark0 m) (m_mark1 m) (m_rbuf m) (m_wbuf m) v (m_svc m).
Definition set_m_svc (v : mog_svc) (m : mog_mgmt) : mog_mgmt :=
  MogMgmt (m_fd m) (m_cs m) (m_prio m) (m_forward m) (m_offset m) (m_mark0 m) (m_mark1 m) (m_rbuf m) (m_wbuf m) (m_alg m) v.

(** Handlers of management connections. *)
Abbreviation MM := (MS mog_mgmt).

(** ** Writing *)

(** [mog_mgmt_writev]. *)
Definition mog_mgmt_writev (iov : list (list Z)) : MM unit := fun m w =>
  assert! is_wnull (m_wbuf m);
  match mog_trywritev iov (w_chan w) with
  | Ok (wb, c) => Ok (tt, set_m_wbuf wb m, set_chan c w)
  | Crash r => Crash r
  end.

(** [snprintf] into a buffer of [capa] bytes whose result is used as the length
    of an [iovec]: it must not have been cut. *)
Definition snprintf_iov (capa : Z) (s : list Z) : MM (list Z) :=
  if zlen s <? capa then mret s else crash OutOfBounds.

(** ** Digests (digest.c) *)

Inductive mog_digest_next := MOG_DIGEST_CONTINUE | MOG_DIGEST_EOF | MOG_DIGEST_ERROR.

(** [mog_digest_init]. *)
Definition mog_digest_init (f : mog_file) : mog_file := set_digest_ctx (Some []) f.

(** [read] on the open file: every byte that was read was hashed, so the
    position is the number of hashed bytes.  [Ret n] answers with at most [n]
    bytes; without a reply the read is as long as it can be. *)
Definition file_read (f : mog_file) (len : Z) : MM (errno + list Z) := fun m w =>
  let rest := drop (length (default [] (digest_ctx f))) (contents f) in
  match w_sys w with
  | [] => Ok (inr (take (Z.to_nat len) rest), m, w)
  | Ret n :: rs => Ok (inr (take (Z.to_nat (Z.min n len)) rest), m, set_sys rs w)
  | Fail e :: rs => Ok (inl e, m, set_errno (Some e) (set_sys rs w))
  end.

(** [gc_hash_write]. *)
Definition hash_more (bs : list Z) (f : mog_file) : mog_file :=
  set_digest_ctx (Some (default [] (digest_ctx f) ++ bs)) f.

(** The loop of [mog_digest_read]; [i] is the number of reads that are left. *)
Fixpoint digest_loop (i : nat) (f : mog_file) : MM (mog_digest_next * mog_file) :=
  match i with
  | O => mret (MOG_DIGEST_CONTINUE, f)
  | S i' =>
      r ← file_read f FSBUF_SIZE;
      match r with
      | inr [] => mret (MOG_DIGEST_EOF, f)
      | inr bs => digest_loop i' (hash_more bs f)
      | inl EINTR => digest_loop i' f
      | inl _ => mret (MOG_DIGEST_ERROR, f)
      end
  end.

(** [i = 1024; while (--i > 0)]. *)
Definition mog_digest_read (f : mog_file) : MM (mog_digest_next * mog_file) := digest_loop 1023 f.

Definition hex : list Z := str "0123456789abcdef".

(** [mog_digest_hex]: [result] are the [hashlen] bytes of the digest, [len] the
    size of the buffer. *)
Definition mog_digest_hex (alg : Gc_hash) (result : list Z) (len : Z) : res (list Z) :=
  let hashlen := zlen result in
  assert! bool_decide (alg <> GC_MD5) || (hashlen =? 16);
  assert! hashlen * 2 <=? len;
  assert! negb (hashlen =? 0);
  Ok (concat (map (fun u => [char_at hex (Z.shiftr u 4); char_at hex (Z.land u 15)]) result)).

Section Fn.
(** The digest of the bytes that were hashed. *)
Variable hash : Gc_hash -> list Z -> list Z.

(** ** Commands (mgmt_fn.c) *)

(** The bytes between the marks. *)
Definition marked (buf : list Z) : MM (list Z) :=
  m ← get_http;
  if (m_mark0 m <=? m_mark1 m) && (m_mark1 m <=? zlen buf)
  then mret (slice (m_mark0 m) (m_mark1 m - m_mark0 m) buf)
  else crash OutOfBounds.

(** [get_path]: the path between the marks, or an error message. *)
Definition get_path (buf : list Z) : MM (option (list Z)) :=
  iov ← marked buf;
  ok ← lift_res (PathTraversal.mog_valid_path iov);
  if (ok : bool) then mret (Some iov)
  else mog_mgmt_writev [str "ERROR: uri invalid (contains ..)" ++ CRLF];; mret None.

Definition mog_mgmt_fn_digest (buf : list Z) : MM unit :=
  path ← get_path buf;
  match path with
  | None => mret tt
  | Some path =>
      f ← mog_file_open_read path;
      match f with
      | inr f =>
          put_http (set_m_forward (FFile (set_path (Some path) (mog_digest_init f))))
      | inl _ =>
          put_http (set_m_forward FNull);;
          m ← get_http;
          match m_alg m with
          | GC_MD5 => mog_mgmt_writev [path; str " MD5=-1" ++ CRLF]
          | GC_SHA1 => mog_mgmt_writev [path; str " SHA-1=-1" ++ CRLF]
          | GC_MD4 => crash Died
          end
      end
  end.

(** The file that is being digested; both callers dereference it. *)
Definition forward_file : MM mog_file :=
  m ← get_http;
  match m_forward m with FFile f => mret f | _ => crash OutOfBounds end.

Definition mog_mgmt_fn_digest_err : MM unit :=
  f ← forward_file;
  let offset := zlen (default [] (digest_ctx f)) in
  tail ← snprintf_iov 33 (str " at " ++ fmt_d offset ++ str " failed" ++ CRLF);
  mog_mgmt_writev [str "ERR read "; default [] (path f); tail].

Definition mog_mgmt_fn_digest_emit : MM unit :=
  f ← forward_file;
  m ← get_http;
  let result := hash (m_alg m) (default [] (digest_ctx f)) in
  match m_alg m with
  | GC_MD5 =>
      h ← lift_res (mog_digest_hex GC_MD5 result 32);
      mog_mgmt_writev [default [] (path f); str " MD5=" ++ h ++ CRLF]
  | GC_SHA1 =>
      h ← lift_res (mog_digest_hex GC_SHA1 result 40);
      mog_mgmt_writev [default [] (path f); str " SHA-1=" ++ h ++ CRLF]
  | GC_MD4 => crash Died
  end.

Definition mog_mgmt_fn_size (buf : list Z) : MM unit :=
  path ← get_path buf;
  match path with
  | None => mret tt
  | Some path =>
      w ← get_world;
      sb ← sys_stat (w_fs w !! path);
      match sb with
      | inr sb =>
          tmp ← snprintf_iov 23 (str " " ++ fmt_d (st_size sb) ++ CRLF);
          mog_mgmt_writev [path; tmp]
      | inl _ => mog_mgmt_writev [path; str " -1" ++ CRLF]
      end
  end.

Definition mog_mgmt_fn_blank : MM unit := mog_mgmt_writev [CRLF].

Definition mog_mgmt_fn_unknown (buf : list Z) : MM unit :=
  word ← marked buf;
  mog_mgmt_writev [str "ERROR: unknown command: "; word; CRLF].

Definition mog_mgmt_fn_watch_err : MM unit :=
  mog_mgmt_writev [str "ERR iostat unavailable" ++ CRLF].

(** [strtoull (nptr, &end, 10)] on digits: the value, ULLONG_MAX on overflow,
    and what is left. *)
Fixpoint strtoull (v : Z) (s : list Z) : Z * list Z :=
  match s with
  | c :: s' =>
      if rng 48 57 c then strtoull (v * 10 + (c - 48)) s'
      else (Z.min v (2 ^ 64 - 1), s)
  | [] => (Z.min v (2 ^ 64 - 1), [])
  end.

Definition mog_mgmt_fn_aio_threads (buf : list Z) : MM unit :=
  m ← get_http;
  let eor := char_at buf (m_mark1 m) in
  assertM ((eor =? 10) || (eor =? 13));;
  nptr ← marked buf;
  let '(nr, end_) := strtoull 0 nptr in
  assertM (match end_ with [] => true | _ => false end);;
  (if (0 <? nr) && (nr <=? 100)
   then put_http (fun m =>
          let s := m_svc m in
          set_m_svc (MogSvc (s_accepting s) (Some nr) (s_quit s) (s_subscribed s) (s_fsck s) (s_pushed s)) m)
   else mret tt);;
  mog_mgmt_writev [CRLF].
End Fn.
