(* ===== verification/MgmtParser.v ===== *)
(** The parser of the management protocol (mgmt_parser.c, generated from
    mgmt_parser.rl).  Unlike the HTTP parser its actions run the commands. *)
From S2P Require Import Prelude Fmt Ragel ValidPath Http ChunkParser TryWrite HttpResp.
From S2P Require Import World HttpGet FsckQueue MgmtFn.
From stdpp Require Import base list numbers gmap.
From Stdlib Require Import ZArith Lia.

#[local] Open Scope Z_scope.

Definition mgmt_parser_start : Z := 1.
Definition mgmt_parser_first_final : Z := 74.
Definition mgmt_parser_error : Z := 0.

(** ** Transitions *)

(** [case 1] to [case 7] (mgmt_parser.c, lines 81-218). *)
Definition cases_1 (cs c : Z) : option label :=
  match cs with
  | 1 => Some (if (c =? 9) || (c =? 32) then St 2
      else if c =? 10 then Tr 2
      else if c =? 13 then St 3
      else if c =? 77 then St 4
      else if c =? 83 then St 15
      else if c =? 115 then St 41
      else if c =? 119 then St 65
      else Tr 0)
  | 2 => Some (if (c =? 9) || (c =? 32) then St 2
      else if c =? 10 then Tr 2
      else if c =? 13 then St 3
      else Tr 0)
  | 74 => Some (Tr 0)
  | 3 => Some (if c =? 10 then Tr 2
      else Tr 0)
  | 4 => Some (if c =? 68 then St 5
      else Tr 0)
  | 5 => Some (if c =? 53 then Tr 9
      else Tr 0)
  | 6 => Some (if c =? 32 then St 7
      else Tr 0)
  | 7 => Some (if c =? 47 then Tr 11
      else Tr 0)
  | _ => None
  end.

(** [case 8] to [case 15] (mgmt_parser.c, lines 226-365). *)
Definition cases_2 (cs c : Z) : option label :=
  match cs with
  | 8 => Some (if c =? 10 then Tr 12
      else if c =? 13 then Tr 13
      else if c =? 32 then Tr 14
      else if c <? 65 then if rng 45 57 c then St 8
        else Tr 0
      else if 90 <? c then if rng 97 122 c then St 8
        else Tr 0
      else St 8)
  | 9 => Some (if c =? 10 then Tr 16
      else Tr 0)
  | 10 => Some (if c =? 95 then St 11
      else if c =? 102 then St 12
      else if c <? 65 then if rng 48 57 c then St 11
        else Tr 0
      else if 90 <? c then if rng 97 122 c then St 11
        else Tr 0
      else St 11)
  | 11 => Some (if c =? 10 then Tr 16
      else if c =? 13 then St 9
      else if c =? 95 then St 11
      else if c <? 65 then if rng 48 57 c then St 11
        else Tr 0
      else if 90 <? c then if rng 97 122 c then St 11
        else Tr 0
      else St 11)
  | 12 => Some (if c =? 10 then Tr 16
      else if c =? 13 then St 9
      else if c =? 95 then St 11
      else if c =? 115 then St 13
      else if c <? 65 then if rng 48 57 c then St 11
        else Tr 0
      else if 90 <? c then if rng 97 122 c then St 11
        else Tr 0
      else St 11)
  | 13 => Some (if c =? 10 then Tr 16
      else if c =? 13 then St 9
      else if c =? 95 then St 11
      else if c =? 99 then St 14
      else if c <? 65 then if rng 48 57 c then St 11
        else Tr 0
      else if 90 <? c then if rng 97 122 c then St 11
        else Tr 0
      else St 11)
  | 14 => Some (if c =? 10 then Tr 16
      else if c =? 13 then St 9
      else if c =? 95 then St 11
      else if c =? 107 then Tr 22
      else if c <? 65 then if rng 48 57 c then St 11
        else Tr 0
      else if 90 <? c then if rng 97 122 c then St 11
        else Tr 0
      else St 11)
  | 15 => Some (if (c =? 69) || (c =? 101) then St 16
      else if c =? 72 then St 38
      else Tr 0)
  | _ => None
  end.

(** [case 16] to [case 32] (mgmt_parser.c, lines 369-514). *)
Definition cases_3 (cs c : Z) : option label :=
  match cs with
  | 16 => Some (if (c =? 82) || (c =? 114) then St 17
      else Tr 0)
  | 17 => Some (if (c =? 86) || (c =? 118) then St 18
      else Tr 0)
  | 18 => Some (if (c =? 69) || (c =? 101) then St 19
      else Tr 0)
  | 19 => Some (if (c =? 82) || (c =? 114) then St 20
      else Tr 0)
  | 20 => Some (if c =? 32 then St 21
      else Tr 0)
  | 21 => Some (if (c =? 65) || (c =? 97) then St 22
      else Tr 0)
  | 22 => Some (if (c =? 73) || (c =? 105) then St 23
      else Tr 0)
  | 23 => Some (if (c =? 79) || (c =? 111) then St 24
      else Tr 0)
  | 24 => Some (if c =? 95 then St 25
      else Tr 0)
  | 25 => Some (if (c =? 84) || (c =? 116) then St 26
      else Tr 0)
  | 26 => Some (if (c =? 72) || (c =? 104) then St 27
      else Tr 0)
  | 27 => Some (if (c =? 82) || (c =? 114) then St 28
      else Tr 0)
  | 28 => Some (if (c =? 69) || (c =? 101) then St 29
      else Tr 0)
  | 29 => Some (if (c =? 65) || (c =? 97) then St 30
      else Tr 0)
  | 30 => Some (if (c =? 68) || (c =? 100) then St 31
      else Tr 0)
  | 31 => Some (if (c =? 83) || (c =? 115) then St 32
      else Tr 0)
  | 32 => Some (if c =? 32 then St 33
      else if c =? 61 then St 34
      else Tr 0)
  | _ => None
  end.

(** [case 33] to [case 49] (mgmt_parser.c, lines 518-656). *)
Definition cases_4 (cs c : Z) : option label :=
  match cs with
  | 33 => Some (if c =? 61 then St 34
      else Tr 0)
  | 34 => Some (if c =? 32 then St 35
      else if rng 48 57 c then Tr 44
      else Tr 0)
  | 35 => Some (if rng 48 57 c then Tr 44
      else Tr 0)
  | 36 => Some (if c =? 10 then Tr 45
      else if c =? 13 then Tr 46
      else if rng 48 57 c then St 36
      else Tr 0)
  | 37 => Some (if c =? 10 then Tr 48
      else Tr 0)
  | 38 => Some (if c =? 65 then St 39
      else Tr 0)
  | 39 => Some (if c =? 45 then St 40
      else Tr 0)
  | 40 => Some (if c =? 49 then Tr 51
      else Tr 0)
  | 41 => Some (if (c =? 69) || (c =? 101) then St 16
      else if c =? 104 then St 42
      else if c =? 105 then St 59
      else Tr 0)
  | 42 => Some (if c =? 117 then St 43
      else Tr 0)
  | 43 => Some (if c =? 116 then St 44
      else Tr 0)
  | 44 => Some (if c =? 100 then St 45
      else Tr 0)
  | 45 => Some (if c =? 111 then St 46
      else Tr 0)
  | 46 => Some (if c =? 119 then St 47
      else Tr 0)
  | 47 => Some (if c =? 110 then St 48
      else Tr 0)
  | 48 => Some (if c =? 10 then Tr 60
      else if c =? 13 then St 49
      else if c =? 32 then St 50
      else Tr 0)
  | 49 => Some (if c =? 10 then Tr 60
      else Tr 0)
  | _ => None
  end.

(** [case 50] to [case 67] (mgmt_parser.c, lines 660-806). *)
Definition cases_5 (cs c : Z) : option label :=
  match cs with
  | 50 => Some (if c =? 32 then St 50
      else if c =? 103 then St 51
      else Tr 0)
  | 51 => Some (if c =? 114 then St 52
      else Tr 0)
  | 52 => Some (if c =? 97 then St 53
      else Tr 0)
  | 53 => Some (if c =? 99 then St 54
      else Tr 0)
  | 54 => Some (if c =? 101 then St 55
      else Tr 0)
  | 55 => Some (if c =? 102 then St 56
      else Tr 0)
  | 56 => Some (if c =? 117 then St 57
      else Tr 0)
  | 57 => Some (if c =? 108 then St 58
      else Tr 0)
  | 58 => Some (if c =? 10 then Tr 60
      else if c =? 13 then St 49
      else Tr 0)
  | 59 => Some (if c =? 122 then St 60
      else Tr 0)
  | 60 => Some (if c =? 101 then St 61
      else Tr 0)
  | 61 => Some (if c =? 32 then St 62
      else Tr 0)
  | 62 => Some (if c =? 47 then Tr 74
      else Tr 0)
  | 63 => Some (if c =? 10 then Tr 75
      else if c =? 13 then Tr 76
      else if c <? 65 then if rng 45 57 c then St 63
        else Tr 0
      else if 90 <? c then if rng 97 122 c then St 63
        else Tr 0
      else St 63)
  | 64 => Some (if c =? 10 then Tr 78
      else Tr 0)
  | 65 => Some (if c =? 97 then St 66
      else Tr 0)
  | 66 => Some (if c =? 116 then St 67
      else Tr 0)
  | 67 => Some (if c =? 99 then St 68
      else Tr 0)
  | _ => None
  end.

(** [case 68] to [case 76] (mgmt_parser.c, lines 810-908). *)
Definition cases_6 (cs c : Z) : option label :=
  match cs with
  | 68 => Some (if c =? 104 then St 69
      else Tr 0)
  | 69 => Some (if c =? 10 then Tr 83
      else if c =? 13 then St 70
      else Tr 0)
  | 70 => Some (if c =? 10 then Tr 83
      else Tr 0)
  | 71 => Some (if (c =? 9) || (c =? 32) then St 71
      else if c =? 13 then St 0
      else Tr 85)
  | 72 => Some (if (c =? 9) || (c =? 13) || (c =? 32) then Tr 89
      else if c =? 10 then Tr 90
      else Tr 88)
  | 73 => Some (if c =? 10 then Tr 92
      else St 73)
  | 75 => Some (St 0)
  | 76 => Some (if (c =? 9) || (c =? 13) || (c =? 32) then Tr 89
      else if c =? 10 then Tr 90
      else Tr 88)
  | _ => None
  end.

Definition goto (cs c : Z) : option label :=
  match cases_1 cs c with Some l => Some l | None =>
  match cases_2 cs c with Some l => Some l | None =>
  match cases_3 cs c with Some l => Some l | None =>
  match cases_4 cs c with Some l => Some l | None =>
  match cases_5 cs c with Some l => Some l | None =>
  cases_6 cs c
  end end end end end.

(** ** Actions *)

(** The connection, the world the commands act on, and [really_done]. *)
Record mrun := MRun { r_mgmt : mog_mgmt; r_world : world; r_mdone : bool }.

Definition updm (f : mog_mgmt -> mog_mgmt) (s : mrun) : mrun :=
  MRun (f (r_mgmt s)) (r_world s) (r_mdone s).

(** Run a command, then [fbreak] in state [n]. *)
Definition command (n : Z) (fn : MM unit) (p : Z) (s : mrun) : jump mrun :=
  match fn (r_mgmt s) (r_world s) with
  | Ok (_, m, w) => GoOut n (p + 1) (MRun m w (r_mdone s))
  | Crash r => Stop r
  end.

(** [set_prio_fsck]. *)
Definition set_prio_fsck (m : mog_mgmt) : mog_mgmt :=
  if s_accepting (m_svc m) then set_m_prio MOG_PRIO_FSCK m else m.

(** [cmogstored_quit]. *)
Definition cmogstored_quit : MM unit := put_http (fun m =>
  let s := m_svc m in
  set_m_svc (MogSvc (s_accepting s) (s_threads s) true (s_subscribed s) (s_fsck s) (s_pushed s)) m).

Definition mark0 (n p : Z) (s : mrun) : jump mrun := GoSt n p (updm (set_m_mark0 p) s).
Definition mark1 (n p : Z) (s : mrun) : jump mrun := GoSt n p (updm (set_m_mark1 p) s).

(** The [tr] labels.  [have_iostat] is initialised to 1 and never changed. *)
Definition act (k : Z) (buf : list Z) (p : Z) (s : mrun) : jump mrun :=
  match k with
  | 0 => GoSt 71 (-1) s (* p = buf; fhold; fgoto invalid_line; *)
  | 2 => command 74 mog_mgmt_fn_blank p s
  (* digests *)
  | 9 => GoSt 6 p (updm (set_m_alg GC_MD5) s)
  | 51 => GoSt 6 p (updm (set_m_alg GC_SHA1) s)
  | 11 => mark0 8 p s
  | 13 => mark1 9 p s
  | 14 => mark1 10 p s
  | 22 => GoSt 11 p (updm set_prio_fsck s)
  | 12 => command 74 (mog_mgmt_fn_digest buf) p (updm (set_m_mark1 p) s)
  | 16 => command 74 (mog_mgmt_fn_digest buf) p s
  (* server aio_threads = N *)
  | 44 => mark0 36 p s
  | 46 => mark1 37 p s
  | 45 => command 74 (mog_mgmt_fn_aio_threads buf) p (updm (set_m_mark1 p) s)
  | 48 => command 74 (mog_mgmt_fn_aio_threads buf) p s
  (* shutdown *)
  | 60 => command 74 cmogstored_quit p s
  (* size *)
  | 74 => mark0 63 p s
  | 76 => mark1 64 p s
  | 75 => command 74 (mog_mgmt_fn_size buf) p (updm (set_m_mark1 p) s)
  | 78 => command 74 (mog_mgmt_fn_size buf) p s
  (* watch *)
  | 83 => command 74 (put_http (set_m_forward FIostat)) p s
  (* invalid_line *)
  | 85 => mark0 72 p s
  | 88 => mark1 72 p s
  | 89 => mark1 73 p s
  | 92 => command 75 (mog_mgmt_fn_unknown buf) p (MRun (r_mgmt s) (r_world s) true)
  | 90 => command 76 (mog_mgmt_fn_unknown buf) p
            (MRun (set_m_mark1 p (r_mgmt s)) (r_world s) true)
  | _ => Stop AssertFailed
  end.

Definition step (buf : list Z) (cs p : Z) (s : mrun) : jump mrun :=
  match goto cs (char_at buf p) with
  | Some (St n) => if n =? 0 then GoOut 0 p s else GoSt n p s
  | Some (Tr k) => act k buf p s
  | None => GoOut 1 p s
  end.

(** ** [mog_mgmt_reset_parser], [mog_mgmt_init], [mog_mgmt_parse] *)

Definition mog_mgmt_reset_parser (m : mog_mgmt) : mog_mgmt :=
  set_m_mark0 0 (set_m_mark1 0 (set_m_cs mgmt_parser_start m)).

Definition mog_mgmt_init (fd : Z) (svc : mog_svc) : mog_mgmt :=
  mog_mgmt_reset_parser (MogMgmt fd 0 MOG_PRIO_NONE FNull 0 0 0 None WNull GC_MD4 svc).

(** A line is scanned at most twice: as a command, and as an invalid line. *)
Definition mgmt_fuel (len : Z) : nat := Z.to_nat (2 * len + 3).

Definition mog_mgmt_parse (buf : list Z) : MM mog_parser_state := fun m w =>
  assert! is_wnull (m_wbuf m);
  assert! m_offset m <=? zlen buf;
  let* r := enter step (mgmt_fuel (zlen buf)) buf (m_cs m) (m_offset m) (MRun m w false) in
  let s := r_s r in
  let cs := if r_mdone s then mgmt_parser_first_final else r_cs r in
  let m := set_m_offset (r_p r) (set_m_cs cs (r_mgmt s)) in
  if cs =? mgmt_parser_error then Ok (MOG_PARSER_ERROR, m, r_world s)
  else
    assert! r_p r <=? zlen buf;
    assert! m_offset m <=? zlen buf;
    if cs =? mgmt_parser_first_final
    then Ok (MOG_PARSER_DONE, m, r_world s)
    else Ok (MOG_PARSER_CONTINUE, m, r_world s).
