(* ===== verification/Mgmt.v ===== *)
(** Management connections (mgmt.c): the state machine around the parser, the
    digests that run in steps, and the end of the connection. *)
From S2P Require Import Prelude Fmt Ragel ValidPath Http ChunkParser TryWrite HttpResp.
From S2P Require Import World HttpGet HttpPut FsckQueue MgmtFn MgmtParser.
From stdpp Require Import base list numbers gmap.
From Stdlib Require Import ZArith Lia.

#[local] Open Scope Z_scope.

Section Mgmt.
(** The hash functions, the device a file is on, and the bytes and [rsize]
    that earlier requests left in the buffer of the thread. *)
Variable hash : Gc_hash -> list Z -> list Z.
Variable st_dev : mog_file -> Z.
Variable tls : mrbuf.

(** ** The fsck queue of the file being digested *)

Definition upd_fsck (t : fsck_queues) (m : mog_mgmt) : mog_mgmt :=
  let s := m_svc m in
  set_m_svc (MogSvc (s_accepting s) (s_threads s) (s_quit s) (s_subscribed s) t (s_pushed s)) m.

(** [fstat] in [fsck_queue_for]; the file is open, so that EBADF, which the
    code asserts not to see, is not among its errors. *)
Definition fstat_dev : MM (option Z) :=
  f ← forward_file;
  e ← sys_reply;
  mret (match e with None => Some (st_dev f) | Some _ => None end).

Definition fsck_ready : MM bool :=
  d ← fstat_dev;
  m ← get_http;
  assertM (match d with None => true | Some _ => bool_decide (m_prio m = MOG_PRIO_FSCK) end);;
  let '(b, t) := mog_fsck_queue_ready (m_fd m) d (s_fsck (m_svc m)) in
  put_http (upd_fsck t);;
  mret b.

Definition fsck_next : MM unit :=
  d ← fstat_dev;
  m ← get_http;
  assertM (match d with None => true | Some _ => bool_decide (m_prio m = MOG_PRIO_FSCK) end);;
  let '(n, t) := mog_fsck_queue_next d (s_fsck (m_svc m)) in
  put_http (upd_fsck t);;
  match n with
  | None => mret tt
  | Some c => put_http (fun m =>
      let s := m_svc m in
      set_m_svc (MogSvc (s_accepting s) (s_threads s) (s_quit s) (s_subscribed s) (s_fsck s) (s_pushed s ++ [c])) m)
  end.

(** ** Digests *)

(** [do ... while (next == MOG_DIGEST_CONTINUE)]. *)
Fixpoint digest_all (fuel : nat) (f : mog_file) : MM (mog_digest_next * mog_file) :=
  match fuel with
  | O => crash OutOfFuel
  | S fuel' =>
      r ← mog_digest_read f;
      match r.1 with
      | MOG_DIGEST_CONTINUE => digest_all fuel' r.2
      | _ => mret r
      end
  end.

(** Every read of [mog_digest_read] takes a byte or a reply. *)
Definition digest_fuel (f : mog_file) (w : world) : nat := S (length (contents f) + length (w_sys w)).

Definition mgmt_digest_step : MM unit :=
  f ← forward_file;
  m ← get_http;
  w ← get_world;
  r ← (if decide (m_prio m = MOG_PRIO_FSCK) then digest_all (digest_fuel f w) f
       else mog_digest_read f);
  put_http (set_m_forward (FFile r.2));;
  assertM (is_wnull (m_wbuf m));;
  match r.1 with
  | MOG_DIGEST_CONTINUE => mret tt
  | MOG_DIGEST_EOF | MOG_DIGEST_ERROR =>
      (match r.1 with
       | MOG_DIGEST_EOF => mog_mgmt_fn_digest_emit hash
       | _ => mog_mgmt_fn_digest_err
       end);;
      (if decide (m_prio m = MOG_PRIO_FSCK) then fsck_next else mret tt);;
      put_http (fun m => set_m_forward FNull (set_m_prio MOG_PRIO_NONE m))
  end.

Definition mgmt_digest_in_progress : MM mog_next :=
  m ← get_http;
  assertM (match m_forward m with FFile _ => true | _ => false end);;
  go ← (if decide (m_prio m = MOG_PRIO_FSCK) then fsck_ready else mret true);
  if negb go then mret MOG_NEXT_IGNORE
  else
    mgmt_digest_step;;
    m ← get_http;
    mret (match m_wbuf m with
          | WError => MOG_NEXT_CLOSE
          | WBuf _ _ => MOG_NEXT_WAIT_WR
          | WNull => MOG_NEXT_ACTIVE
          end).

(** ** The connection *)

Definition mgmt_close : MM unit :=
  m ← get_http;
  assertM (match m_wbuf m with WNull | WError => true | WBuf _ _ => false end).

(** [mgmt_iostat_forever]: the client gets device statistics from now on. *)
Definition mgmt_iostat_forever : MM mog_next :=
  put_http (fun m =>
    let s := m_svc m in
    set_m_svc (MogSvc (s_accepting s) (s_threads s) (s_quit s) true (s_fsck s) (s_pushed s))
      (set_m_rbuf None m));;
  mret MOG_NEXT_IGNORE.

Definition mgmt_flush : MM mog_write_state := fun m w =>
  match mog_tryflush (m_wbuf m) (w_chan w) with
  | Ok (st, wb, c) => Ok (st, set_m_wbuf wb m, set_chan c w)
  | Crash r => Crash r
  end.

Definition mgmt_wbuf_in_progress : MM mog_next :=
  m ← get_http;
  assertM (match m_wbuf m with WError => false | _ => true end);;
  st ← mgmt_flush;
  match st with
  | MOG_WRSTATE_ERR => mret MOG_NEXT_CLOSE
  | MOG_WRSTATE_DONE =>
      m ← get_http;
      match m_forward m with
      | FIostat => mgmt_iostat_forever
      | _ => mret MOG_NEXT_ACTIVE
      end
  | MOG_WRSTATE_BUSY => mret MOG_NEXT_WAIT_WR
  end.

(** [mgmt_defer_rbuf (mgmt, rbuf, buf_len)]: [buf] are the [buf_len] bytes;
    [owned] says that [rbuf] is [mgmt->rbuf]. *)
Definition mgmt_defer_rbuf (owned : bool) (buf : list Z) : MM unit :=
  m ← get_http;
  let defer_bytes := wrap_u64 (zlen buf - m_offset m) in
  assertM (0 <=? m_offset m);;
  assertM (defer_bytes <=? MOG_RBUF_BASE_SIZE);;
  (if defer_bytes =? 0 then put_http (set_m_rbuf None)
   else
     let data := slice (m_offset m) defer_bytes buf in
     assertM (match m_rbuf m with Some _ => owned | None => true end);;
     put_http (set_m_rbuf (Some (MRbuf data defer_bytes))));;
  put_http (set_m_offset 0).

(** The label [parse]. *)
Definition mgmt_parse_step (reread : bool -> Z -> list Z -> MM mog_next)
    (owned : bool) (buf : list Z) : MM mog_next :=
  st ← mog_mgmt_parse buf;
  m ← get_http;
  match m_wbuf m with
  | WError => mret MOG_NEXT_CLOSE
  | _ =>
      match st with
      | MOG_PARSER_ERROR => mret MOG_NEXT_CLOSE
      | MOG_PARSER_CONTINUE =>
          assertM (is_wnull (m_wbuf m));;
          if m_offset m =? MOG_RBUF_BASE_SIZE then
            assertM (zlen buf =? MOG_RBUF_BASE_SIZE);; mret MOG_NEXT_CLOSE
          else reread owned (zlen buf) buf
      | MOG_PARSER_DONE =>
          match m_forward m with
          | FIostat => mgmt_iostat_forever
          | _ =>
              mgmt_defer_rbuf owned buf;;
              put_http mog_mgmt_reset_parser;;
              m ← get_http;
              mret (match m_wbuf m with WNull => MOG_NEXT_ACTIVE | _ => MOG_NEXT_WAIT_WR end)
          end
      end
  end.

(** The label [reread]: [mem] are the bytes of the buffer. *)
Fixpoint mgmt_reread (fuel : nat) (owned : bool) (buf_len : Z) (mem : list Z) : MM mog_next :=
  match fuel with
  | O => crash OutOfFuel
  | S fuel' =>
      m ← get_http;
      let off := m_offset m in
      r ← sys_read (MOG_RBUF_BASE_SIZE - off);
      match r with
      | inr [] => mret MOG_NEXT_CLOSE
      | inr bs => mgmt_parse_step (mgmt_reread fuel') owned (take (Z.to_nat off) mem ++ bs)
      | inl EAGAIN =>
          (match m_rbuf m with
           | None =>
               if 0 <? buf_len then put_http (set_m_rbuf (Some (MRbuf mem (mr_rsize tls)))) else mret tt
           | Some r => put_http (set_m_rbuf (Some (MRbuf mem (mr_rsize r))))
           end);;
          mret MOG_NEXT_WAIT_RD
      | inl EINTR => mgmt_reread fuel' owned buf_len mem
      | inl _ => mret MOG_NEXT_CLOSE
      end
  end.

Definition mgmt_queue_step : MM mog_next :=
  m ← get_http;
  w ← get_world;
  assertM (0 <=? m_fd m);;
  match m_wbuf m, m_forward m with
  | WBuf _ _, _ | WError, _ => mgmt_wbuf_in_progress
  | WNull, FFile _ | WNull, FIostat => mgmt_digest_in_progress
  | WNull, FNull =>
      let fuel := S (sock_size (w_sock w)) in
      assertM (0 <=? m_offset m);;
      assertM (m_offset m <? MOG_RBUF_BASE_SIZE);;
      match m_rbuf m with
      | Some r =>
          if m_offset m =? 0
          then mgmt_parse_step (mgmt_reread fuel) true (take (Z.to_nat (mr_rsize r)) (mr_mem r))
          else mgmt_reread fuel true 0 (mr_mem r)
      | None => mgmt_reread fuel false 0 (mr_mem tls)
      end
  end.

Definition mog_mgmt_queue_step : MM mog_next :=
  rv ← mgmt_queue_step;
  (if decide (rv = MOG_NEXT_CLOSE) then mgmt_close else mret tt);;
  mret rv.

(** What [mog_mgmt_quit_step] does with the connection. *)
Inductive mgmt_quit := MQuitWaitRd | MQuitClosed | MQuitActive | MQuitWaitWr.

Definition mog_mgmt_quit_step : MM mgmt_quit :=
  let ignore : MM mgmt_quit :=
    m ← get_http;
    assertM (bool_decide (m_prio m = MOG_PRIO_NONE));;
    mgmt_close;; mret MQuitClosed in
  rv ← mgmt_queue_step;
  match rv with
  | MOG_NEXT_WAIT_RD =>
      m ← get_http;
      match m_forward m, m_rbuf m with
      | FNull, None => ignore
      | _, _ => mret MQuitWaitRd
      end
  | MOG_NEXT_IGNORE => ignore
  | MOG_NEXT_CLOSE => mgmt_close;; mret MQuitClosed
  | MOG_NEXT_ACTIVE => mret MQuitActive
  | MOG_NEXT_WAIT_WR => mret MQuitWaitWr
  end.
End Mgmt.
