(* ===== verification/MgmtInv.v ===== *)
(** Safety of the management parser on arbitrary bytes, and the meaning of its
    commands. *)
From S2P Require Import Prelude Fmt Ragel ValidPath Http ChunkParser ChunkInv TryWrite HttpResp.
From S2P Require Import World HttpGet FsckQueue MgmtFn MgmtParser.
From stdpp Require Import base list numbers gmap.
From Stdlib Require Import ZArith Lia.

#[local] Open Scope Z_scope.

(** ** Commands return *)

Lemma wp_writev (iov : list (list Z)) (m : mog_mgmt) (w : world) (Q : unit -> mog_mgmt -> world -> Prop) :
  m_wbuf m = WNull ->
  (forall wb c acc, sent c = sent (w_chan w) ++ acc -> wbuf_ok wb ->
     (wb <> WError -> acc ++ pending wb = concat iov) ->
     Q tt (set_m_wbuf wb m) (set_chan c w)) ->
  wp (mog_mgmt_writev iov) m w Q.
Proof.
  intros Hw HQ. unfold wp, mog_mgmt_writev. rewrite Hw. cbn [is_wnull assert_].
  destruct (lossless iov (w_chan w)) as (wb & c & acc & -> & Hs & Hok & Hall & _).
  eexists _, _, _. split; [done|]. eauto.
Qed.

(** Sizes of files fit [off_t]. *)
Definition small_files (w : world) : Prop :=
  forall p c, w_fs w !! p = Some c -> zlen c <= OFF_MAX.

Lemma fmt_d_off (n : Z) : 0 <= n <= OFF_MAX -> zlen (fmt_d n) <= 19.
Proof.
  intros H. unfold fmt_d, fmt_u. destruct (Z.ltb_spec n 0); [lia|].
  assert (length (dec_digits 20 n) <= 19)%nat; [|unfold zlen; lia].
  apply dec_digits_le; [unfold OFF_MAX in H; cbn; lia..].
Qed.

(** The command [m'] answered with [reply], of which the client has got or will
    get every byte unless its connection broke; files and input are untouched. *)
Definition replied (m : mog_mgmt) (w : world) (reply : list Z) (m' : mog_mgmt) (w' : world) : Prop :=
  exists wb acc, m' = set_m_wbuf wb m /\ wbuf_ok wb /\ w_fs w' = w_fs w /\ w_sock w' = w_sock w /\
    sent (w_chan w') = sent (w_chan w) ++ acc /\ (wb <> WError -> acc ++ pending wb = reply).

Lemma wp_writev_replied (iov : list (list Z)) (m m0 : mog_mgmt) (w w0 : world) :
  m_wbuf m = WNull -> w_fs w = w_fs w0 -> w_sock w = w_sock w0 -> w_chan w = w_chan w0 -> m = m0 ->
  wp (mog_mgmt_writev iov) m w (fun _ m' w' => replied m0 w0 (concat iov) m' w').
Proof.
  intros Hw Hf Hs Hc <-. apply wp_writev; [done|]. intros wb c acc Hsent Hok Hall.
  exists wb, acc. cbn. rewrite <- Hc. done.
Qed.

(** The marks of the connection delimit [p] in [buf]. *)
Definition marks (buf : list Z) (m : mog_mgmt) (p : list Z) : Prop :=
  m_mark0 m <= m_mark1 m <= zlen buf /\ slice (m_mark0 m) (m_mark1 m - m_mark0 m) buf = p.

Lemma wp_marked (buf p : list Z) (m : mog_mgmt) (w : world) (Q : list Z -> mog_mgmt -> world -> Prop) :
  marks buf m p -> Q p m w -> wp (marked buf) m w Q.
Proof.
  intros [Hm Hp] HQ. unfold marked. wp_step. wp_step.
  replace ((m_mark0 m <=? m_mark1 m) && (m_mark1 m <=? zlen buf)) with true
    by (symmetry; rewrite andb_true_iff, !Z.leb_le; lia). wp_step. by rewrite Hp.
Qed.

Definition uri_ok (p : list Z) : bool := (zlen p <? 38) && negb (PathTraversal.has_dotdot p).
Definition uri_invalid : list Z := str "ERROR: uri invalid (contains ..)" ++ CRLF.

Lemma wp_get_path (buf p : list Z) (m : mog_mgmt) (w : world) (Q : option (list Z) -> mog_mgmt -> world -> Prop) :
  marks buf m p -> m_wbuf m = WNull -> (uri_ok p = true -> Q (Some p) m w) ->
  (uri_ok p = false -> forall m' w', replied m w uri_invalid m' w' -> Q None m' w') ->
  wp (get_path buf) m w Q.
Proof.
  intros Hm Hw Hok Hbad. unfold get_path. wp_step. apply (wp_marked _ p); [done|]. wp_step.
  exists (uri_ok p), m, w. rewrite PathTraversal.mog_valid_path_eq. split; [done|].
  destruct (uri_ok p); [wp_step; auto|]. wp_step.
  eapply wp_mono; [by apply (wp_writev_replied _ m m w w)|]. intros [] m' w' H. wp_step. apply Hbad; [done|].
  cbn [concat] in H. rewrite app_nil_r in H. exact H.
Qed.

(** *** size *)

Definition size_reply (p : list Z) (w : world) : list Z :=
  if uri_ok p then
    p ++ match w_sys w, w_fs w !! p with
         | Fail _ :: _, _ | _, None => str " -1" ++ CRLF
         | _, Some c => str " " ++ fmt_d (zlen c) ++ CRLF
         end
  else uri_invalid.

Lemma fn_size_spec (buf p : list Z) (m : mog_mgmt) (w : world) :
  marks buf m p -> m_wbuf m = WNull -> small_files w ->
  wp (mog_mgmt_fn_size buf) m w (fun _ m' w' => replied m w (size_reply p w) m' w').
Proof.
  intros Hm Hw Hsm. unfold mog_mgmt_fn_size, size_reply. wp_step. apply (wp_get_path _ p); [done|done|..].
  - intros Hu. rewrite Hu. do 3 wp_step.
    assert (forall w1 tail, w_fs w1 = w_fs w -> w_sock w1 = w_sock w -> w_chan w1 = w_chan w ->
      wp (mog_mgmt_writev [p; tail]) m w1 (fun _ m' w' => replied m w (p ++ tail) m' w')) as Hwr.
    { intros w1 tail H1 H2 H3. eapply wp_mono; [by apply (wp_writev_replied _ m m w1 w)|].
      intros [] m' w' H. cbn [concat] in H. by rewrite app_nil_r in H. }
    assert (forall c w1, w_fs w !! p = Some c -> w_fs w1 = w_fs w -> w_sock w1 = w_sock w -> w_chan w1 = w_chan w ->
      wp (tmp ← snprintf_iov 23 (str " " ++ fmt_d (zlen c) ++ CRLF); mog_mgmt_writev [p; tmp]) m w1
        (fun _ m' w' => replied m w (p ++ str " " ++ fmt_d (zlen c) ++ CRLF) m' w')) as Hsz.
    { intros c w1 Hc H1 H2 H3. wp_step. unfold snprintf_iov.
      destruct (Z.ltb_spec (zlen (str " " ++ fmt_d (zlen c) ++ CRLF)) 23) as [|Hge].
      - wp_step. by apply Hwr.
      - exfalso. rewrite !zlen_app in Hge. pose proof (fmt_d_off (zlen c)). specialize (Hsm _ _ Hc).
        pose proof (zlen_nonneg c). change (zlen (str " ")) with 1 in Hge. change (zlen CRLF) with 2 in Hge. lia. }
    unfold sys_stat. unfold wp at 1.
    destruct (w_sys w) as [|[n|e] rs] eqn:Es; destruct (w_fs w !! p) as [c|] eqn:Ec;
      eexists _, _, _; (split; [reflexivity|]); cbn [st_size]; by (apply Hsz || apply Hwr).
  - intros Hu m' w' H. rewrite Hu. by wp_step.
Qed.

(** *** Digests *)

(** Opening a file for reading changes nothing but [errno], the flag O_NOATIME
    and the replies that are left. *)
Definition same_but_sys (w w' : world) : Prop :=
  w_fs w' = w_fs w /\ w_sock w' = w_sock w /\ w_chan w' = w_chan w /\ w_sys w' `suffix_of` w_sys w.

Lemma same_refl (w : world) : same_but_sys w w.
Proof. by split_and!. Qed.

Lemma same_trans (w1 w2 w3 : world) : same_but_sys w1 w2 -> same_but_sys w2 w3 -> same_but_sys w1 w3.
Proof. intros (? & ? & ? & ?) (? & ? & ? & ?). split_and!; try congruence. by etrans. Qed.

(** The replies of a call are consumed one by one. *)
Lemma wp_sys_reply_tail {S} (h : S) (w : world) (Q : option errno -> S -> world -> Prop) :
  (forall e w', same_but_sys w w' -> w_sys w' = tail (w_sys w) ->
     (forall x, e = Some x -> exists rs, w_sys w = Fail x :: rs) -> Q e h w') -> wp sys_reply h w Q.
Proof.
  intros HQ. unfold wp, sys_reply. destruct (w_sys w) as [|[n|e] rs] eqn:E; eexists _, _, _;
    (split; [reflexivity|]); apply HQ; try done; try (by rewrite E); try apply same_refl;
    try (split_and!; [done..|cbn; rewrite E; by apply suffix_cons_r]).
  intros x [= ->]. eauto.
Qed.

(** The file is missing or the next call fails. *)
Definition open_fails (p : name) (w : world) : Prop :=
  w_fs w !! p = None \/ exists e rs, w_sys w = Fail e :: rs.

Lemma wp_open_read {S} (p : name) (h : S) (w : world) (Q : errno + list Z -> S -> world -> Prop) :
  (forall e w', same_but_sys w w' -> open_fails p w -> Q (inl e) h w') ->
  (forall c w', same_but_sys w w' -> w_fs w !! p = Some c -> Q (inr c) h w') ->
  wp (open_read p) h w Q.
Proof.
  intros He Hc. unfold open_read. wp_step. apply wp_sys_reply_tail. intros e w1 (H1 & H2 & H3 & H4) _ Hf. do 2 wp_step.
  rewrite H1. destruct e as [e|].
  { wp_step. apply He; [done|]. right. destruct (Hf e eq_refl). eauto. }
  destruct (w_fs w !! p) as [c|] eqn:E; [wp_step; by apply Hc|].
  do 3 wp_step. apply He; [done|by left].
Qed.

Lemma wp_mog_open_read {S} (p : name) (h : S) (w : world) (Q : errno + list Z -> S -> world -> Prop) :
  (forall e w', same_but_sys w w' -> open_fails p w -> Q (inl e) h w') ->
  (forall c w', same_but_sys w w' -> w_fs w !! p = Some c -> Q (inr c) h w') ->
  wp (mog_open_read p) h w Q.
Proof.
  intros He Hc. unfold mog_open_read. wp_step. apply wp_open_read; [|intros c w1 Hs1 Hc1; do 3 wp_step; by apply Hc].
  intros e w1 Hs1 Hf. do 2 wp_step. destruct (bool_decide (e <> ENOENT) && w_noatime w1); [|wp_step; by apply He].
  do 2 wp_step. assert (same_but_sys w (set_noatime false w1)) as Hs by done.
  apply wp_open_read; intros x w2 Hs2 Hx; [apply He|apply Hc]; try done; try (by eapply same_trans).
  by rewrite <- (proj1 Hs).
Qed.

Lemma wp_file_open_read {S} (p : name) (h : S) (w : world) (Q : errno + mog_file -> S -> world -> Prop) :
  (forall e w', same_but_sys w w' -> open_fails p w -> Q (inl e) h w') ->
  (forall c w', same_but_sys w w' -> w_fs w !! p = Some c -> Q (inr (MogFile (-1) 0 None None None c)) h w') ->
  wp (mog_file_open_read p) h w Q.
Proof.
  intros He Hok. unfold mog_file_open_read. wp_step.
  apply wp_mog_open_read; [|intros c w1 Hs1 Hc1; do 3 wp_step; by apply Hok].
  intros e w1 Hs1 Hf. wp_step.
  assert (wp (n ← sys_value; if mog_open_expire_retry e n then mog_open_read p else mret (inl e)) h w1
    (fun a h' w' => wp (match a with inl e => mret (inl e) | inr c => mret (inr (MogFile (-1) 0 None None None c)) end) h' w' Q))
    as Hretry.
  { wp_step. set (w2 := match w_sys w1 with Ret _ :: rs => set_sys rs w1 | _ => w1 end).
    exists (match w_sys w1 with Ret n :: _ => n | _ => 0 end), h, w2.
    split; [unfold sys_value, w2; by destruct (w_sys w1) as [|[]]|].
    assert (same_but_sys w w2) as Hs2.
    { eapply same_trans; [exact Hs1|]. unfold w2. destruct (w_sys w1) as [|[n|] rs] eqn:E; try apply same_refl.
      split_and!; [done..|]. cbn. rewrite E. by apply suffix_cons_r. }
    destruct (mog_open_expire_retry e _); [|do 2 wp_step; by apply He].
    apply wp_mog_open_read; intros x w3 Hs3 Hx; wp_step; [apply He|apply Hok]; try done; try (by eapply same_trans).
    by rewrite <- (proj1 Hs2). }
  destruct e; try exact Hretry; do 2 wp_step; by apply He.
Qed.

Definition alg_name (a : Gc_hash) : list Z :=
  match a with GC_MD5 => str "MD5" | GC_SHA1 => str "SHA-1" | GC_MD4 => [] end.

(** What the digest command leaves: the file to digest, or an answer. *)
Inductive digest_started (p : list Z) (m : mog_mgmt) (w : world) (m' : mog_mgmt) (w' : world) : Prop :=
  | ds_invalid : uri_ok p = false -> replied m w uri_invalid m' w' -> digest_started p m w m' w'
  | ds_open_failed : uri_ok p = true -> open_fails p w ->
      replied (set_m_forward FNull m) w (p ++ str " " ++ alg_name (m_alg m) ++ str "=-1" ++ CRLF) m' w' -> digest_started p m w m' w'
  | ds_file c : uri_ok p = true -> w_fs w !! p = Some c ->
      m' = set_m_forward (FFile (MogFile (-1) 0 (Some p) None (Some []) c)) m -> same_but_sys w w' ->
      digest_started p m w m' w'.

Lemma fn_digest_spec (buf p : list Z) (m : mog_mgmt) (w : world) :
  marks buf m p -> m_wbuf m = WNull -> m_alg m <> GC_MD4 ->
  wp (mog_mgmt_fn_digest buf) m w (fun _ m' w' => digest_started p m w m' w').
Proof.
  intros Hm Hw Ha. unfold mog_mgmt_fn_digest. wp_step. apply (wp_get_path _ p); [done|done|..].
  - intros Hu. wp_step. apply wp_file_open_read.
    + intros e w1 (H1 & H2 & H3 & _) Hfail. do 4 wp_step. set (m1 := set_m_forward FNull m).
      assert (forall t, wp (mog_mgmt_writev [p; t]) m1 w1 (fun _ m' w' => replied m1 w (p ++ t) m' w')) as Hwr.
      { intros t. eapply wp_mono; [by apply (wp_writev_replied _ m1 m1 w1 w)|].
        intros [] m' w' H. cbn [concat] in H. by rewrite app_nil_r in H. }
      change (m_alg m1) with (m_alg m). destruct (m_alg m) eqn:E; [done|..]; (eapply wp_mono; [apply Hwr|]); intros [] m' w' H;
        apply ds_open_failed; try done; rewrite ?E; done.
    + intros c w1 Hs Hc. wp_step. by eapply ds_file.
  - intros Hu m' w' H. wp_step. by apply ds_invalid.
Qed.

(** *** The other commands *)

Lemma fn_blank_spec (m : mog_mgmt) (w : world) :
  m_wbuf m = WNull -> wp mog_mgmt_fn_blank m w (fun _ m' w' => replied m w CRLF m' w').
Proof.
  intros Hw. eapply wp_mono; [by apply (wp_writev_replied [CRLF] m m w w)|]. by intros [] m' w' H.
Qed.

Lemma fn_unknown_spec (buf p : list Z) (m : mog_mgmt) (w : world) :
  marks buf m p -> m_wbuf m = WNull ->
  wp (mog_mgmt_fn_unknown buf) m w
    (fun _ m' w' => replied m w (str "ERROR: unknown command: " ++ p ++ CRLF) m' w').
Proof.
  intros Hm Hw. unfold mog_mgmt_fn_unknown. wp_step. apply (wp_marked _ p); [done|].
  eapply wp_mono; [by apply (wp_writev_replied _ m m w w)|]. intros [] m' w' H.
  cbn [concat] in H. by rewrite app_nil_r in H.
Qed.

Lemma strtoull_digits (v : Z) (ds : list Z) :
  forallb (rng 48 57) ds = true ->
  strtoull v ds = (Z.min (fold_left (fun v c => v * 10 + (c - 48)) ds v) (2 ^ 64 - 1), []).
Proof.
  revert v. induction ds as [|c ds IH]; intros v H; [done|]. apply andb_true_iff in H as [Hc Hds].
  cbn [strtoull fold_left]. rewrite Hc. by apply IH.
Qed.

(** [mog_thrpool_set_n_threads] for 1 to 100 threads. *)
Definition want_threads (n : Z) (m : mog_mgmt) : mog_mgmt :=
  let s := m_svc m in
  if (0 <? n) && (n <=? 100)
  then set_m_svc (MogSvc (s_accepting s) (Some n) (s_quit s) (s_subscribed s) (s_fsck s) (s_pushed s)) m
  else m.

Lemma fn_aio_threads_spec (buf ds : list Z) (m : mog_mgmt) (w : world) :
  marks buf m ds -> forallb (rng 48 57) ds = true -> m_wbuf m = WNull ->
  (char_at buf (m_mark1 m) = 10 \/ char_at buf (m_mark1 m) = 13) ->
  wp (mog_mgmt_fn_aio_threads buf) m w
    (fun _ m' w' => replied (want_threads (Z.min (dec_value ds) (2 ^ 64 - 1)) m) w CRLF m' w').
Proof.
  intros Hm Hds Hw He. unfold mog_mgmt_fn_aio_threads. do 2 wp_step. wp_step.
  wp_step; [by destruct He as [-> | ->]|]. wp_step. apply (wp_marked _ ds); [done|].
  rewrite strtoull_digits by done. fold (dec_value ds). set (n := Z.min _ _). wp_step. wp_step; [done|].
  wp_step. unfold want_threads. destruct ((0 <? n) && (n <=? 100)); wp_step;
    (eapply wp_mono; [eapply (wp_writev_replied [CRLF]); reflexivity || done|]); by intros [] m' w' H.
Qed.

(** ** The parser *)

(** States in which the marks and the algorithm do not matter. *)
Definition plain_st (n : Z) : bool :=
  rng 1 5 n || rng 15 35 n || rng 38 62 n || rng 65 70 n.

Definition ok_mst (cs c n : Z) : bool :=
  ((cs =? 71) && (n =? 0)) || ((cs <=? 70) && plain_st n) || ((cs =? 6) && (n =? 7)) ||
  ((cs =? 8) && (n =? 8)) || (rng 9 14 cs && rng 9 14 n) || ((cs =? 36) && (n =? 36) && rng 48 57 c) ||
  ((cs =? 63) && (n =? 63)) || ((cs =? 71) && (n =? 71)) || ((cs =? 73) && (n =? 73)).

Definition ok_mtr (cs c k : Z) : bool :=
  ((cs <=? 70) && ((k =? 0) || (k =? 2) || (k =? 9) || (k =? 51) || (k =? 60) || (k =? 74) || (k =? 83))) ||
  ((cs =? 7) && (k =? 11)) || ((cs =? 8) && rng 12 14 k) || ((cs =? 14) && (k =? 22)) ||
  (rng 9 14 cs && (k =? 16)) || (rng 34 35 cs && (k =? 44) && rng 48 57 c) ||
  ((cs =? 36) && (((k =? 45) && (c =? 10)) || ((k =? 46) && (c =? 13)))) || ((cs =? 37) && (k =? 48)) ||
  ((cs =? 63) && rng 75 76 k) || ((cs =? 64) && (k =? 78)) || ((cs =? 71) && (k =? 85)) ||
  ((cs =? 72) && rng 88 90 k) || ((cs =? 73) && (k =? 92)).

Definition ok_mgoto (cs c : Z) : bool :=
  match goto cs c with
  | Some (St n) => ok_mst cs c n
  | Some (Tr k) => ok_mtr cs c k
  | None => false
  end.

Lemma mgoto_ok (cs c : Z) : 1 <= cs <= 73 -> is_char c -> ok_mgoto cs c = true.
Proof.
  intros Hcs Hc. apply (check_table_sound (zrange 1 73) ok_mgoto); [vm_compute; reflexivity| |done].
  apply zrange_spec. lia.
Qed.

Definition digits_at (buf : list Z) (a b : Z) : Prop :=
  forall i, a <= i < b -> rng 48 57 (char_at buf i) = true.

(** What the parser has remembered in state [cs] at [p]. *)
Record mnotes (buf : list Z) (cs p : Z) (m : mog_mgmt) : Prop := {
  mn_cs : 1 <= cs <= 73;
  mn_p : 0 <= p <= zlen buf;
  mn_wbuf : m_wbuf m = WNull;
  mn_alg : 6 <= cs <= 14 -> m_alg m <> GC_MD4;
  mn_mark0 : cs = 8 \/ cs = 36 \/ cs = 63 \/ cs = 72 -> 0 <= m_mark0 m < p;
  mn_mark1 : 9 <= cs <= 14 \/ cs = 37 \/ cs = 64 \/ cs = 73 -> 0 <= m_mark0 m <= m_mark1 m /\ m_mark1 m < p;
  mn_digits : cs = 36 -> digits_at buf (m_mark0 m) p;
  mn_number : cs = 37 -> digits_at buf (m_mark0 m) (m_mark1 m) /\ char_at buf (m_mark1 m) = 13
}.

(** Whether the service accepts clients stays the same, and once it does not the
    priority is not lowered any more. *)
Definition keeps (m m' : mog_mgmt) : Prop :=
  s_accepting (m_svc m') = s_accepting (m_svc m) /\
  (s_accepting (m_svc m) = false -> m_prio m = MOG_PRIO_NONE -> m_prio m' = MOG_PRIO_NONE).

Lemma keeps_trans (m1 m2 m3 : mog_mgmt) : keeps m1 m2 -> keeps m2 m3 -> keeps m1 m3.
Proof. intros [Ha Hp] [Ha' Hp']. split; [congruence|]. intros H1 H2. apply Hp'; [congruence|auto]. Qed.

(** What scanning leaves alone. *)
Definition mframe (m m' : mog_mgmt) : Prop :=
  m_fd m' = m_fd m /\ m_rbuf m' = m_rbuf m /\ m_forward m' = m_forward m /\
  s_fsck (m_svc m') = s_fsck (m_svc m) /\ keeps m m'.

Record minv (m0 : mog_mgmt) (w0 : world) (buf : list Z) (cs p : Z) (s : mrun) : Prop := {
  mi_notes : mnotes buf cs p (r_mgmt s);
  mi_frame : mframe m0 (r_mgmt s);
  mi_world : r_world s = w0;
  mi_done : r_mdone s = false
}.

(** A file that waits to be digested. *)
Definition to_digest (w : world) (m : mog_mgmt) (f : mog_file) : Prop :=
  m_wbuf m = WNull /\ m_alg m <> GC_MD4 /\
  exists p c, f = MogFile (-1) 0 (Some p) None (Some []) c /\ uri_ok p = true /\ w_fs w !! p = Some c.

(** A command has run. *)
Record commanded (m : mog_mgmt) (w : world) (m' : mog_mgmt) (w' : world) : Prop := {
  cd_fd : m_fd m' = m_fd m;
  cd_rbuf : m_rbuf m' = m_rbuf m;
  cd_wbuf : wbuf_ok (m_wbuf m');
  cd_fs : w_fs w' = w_fs w;
  cd_sock : w_sock w' = w_sock w;
  cd_sent : exists acc, sent (w_chan w') = sent (w_chan w) ++ acc;
  cd_fsck : s_fsck (m_svc m') = s_fsck (m_svc m);
  cd_keeps : keeps m m';
  cd_forward : m_forward m' = m_forward m \/ m_forward m' = FNull \/ (m_forward m' = FIostat /\ m_wbuf m' = WNull) \/
               exists f, m_forward m' = FFile f /\ to_digest w m' f
}.

Lemma replied_commanded (m0 m : mog_mgmt) (w : world) (reply : list Z) (m' : mog_mgmt) (w' : world) :
  mframe m0 m -> replied m w reply m' w' -> commanded m0 w m' w'.
Proof.
  intros (H1 & H2 & H3 & H4 & H5) (wb & acc & -> & Hok & Hfs & Hsock & Hsent & _).
  split; cbn; eauto.
Qed.

Lemma digest_commanded (m0 m : mog_mgmt) (w : world) (p : list Z) (m' : mog_mgmt) (w' : world) :
  mframe m0 m -> m_wbuf m = WNull -> m_alg m <> GC_MD4 -> digest_started p m w m' w' -> commanded m0 w m' w'.
Proof.
  intros Hf Hw Ha [Hu H|Hu _ H|c Hu Hc -> (Hs1 & Hs2 & Hs3 & _)]; [by eapply replied_commanded|..].
  { destruct Hf as (H1 & H2 & H3 & H4 & H5), H as (wb & acc & -> & Hok & Hfs & Hsock & Hsent & _). split; cbn; eauto. }
  destruct Hf as (H1 & H2 & H3 & H4 & H5). split; cbn; try done.
  - by rewrite Hw.
  - exists []. by rewrite app_nil_r, Hs3.
  - do 3 right. eexists. split; [done|]. split_and!; [done|done|]. by exists p, c.
Qed.

Inductive mpost (m0 : mog_mgmt) (w0 : world) (buf : list Z) (n p : Z) (s : mrun) : Prop :=
  | mpost_error : n = 0 -> 0 <= p <= zlen buf -> m_wbuf (r_mgmt s) = WNull -> r_mdone s = false ->
      mframe m0 (r_mgmt s) -> r_world s = w0 -> mpost m0 w0 buf n p s
  | mpost_resume : p = zlen buf -> minv m0 w0 buf n p s -> mpost m0 w0 buf n p s
  | mpost_done : 0 < p <= zlen buf -> n = 74 \/ r_mdone s = true ->
      commanded m0 w0 (r_mgmt s) (r_world s) -> mpost m0 w0 buf n p s.

Definition mmeasure (buf : list Z) (cs p : Z) : Z :=
  if 71 <=? cs then zlen buf - p else (zlen buf + 1) + (zlen buf - p).

Ltac cases_lia H :=
  unfold ok_mst, ok_mtr, plain_st in H;
  rewrite ?orb_true_iff, ?andb_true_iff, ?orb_true_iff, ?andb_true_iff, ?orb_true_iff, ?andb_true_iff,
    ?Z.eqb_eq, ?Z.leb_le, ?rng_true in H.

Lemma digits_snoc (buf : list Z) (a p : Z) :
  digits_at buf a p -> rng 48 57 (char_at buf p) = true -> digits_at buf a (p + 1).
Proof.
  intros H Hp i Hi. destruct (decide (i = p)) as [->|]; [done|]. apply H. lia.
Qed.

Lemma digits_slice (buf : list Z) (a b : Z) :
  0 <= a <= b -> b <= zlen buf -> digits_at buf a b -> forallb (rng 48 57) (slice a (b - a) buf) = true.
Proof.
  intros Ha Hb Hd. apply forallb_forall. intros c Hc. apply list_elem_of_In, list_elem_of_lookup in Hc as [i Hi].
  unfold slice in Hi. apply lookup_take_Some in Hi as [Hi Hlt]. rewrite lookup_drop in Hi.
  assert (c = char_at buf (a + Z.of_nat i)) as ->.
  { unfold char_at. symmetry. apply nth_lookup_Some with (d := 0). rewrite <- Hi. f_equal. lia. }
  apply Hd. lia.
Qed.

Lemma mnotes_st (buf : list Z) (cs p n : Z) (m : mog_mgmt) :
  mnotes buf cs p m -> p < zlen buf -> ok_mst cs (char_at buf p) n = true -> n <> 0 -> mnotes buf n (p + 1) m.
Proof.
  intros [Hcs Hp Hw Ha H0 H1 Hd Hn] Hlt Hok Hn0. cases_lia Hok.
  split; [lia|lia|done| |lia|lia| |lia].
  - intros Hn'. apply Ha. lia.
  - intros ->. assert (cs = 36 /\ 48 <= char_at buf p <= 57) as [-> Hc] by lia.
    apply digits_snoc; [auto|]. rewrite rng_true. lia.
Qed.

Section Step.
Context (m0 : mog_mgmt) (w0 : world) (buf : list Z).
Hypothesis chars : Forall is_char buf.
Hypothesis small : small_files w0.

(** The machine goes on in a good state, or leaves as it should. *)
Definition good_jump (mu : Z) (j : jump mrun) : Prop :=
  match j with
  | GoSt n p s =>
      if p + 1 =? zlen buf then mpost m0 w0 buf n (p + 1) s
      else minv m0 w0 buf n (p + 1) s /\ mmeasure buf n (p + 1) < mu
  | GoOut n p s => mpost m0 w0 buf n p s
  | Stop _ => False
  end.

Lemma good_go (mu n p : Z) (s : mrun) :
  minv m0 w0 buf n (p + 1) s -> mmeasure buf n (p + 1) < mu -> good_jump mu (GoSt n p s).
Proof.
  intros Hi Hm. unfold good_jump. destruct (Z.eqb_spec (p + 1) (zlen buf)) as [He|]; [|done]. by apply mpost_resume.
Qed.

Lemma good_command (mu n p : Z) (fn : MM unit) (s : mrun) :
  wp fn (r_mgmt s) w0 (fun _ m' w' => commanded m0 w0 m' w') -> r_world s = w0 -> 0 <= p < zlen buf ->
  n = 74 \/ r_mdone s = true -> good_jump mu (command n fn p s).
Proof.
  intros ([] & m' & w' & He & Hc) Hw Hp Hn. unfold command. rewrite Hw, He. cbn. apply mpost_done; [lia|done|done].
Qed.

Lemma marks_slice (m : mog_mgmt) :
  m_mark0 m <= m_mark1 m <= zlen buf -> marks buf m (slice (m_mark0 m) (m_mark1 m - m_mark0 m) buf).
Proof. done. Qed.

(** The conditions under which each command runs. *)
Lemma size_commanded (m : mog_mgmt) :
  mframe m0 m -> m_wbuf m = WNull -> m_mark0 m <= m_mark1 m <= zlen buf ->
  wp (mog_mgmt_fn_size buf) m w0 (fun _ m' w' => commanded m0 w0 m' w').
Proof.
  intros Hf Hw Hm. eapply wp_mono; [eapply fn_size_spec; [by apply marks_slice|done|done]|].
  intros [] m' w' H. by eapply replied_commanded.
Qed.

Lemma fn_digest_commanded (m : mog_mgmt) :
  mframe m0 m -> m_wbuf m = WNull -> m_mark0 m <= m_mark1 m <= zlen buf -> m_alg m <> GC_MD4 ->
  wp (mog_mgmt_fn_digest buf) m w0 (fun _ m' w' => commanded m0 w0 m' w').
Proof.
  intros Hf Hw Hm Ha. eapply wp_mono; [eapply fn_digest_spec; [by apply marks_slice|done|done]|].
  intros [] m' w' H. by eapply digest_commanded.
Qed.

Lemma unknown_commanded (m : mog_mgmt) :
  mframe m0 m -> m_wbuf m = WNull -> m_mark0 m <= m_mark1 m <= zlen buf ->
  wp (mog_mgmt_fn_unknown buf) m w0 (fun _ m' w' => commanded m0 w0 m' w').
Proof.
  intros Hf Hw Hm. eapply wp_mono; [eapply fn_unknown_spec; [by apply marks_slice|done]|].
  intros [] m' w' H. by eapply replied_commanded.
Qed.

Lemma threads_commanded (m : mog_mgmt) :
  mframe m0 m -> m_wbuf m = WNull -> 0 <= m_mark0 m <= m_mark1 m -> m_mark1 m < zlen buf ->
  digits_at buf (m_mark0 m) (m_mark1 m) -> (char_at buf (m_mark1 m) = 10 \/ char_at buf (m_mark1 m) = 13) ->
  wp (mog_mgmt_fn_aio_threads buf) m w0 (fun _ m' w' => commanded m0 w0 m' w').
Proof.
  intros Hf Hw Hm Hl Hd He.
  eapply wp_mono; [eapply fn_aio_threads_spec; [apply marks_slice; lia|apply digits_slice; (done || lia)|done|done]|].
  intros [] m' w' H. eapply replied_commanded; [|exact H]. unfold want_threads. by destruct (_ && _).
Qed.

Lemma mmeasure_next (cs n p : Z) :
  (71 <= cs -> 71 <= n) -> mmeasure buf n (p + 1) < mmeasure buf cs p.
Proof.
  intros H. unfold mmeasure. pose proof (zlen_nonneg buf).
  destruct (Z.leb_spec 71 cs), (Z.leb_spec 71 n); lia.
Qed.

(** Marks and other notes that are taken on the way. *)
Lemma good_note (cs n p : Z) (f : mog_mgmt -> mog_mgmt) (s : mrun) :
  minv m0 w0 buf cs p s -> (71 <= cs -> 71 <= n) -> mframe (r_mgmt s) (f (r_mgmt s)) ->
  mnotes buf n (p + 1) (f (r_mgmt s)) -> good_jump (mmeasure buf cs p) (GoSt n p (updm f s)).
Proof.
  intros [Hn Hf Hw Hd] Hcs Hfr Hn'. apply good_go; [|by apply mmeasure_next]. split; cbn; [done| |done|done].
  destruct Hf as (? & ? & ? & ? & Hk), Hfr as (? & ? & ? & ? & Hk'). split_and!; try congruence. by eapply keeps_trans.
Qed.

Lemma frame_refl (m : mog_mgmt) : mframe m m.
Proof. by split_and!. Qed.

Lemma frame_prio (m : mog_mgmt) : mframe m (set_prio_fsck m).
Proof.
  unfold set_prio_fsck. destruct (s_accepting (m_svc m)) eqn:E; [|apply frame_refl].
  split_and!; try done. split; [done|]. congruence.
Qed.

(** Actions that keep scanning. *)
Lemma act_note (cs p k : Z) (s : mrun) :
  minv m0 w0 buf cs p s -> p < zlen buf -> ok_mtr cs (char_at buf p) k = true ->
  In k [9; 51; 11; 13; 14; 22; 44; 46; 74; 76; 85; 88; 89] -> good_jump (mmeasure buf cs p) (act k buf p s).
Proof.
  intros Hi Hlt Hok Hk. pose proof (mi_notes _ _ _ _ _ _ Hi) as [Hcs Hp Hw Ha H0 H1 Hd Hn]. cases_lia Hok.
  cbn [In] in Hk. repeat destruct Hk as [<-|Hk]; try done; cbn [act]; unfold mark0, mark1;
    (apply good_note; [done|lia|by (apply frame_prio || exact (frame_refl (r_mgmt s)))|]);
    (split; cbn [m_wbuf m_alg m_mark0 m_mark1 set_m_alg set_m_mark0 set_m_mark1];
       try (lia || done || (intros; apply Ha; lia))).
  all: unfold set_prio_fsck; try (destruct (s_accepting _); cbn; (done || lia || (intros; apply Ha; lia))).
  - intros _ i Hi'. rewrite rng_true. replace i with p by lia. lia.
  - intros _. assert (cs = 36) by lia. split; [auto|lia].
Qed.

(** Actions that run a command. *)
Lemma act_command (cs p k : Z) (s : mrun) :
  minv m0 w0 buf cs p s -> p < zlen buf -> ok_mtr cs (char_at buf p) k = true ->
  In k [2; 12; 16; 45; 48; 60; 75; 78; 83; 92; 90] -> good_jump (mmeasure buf cs p) (act k buf p s).
Proof.
  intros [[Hcs Hp Hw Ha H0 H1 Hd Hn] Hf Hwd Hdn] Hlt Hok Hk. cases_lia Hok.
  cbn [In] in Hk. repeat destruct Hk as [<-|Hk]; try done; cbn [act];
    (apply good_command; [|done|lia|by (left + right)]); cbn [r_mgmt updm].
  - eapply wp_mono; [by apply fn_blank_spec|]. intros [] m' w' H. by eapply replied_commanded.
  - apply fn_digest_commanded; [done|done|cbn; lia|]. apply Ha. lia.
  - apply fn_digest_commanded; [done|done|lia|]. apply Ha. lia.
  - assert (cs = 36 /\ char_at buf p = 10) as [-> Hc] by lia.
    apply threads_commanded; [done|done|cbn; lia|cbn; lia|by apply Hd|by left].
  - assert (cs = 37) as -> by lia. destruct (Hn eq_refl) as [Hds H13].
    apply threads_commanded; [done|done|lia|lia|done|by right].
  - unfold cmogstored_quit. wp_step. destruct Hf as (Hf1 & Hf2 & Hf3 & Hf4 & Hf5).
    split; cbn; [done|done|by rewrite Hw|done|done|exists []; by rewrite app_nil_r|done|done|by left].
  - apply size_commanded; [done|done|cbn; lia].
  - apply size_commanded; [done|done|lia].
  - wp_step. destruct Hf as (Hf1 & Hf2 & Hf3 & Hf4 & Hf5).
    split; cbn; [done|done|by rewrite Hw|done|done|exists []; by rewrite app_nil_r|done|done|]. do 2 right; by left.
  - apply unknown_commanded; [done|done|lia].
  - apply unknown_commanded; [done|done|cbn; lia].
Qed.

Lemma mstep_ok (cs p : Z) (s : mrun) :
  minv m0 w0 buf cs p s -> p <> zlen buf ->
  0 <= p < zlen buf /\ 0 <= mmeasure buf cs p /\ good_jump (mmeasure buf cs p) (step buf cs p s).
Proof.
  intros Hi Hne. pose proof (mi_notes _ _ _ _ _ _ Hi) as Hn. pose proof (mn_p _ _ _ _ Hn) as Hp.
  assert (0 <= p < zlen buf) as Hlt by lia. split; [done|].
  split; [unfold mmeasure; destruct (71 <=? cs); lia|].
  pose proof (mgoto_ok cs (char_at buf p) (mn_cs _ _ _ _ Hn) (char_at_Forall _ _ _ chars Hlt)) as Hok.
  unfold ok_mgoto in Hok. unfold step. destruct (goto cs (char_at buf p)) as [[n|k]|]; [|clear Hn|done].
  - destruct (Z.eqb_spec n 0) as [->|Hn0].
    + destruct Hi as [Hn' Hf Hw Hd]. apply mpost_error; try done. apply Hn'.
    + apply good_go.
      * destruct Hi as [_ Hf Hw Hd]. split; try done. apply (mnotes_st _ cs); (done || lia).
      * apply mmeasure_next. cases_lia Hok. lia.
  - pose proof Hok as Hk. cases_lia Hk.
    destruct (decide (k = 0)) as [->|Hk0]; [|destruct (decide (In k [9; 51; 11; 13; 14; 22; 44; 46; 74; 76; 85; 88; 89])) as [|Hin];
      [by apply act_note; (done || lia)|apply act_command; [done|lia|done|]; cbn [In] in *; lia]].
    cbn [act]. apply good_go; [|unfold mmeasure; destruct (Z.leb_spec 71 cs); cbn; lia].
    destruct Hi as [[? ? ? ? ? ? ? ?] Hf Hw Hd]. split; try done. split; (done || lia).
Qed.
End Step.

(** ** [mog_mgmt_parse] *)

(** The contract between two calls on a buffer that grows: [buf] are the bytes
    that were parsed. *)
Definition mready (buf : list Z) (m : mog_mgmt) : Prop :=
  mnotes buf (m_cs m) (zlen buf) m /\ m_offset m = zlen buf.

Lemma mnotes_grow (buf more : list Z) (cs p : Z) (m : mog_mgmt) :
  mnotes buf cs p m -> mnotes (buf ++ more) cs p m.
Proof.
  intros [Hcs Hp Hw Ha H0 H1 Hd Hn]. pose proof (zlen_nonneg more).
  split; try done; [rewrite zlen_app; lia|..].
  - intros E i Hi. rewrite char_at_app_l by lia. by apply (Hd E).
  - intros E. destruct (Hn E) as [Hds Hc]. split; [|rewrite char_at_app_l by lia; done].
    intros i Hi. rewrite char_at_app_l by lia. by apply Hds.
Qed.

Lemma mnotes_start (m : mog_mgmt) : m_wbuf m = WNull -> mnotes [] mgmt_parser_start 0 m.
Proof. intros Hw. unfold mgmt_parser_start. split; try done; lia. Qed.

Lemma mready_init (fd : Z) (svc : mog_svc) : mready [] (mog_mgmt_init fd svc).
Proof. split; [by apply mnotes_start|done]. Qed.

Lemma mready_reset (m : mog_mgmt) : m_wbuf m = WNull -> m_offset m = 0 -> mready [] (mog_mgmt_reset_parser m).
Proof. intros Hw Ho. split; [by apply mnotes_start|done]. Qed.

Definition parsed (m : mog_mgmt) (w : world) (buf : list Z) (st : mog_parser_state) (m' : mog_mgmt) (w' : world) : Prop :=
  match st with
  | MOG_PARSER_CONTINUE => mready buf m' /\ mframe m m' /\ w' = w
  | MOG_PARSER_DONE => 0 < m_offset m' <= zlen buf /\ commanded m w m' w'
  | MOG_PARSER_ERROR => m_wbuf m' = WNull /\ mframe m m' /\ w' = w
  end.

Lemma mgmt_parse_total (old more : list Z) (m : mog_mgmt) (w : world) :
  mready old m -> Forall is_char (old ++ more) -> small_files w ->
  wp (mog_mgmt_parse (old ++ more)) m w (parsed m w (old ++ more)).
Proof.
  intros [Hn Ho] Hch Hsm. set (buf := old ++ more) in *. pose proof (zlen_nonneg more) as Hz. pose proof (zlen_nonneg old).
  assert (zlen buf = zlen old + zlen more) as Hlen by (unfold buf; by rewrite zlen_app).
  assert (mnotes buf (m_cs m) (zlen old) m) as Hn' by by apply mnotes_grow.
  assert (minv m w buf (m_cs m) (zlen old) (MRun m w false)) as Hi by by split.
  destruct (enter_total step buf (fun cs p s => minv m w buf cs p s /\ p <> zlen buf) (mpost m w buf)
    (fun cs p _ => mmeasure buf cs p)) with (cs := m_cs m) (p := zlen old) (s := MRun m w false)
    (fuel := mgmt_fuel (zlen buf)) as (n & p & s & He & Hpost).
  - intros cs p s [Hi' Hne]. destruct (mstep_ok m w buf Hch Hsm cs p s Hi' Hne) as (Hp & Hmu & Hg).
    split; [done|]. split; [done|]. unfold good_jump in Hg. destruct (step buf cs p s) as [n p' s'| |]; [|done..].
    destruct (Z.eqb_spec (p' + 1) (zlen buf)); [done|]. by destruct Hg.
  - intros Hp. by apply mpost_resume.
  - intros Hp. split; [done|]. unfold mmeasure, mgmt_fuel. destruct (71 <=? m_cs m); lia.
  - unfold wp, mog_mgmt_parse. rewrite (mn_wbuf _ _ _ _ Hn), Ho. cbn [is_wnull assert_ andb].
    destruct (Z.leb_spec (zlen old) (zlen buf)); [|lia]. cbn [assert_]. rewrite He. cbn [res_bind r_s r_cs r_p].
    destruct Hpost as [-> Hp Hw Hd Hf Hwd| -> [Hn2 Hf Hwd Hd]|Hp Hd Hc].
    + rewrite Hd. eexists _, _, _. split; [reflexivity|]. by rewrite <- Hwd.
    + rewrite Hd. pose proof (mn_cs _ _ _ _ Hn2) as Hcs. destruct (Z.eqb_spec n mgmt_parser_error); [unfold mgmt_parser_error in *; lia|].
      cbn [m_offset set_m_offset]. rewrite Z.leb_refl. cbn [assert_].
      destruct (Z.eqb_spec n mgmt_parser_first_final); [unfold mgmt_parser_first_final in *; lia|].
      eexists _, _, _. split; [reflexivity|]. split; [|by split]. split; [|done].
      destruct Hn2. split; done.
    + replace (if r_mdone s then mgmt_parser_first_final else n) with 74
        by (destruct Hd as [-> | ->]; [by destruct (r_mdone s)|done]).
      change (74 =? mgmt_parser_error) with false. change (74 =? mgmt_parser_first_final) with true.
      cbn [m_offset set_m_offset]. destruct (Z.leb_spec p (zlen buf)); [|lia]. cbn [assert_].
      eexists _, _, _. split; [reflexivity|]. split; [done|]. by destruct Hc.
Qed.
