(* ===== verification/MgmtCmd.v ===== *)
(** The management protocol: a line that is written according to the grammar
    runs the command it stands for, on the operands it names. *)
From S2P Require Import Prelude Fmt Ragel ValidPath Http ChunkParser ChunkInv TryWrite HttpResp.
From S2P Require Import World HttpGet FsckQueue MgmtFn MgmtParser MgmtInv.
From stdpp Require Import base list numbers gmap.
From Stdlib Require Import ZArith Lia.

#[local] Open Scope Z_scope.

(** ** Commands and how they are written *)

Inductive digest_alg := MD5 | SHA1.

Inductive command_line :=
  | CmdDigest (a : digest_alg) (p : list Z) (reason : option (list Z))
  | CmdSize (p : list Z)
  | CmdThreads (sp1 sp2 : bool) (digits : list Z)
  | CmdWatch
  | CmdShutdown (graceful : bool)
  | CmdBlank (blanks : list Z).

Definition space (b : bool) : list Z := if b then [32] else [].

Definition command_bytes (c : command_line) : list Z :=
  match c with
  | CmdDigest a p r =>
      (match a with MD5 => str "MD5 " | SHA1 => str "SHA-1 " end) ++ p ++
      (match r with Some r => str " " ++ r | None => [] end)
  | CmdSize p => str "size " ++ p
  | CmdThreads a b ds => str "server aio_threads" ++ space a ++ str "=" ++ space b ++ ds
  | CmdWatch => str "watch"
  | CmdShutdown g => str "shutdown" ++ (if g then str " graceful" else [])
  | CmdBlank ws => ws
  end.

Inductive eol := LF | CR_LF.
Definition eol_bytes (e : eol) : list Z := match e with LF => [10] | CR_LF => CRLF end.

Definition mpath_char (c : Z) : bool := rng 45 57 c || rng 65 90 c || rng 97 122 c.
Definition word_char (c : Z) : bool := rng 48 57 c || rng 65 90 c || rng 97 122 c || (c =? 95).

Definition legal_mpath (p : list Z) : bool :=
  match p with c :: rest => (c =? 47) && forallb mpath_char rest | [] => false end.

Definition legal_command (c : command_line) : bool :=
  match c with
  | CmdDigest _ p r =>
      legal_mpath p && match r with Some (x :: r) => forallb word_char (x :: r) | Some [] => false | None => true end
  | CmdSize p => legal_mpath p
  | CmdThreads _ _ (d :: ds) => forallb (rng 48 57) (d :: ds)
  | CmdThreads _ _ [] => false
  | CmdBlank ws => forallb (fun c => (c =? 32) || (c =? 9)) ws
  | CmdWatch | CmdShutdown _ => true
  end.

(** ** What they do *)

Definition alg_of (a : digest_alg) : Gc_hash := match a with MD5 => GC_MD5 | SHA1 => GC_SHA1 end.

(** The priority is lowered when the reason begins with [fsck]. *)
Definition fsck_reason (r : option (list Z)) : bool :=
  match r with Some (102 :: 115 :: 99 :: 107 :: _) => true | _ => false end.

Definition command_effect (c : command_line) (m : mog_mgmt) (w : world) (m' : mog_mgmt) (w' : world) : Prop :=
  match c with
  | CmdDigest a p r =>
      digest_started p (set_m_alg (alg_of a) (if fsck_reason r then set_prio_fsck m else m)) w m' w'
  | CmdSize p => replied m w (size_reply p w) m' w'
  | CmdThreads _ _ ds => replied (want_threads (Z.min (dec_value ds) (2 ^ 64 - 1)) m) w CRLF m' w'
  | CmdWatch => m' = set_m_forward FIostat m /\ w' = w
  | CmdShutdown _ =>
      let s := m_svc m in
      m' = set_m_svc (MogSvc (s_accepting s) (s_threads s) true (s_subscribed s) (s_fsck s) (s_pushed s)) m /\ w' = w
  | CmdBlank _ => replied m w CRLF m' w'
  end.

(** ** Runs of the machine *)

Abbreviation mruns := (Ragel.runs step).
Abbreviation mwalk := (Ragel.walk goto).

Lemma mstep_table buf cs p (s : mrun) l :
  goto cs (char_at buf p) = Some l ->
  step buf cs p s =
    match l with
    | St n => if n =? 0 then GoOut 0 p s else GoSt n p s
    | Tr k => act k buf p s
    end.
Proof. intros H. unfold step. by rewrite H. Qed.

(** The command has run and the machine has left behind the line. *)
Definition left_after (n : Z) (P : mog_mgmt -> world -> Prop) (r : regs mrun) : Prop :=
  r_cs r = 74 /\ r_p r = n /\ r_mdone (r_s r) = false /\ P (r_mgmt (r_s r)) (r_world (r_s r)).

(** The last character of a line runs the command. *)
Lemma run_command (pre suf : list Z) (c cs k : Z) (fn : MM unit) (s s1 : mrun) (P : mog_mgmt -> world -> Prop) :
  goto cs c = Some (Tr k) ->
  act k (pre ++ c :: suf) (zlen pre) s = command 74 fn (zlen pre) s1 ->
  r_mdone s1 = false -> wp fn (r_mgmt s1) (r_world s1) (fun _ => P) ->
  mruns (pre ++ [c] ++ suf) cs (zlen pre) s (left_after (zlen (pre ++ [c])) P).
Proof.
  intros Hg Ha Hd ([] & m' & w' & He & HP).
  eapply (runs_act_out goto act step mstep_table); [exact Hg| |].
  - rewrite Ha. unfold command. rewrite He. reflexivity.
  - split_and!; [done|cbn; by rewrite zlen_app|done|done].
Qed.

Lemma mwalk_table (f : Z -> bool) (n n' : Z) (c : Z) :
  check_table [n] (fun n c => implb (f c) match goto n c with Some (St k) => k =? n' | _ => false end) = true ->
  is_char c -> f c = true -> goto n c = Some (St n').
Proof.
  intros Ht Hc Hf. pose proof (check_table_sound _ _ Ht n c ltac:(by left) Hc) as H. cbn beta in H.
  rewrite Hf in H. cbn [implb] in H. destruct (goto n c) as [[k|]|]; try done. by apply Z.eqb_eq in H as ->.
Qed.

(** The end of a line behind an operand, which it delimits. *)
Lemma run_marked_eol (e : eol) (pre suf : list Z) (n kl kc n2 k2 : Z) (fn : list Z -> MM unit) (s : mrun)
    (P : mog_mgmt -> world -> Prop) :
  goto n 10 = Some (Tr kl) -> goto n 13 = Some (Tr kc) -> goto n2 10 = Some (Tr k2) ->
  (forall buf p s, act kl buf p s = command 74 (fn buf) p (updm (set_m_mark1 p) s)) ->
  (forall buf p s, act kc buf p s = GoSt n2 p (updm (set_m_mark1 p) s)) ->
  (forall buf p s, act k2 buf p s = command 74 (fn buf) p s) ->
  r_mdone s = false ->
  wp (fn (pre ++ eol_bytes e ++ suf)) (set_m_mark1 (zlen pre) (r_mgmt s)) (r_world s) (fun _ => P) ->
  mruns (pre ++ eol_bytes e ++ suf) n (zlen pre) s (left_after (zlen (pre ++ eol_bytes e)) P).
Proof.
  intros Hl Hc H2 Al Ac A2 Hd Hw. destruct e; cbn [eol_bytes] in *.
  - eapply run_command; [exact Hl|apply Al|done|exact Hw].
  - change (CRLF ++ suf) with ([13] ++ [10] ++ suf) in *.
    eapply (runs_act goto act step mstep_table); [exact Hc|apply Ac|].
    change CRLF with ([13] ++ [10]). rewrite (app_assoc pre [13] [10]).
    eapply run_command; [exact H2|apply A2|done|]. cbn [r_mgmt r_world updm].
    by rewrite <- split_shift.
Qed.

(** The end of a line whose operands are known already. *)
Lemma run_plain_eol (e : eol) (pre suf : list Z) (n n2 k : Z) (fn : list Z -> MM unit) (s : mrun)
    (P : mog_mgmt -> world -> Prop) :
  goto n 10 = Some (Tr k) -> mwalk n [13] = Some n2 -> goto n2 10 = Some (Tr k) ->
  (forall buf p s, act k buf p s = command 74 (fn buf) p s) -> r_mdone s = false ->
  wp (fn (pre ++ eol_bytes e ++ suf)) (r_mgmt s) (r_world s) (fun _ => P) ->
  mruns (pre ++ eol_bytes e ++ suf) n (zlen pre) s (left_after (zlen (pre ++ eol_bytes e)) P).
Proof.
  intros Hl Hc H2 A Hd Hw. destruct e; cbn [eol_bytes] in *.
  - eapply run_command; [exact Hl|apply A|done|exact Hw].
  - change (CRLF ++ suf) with ([13] ++ [10] ++ suf) in *.
    eapply (runs_walk goto act step mstep_table); [exact Hc|].
    change CRLF with ([13] ++ [10]). rewrite (app_assoc pre [13] [10]).
    eapply run_command; [exact H2|apply A|done|].
    by rewrite <- split_shift.
Qed.

Definition run_mwalk := runs_walk goto act step mstep_table.
Definition run_mact := runs_act goto act step mstep_table.

Lemma mpath_is_char (c : Z) : mpath_char c = true -> is_char c.
Proof. unfold mpath_char, is_char. rewrite !orb_true_iff, !rng_true. lia. Qed.

(** A path: its start is marked. *)
Lemma run_mpath (pre p suf : list Z) (a k n : Z) (s : mrun) Q :
  legal_mpath p = true -> goto a 47 = Some (Tr k) ->
  (forall buf i s, act k buf i s = GoSt n i (updm (set_m_mark0 i) s)) ->
  n <> 0 -> check_table [n] (fun n c => implb (mpath_char c) match goto n c with Some (St k) => k =? n | _ => false end) = true ->
  mruns ((pre ++ p) ++ suf) n (zlen (pre ++ p)) (updm (set_m_mark0 (zlen pre)) s) Q ->
  mruns (pre ++ p ++ suf) a (zlen pre) s Q.
Proof.
  intros Hp Hg Ha Hn Ht Hr. destruct p as [|c p]; [done|]. apply andb_true_iff in Hp as [Hc Hp].
  apply Z.eqb_eq in Hc as ->. change ((47 :: p) ++ suf) with ([47] ++ p ++ suf).
  eapply run_mact; [exact Hg|apply Ha|]. apply (run_mwalk p _ _ _ n).
  - apply (walk_loop goto mpath_char); [done| |done]. intros c Hc.
    apply (mwalk_table mpath_char n n); [done|by apply mpath_is_char|done].
  - by rewrite <- (app_assoc pre [47] p).
Qed.

(** The marks around an operand. *)
Lemma marks_mid (pre p suf : list Z) (m : mog_mgmt) :
  m_mark0 m = zlen pre -> m_mark1 m = zlen (pre ++ p) -> marks ((pre ++ p) ++ suf) m p.
Proof.
  intros H0 H1. unfold marks. rewrite H0, H1, !zlen_app. pose proof (zlen_nonneg p). pose proof (zlen_nonneg suf).
  split; [lia|]. rewrite <- app_assoc. apply slice_app_mid; lia.
Qed.

(** A line is read from the start of the buffer. *)
Definition reads_line (c : command_line) : Prop :=
  forall e rest m w, m_wbuf m = WNull -> small_files w ->
  mruns (command_bytes c ++ eol_bytes e ++ rest) 1 0 (MRun m w false)
    (left_after (zlen (command_bytes c ++ eol_bytes e))
       (fun m' w' => exists k0 k1, command_effect c (set_m_mark0 k0 (set_m_mark1 k1 m)) w m' w')).

Lemma reads_size (p : list Z) : legal_mpath p = true -> reads_line (CmdSize p).
Proof.
  intros Hp e rest m w Hw Hs. cbn [command_bytes]. rewrite <- app_assoc. change 0 with (zlen (@nil Z)).
  apply (run_mwalk (str "size ") [] _ _ 62); [reflexivity|]. cbn [app].
  apply (run_mpath (str "size ") p _ 62 74 63); [done|reflexivity|done|done|vm_compute; reflexivity|].
  apply (run_marked_eol e _ rest 63 75 76 64 78 mog_mgmt_fn_size); try done. cbn [r_mgmt r_world updm].
  eapply wp_mono; [apply (fn_size_spec _ p); [by apply marks_mid|done|done]|].
  intros [] m' w' H. by exists (zlen (str "size ")), (zlen (str "size " ++ p)).
Qed.

Lemma reads_watch : reads_line CmdWatch.
Proof.
  intros e rest m w Hw Hs. change 0 with (zlen (@nil Z)).
  apply (run_mwalk (str "watch") [] _ _ 69); [reflexivity|]. cbn [app].
  apply (run_plain_eol e _ rest 69 70 83 (fun _ => put_http (set_m_forward FIostat))); try done.
  wp_step. by exists (m_mark0 m), (m_mark1 m).
Qed.

Lemma reads_shutdown (g : bool) : reads_line (CmdShutdown g).
Proof.
  intros e rest m w Hw Hs. change 0 with (zlen (@nil Z)).
  apply (run_mwalk (command_bytes (CmdShutdown g)) [] _ _ (if g then 58 else 48)); [by destruct g|]. cbn [app].
  apply (run_plain_eol e _ rest _ 49 60 (fun _ => cmogstored_quit)); try (by destruct g).
  unfold cmogstored_quit. wp_step. by exists (m_mark0 m), (m_mark1 m).
Qed.

Lemma reads_blank (ws : list Z) :
  forallb (fun c => (c =? 32) || (c =? 9)) ws = true -> reads_line (CmdBlank ws).
Proof.
  intros Hb e rest m w Hw Hs. change 0 with (zlen (@nil Z)). cbn [command_bytes].
  assert (exists n, mwalk 1 ws = Some n /\ (n = 1 \/ n = 2)) as (n & Hn & H12).
  { assert (forall c, (c =? 32) || (c =? 9) = true -> goto 2 c = Some (St 2) /\ goto 1 c = Some (St 2)) as Hg.
    { intros c [->%Z.eqb_eq| ->%Z.eqb_eq]%orb_true_iff; by split. }
    destruct ws as [|c ws]; [by eauto|]. apply andb_true_iff in Hb as [Hc Hb]. exists 2. split; [|by right].
    cbn [Ragel.walk]. rewrite (proj2 (Hg c Hc)). apply (walk_loop goto _ 2 ws ltac:(done) (fun c H => proj1 (Hg c H)) Hb). }
  apply (run_mwalk ws [] _ _ n); [done|]. cbn [app].
  apply (run_plain_eol e _ rest n 3 2 (fun _ => mog_mgmt_fn_blank)); try (by destruct H12 as [-> | ->]).
  cbn [r_mgmt r_world]. eapply wp_mono; [by apply fn_blank_spec|]. intros [] m' w' H.
  exists (m_mark0 m), (m_mark1 m). by destruct m.
Qed.

Lemma reads_threads (a b : bool) (ds : list Z) :
  ds <> [] -> forallb (rng 48 57) ds = true -> reads_line (CmdThreads a b ds).
Proof.
  intros Hne Hds e rest m w Hw Hs. change 0 with (zlen (@nil Z)).
  set (pre := str "server aio_threads" ++ space a ++ str "=" ++ space b).
  assert (command_bytes (CmdThreads a b ds) = pre ++ ds) as -> by (unfold pre; cbn [command_bytes]; by rewrite <- !app_assoc).
  rewrite <- app_assoc. apply (run_mwalk pre [] _ _ (if b then 35 else 34)); [by destruct a, b|]. cbn [app].
  assert (forall c, rng 48 57 c = true -> is_char c) as Hch by (intros c; unfold is_char; rewrite rng_true; lia).
  destruct ds as [|d ds]; [done|]. pose proof Hds as [Hd Hds']%andb_true_iff.
  change ((d :: ds) ++ eol_bytes e ++ rest) with ([d] ++ ds ++ eol_bytes e ++ rest).
  apply (run_mact pre _ d _ 36 44 _ (updm (set_m_mark0 (zlen pre)) (MRun m w false))).
  { pose proof (check_table_sound [34; 35] (fun n c => implb (rng 48 57 c) match goto n c with Some (Tr k) => k =? 44 | _ => false end)
      ltac:(vm_compute; reflexivity) (if b then 35 else 34) d ltac:(destruct b; cbn; auto) (Hch d Hd)) as H.
    cbn beta in H. rewrite Hd in H. cbn [implb] in H. destruct (goto _ d) as [[|k]|]; try done. by apply Z.eqb_eq in H as ->. }
  { done. }
  apply (run_mwalk ds _ _ _ 36).
  { apply (walk_loop goto (rng 48 57)); [done| |done]. intros c Hc.
    apply (mwalk_table (rng 48 57) 36 36); [vm_compute; reflexivity|auto|done]. }
  rewrite <- (app_assoc pre [d] ds). cbn [app].
  apply (run_marked_eol e (pre ++ d :: ds) rest 36 45 46 37 48 mog_mgmt_fn_aio_threads); try done.
  cbn [r_mgmt r_world updm].
  eapply wp_mono; [apply (fn_aio_threads_spec _ (d :: ds)); [by apply marks_mid|done|done|]|].
  - cbn [m_mark1 set_m_mark1]. destruct e; cbn [eol_bytes app CRLF]; rewrite char_at_mid; auto.
  - intros [] m' w' H. exists (zlen pre), (zlen (pre ++ d :: ds)). cbn [command_effect].
    replace (want_threads _ _) with (want_threads (Z.min (dec_value (d :: ds)) (2 ^ 64 - 1))
      (set_m_mark1 (zlen (pre ++ d :: ds)) (set_m_mark0 (zlen pre) m))); [exact H|done].
Qed.

Lemma word_is_char (c : Z) : word_char c = true -> is_char c.
Proof. unfold word_char, is_char. rewrite !orb_true_iff, !rng_true, Z.eqb_eq. lia. Qed.

(** The states of a reason: the next character of [fsck], or any. *)
Definition reason_next (n c : Z) : option label :=
  match n with
  | 10 => Some (St (if c =? 102 then 12 else 11))
  | 12 => Some (St (if c =? 115 then 13 else 11))
  | 13 => Some (St (if c =? 99 then 14 else 11))
  | 14 => Some (if c =? 107 then Tr 22 else St 11)
  | _ => Some (St 11)
  end.

Lemma reason_goto (n c : Z) : 10 <= n <= 14 -> word_char c = true ->
  goto n c = reason_next n c.
Proof.
  intros Hn Hc.
  pose proof (check_table_sound (zrange 10 5) (fun n c => implb (word_char c)
    match goto n c, reason_next n c with
    | Some (St a), Some (St b) => a =? b | Some (Tr a), Some (Tr b) => a =? b | _, _ => false end)
    ltac:(vm_compute; reflexivity) n c ltac:(apply zrange_spec; lia) (word_is_char c Hc)) as H.
  cbn beta in H. rewrite Hc in H. cbn [implb] in H.
  destruct (goto n c) as [[|]|], (reason_next n c) as [[|]|]; try done; by apply Z.eqb_eq in H as ->.
Qed.

Lemma walk_word (r : list Z) : forallb word_char r = true -> mwalk 11 r = Some 11.
Proof.
  intros H. apply (walk_loop goto word_char); [done| |done]. intros c Hc. by rewrite reason_goto by (done || lia).
Qed.

(** A reason that does not begin with [fsck] only changes the state. *)
Lemma walk_reason (r : list Z) :
  forallb word_char r = true -> fsck_reason (Some r) = false -> exists n, mwalk 10 r = Some n /\ (r <> [] -> 11 <= n <= 14).
Proof.
  assert (forall n c r, 10 <= n <= 14 -> word_char c = true -> forallb word_char r = true ->
    reason_next n c = Some (St 11) -> mwalk n (c :: r) = Some 11) as Hother.
  { intros n c r' Hn Hc Hr' He. cbn [Ragel.walk]. rewrite reason_goto, He by done. by apply walk_word. }
  intros Hw Hf. destruct r as [|c1 r]; [by exists 10|]. pose proof Hw as [H1 Hw1]%andb_true_iff.
  destruct (Z.eqb_spec c1 102) as [->|E1];
    [|exists 11; split; [apply Hother; try done; cbn; by destruct (Z.eqb_spec c1 102)|lia]].
  destruct r as [|c2 r]; [exists 12; split; [done|lia]|]. pose proof Hw1 as [H2 Hw2]%andb_true_iff.
  destruct (Z.eqb_spec c2 115) as [->|E2];
    [|exists 11; split; [change (mwalk 12 (c2 :: r) = Some 11); apply Hother; try done; cbn; by destruct (Z.eqb_spec c2 115)|lia]].
  destruct r as [|c3 r]; [exists 13; split; [done|lia]|]. pose proof Hw2 as [H3 Hw3]%andb_true_iff.
  destruct (Z.eqb_spec c3 99) as [->|E3];
    [|exists 11; split; [change (mwalk 13 (c3 :: r) = Some 11); apply Hother; try done; cbn; by destruct (Z.eqb_spec c3 99)|lia]].
  destruct r as [|c4 r]; [exists 14; split; [done|lia]|]. pose proof Hw3 as [H4 Hw4]%andb_true_iff.
  destruct (Z.eqb_spec c4 107) as [->|E4]; [done|].
  exists 11. split; [|lia]. change (mwalk 14 (c4 :: r) = Some 11). apply Hother; try done. cbn. by destruct (Z.eqb_spec c4 107).
Qed.

Lemma run_reason (pre r suf : list Z) (s : mrun) Q :
  r <> [] -> forallb word_char r = true ->
  (forall n, 11 <= n <= 14 -> mruns ((pre ++ r) ++ suf) n (zlen (pre ++ r))
     (if fsck_reason (Some r) then updm set_prio_fsck s else s) Q) ->
  mruns (pre ++ r ++ suf) 10 (zlen pre) s Q.
Proof.
  intros Hne Hw Hr. destruct (fsck_reason (Some r)) eqn:Ef.
  - assert (exists r', r = str "fsc" ++ [107] ++ r') as [r' ->].
    { cbn in Ef. destruct r as [|c1 [|c2 [|c3 [|c4 r']]]]; try done;
        repeat match goal with H : context [match ?x with _ => _ end] |- _ => destruct x; try done end. by exists r'. }
    rewrite <- !app_assoc. apply (run_mwalk (str "fsc") _ _ _ 14); [reflexivity|].
    apply (run_mact _ _ 107 14 11 22 _ (updm set_prio_fsck s)); [done|done|].
    apply (run_mwalk r' _ _ _ 11); [by apply walk_word; cbn in Hw|].
    specialize (Hr 11 ltac:(lia)). by rewrite !app_assoc in Hr.
  - destruct (walk_reason r Hw Ef) as (n & Hn & Hb). apply (run_mwalk r _ _ _ n); auto.
Qed.

(** [MD5 ] and [SHA-1 ]. *)
Lemma run_alg (a : digest_alg) (suf : list Z) (s : mrun) Q :
  let pre := match a with MD5 => str "MD5 " | SHA1 => str "SHA-1 " end in
  mruns (pre ++ suf) 7 (zlen pre) (updm (set_m_alg (alg_of a)) s) Q -> mruns (pre ++ suf) 1 0 s Q.
Proof.
  intros pre Hr. change 0 with (zlen (@nil Z)). destruct a; unfold pre in *.
  - apply (run_mwalk (str "MD") [] ([53] ++ [32] ++ suf) 1 5); [reflexivity|].
    apply (run_mact _ _ 53 5 6 9 _ (updm (set_m_alg GC_MD5) s)); [done|done|].
    apply (run_mwalk [32] _ _ 6 7); [reflexivity|]. exact Hr.
  - apply (run_mwalk (str "SHA-") [] ([49] ++ [32] ++ suf) 1 40); [reflexivity|].
    apply (run_mact _ _ 49 40 6 51 _ (updm (set_m_alg GC_SHA1) s)); [done|done|].
    apply (run_mwalk [32] _ _ 6 7); [reflexivity|]. exact Hr.
Qed.

Lemma reads_digest (a : digest_alg) (p : list Z) (r : option (list Z)) :
  legal_command (CmdDigest a p r) = true -> reads_line (CmdDigest a p r).
Proof.
  intros [Hp Hrs]%andb_true_iff e rest m w Hw Hs.
  set (pre := match a with MD5 => str "MD5 " | SHA1 => str "SHA-1 " end).
  assert (alg_of a <> GC_MD4) as Ha by by destruct a.
  destruct r as [r|].
  - assert (r <> [] /\ forallb word_char r = true) as [Hne Hwd] by by destruct r.
    assert (command_bytes (CmdDigest a p (Some r)) = pre ++ p ++ [32] ++ r) as Hb by done.
    rewrite Hb. rewrite <- !app_assoc. apply run_alg. fold pre.
    apply (run_mpath pre p _ 7 11 8); [done|reflexivity|done|done|vm_compute; reflexivity|].
    apply (run_mact _ _ 32 8 10 14 _ (updm (set_m_mark1 (zlen (pre ++ p))) (updm (set_m_mark0 (zlen pre))
      (updm (set_m_alg (alg_of a)) (MRun m w false))))); [done|done|].
    apply run_reason; [done|done|]. intros n Hn. rewrite !app_assoc.
    assert (goto n 10 = Some (Tr 16) /\ mwalk n [13] = Some 9) as [Hg Hg13].
    { assert (n = 11 \/ n = 12 \/ n = 13 \/ n = 14) as Hd by lia. by destruct Hd as [-> |[-> |[-> | ->]]]. }
    rewrite <- (app_assoc (((pre ++ p) ++ [32]) ++ r)).
    apply (run_plain_eol e _ rest n 9 16 mog_mgmt_fn_digest); try done; [by destruct (fsck_reason _)|].
    eapply wp_mono; [apply (fn_digest_spec _ p)|].
    + rewrite <- !app_assoc. rewrite (app_assoc pre p). apply marks_mid; by destruct (fsck_reason _); cbn; unfold set_prio_fsck; cbn; try destruct (s_accepting _).
    + destruct (fsck_reason _); cbn; unfold set_prio_fsck; cbn; by try destruct (s_accepting _).
    + destruct (fsck_reason _); cbn; unfold set_prio_fsck; cbn; by try destruct (s_accepting _).
    + intros [] m' w' H. exists (zlen pre), (zlen (pre ++ p)). cbn [command_effect].
      destruct (fsck_reason (Some r)); [|exact H]. cbn [updm r_mgmt r_world] in H.
      unfold set_prio_fsck in *. cbn in *. by destruct (s_accepting _).
  - assert (command_bytes (CmdDigest a p None) = pre ++ p) as Hb
      by (cbn [command_bytes]; by rewrite app_nil_r).
    rewrite Hb. rewrite <- app_assoc. apply run_alg. fold pre.
    apply (run_mpath pre p _ 7 11 8); [done|reflexivity|done|done|vm_compute; reflexivity|].
    apply (run_marked_eol e _ rest 8 12 13 9 16 mog_mgmt_fn_digest); try done. cbn [r_mgmt r_world updm].
    eapply wp_mono; [apply (fn_digest_spec _ p); [by apply marks_mid|done|done]|].
    intros [] m' w' H. by exists (zlen pre), (zlen (pre ++ p)).
Qed.

Lemma reads_command (c : command_line) : legal_command c = true -> reads_line c.
Proof.
  destruct c as [a p r|p|a b ds| |g|ws]; intros H.
  - by apply reads_digest.
  - by apply reads_size.
  - destruct ds; [done|]. by apply reads_threads.
  - apply reads_watch.
  - apply reads_shutdown.
  - by apply reads_blank.
Qed.

(** A run of the machine is what [mog_mgmt_parse] returns. *)
Lemma parse_runs (buf : list Z) (m : mog_mgmt) (w : world) (n : Z) (P : mog_mgmt -> world -> Prop) :
  mready [] m -> Forall is_char buf -> small_files w ->
  mruns buf (m_cs m) 0 (MRun m w false) (left_after n P) ->
  exists m' w', mog_mgmt_parse buf m w = Ok (MOG_PARSER_DONE, set_m_offset n (set_m_cs mgmt_parser_first_final m'), w') /\
    P m' w'.
Proof.
  intros Hr Hc Hs Hrun. destruct (mgmt_parse_total [] buf m w Hr Hc Hs) as (st & m1 & w1 & Hp & _). cbn [app] in Hp.
  assert (m_offset m = 0) as Ho by (destruct Hr as [_ ->]; done).
  unfold mog_mgmt_parse in *. rewrite (mn_wbuf _ _ _ _ (proj1 Hr)), Ho in *. cbn [is_wnull assert_] in *.
  destruct (0 <=? zlen buf); [|done]. cbn [assert_] in *.
  destruct (enter step (mgmt_fuel (zlen buf)) buf (m_cs m) 0 (MRun m w false)) as [r|] eqn:He; [|done].
  destruct (runs_enter step _ _ _ _ _ _ _ Hrun He) as (Hcs & Hn & Hd & HP).
  cbn [res_bind] in *. rewrite Hd, Hcs, Hn in *. change (74 =? mgmt_parser_error) with false in *.
  change (74 =? mgmt_parser_first_final) with true in *.
  exists (r_mgmt (r_s r)), (r_world (r_s r)). split; [|done].
  destruct (n <=? zlen buf); [|done]. cbn [assert_ m_offset set_m_offset] in *. by destruct (n <=? zlen buf).
Qed.

Lemma command_runs (c : command_line) (e : eol) (rest : list Z) (m : mog_mgmt) (w : world) :
  legal_command c = true -> mready [] m -> m_cs m = mgmt_parser_start -> small_files w ->
  let line := command_bytes c ++ eol_bytes e in
  Forall is_char (line ++ rest) ->
  exists k0 k1 m' w',
    mog_mgmt_parse (line ++ rest) m w
      = Ok (MOG_PARSER_DONE, set_m_offset (zlen line) (set_m_cs mgmt_parser_first_final m'), w') /\
    command_effect c (set_m_mark0 k0 (set_m_mark1 k1 m)) w m' w'.
Proof.
  intros Hl Hr Hcs Hs line Hc. unfold line in *. rewrite <- app_assoc in *.
  pose proof (reads_command c Hl e rest m w (mn_wbuf _ _ _ _ (proj1 Hr)) Hs) as Hrun.
  change 1 with mgmt_parser_start in Hrun. rewrite <- Hcs in Hrun.
  destruct (parse_runs _ m w _ _ Hr Hc Hs Hrun) as (m' & w' & Hp & k0 & k1 & He). eauto 6.
Qed.


Definition svc0 : mog_svc := MogSvc true None false false ∅ [].
Definition file_world : world :=
  World {[ str "/dev1/f" := str "hello" ]} [] [] [] [] (Chan [] []) None true.

Lemma small_file_world : small_files file_world.
Proof.
  intros p c H. cbn in H. apply lookup_singleton_Some in H as [_ <-]. vm_compute. congruence.
Qed.

