(* ===== verification/MgmtServe.v ===== *)
(** Management connections: no input and no failing system call brings the
    state machine of mgmt.c into a bad state, and digests are those of the
    files. *)
From S2P Require Import Prelude Fmt Ragel ValidPath Http ChunkParser ChunkInv TryWrite HttpResp.
From S2P Require Import World HttpGet HttpPut FsckQueue MgmtFn MgmtParser MgmtInv MgmtCmd Mgmt.
From stdpp Require Import base list numbers gmap.
From Stdlib Require Import ZArith Lia.

#[local] Open Scope Z_scope.

(** ** Reading the file *)

(** [f] is being digested: a first part of its contents was hashed. *)
Definition digesting (f : mog_file) : Prop :=
  exists p done rest, f = MogFile (-1) 0 (Some p) None (Some done) (done ++ rest) /\
    zlen (done ++ rest) <= OFF_MAX.

(** Bytes and replies that are left. *)
Definition digest_left (f : mog_file) (w : world) : nat :=
  length (contents f) - length (default [] (digest_ctx f)) + length (w_sys w).

(** What reading leaves: the same file, more of it hashed; all of it at the end
    unless a [read] was told to return nothing. *)
Definition digest_more (f f' : mog_file) : Prop :=
  digesting f' /\ path f' = path f /\ contents f' = contents f.

(** [read] is interrupted at most, and returns 0 at the end of the file only. *)
Definition reads_ok (rs : list reply) : Prop :=
  Forall (fun r => match r with Ret n => 0 < n | Fail e => e = EINTR end) rs.

Record digest_res (f : mog_file) (w : world) (r : mog_digest_next * mog_file) (w' : world) : Prop := {
  dr_more : digest_more f r.2;
  dr_same : same_but_sys w w';
  dr_reads : reads_ok (w_sys w) -> reads_ok (w_sys w');
  dr_eof : r.1 = MOG_DIGEST_EOF -> reads_ok (w_sys w) -> digest_ctx r.2 = Some (contents f);
  dr_err : r.1 = MOG_DIGEST_ERROR -> ~ reads_ok (w_sys w)
}.

Lemma digest_more_refl (f : mog_file) : digesting f -> digest_more f f.
Proof. done. Qed.

(** Going on with a file of which more was hashed. *)
Lemma digest_res_trans (f f1 : mog_file) (w w1 : world) (r : mog_digest_next * mog_file) (w' : world) :
  path f1 = path f -> contents f1 = contents f -> same_but_sys w w1 ->
  (reads_ok (w_sys w) -> reads_ok (w_sys w1)) -> digest_res f1 w1 r w' -> digest_res f w r w'.
Proof.
  intros Hp Hc Hs Hr [(Hm1 & Hm2 & Hm3) Hs' Hr' He Hx]. split; [by split_and!; [|congruence..]|by eapply same_trans|auto|..].
  - intros E Hok. rewrite <- Hc. auto.
  - intros E Hok. by apply (Hx E), Hr.
Qed.

Lemma digest_left_hash (bs rest' dn : list Z) (p : list Z) (w w1 : world) :
  bs <> [] -> (length (w_sys w1) <= length (w_sys w))%nat ->
  let f := MogFile (-1) 0 (Some p) None (Some dn) (dn ++ bs ++ rest') in
  (S (digest_left (hash_more bs f) w1) <= digest_left f w)%nat.
Proof.
  intros Hne Hl f. unfold digest_left, hash_more, f. cbn. rewrite !length_app. destruct bs; [done|]. cbn. lia.
Qed.

Lemma digest_loop_spec (i : nat) (f : mog_file) (m : mog_mgmt) (w : world) :
  digesting f ->
  wp (digest_loop i f) m w (fun r m' w' => m' = m /\ digest_res f w r w' /\
    (r.1 = MOG_DIGEST_CONTINUE -> (digest_left r.2 w' + i <= digest_left f w)%nat)).
Proof.
  revert f w. induction i as [|i IH]; intros f w Hf.
  { cbn. wp_step. split; [done|]. split; [split; try done; apply same_refl|cbn; lia]. }
  cbn [digest_loop]. wp_step. destruct Hf as (p & dn & rest & Hf & Hz).
  assert (digesting f) as Hd by by exists p, dn, rest.
  (* another round, from [f1] and [w1] *)
  assert (forall f1 w1, digesting f1 -> path f1 = path f -> contents f1 = contents f -> same_but_sys w w1 ->
    (reads_ok (w_sys w) -> reads_ok (w_sys w1)) -> (S (digest_left f1 w1) <= digest_left f w)%nat ->
    wp (digest_loop i f1) m w1 (fun r m' w' => m' = m /\ digest_res f w r w' /\
      (r.1 = MOG_DIGEST_CONTINUE -> (digest_left r.2 w' + S i <= digest_left f w)%nat))) as Hnext.
  { intros f1 w1 Hd1 Hp Hc Hs Hr Hl. eapply wp_mono; [by apply IH|]. intros r m' w' (-> & Hres & Hleft).
    split; [done|]. split; [by eapply digest_res_trans|]. intros E. specialize (Hleft E). lia. }
  (* the bytes of one [read] *)
  assert (forall n w1, same_but_sys w w1 -> (reads_ok (w_sys w) -> reads_ok (w_sys w1) /\ (0 < n)%nat) ->
    (length (w_sys w1) <= length (w_sys w))%nat ->
    wp (match take n rest with [] => mret (MOG_DIGEST_EOF, f) | _ :: _ => digest_loop i (hash_more (take n rest) f) end) m w1
      (fun r m' w' => m' = m /\ digest_res f w r w' /\
      (r.1 = MOG_DIGEST_CONTINUE -> (digest_left r.2 w' + S i <= digest_left f w)%nat))) as Hread.
  { intros n w1 Hs Hr Hl. destruct (take n rest) as [|b bs] eqn:E.
    - wp_step. split; [done|]. split; [|done]. split; [done|done|by intros ?; apply Hr| |done]. cbn. intros _ Hok.
      destruct (Hr Hok) as [_ Hn]. destruct rest; [|by destruct n; [lia|]]. by rewrite Hf, app_nil_r.
    - pose proof (take_drop n rest) as Hrest. rewrite E in Hrest. subst f. rewrite <- Hrest in *.
      apply Hnext; [|done|done|done|by intros ?; apply Hr|by apply digest_left_hash].
      exists p, (dn ++ b :: bs), (drop n rest). unfold hash_more. cbn [default digest_ctx set_digest_ctx contents fsize foff path tmppath].
      by rewrite <- app_assoc. }
  assert (drop (length (default [] (digest_ctx f))) (contents f) = rest) as Hdrop
    by (rewrite Hf; cbn; apply drop_app_length).
  unfold wp at 1, file_read. rewrite Hdrop.
  destruct (w_sys w) as [|[n|e] rs] eqn:Es; eexists _, _, _; (split; [reflexivity|]); cbv beta iota.
  - apply Hread; [apply same_refl| |by rewrite Es]. intros Hok. split; [by rewrite Es|unfold FSBUF_SIZE; lia].
  - apply Hread; [by split_and!; [..|cbn; rewrite Es; apply suffix_cons_r]| |cbn; lia]. intros [Hn Hok]%Forall_cons_1. split; [done|unfold FSBUF_SIZE; lia].
  - assert (same_but_sys w (set_errno (Some e) (set_sys rs w))) as Hs
      by by split_and!; [..|cbn; rewrite Es; apply suffix_cons_r].
    assert (reads_ok (Fail e :: rs) -> reads_ok rs) as Hr by by intros [_ ?]%Forall_cons_1.
    destruct e; try (wp_step; split; [done|]; split; [|done]; split; cbn; rewrite ?Es; try done;
      by intros _ [? _]%Forall_cons_1).
    apply Hnext; [done|done|done|done|done|]. unfold digest_left. rewrite Es. cbn. lia.
Qed.

(** ** The digest of a file *)

(** Two lower case digits per byte. *)
Definition hex_string (bs : list Z) : list Z :=
  concat (map (fun u => [hex_char (u / 16); hex_char (u mod 16)]) bs).

Lemma hex_byte (u : Z) : 0 <= u < 256 ->
  [char_at hex (Z.shiftr u 4); char_at hex (Z.land u 15)] = [hex_char (u / 16); hex_char (u mod 16)].
Proof.
  intros Hu. rewrite Z.shiftr_div_pow2 by lia. change 15 with (Z.ones 4). rewrite Z.land_ones by lia.
  change (2 ^ 4) with 16.
  assert (forall d, 0 <= d < 16 -> char_at hex d = hex_char d) as Hd.
  { intros d Hd. assert (In d (zrange 0 16)) as Hin by (apply zrange_spec; lia).
    apply (proj1 (forallb_forall (fun d => char_at hex d =? hex_char d) (zrange 0 16)) ltac:(vm_compute; reflexivity)) in Hin.
    lia. }
  rewrite !Hd; [done|..]; [apply Z.mod_pos_bound; lia|].
  split; [apply Z.div_pos; lia|apply Z.div_lt_upper_bound; lia].
Qed.

Lemma hex_string_eq (bs : list Z) : Forall (fun u => 0 <= u < 256) bs ->
  concat (map (fun u => [char_at hex (Z.shiftr u 4); char_at hex (Z.land u 15)]) bs) = hex_string bs.
Proof.
  unfold hex_string. induction 1 as [|u bs Hu _ IH]; [done|]. cbn [map concat]. by rewrite (hex_byte u Hu), IH.
Qed.

Lemma reads_ok_tail (rs : list reply) : reads_ok rs -> reads_ok (tail rs).
Proof. destruct rs; [done|]. by intros [_ ?]%Forall_cons_1. Qed.

Section Digest.
Variable hash : Gc_hash -> list Z -> list Z.
Variable st_dev : mog_file -> Z.
Hypothesis hash_len : forall bs, zlen (hash GC_MD5 bs) = 16 /\ zlen (hash GC_SHA1 bs) = 20.
Hypothesis hash_bytes : forall a bs, Forall (fun u => 0 <= u < 256) (hash a bs).

Definition digest_line (a : Gc_hash) (p c : list Z) : list Z :=
  p ++ str " " ++ alg_name a ++ str "=" ++ hex_string (hash a c) ++ CRLF.

Lemma wp_writev_two (a b reply : list Z) (m : mog_mgmt) (w : world) :
  m_wbuf m = WNull -> a ++ b = reply ->
  wp (mog_mgmt_writev [a; b]) m w (fun _ m' w' => replied m w reply m' w').
Proof.
  intros Hw <-. eapply wp_mono; [by apply (wp_writev_replied _ m m w w)|].
  intros [] m' w' H. cbn [concat] in H. by rewrite app_nil_r in H.
Qed.

Lemma emit_spec (p dn rest : list Z) (m : mog_mgmt) (w : world) :
  m_forward m = FFile (MogFile (-1) 0 (Some p) None (Some dn) rest) -> m_wbuf m = WNull -> m_alg m <> GC_MD4 ->
  wp (mog_mgmt_fn_digest_emit hash) m w (fun _ m' w' => replied m w (digest_line (m_alg m) p dn) m' w').
Proof.
  intros Hf Hw Ha. unfold mog_mgmt_fn_digest_emit, forward_file. do 3 wp_step. rewrite Hf. do 3 wp_step.
  cbn [default digest_ctx path id]. destruct (hash_len dn) as [H16 H20].
  destruct (m_alg m) eqn:E; [done|..]; wp_step;
    (eexists _, _, _; split; [unfold lift_res, mog_digest_hex; rewrite ?H16, ?H20; reflexivity|]);
    rewrite hex_string_eq by apply hash_bytes; (apply wp_writev_two; [done|]);
    reflexivity.
Qed.

Lemma err_spec (p dn rest : list Z) (m : mog_mgmt) (w : world) :
  m_forward m = FFile (MogFile (-1) 0 (Some p) None (Some dn) rest) -> m_wbuf m = WNull -> zlen dn <= OFF_MAX ->
  wp mog_mgmt_fn_digest_err m w (fun _ m' w' =>
    replied m w (str "ERR read " ++ p ++ str " at " ++ fmt_d (zlen dn) ++ str " failed" ++ CRLF) m' w').
Proof.
  intros Hf Hw Hz. unfold mog_mgmt_fn_digest_err, forward_file. do 3 wp_step. rewrite Hf. do 2 wp_step.
  cbn [default digest_ctx path id]. unfold snprintf_iov. pose proof (zlen_nonneg dn).
  pose proof (fmt_d_off (zlen dn) ltac:(lia)). rewrite !zlen_app. cbn [str].
  destruct (Z.ltb_spec (zlen (str " at ") + (zlen (fmt_d (zlen dn)) + (zlen (str " failed") + zlen CRLF))) 33) as [|Hge].
  - wp_step. eapply wp_mono; [by apply (wp_writev_replied _ m m w w)|]. intros [] m' w' Hr.
    cbn [concat] in Hr. by rewrite app_nil_r in Hr.
  - change (zlen (str " at ")) with 4 in Hge. change (zlen (str " failed")) with 7 in Hge.
    change (zlen CRLF) with 2 in Hge. lia.
Qed.

Lemma digest_all_spec (fuel : nat) (f : mog_file) (m : mog_mgmt) (w : world) :
  digesting f -> (digest_left f w < fuel)%nat ->
  wp (digest_all fuel f) m w (fun r m' w' => m' = m /\ digest_res f w r w' /\ r.1 <> MOG_DIGEST_CONTINUE).
Proof.
  revert f w. induction fuel as [|fuel IH]; intros f w Hd Hl; [lia|]. cbn [digest_all]. wp_step.
  eapply wp_mono; [by apply (digest_loop_spec 1023)|]. intros r m' w' (-> & Hr & Hleft).
  destruct r as [[] f1]; cbn [fst snd] in *; [|by wp_step..].
  destruct Hr as [(Hd1 & Hp1 & Hc1) Hs Hrd _ _]. eapply wp_mono; [apply IH; [done|]|].
  - specialize (Hleft eq_refl). cbn [snd] in Hleft. lia.
  - intros r m' w'' (-> & Hr & Hn). split; [done|]. split; [|done]. by eapply digest_res_trans.
Qed.

(** The client of the device that may go next was put on the active queue. *)
Lemma wp_fsck_next (f : mog_file) (m : mog_mgmt) (w : world) (Q : unit -> mog_mgmt -> world -> Prop) :
  m_forward m = FFile f -> m_prio m = MOG_PRIO_FSCK ->
  (forall s w', s_accepting s = s_accepting (m_svc m) -> same_but_sys w w' -> Q tt (set_m_svc s m) w') ->
  wp (fsck_next st_dev) m w Q.
Proof.
  intros Hf Hp HQ. unfold fsck_next, fstat_dev, forward_file. do 4 wp_step. rewrite Hf. do 2 wp_step.
  apply wp_sys_reply_tail. intros e w' Hs _ _. do 4 wp_step. wp_step; [by rewrite Hp; destruct e|].
  destruct (mog_fsck_queue_next _ _) as [n t]. do 2 wp_step.
  destruct n as [c|]; [wp_step|wp_step]; unfold upd_fsck; cbn; by apply HQ.
Qed.

(** A step of a digest: more of the file is hashed, or the reply is sent and the
    connection is ready for the next command. *)
Inductive digest_stepped (f : mog_file) (m : mog_mgmt) (w : world) (m' : mog_mgmt) (w' : world) : Prop :=
  | dg_more f' : digest_more f f' -> m' = set_m_forward (FFile f') m -> same_but_sys w w' ->
      (reads_ok (w_sys w) -> reads_ok (w_sys w')) -> m_prio m = MOG_PRIO_NONE ->
      (digest_left f' w' < digest_left f w)%nat -> digest_stepped f m w m' w'
  | dg_reply s wb reply acc : s_accepting s = s_accepting (m_svc m) ->
      m' = set_m_svc s (set_m_wbuf wb (set_m_prio MOG_PRIO_NONE (set_m_forward FNull m))) ->
      wbuf_ok wb -> w_fs w' = w_fs w -> w_sock w' = w_sock w -> sent (w_chan w') = sent (w_chan w) ++ acc ->
      (wb <> WError -> acc ++ pending wb = reply) ->
      (reads_ok (w_sys w) -> reply = digest_line (m_alg m) (default [] (path f)) (contents f)) ->
      digest_stepped f m w m' w'.

Lemma digest_step_spec (f : mog_file) (m : mog_mgmt) (w : world) :
  m_forward m = FFile f -> digesting f -> m_wbuf m = WNull -> m_alg m <> GC_MD4 ->
  wp (mgmt_digest_step hash st_dev) m w (fun _ m' w' => digest_stepped f m w m' w').
Proof.
  intros Hf Hd Hw Ha. unfold mgmt_digest_step. wp_step. unfold forward_file at 1. do 2 wp_step. rewrite Hf.
  do 6 wp_step.
  assert (forall r w1, digest_res f w r w1 ->
    (r.1 = MOG_DIGEST_CONTINUE -> m_prio m = MOG_PRIO_NONE /\ (digest_left r.2 w1 < digest_left f w)%nat) ->
    wp (put_http (set_m_forward (FFile r.2));; assertM (is_wnull (m_wbuf m));;
      match r.1 with
      | MOG_DIGEST_CONTINUE => mret tt
      | MOG_DIGEST_EOF | MOG_DIGEST_ERROR =>
          (match r.1 with
           | MOG_DIGEST_EOF => mog_mgmt_fn_digest_emit hash
           | _ => mog_mgmt_fn_digest_err
           end);;
          (if decide (m_prio m = MOG_PRIO_FSCK) then fsck_next st_dev else mret tt);;
          put_http (fun m => set_m_forward FNull (set_m_prio MOG_PRIO_NONE m))
      end) m w1 (fun _ m' w' => digest_stepped f m w m' w')) as Hrest.
  { intros r w1 [(Hd1 & Hp1 & Hc1) (Hs1 & Hs2 & Hs3 & Hs4) Hrd He Hx] Hcont. do 2 wp_step. wp_step. wp_step; [by rewrite Hw|].
    destruct Hd1 as (p & dn & rest & Hf1 & Hz). set (m1 := set_m_forward (FFile r.2) m).
    assert (m_forward m1 = FFile (MogFile (-1) 0 (Some p) None (Some dn) (dn ++ rest))) as Hfw by (cbn; by rewrite Hf1).
    (* the reply, then the next client *)
    assert (forall reply m2 w2, replied m1 w1 reply m2 w2 ->
      (reads_ok (w_sys w) -> reply = digest_line (m_alg m) (default [] (path f)) (contents f)) ->
      wp ((if decide (m_prio m = MOG_PRIO_FSCK) then fsck_next st_dev else mret tt);;
          put_http (fun m => set_m_forward FNull (set_m_prio MOG_PRIO_NONE m))) m2 w2
        (fun _ m' w' => digest_stepped f m w m' w')) as Hfin.
    { intros reply m2 w2 (wb & acc & -> & Hok & Hfs & Hsk & Hsent & Hall) Hrep. wp_step.
      destruct (decide (m_prio m = MOG_PRIO_FSCK)) as [Hprio|_].
      - eapply (wp_fsck_next r.2); [done|done|]. intros s w3 Hacc (H1 & H2 & H3 & _). wp_step.
        apply (dg_reply _ _ _ _ _ s wb reply acc); try done; congruence.
      - do 2 wp_step. apply (dg_reply _ _ _ _ _ (m_svc m) wb reply acc); try done; congruence. }
    destruct r as [[] f1]; cbn [fst snd] in *.
    - wp_step. destruct (Hcont eq_refl). apply (dg_more _ _ _ _ _ f1); try done. split; [by exists p, dn, rest|done].
    - wp_step. eapply wp_mono; [by apply (emit_spec p dn (dn ++ rest) m1)|]. intros [] m2 w2 Hr.
      eapply Hfin; [exact Hr|]. intros Hok. cbn. f_equal; [by rewrite <- Hp1, Hf1|].
      specialize (He eq_refl Hok). rewrite Hf1 in He. cbn in He. congruence.
    - wp_step. rewrite zlen_app in Hz. pose proof (zlen_nonneg rest).
      eapply wp_mono; [by apply (err_spec p dn (dn ++ rest) m1); [..|lia]|]. intros [] m2 w2 Hr.
      eapply Hfin; [exact Hr|]. intros Hok. by destruct (Hx eq_refl). }
  destruct (decide (m_prio m = MOG_PRIO_FSCK)) as [Hp|Hp].
  - eapply wp_mono; [apply digest_all_spec; [done|]|].
    + unfold digest_fuel, digest_left. lia.
    + intros r m' w' (-> & Hr & Hn). by apply Hrest.
  - eapply wp_mono; [by apply (digest_loop_spec 1023)|]. intros r m' w' (-> & Hr & Hl). apply Hrest; [done|].
    intros E. specialize (Hl E). split; [by destruct (m_prio m)|lia].
Qed.
End Digest.

(** ** Connections *)

(** The bytes to come are characters. *)
Definition sock_chars (s : list rd) : Prop :=
  Forall (fun r => match r with RBytes bs => Forall is_char bs | RErr _ => True end) s.

Definition world_ok (w : world) : Prop := small_files w /\ sock_chars (w_sock w).

(** The unread and half-read input of a connection at rest: nothing; bytes
    behind the last command that were not looked at; or the first part of a
    command. *)
Definition input_ok (m : mog_mgmt) : Prop :=
  let m := set_m_wbuf WNull m in
  match m_rbuf m with
  | None => mready [] m
  | Some r =>
      Forall is_char (mr_mem r) /\
      (if m_offset m =? 0
       then mready [] m /\ mr_rsize r = zlen (mr_mem r) /\ 0 < zlen (mr_mem r) <= MOG_RBUF_BASE_SIZE
       else mready (mr_mem r) m /\ zlen (mr_mem r) < MOG_RBUF_BASE_SIZE)
  end.

(** The connection is open, and has kept what it had at [m0]. *)
Definition based (m0 m : mog_mgmt) : Prop := 0 <= m_fd m /\ keeps m0 m.

(** A connection between two steps; [m0] is an earlier state of it. *)
Record mconn (m0 m : mog_mgmt) : Prop := {
  mc_based : based m0 m;
  mc_wbuf : m_wbuf m <> WError /\ wbuf_ok (m_wbuf m);
  mc_input : input_ok m;
  mc_forward : m_forward m = FNull \/
    exists f, m_forward m = FFile f /\ digesting f /\ m_alg m <> GC_MD4 /\ m_wbuf m = WNull
}.

(** The queue a connection goes to, and why. *)
Definition next_ok (m0 : mog_mgmt) (rv : mog_next) (m : mog_mgmt) (w : world) : Prop :=
  match rv with
  | MOG_NEXT_CLOSE => m_wbuf m = WNull \/ m_wbuf m = WError
  | MOG_NEXT_WAIT_WR => mconn m0 m /\ m_wbuf m <> WNull
  | MOG_NEXT_WAIT_RD => mconn m0 m /\ m_wbuf m = WNull /\ m_forward m = FNull
  | MOG_NEXT_ACTIVE => mconn m0 m /\ m_wbuf m = WNull
  | MOG_NEXT_IGNORE =>
      (m_forward m = FIostat /\ m_wbuf m = WNull /\ s_subscribed (m_svc m) = true) \/
      (mconn m0 m /\ m_prio m = MOG_PRIO_FSCK /\ exists f, m_forward m = FFile f)
  end /\ world_ok w /\ based m0 m.

Lemma based_ext (m0 m m' : mog_mgmt) :
  m_fd m' = m_fd m -> s_accepting (m_svc m') = s_accepting (m_svc m) ->
  m_prio m' = m_prio m \/ m_prio m' = MOG_PRIO_NONE -> based m0 m -> based m0 m'.
Proof.
  intros Hfd Ha Hp [H0 [H1 H2]]. split; [lia|]. split; [congruence|]. intros E1 E2. destruct Hp as [->|]; auto.
Qed.

Lemma based_keeps (m0 m m' : mog_mgmt) : based m0 m -> m_fd m' = m_fd m -> keeps m m' -> based m0 m'.
Proof. intros [H0 Hk] Hfd Hk'. split; [lia|]. by eapply keeps_trans. Qed.

Lemma based_frame (m0 m m' : mog_mgmt) : based m0 m -> mframe m m' -> based m0 m'.
Proof. intros Hb (Hfd & _ & _ & _ & Hk). by eapply based_keeps. Qed.

Lemma small_files_eq (w w' : world) : w_fs w' = w_fs w -> small_files w -> small_files w'.
Proof. unfold small_files. by intros ->. Qed.

Lemma world_ok_same (w w' : world) : w_fs w' = w_fs w -> w_sock w' = w_sock w -> world_ok w -> world_ok w'.
Proof. unfold world_ok, small_files. by intros -> ->. Qed.

Lemma mnotes_ext (buf : list Z) (cs p : Z) (m m' : mog_mgmt) :
  m_wbuf m' = m_wbuf m -> m_alg m' = m_alg m -> m_mark0 m' = m_mark0 m -> m_mark1 m' = m_mark1 m ->
  mnotes buf cs p m -> mnotes buf cs p m'.
Proof. intros Hw Ha H0 H1 []. split; rewrite ?Hw, ?Ha, ?H0, ?H1; done. Qed.

(** [input_ok] is about the parser and the buffer only. *)
Lemma input_ok_ext (m m' : mog_mgmt) :
  m_cs m' = m_cs m -> m_offset m' = m_offset m -> m_mark0 m' = m_mark0 m -> m_mark1 m' = m_mark1 m ->
  m_rbuf m' = m_rbuf m -> m_alg m' = m_alg m -> input_ok m -> input_ok m'.
Proof.
  intros Hc Ho H0 H1 Hr Ha.
  assert (forall buf, mready buf (set_m_wbuf WNull m) -> mready buf (set_m_wbuf WNull m')) as Hx.
  { intros buf [Hn He]. split; cbn in *; [|congruence]. rewrite Hc. by eapply mnotes_ext; [..|exact Hn]. }
  unfold input_ok. cbn. rewrite Hr, Ho. destruct (m_rbuf m) as [r|]; [|auto].
  intros [Hch H]. split; [done|]. revert H. destruct (_ =? _); intros [H ?]; split; auto.
Qed.

Lemma fsck_ready_spec (st_dev : mog_file -> Z) (f : mog_file) (m : mog_mgmt) (w : world)
    (Q : bool -> mog_mgmt -> world -> Prop) :
  m_forward m = FFile f -> m_prio m = MOG_PRIO_FSCK ->
  (forall b t w', same_but_sys w w' -> w_sys w' = tail (w_sys w) -> Q b (upd_fsck t m) w') ->
  wp (fsck_ready st_dev) m w Q.
Proof.
  intros Hf Hp HQ. unfold fsck_ready, fstat_dev, forward_file. do 4 wp_step. rewrite Hf. do 2 wp_step.
  apply wp_sys_reply_tail. intros e w' Hs Ht _. do 4 wp_step. wp_step; [by rewrite Hp; destruct e|].
  destruct (mog_fsck_queue_ready _ _ _) as [b t]. do 3 wp_step. by apply HQ.
Qed.

(** [read] of up to [len] characters. *)
Lemma wp_read_chars (len : Z) (m : mog_mgmt) (w : world) (Q : errno + list Z -> mog_mgmt -> world -> Prop) :
  0 < len -> world_ok w ->
  (forall e w', w_fs w' = w_fs w -> world_ok w' ->
     (sock_size (w_sock w') < sock_size (w_sock w))%nat \/ e = EAGAIN -> Q (inl e) m w') ->
  (forall bs w', w_fs w' = w_fs w -> world_ok w' -> (sock_size (w_sock w') < sock_size (w_sock w))%nat ->
     Forall is_char bs -> zlen bs <= len -> Q (inr bs) m w') ->
  wp (sys_read len) m w Q.
Proof.
  intros Hlen [Hsm Hsc] He Hb. unfold wp, sys_read. destruct (w_sock w) as [|[bs|e] s] eqn:E.
  - eexists _, _, _. split; [done|]. apply He; [done|split; cbn; [done|by rewrite E]|by right].
  - apply Forall_cons_1 in Hsc as [Hbs Hs]. destruct (Z.leb_spec (zlen bs) len) as [Hle|Hgt].
    + eexists _, _, _. split; [done|]. apply Hb; try done. cbn. lia.
    + eexists _, _, _. split; [done|]. apply Hb; [done| | |by apply Forall_take|].
      * split; [done|]. cbn. apply Forall_cons. split; [by apply Forall_drop|done].
      * cbn. rewrite length_drop. unfold zlen in Hgt. lia.
      * unfold zlen. rewrite length_take. lia.
  - apply Forall_cons_1 in Hsc as [_ Hs]. eexists _, _, _. split; [done|].
    apply He; [done|done|]. left. cbn. lia.
Qed.

Section Safe.
Variable m0 : mog_mgmt.
Variable hash : Gc_hash -> list Z -> list Z.
Variable st_dev : mog_file -> Z.
Variable tls : mrbuf.
Hypothesis hash_len : forall bs, zlen (hash GC_MD5 bs) = 16 /\ zlen (hash GC_SHA1 bs) = 20.
Hypothesis hash_bytes : forall a bs, Forall (fun u => 0 <= u < 256) (hash a bs).

Lemma digest_in_progress_safe (f : mog_file) (m : mog_mgmt) (w : world) :
  mconn m0 m -> m_forward m = FFile f -> world_ok w ->
  wp (mgmt_digest_in_progress hash st_dev) m w (next_ok m0).
Proof.
  intros [Hfd [Hwe Hwb] Hin [Hf'|(f' & Hf' & Hd & Ha & Hw)]] Hf Hwd; [congruence|].
  rewrite Hf in Hf'. injection Hf' as <-.
  unfold mgmt_digest_in_progress. do 2 wp_step. wp_step. wp_step; [by rewrite Hf|]. wp_step.
  assert (forall m1 w1, based m0 m1 -> m_forward m1 = FFile f -> m_wbuf m1 = WNull -> m_alg m1 <> GC_MD4 -> input_ok m1 -> world_ok w1 ->
    wp (mgmt_digest_step hash st_dev;; m ← get_http;
        mret (match m_wbuf m with WError => MOG_NEXT_CLOSE | WBuf _ _ => MOG_NEXT_WAIT_WR | WNull => MOG_NEXT_ACTIVE end))
      m1 w1 (next_ok m0)) as Hstep.
  { intros m1 w1 Hfd1 Hf1 Hw1 Ha1 Hin1 Hwd1. wp_step.
    eapply wp_mono; [by apply (digest_step_spec hash st_dev hash_len hash_bytes f)|].
    intros [] m2 w2 [f2 (Hd2 & _ & _) -> (Hs1 & Hs2 & _) _ _ _|s wb reply acc Hacc -> Hok H1 H2 _ _ _]; do 3 wp_step.
    - cbn [m_wbuf set_m_forward]. rewrite Hw1. split; [|split; [by apply (world_ok_same w1)|done]]. split; [|done].
      split; cbn; [done|by rewrite Hw1|by eapply input_ok_ext; [..|exact Hin1]|]. right. eauto 6.
    - cbn [m_wbuf set_m_forward set_m_svc set_m_wbuf set_m_prio].
      assert (based m0 (set_m_svc s (set_m_wbuf wb (set_m_prio MOG_PRIO_NONE (set_m_forward FNull m1))))) as Hb
        by by apply (based_ext m0 m1); [..|right|].
      assert (wb <> WError -> mconn m0 (set_m_svc s (set_m_wbuf wb (set_m_prio MOG_PRIO_NONE (set_m_forward FNull m1))))).
      { intros Hne. split; cbn; [done|done|by eapply input_ok_ext; [..|exact Hin1]|by left]. }
      destruct wb; (split; [|split; [by apply (world_ok_same w1)|done]]); by (split; auto) || by right. }
  destruct (decide (m_prio m = MOG_PRIO_FSCK)) as [Hp|_]; [|wp_step; by apply Hstep].
  apply (fsck_ready_spec st_dev f); [done|done|]. intros [] t w1 (Hs1 & Hs2 & _) _.
  - cbn [negb]. apply Hstep; try done; [by eapply input_ok_ext; [..|exact Hin]|by apply (world_ok_same w)].
  - cbn [negb]. wp_step. split; [|split; [by apply (world_ok_same w)|done]]. right. split; [|cbn; eauto].
    split; cbn; [done|done|by eapply input_ok_ext; [..|exact Hin]|]. right. eauto 6.
Qed.

Lemma wbuf_in_progress_safe (m : mog_mgmt) (w : world) :
  mconn m0 m -> m_wbuf m <> WNull -> world_ok w -> wp mgmt_wbuf_in_progress m w (next_ok m0).
Proof.
  intros [Hfd [Hwe Hwb] Hin Hfw] Hnn Hwd. unfold mgmt_wbuf_in_progress. do 2 wp_step.
  destruct Hfw as [Hf|(f & _ & _ & _ & Hw)]; [|congruence].
  destruct (m_wbuf m) as [| |off b] eqn:Ew; [done|done|]. wp_step. wp_step; [done|]. wp_step.
  destruct (tryflush_loop_spec (replies (w_chan w)) (sent (w_chan w)) off b Hwb) as (st & wb & c & He & Hst).
  unfold wp at 1, mgmt_flush. rewrite Ew. cbn [mog_tryflush]. rewrite He. eexists _, _, _. split; [reflexivity|].
  assert (wb <> WError -> wbuf_ok wb -> mconn m0 (set_m_wbuf wb m)) as Hc.
  { intros. split; cbn; [done|done|by eapply input_ok_ext; [..|exact Hin]|by left]. }
  destruct st.
  - wp_step. destruct Hst as [-> _]. split; [by left|done].
  - do 2 wp_step. destruct Hst as [-> _]. cbn [m_forward set_m_wbuf]. rewrite Hf. wp_step. split; [|done]. by split; [apply Hc|].
  - wp_step. destruct Hst as (Hok & (o & b' & ->) & _). split; [|done]. split; [by apply Hc|done].
Qed.

(** Bytes behind the command are kept for the next step. *)
Lemma defer_safe (buf : list Z) (m : mog_mgmt) (w : world) (Q : unit -> mog_mgmt -> world -> Prop) :
  0 < m_offset m <= zlen buf -> zlen buf <= MOG_RBUF_BASE_SIZE -> Forall is_char buf ->
  (forall r, match r with
     | None => True
     | Some r => Forall is_char (mr_mem r) /\ mr_rsize r = zlen (mr_mem r) /\ 0 < zlen (mr_mem r) <= MOG_RBUF_BASE_SIZE
     end -> Q tt (set_m_offset 0 (set_m_rbuf r m)) w) ->
  wp (mgmt_defer_rbuf (match m_rbuf m with Some _ => true | None => false end) buf) m w Q.
Proof.
  intros Ho Hb Hc HQ. unfold mgmt_defer_rbuf, MOG_RBUF_BASE_SIZE in *. do 2 wp_step.
  rewrite wrap_u64_id by lia. wp_step. wp_step; [lia|]. wp_step. wp_step; [lia|]. wp_step.
  destruct (Z.eqb_spec (zlen buf - m_offset m) 0) as [Hz|Hz].
  - do 2 wp_step. by apply (HQ None).
  - wp_step. wp_step; [by destruct (m_rbuf m)|]. do 2 wp_step.
    apply (HQ (Some (MRbuf (slice (m_offset m) (zlen buf - m_offset m) buf) (zlen buf - m_offset m)))). cbn.
    rewrite zlen_slice by lia. split; [by apply Forall_take, Forall_drop|lia].
Qed.

Lemma to_digest_digesting (w : world) (m : mog_mgmt) (f : mog_file) :
  small_files w -> to_digest w m f -> digesting f /\ m_alg m <> GC_MD4 /\ m_wbuf m = WNull.
Proof.
  intros Hs (Hw & Ha & p & c & -> & _ & Hc). split; [|done]. exists p, [], c. split; [done|]. by eapply Hs.
Qed.

(** After a command. *)
Lemma command_done_safe (buf : list Z) (m m' : mog_mgmt) (w w' : world) :
  based m0 m -> world_ok w -> m_forward m = FNull -> 0 < m_offset m' <= zlen buf -> zlen buf <= MOG_RBUF_BASE_SIZE ->
  Forall is_char buf -> commanded m w m' w' -> m_wbuf m' <> WError ->
  wp (match m_forward m' with
      | FIostat => mgmt_iostat_forever
      | _ =>
          mgmt_defer_rbuf (match m_rbuf m with Some _ => true | None => false end) buf;;
          put_http mog_mgmt_reset_parser;;
          m ← get_http;
          mret (match m_wbuf m with WNull => MOG_NEXT_ACTIVE | _ => MOG_NEXT_WAIT_WR end)
      end) m' w' (next_ok m0).
Proof.
  intros Hfd0 Hwd Hf0 Ho Hb Hc [Hfd Hrb Hok Hfs Hsk _ _ Hk Hfw] Hne.
  assert (based m0 m') as Hbm by by eapply based_keeps.
  assert (world_ok w') as Hwd' by by apply (world_ok_same w).
  assert (m_forward m' = FIostat /\ m_wbuf m' = WNull \/ (m_forward m' <> FIostat /\ (m_forward m' = FNull \/
    exists f, m_forward m' = FFile f /\ digesting f /\ m_alg m' <> GC_MD4 /\ m_wbuf m' = WNull))) as [[Hf Hw]|[Hnf Hf]].
  { destruct Hfw as [Hf|[Hf|[?|(f & Hf & Ht)]]]; [right|right|by left|right]; (split; [congruence|]); [left; congruence..|].
    right. exists f. split; [done|]. eapply to_digest_digesting; [apply Hwd|done]. }
  { rewrite Hf. unfold mgmt_iostat_forever. do 3 wp_step. split; [|done]. left. by split_and!. }
  assert (wp (mgmt_defer_rbuf (match m_rbuf m with Some _ => true | None => false end) buf;;
    put_http mog_mgmt_reset_parser;; m ← get_http;
    mret (match m_wbuf m with WNull => MOG_NEXT_ACTIVE | _ => MOG_NEXT_WAIT_WR end)) m' w' (next_ok m0)) as Hgo.
  { wp_step. rewrite <- Hrb. apply defer_safe; [done..|]. intros r Hr. do 5 wp_step. split; [|done].
    set (m2 := mog_mgmt_reset_parser _).
    assert (mconn m0 m2) as Hm.
    { split; [done|done| |done]. unfold input_ok. cbn [m_rbuf set_m_wbuf].
      assert (mready [] (set_m_wbuf WNull m2)) as Hrd
        by by apply (mready_reset (set_m_wbuf WNull (set_m_offset 0 (set_m_rbuf r m')))).
      change (m_rbuf m2) with r. destruct r as [r|]; [|done]. destruct Hr as (H1 & H2 & H3). by split. }
    change (m_wbuf m2) with (m_wbuf m'). destruct (m_wbuf m') eqn:Ew; [by split|done|split; [done|cbn; congruence]]. }
  destruct (m_forward m'); done.
Qed.

Lemma parse_step_safe (k : bool -> Z -> list Z -> MM mog_next) (pre bs : list Z) (m : mog_mgmt) (w : world) :
  let owned := match m_rbuf m with Some _ => true | None => false end in
  let buf := pre ++ bs in
  based m0 m -> mready pre m -> m_forward m = FNull -> Forall is_char buf -> zlen buf <= MOG_RBUF_BASE_SIZE -> world_ok w ->
  (forall m', mready buf m' -> mframe m m' -> zlen buf < MOG_RBUF_BASE_SIZE ->
     wp (k owned (zlen buf) buf) m' w (next_ok m0)) ->
  wp (mgmt_parse_step k owned buf) m w (next_ok m0).
Proof.
  intros owned buf Hfd Hr Hf Hc Hz Hwd Hk. unfold mgmt_parse_step. wp_step.
  eapply wp_mono; [by apply mgmt_parse_total; [..|apply Hwd]|]. intros st m' w' Hst. do 2 wp_step.
  assert (m_wbuf m' = WError \/ m_wbuf m' <> WError) as [Hwe|Hwe] by (destruct (m_wbuf m'); auto).
  { rewrite Hwe. wp_step. split; [by right|]. destruct st; cbn in Hst.
    - destruct Hst as (H & _). congruence.
    - destruct Hst as [_ [Hfd' ? ? Hfs Hsk ? ? Hk' ?]]. split; [by apply (world_ok_same w)|].
      by eapply based_keeps.
    - destruct Hst as ([H _] & _). by rewrite (mn_wbuf _ _ _ _ H) in Hwe. }
  assert (wp (match st with
    | MOG_PARSER_ERROR => mret MOG_NEXT_CLOSE
    | MOG_PARSER_CONTINUE =>
        assertM (is_wnull (m_wbuf m'));;
        (if m_offset m' =? MOG_RBUF_BASE_SIZE then
          assertM (zlen buf =? MOG_RBUF_BASE_SIZE);; mret MOG_NEXT_CLOSE
        else k owned (zlen buf) buf)
    | MOG_PARSER_DONE =>
        match m_forward m' with
        | FIostat => mgmt_iostat_forever
        | _ => mgmt_defer_rbuf owned buf;; put_http mog_mgmt_reset_parser;; m ← get_http;
            mret (match m_wbuf m with WNull => MOG_NEXT_ACTIVE | _ => MOG_NEXT_WAIT_WR end)
        end
    end) m' w' (next_ok m0)) as Hgo; [|by destruct (m_wbuf m')].
  destruct st; cbn in Hst.
  - destruct Hst as (Hw & Hfr & ->). wp_step. split; [by left|]. split; [done|by eapply based_frame].
  - destruct Hst as [Ho Hcd]. by apply (command_done_safe buf m m' w w').
  - destruct Hst as (Hrd & Hfr & ->). pose proof (mn_wbuf _ _ _ _ (proj1 Hrd)) as Hw. wp_step.
    wp_step; [by rewrite Hw|]. pose proof (proj2 Hrd) as Ho. fold buf in Ho. rewrite Ho.
    destruct (Z.eqb_spec (zlen buf) MOG_RBUF_BASE_SIZE).
    + wp_step. wp_step; [done|]. wp_step. split; [by left|]. split; [done|by eapply based_frame].
    + apply Hk; [done|done|lia].
Qed.

Lemma set_m_rbuf_id (m : mog_mgmt) : set_m_rbuf (m_rbuf m) m = m.
Proof. by destruct m. Qed.

(** Waiting for the rest of a command: the bytes are kept. *)
Lemma wait_rd_safe (m : mog_mgmt) (w : world) (mem : list Z) (r : option mrbuf) :
  based m0 m -> mready (take (Z.to_nat (m_offset m)) mem) m -> m_forward m = FNull -> world_ok w ->
  m_offset m < MOG_RBUF_BASE_SIZE -> Forall is_char (take (Z.to_nat (m_offset m)) mem) -> (m_offset m = 0 -> r = None) ->
  (0 < m_offset m -> zlen mem = m_offset m /\ exists n, r = Some (MRbuf mem n)) ->
  next_ok m0 MOG_NEXT_WAIT_RD (set_m_rbuf r m) w.
Proof.
  intros Hfd Hr Hf Hwd Hlt Hc H0 H1. pose proof (proj2 Hr) as Ho. pose proof (mn_wbuf _ _ _ _ (proj1 Hr)) as Hw.
  split; [|done]. split; [|by split]. split; [done|cbn; by rewrite Hw| |by left].
  assert (forall buf, mready buf m -> mready buf (set_m_wbuf WNull (set_m_rbuf r m))) as Hx.
  { intros buf [Hn He]. split; [|done]. by eapply mnotes_ext; [..|exact Hn]. }
  unfold input_ok. cbn [m_rbuf set_m_wbuf set_m_rbuf m_offset]. pose proof (zlen_nonneg (take (Z.to_nat (m_offset m)) mem)).
  destruct (decide (m_offset m = 0)) as [Hz|Hz].
  - rewrite (H0 Hz) in *. apply Hx. by rewrite Hz in Hr.
  - destruct H1 as [Hmem [n ->]]; [lia|]. cbn [mr_mem mr_rsize].
    rewrite <- Hmem in Hr, Hc. unfold zlen in Hr, Hc. rewrite Nat2Z.id, firstn_all in Hr, Hc. split; [done|].
    destruct (Z.eqb_spec (m_offset m) 0); [done|]. split; [by apply Hx|lia].
Qed.

(** Reading more of a command. *)
Lemma reread_safe (fuel : nat) (buf_len : Z) (mem : list Z) (m : mog_mgmt) (w : world) :
  let owned := match m_rbuf m with Some _ => true | None => false end in
  let pre := take (Z.to_nat (m_offset m)) mem in
  (sock_size (w_sock w) < fuel)%nat -> based m0 m -> m_forward m = FNull -> world_ok w ->
  mready pre m -> m_offset m < MOG_RBUF_BASE_SIZE -> Forall is_char pre ->
  (m_offset m = 0 -> m_rbuf m = None /\ buf_len = 0) ->
  (0 < m_offset m -> zlen mem = m_offset m /\ (m_rbuf m = None -> 0 < buf_len)) ->
  wp (mgmt_reread tls fuel owned buf_len mem) m w (next_ok m0).
Proof.
  revert buf_len mem m w. induction fuel as [|fuel IH]; intros buf_len mem m w owned pre Hfu Hfd Hf Hwd Hr Ho Hc H0 H1; [lia|].
  cbn [mgmt_reread]. do 3 wp_step. pose proof (proj2 Hr) as Hoff. pose proof (zlen_nonneg pre).
  pose proof (mn_wbuf _ _ _ _ (proj1 Hr)) as Hw.
  apply wp_read_chars; [lia|done|..].
  - intros e w1 Hfs Hwd1 Hsz.
    assert (wp (mret MOG_NEXT_CLOSE) m w1 (next_ok m0)) as Hclose by (wp_step; split; [by left|done]).
    destruct e; try done.
    + apply IH; [destruct Hsz; [lia|done]|done..].
    + wp_step.
      destruct (m_rbuf m) as [r|] eqn:Er.
      * do 2 wp_step. apply (wait_rd_safe _ _ mem); try done; [|intros Hz; destruct (H1 Hz); eauto]. intros Hz. by destruct (H0 Hz).
      * destruct (Z.ltb_spec 0 buf_len).
        -- do 2 wp_step. apply (wait_rd_safe _ _ mem); try done; [|intros Hz; destruct (H1 Hz); eauto]. intros Hz. destruct (H0 Hz). lia.
        -- wp_step. rewrite <- (set_m_rbuf_id m), Er.
           wp_step. apply (wait_rd_safe _ _ mem); try done. intros Hz. destruct (H1 Hz) as [_ Hb]. specialize (Hb eq_refl). lia.
  - intros bs w1 Hfs Hwd1 Hsz Hbs Hlen. destruct bs as [|b bs]; [wp_step; split; [by left|done]|].
    assert (zlen (pre ++ b :: bs) = m_offset m + zlen (b :: bs)) as Hz by by rewrite zlen_app, Hoff.
    rewrite zlen_cons in Hz. pose proof (zlen_nonneg bs). rewrite zlen_cons in Hlen.
    assert (Forall is_char (pre ++ b :: bs)) as Hch by by apply Forall_app.
    fold pre. clearbody pre. apply parse_step_safe; [done|done|done|done|lia|done|].
    intros m' Hr' (Hf1 & Hf2 & Hf3 & Hf4 & Hf5) Hlt. pose proof (proj2 Hr') as Ho'. rewrite <- Hf2.
    apply IH; [lia|by eapply based_keeps|congruence|done| |lia| |lia|].
    + unfold zlen in Ho'. rewrite Ho', Nat2Z.id, firstn_all. done.
    + unfold zlen in Ho'. by rewrite Ho', Nat2Z.id, firstn_all.
    + intros _. split; [done|]. lia.
Qed.

Lemma queue_step_safe (m : mog_mgmt) (w : world) :
  mconn m0 m -> world_ok w -> wp (mgmt_queue_step hash st_dev tls) m w (next_ok m0).
Proof.
  intros Hm Hwd. pose proof (mc_based _ _ Hm) as Hfd. unfold mgmt_queue_step. do 5 wp_step. wp_step; [destruct Hfd; lia|].
  destruct (m_wbuf m) as [| |off b] eqn:Ew; [|by destruct (proj1 (mc_wbuf _ _ Hm))|by apply wbuf_in_progress_safe; [..|congruence|]].
  pose proof (mc_forward _ _ Hm) as Hfw. destruct (m_forward m) as [| |f] eqn:Ef;
    [|by destruct Hfw as [|(f & ? & _)]|by apply (digest_in_progress_safe f)].
  pose proof (mc_input _ _ Hm) as Hin. unfold input_ok in Hin. cbn [m_rbuf set_m_wbuf m_offset] in Hin.
  assert (set_m_wbuf WNull m = m) as Hid by (destruct m; cbn in *; by subst). rewrite Hid in Hin.
  assert (0 <= m_offset m < MOG_RBUF_BASE_SIZE) as Ho.
  { unfold MOG_RBUF_BASE_SIZE in *. destruct (m_rbuf m) as [r|].
    - destruct Hin as [_ Hin]. destruct (Z.eqb_spec (m_offset m) 0); [lia|]. destruct Hin as [[_ ->] ?].
      pose proof (zlen_nonneg (mr_mem r)). lia.
    - destruct Hin as [_ Ho]. change (zlen []) with 0 in Ho. lia. }
  wp_step. wp_step; [lia|]. wp_step. wp_step; [lia|].
  destruct (m_rbuf m) as [r|] eqn:Er.
  - destruct Hin as [Hch Hin]. destruct (Z.eqb_spec (m_offset m) 0) as [Hz|Hz].
    + destruct Hin as (Hr & Hrs & Hlen). unfold zlen in Hrs. rewrite Hrs, Nat2Z.id, firstn_all.
      change true with (match Some r with Some _ => true | None => false end). rewrite <- Er.
      apply (parse_step_safe _ [] (mr_mem r)); [done|done|done|done|cbn; lia|done|].
      intros m' Hr' (Hf1 & Hf2 & Hf3 & Hf4 & Hf5) Hlt. pose proof (proj2 Hr') as Ho'. cbn [app] in *. rewrite <- Hf2.
      assert (take (Z.to_nat (m_offset m')) (mr_mem r) = mr_mem r) as Ht
        by (unfold zlen in Ho'; by rewrite Ho', Nat2Z.id, firstn_all).
      apply reread_safe; rewrite ?Ht; (done || lia || congruence || by eapply based_keeps).
    + destruct Hin as [Hr Hlen]. pose proof (proj2 Hr) as Ho'.
      assert (take (Z.to_nat (m_offset m)) (mr_mem r) = mr_mem r) as Ht
        by (unfold zlen in Ho'; by rewrite Ho', Nat2Z.id, firstn_all).
      change true with (match Some r with Some _ => true | None => false end). rewrite <- Er.
      apply reread_safe; rewrite ?Ht; (done || lia || idtac). intros _. split; [done|]. congruence.
  - assert (m_offset m = 0) as Hz by (destruct Hin as [_ ->]; done).
    change false with (match @None mrbuf with Some _ => true | None => false end). rewrite <- Er.
    apply reread_safe; rewrite ?Hz; (done || lia || idtac).
Qed.

Lemma step_safe (m : mog_mgmt) (w : world) :
  mconn m0 m -> world_ok w -> wp (mog_mgmt_queue_step hash st_dev tls) m w (next_ok m0).
Proof.
  intros Hm Hwd. unfold mog_mgmt_queue_step. wp_step. eapply wp_mono; [by apply queue_step_safe|].
  intros rv m' w' Hn. wp_step. destruct (decide (rv = MOG_NEXT_CLOSE)) as [->|]; [|by do 2 wp_step].
  unfold mgmt_close. do 2 wp_step. wp_step; [by destruct Hn as [[-> | ->] _]|]. by wp_step.
Qed.

(** The life of a client: between the steps more bytes and errors arrive on the
    socket.  It ends with the connection or with a subscription to statistics;
    a client that waits for its turn in an fsck queue is woken up later. *)
Fixpoint mgmt_drive (later : list (list rd)) : MM mog_next :=
  rv ← mog_mgmt_queue_step hash st_dev tls;
  m ← get_http;
  match later, rv, m_forward m with
  | [], _, _ | _, MOG_NEXT_CLOSE, _ | _, _, FIostat => mret rv
  | s :: later, _, _ =>
      put_world (fun w => set_sock (w_sock w ++ s) w);; mgmt_drive later
  end.

Lemma mconn_init (fd : Z) (svc : mog_svc) : 0 <= fd -> mconn (mog_mgmt_init fd svc) (mog_mgmt_init fd svc).
Proof. intros Hfd. split; [done|done|apply mready_init|by left]. Qed.

Lemma drive_safe (later : list (list rd)) (m : mog_mgmt) (w : world) :
  mconn m0 m -> world_ok w -> Forall sock_chars later -> wp (mgmt_drive later) m w (next_ok m0).
Proof.
  revert m w. induction later as [|s later IH]; intros m w Hm Hwd Hl; cbn [mgmt_drive]; wp_step;
    (eapply wp_mono; [by apply step_safe|]); intros rv m' w' Hn; do 2 wp_step; [by wp_step|].
  apply Forall_cons_1 in Hl as [Hs Hl].
  assert (mconn m0 m' -> wp (put_world (fun w => set_sock (w_sock w ++ s) w);; mgmt_drive later) m' w' (next_ok m0)) as Hgo.
  { intros Hm'. do 2 wp_step. apply IH; [done| |done]. destruct Hn as [_ [[Hsm Hsc] _]]. split; [done|].
    cbn. by apply Forall_app. }
  assert (wp (mret rv) m' w' (next_ok m0)) as Hret by by wp_step.
  destruct Hn as [Hn _], rv; cbn in Hn; try done; destruct (m_forward m') eqn:Ef; try done;
    try (apply Hgo; by destruct Hn); destruct Hn as [(? & _)|[? _]]; by auto.
Qed.

(** ** Serving a digest *)

(** The client is scheduled until its digest is done. *)
Fixpoint digest_drive (fuel : nat) : MM mog_next :=
  match fuel with
  | O => crash OutOfFuel
  | S fuel' =>
      rv ← mog_mgmt_queue_step hash st_dev tls;
      m ← get_http;
      match m_forward m with FFile _ => digest_drive fuel' | _ => mret rv end
  end.

(** The reply of a digest was sent or is in the write buffer. *)
Definition digest_answered (a : Gc_hash) (p c : list Z) (w : world) (m' : mog_mgmt) (w' : world) : Prop :=
  m_forward m' = FNull /\ w_fs w' = w_fs w /\
  exists acc, sent (w_chan w') = sent (w_chan w) ++ acc /\
    (m_wbuf m' <> WError -> acc ++ pending (m_wbuf m') = digest_line hash a p c).

Lemma digest_drive_spec (fuel : nat) (f : mog_file) (m : mog_mgmt) (w : world) :
  0 <= m_fd m -> m_forward m = FFile f -> digesting f -> m_wbuf m = WNull -> m_alg m <> GC_MD4 -> m_prio m = MOG_PRIO_NONE ->
  reads_ok (w_sys w) -> (digest_left f w < fuel)%nat ->
  wp (digest_drive fuel) m w (fun _ m' w' => digest_answered (m_alg m) (default [] (path f)) (contents f) w m' w').
Proof.
  revert f m w. induction fuel as [|fuel IH]; intros f m w Hfd Hf Hd Hw Ha Hp Hrd Hl; [lia|].
  cbn [digest_drive]. wp_step. unfold mog_mgmt_queue_step, mgmt_queue_step. do 6 wp_step. wp_step; [lia|]. rewrite Hw, Hf.
  unfold mgmt_digest_in_progress. do 2 wp_step. wp_step. wp_step; [by rewrite Hf|]. wp_step. rewrite Hp.
  destruct (decide (MOG_PRIO_NONE = MOG_PRIO_FSCK)); [done|]. wp_step. cbn [negb]. wp_step.
  eapply wp_mono; [by apply (digest_step_spec hash st_dev hash_len hash_bytes f)|].
  intros [] m2 w2 [f2 (Hd2 & Hp2 & Hc2) -> (Hs1 & Hs2 & Hs3 & Hs4) Hrd2 _ Hlt|s wb reply acc Hacc -> Hok H1 H2 Hs Hall Hrep]; do 3 wp_step.
  - cbn [m_wbuf set_m_forward]. rewrite Hw. destruct (decide (MOG_NEXT_ACTIVE = MOG_NEXT_CLOSE)); [done|].
    do 5 wp_step. cbn [m_forward set_m_forward].
    eapply wp_mono; [apply (IH f2); auto; lia|]. intros rv m' w' (H1 & H2 & acc & H3 & H4). cbn in H4.
    split; [done|]. split; [congruence|]. exists acc. rewrite <- Hs3, <- Hp2, <- Hc2. auto.
  - wp_step. cbn [m_wbuf set_m_svc set_m_wbuf].
    eapply (wp_mono _ _ _ (fun _ m' w' => m' = set_m_svc s (set_m_wbuf wb (set_m_prio MOG_PRIO_NONE (set_m_forward FNull m))) /\ w' = w2)).
    + destruct wb; case_decide; try done; [by wp_step| |by wp_step]. unfold mgmt_close. do 2 wp_step. by wp_step.
    + intros [] m' w' [-> ->]. do 3 wp_step. cbn [m_forward set_m_svc set_m_wbuf set_m_prio set_m_forward]. wp_step.
      split; [done|]. split; [done|]. exists acc. split; [done|]. cbn. intros Hne. rewrite Hall by done. by apply Hrep.
Qed.

(** A client that waits for a command. *)
Definition idle (m : mog_mgmt) : Prop :=
  0 <= m_fd m /\ mready [] m /\ m_cs m = mgmt_parser_start /\ m_rbuf m = None /\ m_forward m = FNull /\ m_prio m = MOG_PRIO_NONE.

(** A whole line in one piece: the command runs in the first step. *)
Lemma line_step (c : command_line) (e : eol) (m : mog_mgmt) (w : world) (Q : mog_next -> mog_mgmt -> world -> Prop) :
  let line := command_bytes c ++ eol_bytes e in
  idle m -> legal_command c = true -> world_ok w -> w_sock w = [RBytes line] -> zlen line <= MOG_RBUF_BASE_SIZE ->
  (forall k0 k1 m' w', command_effect c (set_m_mark0 k0 (set_m_mark1 k1 m)) (set_sock [] w) m' w' ->
     m_wbuf m' <> WError -> m_forward m' <> FIostat ->
     Q (match m_wbuf m' with WNull => MOG_NEXT_ACTIVE | _ => MOG_NEXT_WAIT_WR end)
       (mog_mgmt_reset_parser (set_m_offset 0 (set_m_rbuf None m'))) w') ->
  (forall k0 k1 m' w', command_effect c (set_m_mark0 k0 (set_m_mark1 k1 m)) (set_sock [] w) m' w' ->
     m_wbuf m' = WError \/ m_forward m' = FIostat ->
     wp (match m_wbuf m' with WError => mret MOG_NEXT_CLOSE | _ => mgmt_iostat_forever end)
       (set_m_offset (zlen line) (set_m_cs mgmt_parser_first_final m')) w' Q) ->
  wp (mgmt_queue_step hash st_dev tls) m w Q.
Proof.
  intros line (Hfd & Hr & Hcs & Hrb & Hf & Hp) Hl Hwd Hs Hz Hgo Hend.
  pose proof (mn_wbuf _ _ _ _ (proj1 Hr)) as Hw.
  assert (m_offset m = 0) as Ho by (destruct Hr as [_ ->]; done).
  unfold mgmt_queue_step. do 5 wp_step. wp_step; [lia|]. rewrite Hw, Hf, Ho, Hrb. wp_step. wp_step; [done|]. wp_step. wp_step; [done|].
  assert (line <> []) as Hne by (unfold line; destruct e; by destruct (command_bytes c)).
  cbn [mgmt_reread]. do 3 wp_step. unfold wp at 1, sys_read. rewrite Hs, Ho.
  destruct (Z.leb_spec (zlen line) (MOG_RBUF_BASE_SIZE - 0)); [|lia].
  eexists _, _, _. split; [reflexivity|]. destruct line as [|b bs] eqn:El; [done|]. cbv iota. rewrite <- El in *. clear El.
  cbn [Z.to_nat take app]. unfold mgmt_parse_step. wp_step.
  assert (Forall is_char line) as Hch.
  { destruct Hwd as [_ Hsc]. rewrite Hs in Hsc. by apply Forall_cons_1 in Hsc as [? _]. }
  change (take (Z.to_nat 0) (mr_mem tls)) with (@nil Z). cbn [app].
  destruct (command_runs c e [] m (set_sock [] w) Hl Hr Hcs (proj1 Hwd)) as (k0 & k1 & m' & w' & Hp' & He);
    [by rewrite app_nil_r|]. rewrite app_nil_r in Hp'. fold line in Hp'.
  eexists _, _, _. split; [exact Hp'|]. do 2 wp_step. specialize (Hgo _ _ _ _ He). specialize (Hend _ _ _ _ He).
  cbn [m_wbuf m_forward set_m_offset set_m_cs].
  assert (m_wbuf m' <> WError -> m_forward m' <> FIostat ->
    wp (mgmt_defer_rbuf false line;; put_http mog_mgmt_reset_parser;; m ← get_http;
        mret (match m_wbuf m with WNull => MOG_NEXT_ACTIVE | _ => MOG_NEXT_WAIT_WR end))
      (set_m_offset (zlen line) (set_m_cs mgmt_parser_first_final m')) w' Q) as Hdefer.
  { intros H1 H2. wp_step. unfold mgmt_defer_rbuf. do 2 wp_step. cbn [m_offset set_m_offset].
    rewrite Z.sub_diag. pose proof (zlen_nonneg line). wp_step. wp_step; [lia|]. wp_step. wp_step; [done|].
    wp_step. change (wrap_u64 0 =? 0) with true. cbv iota. do 7 wp_step. by apply Hgo. }
  destruct (m_wbuf m'), (m_forward m'); auto.
Qed.
End Safe.

(** A connection during a graceful shutdown, between two steps. *)
Definition quitting (m m' : mog_mgmt) : Prop :=
  mconn m m' /\ s_accepting (m_svc m') = false /\ m_prio m' = MOG_PRIO_NONE.

(** What a step of the shutdown decides, and why. *)
Definition quit_ok (m : mog_mgmt) (q : mgmt_quit) (m' : mog_mgmt) (w' : world) : Prop :=
  world_ok w' /\
  match q with
  | MQuitClosed => m_wbuf m' = WNull \/ m_wbuf m' = WError
  | MQuitWaitRd => quitting m m' /\ m_rbuf m' <> None
  | MQuitActive => quitting m m' /\ m_wbuf m' = WNull
  | MQuitWaitWr => quitting m m' /\ m_wbuf m' <> WNull
  end.

(** ** Properties *)

(** What the code relies on of the hash library: digests of the documented
    lengths, made of bytes. *)
Record hash_spec (hash : Gc_hash -> list Z -> list Z) : Prop := {
  hs_len : forall bs, zlen (hash GC_MD5 bs) = 16 /\ zlen (hash GC_SHA1 bs) = 20;
  hs_bytes : forall a bs, Forall (fun u => 0 <= u < 256) (hash a bs)
}.

(** C13.  No client can bring down a management thread: whatever bytes arrive,
    in whatever pieces, and whichever [read], [write], [open] and [fstat] calls
    fail, every step of the connection returns, no assertion fails, the
    read buffer is not overrun, and the connection ends up in the queue its
    state calls for: waiting for output exactly when output is left, waiting
    for input only when it has nothing else to do. *)
Theorem mgmt_never_aborts (hash : Gc_hash -> list Z -> list Z) (st_dev : mog_file -> Z) (tls : mrbuf)
    (fd : Z) (svc : mog_svc) (later : list (list rd)) (w : world) :
  hash_spec hash -> 0 <= fd -> world_ok w -> Forall sock_chars later ->
  wp (mgmt_drive hash st_dev tls later) (mog_mgmt_init fd svc) w (next_ok (mog_mgmt_init fd svc)).
Proof. intros [Hl Hb] Hfd Hw Hs. apply drive_safe; auto using mconn_init. Qed.

(** A hash of the right shape. *)
Definition toy_hash (a : Gc_hash) (bs : list Z) : list Z :=
  replicate (match a with GC_MD5 => 16 | _ => 20 end) (zlen bs mod 256).

Lemma toy_hash_spec : hash_spec toy_hash.
Proof.
  split; [done|]. intros a bs. apply Forall_replicate. apply Z.mod_pos_bound. lia.
Qed.

Lemma file_world_ok (s : list rd) : sock_chars s -> world_ok (set_sock s file_world).
Proof. intros Hs. split; [exact small_file_world|done]. Qed.

(** A digest, a command in two pieces and garbage. *)
Lemma mgmt_never_aborts_witness :
  wp (mgmt_drive toy_hash (fun _ => 1) (MRbuf [] 0)
       [[]; [RBytes (str "si")]; [RErr EINTR; RBytes (str "ze /dev1/f" ++ CRLF)]; [RBytes [-1; 10]]])
    (mog_mgmt_init 7 svc0) (set_sock [RBytes (str "MD5 /dev1/f" ++ CRLF)] file_world)
    (next_ok (mog_mgmt_init 7 svc0)).
Proof.
  apply mgmt_never_aborts; [exact toy_hash_spec|lia|apply file_world_ok|]; cbn; repeat constructor; vm_compute; congruence.
Defined.




