(* ===== verification/FdMap.v ===== *)
(** The map from descriptors to their memory (fdmap.c): heaps of 256 slots that
    are never freed, lookup without a lock, the hand-over of all clients to the
    queue of a graceful shutdown, and the expiry of idle clients. *)
From S2P Require Import Prelude FsckQueue Http MgmtFn.
From stdpp Require Import base list numbers relations.
From Stdlib Require Import ZArith Lia.

#[local] Open Scope Z_scope.

Inductive mog_fd_type :=
  | MOG_FD_TYPE_UNUSED | MOG_FD_TYPE_HTTP | MOG_FD_TYPE_HTTPGET | MOG_FD_TYPE_MGMT | MOG_FD_TYPE_IOSTAT
  | MOG_FD_TYPE_SELFWAKE | MOG_FD_TYPE_SELFPIPE | MOG_FD_TYPE_ACCEPT | MOG_FD_TYPE_FILE | MOG_FD_TYPE_QUEUE
  | MOG_FD_TYPE_SVC.

#[export] Instance mog_fd_type_eq_dec : EqDecision mog_fd_type.
Proof. solve_decision. Defined.

(** [struct mog_fd]; of [as] the field [mgmt.prio] is the one fdmap.c touches. *)
Record mog_fd := MogFd { fd_type : mog_fd_type; mfd_fd : Z; as_prio : mog_prio }.

Definition FD_PER_HEAP : Z := 256.

(** [fd_map] (its number of entries, [None] while it is NULL), its first
    [fd_heaps] entries, and [max_fd]. *)
Record fdmap := FdMap { fm_cap : option Z; heaps : list (list mog_fd); max_fd : Z }.

(** Pointers into the heaps. *)
Abbreviation mfd_ptr := (Z * Z)%type.

Definition aref (fd : Z) : mfd_ptr := (fd / FD_PER_HEAP, fd mod FD_PER_HEAP).

(** The memory a pointer leads to; the entries behind [fd_heaps] are not
    initialised. *)
Definition deref (t : fdmap) (q : mfd_ptr) : res mog_fd :=
  match heaps t !! Z.to_nat q.1 with
  | None => Crash OutOfBounds
  | Some base => match base !! Z.to_nat q.2 with None => Crash OutOfBounds | Some s => Ok s end
  end.

Definition store (q : mfd_ptr) (s : mog_fd) (t : fdmap) : fdmap :=
  FdMap (fm_cap t) (alter (insert (Z.to_nat q.2) s) (Z.to_nat q.1) (heaps t)) (max_fd t).

Section Map.
(** [sysconf (_SC_OPEN_MAX)]. *)
Variable open_max : Z.

Definition fd_map_init (t : fdmap) : res fdmap :=
  assert! bool_decide (fm_cap t = None);
  Ok (FdMap (Some (open_max / FD_PER_HEAP + 1)) (heaps t) (max_fd t)).

(** A fresh heap for the descriptors from [fd_max]. *)
Definition new_heap (fd_max : Z) : list mog_fd :=
  map (fun i => MogFd MOG_FD_TYPE_UNUSED (fd_max + Z.of_nat i) MOG_PRIO_NONE) (seq 0 (Z.to_nat FD_PER_HEAP)).

(** [fd_map[fd_heaps++] = base]. *)
Definition store_heap (t : fdmap) : res fdmap :=
  match fm_cap t with
  | Some cap =>
      if Z.of_nat (length (heaps t)) <? cap
      then Ok (FdMap (fm_cap t) (heaps t ++ [new_heap (max_fd t)]) (max_fd t))
      else Crash OutOfBounds
  | None => Crash OutOfBounds
  end.

Definition publish_heap (t : fdmap) : fdmap :=
  FdMap (fm_cap t) (heaps t) (max_fd t + FD_PER_HEAP).

(** The loop of [grow_ref]. *)
Fixpoint grow_loop (fuel : nat) (fd : Z) (t : fdmap) : res fdmap :=
  if fd <? max_fd t then Ok t
  else
    match fuel with
    | O => Crash OutOfFuel
    | S fuel' => let* t := store_heap t in grow_loop fuel' fd (publish_heap t)
    end.

Definition grow_fuel (fd : Z) (t : fdmap) : nat := Z.to_nat (fd - max_fd t + 1).

Definition grow_ref (fd : Z) (t : fdmap) : res (mfd_ptr * fdmap) :=
  assert! fd <? INT_MAX;
  let* t := (match fm_cap t with None => fd_map_init t | Some _ => Ok t end) in
  let* t := grow_loop (grow_fuel fd t) fd t in
  Ok (aref fd, t).

Definition mog_fd_get (fd : Z) (t : fdmap) : res (mfd_ptr * fdmap) :=
  assert! 0 <=? fd;
  if fd <? max_fd t then Ok (aref fd, t) else grow_ref fd t.

Definition mog_fd_init (fd : Z) (ty : mog_fd_type) (t : fdmap) : res (mfd_ptr * fdmap) :=
  let* '(mfd, t) := mog_fd_get fd t in
  let* s := deref t mfd in
  assert! mfd_fd s =? fd;
  Ok (mfd, store mfd (MogFd ty (mfd_fd s) (as_prio s)) t).

(** The descriptor is closed by the caller of the model. *)
Definition mog_fd_put (mfd : mfd_ptr) (t : fdmap) : res fdmap :=
  let* s := deref t mfd in
  let fd := mfd_fd s in
  assert! 0 <=? fd;
  assert! fd <? max_fd t;
  assert! bool_decide (aref fd = mfd);
  Ok (store mfd (MogFd MOG_FD_TYPE_UNUSED fd (as_prio s)) t).

(** [mog_fdmap_requeue]: [n] descriptors are left, from the highest one; the
    descriptors added to the queue and [mog_nr_active_at_quit]. *)
Fixpoint requeue_loop (n : nat) (nr : Z) (t : fdmap) : res (list Z * Z * fdmap) :=
  match n with
  | O => Ok ([], nr, t)
  | S n' =>
      let mfd := aref (Z.of_nat n') in
      let* s := deref t mfd in
      let t := match fd_type s with
               | MOG_FD_TYPE_MGMT => store mfd (MogFd (fd_type s) (mfd_fd s) MOG_PRIO_NONE) t
               | _ => t
               end in
      match fd_type s with
      | MOG_FD_TYPE_MGMT | MOG_FD_TYPE_HTTP | MOG_FD_TYPE_HTTPGET =>
          let* '(q, nr, t) := requeue_loop n' (wrap_u64 (nr + 1)) t in
          Ok (mfd_fd s :: q, nr, t)
      | _ => requeue_loop n' nr t
      end
  end.

Definition mog_fdmap_requeue (t : fdmap) : res (list Z * Z * fdmap) := requeue_loop (Z.to_nat (max_fd t)) 0 t.
End Map.

(** ** Expiry of idle clients *)

(** The fields of [struct tcp_info] that count; [tcpi_state] as whether it is
    TCP_ESTABLISHED. *)
Record tcp_info := TcpInfo {
  tcpi_established : bool;
  tcpi_ato : Z;
  tcpi_last_data_sent : Z;
  tcpi_last_data_recv : Z;
  tcpi_last_ack_recv : Z
}.

Definition tcp_timedout (info : tcp_info) (msec : Z) : bool :=
  let send_timedout := msec <? tcpi_last_data_sent info in
  if tcpi_ato info =? 0 then send_timedout && (msec <? tcpi_last_ack_recv info)
  else send_timedout && (msec <? tcpi_last_data_recv info).

Section Expire.
(** What [getsockopt] and [shutdown] answer for a descriptor, and whether its
    lock is taken by a thread that releases it. *)
Variable tcp : Z -> errno + tcp_info.
Variable shut : Z -> bool.
Variable busy : Z -> bool.

(** The connections that were shut down: at most the one. *)
Definition expire_http (fd msec : Z) : res (list Z) :=
  match tcp fd with
  | inr info =>
      if tcpi_established info && tcp_timedout info msec && shut fd then Ok [fd] else Ok []
  | inl e => assert! bool_decide (e <> EINVAL); assert! bool_decide (e <> EFAULT); Ok []
  end.

(** The loop, with [n] descriptors left. *)
Fixpoint expire_loop (n : nat) (fd msec : Z) (t : fdmap) : res (list Z) :=
  match n with
  | O => Ok []
  | S n' =>
      let* s := deref t (aref fd) in
      let* now := (if busy fd then Ok []
                   else match fd_type s with
                        | MOG_FD_TYPE_HTTP | MOG_FD_TYPE_HTTPGET => expire_http fd msec
                        | _ => Ok []
                        end) in
      let* rest := expire_loop n' (fd + 1) msec t in
      Ok (now ++ rest)
  end.

(** [mog_fdmap_expire]: [locked] says that another thread holds [fd_lock],
    [now] and [now2] are the readings of the clock; the connections that were
    shut down, and [last_expire]. *)
Definition mog_fdmap_expire (sec : Z) (locked : bool) (now now2 last_expire : Z) (t : fdmap) : res (list Z * Z) :=
  let msec := wrap_u32 (sec * 1000) in
  if locked then Ok ([], last_expire)
  else if now =? last_expire then Ok ([], last_expire)
  else
    let* expired := expire_loop (Z.to_nat (max_fd t - 3)) 3 msec t in
    Ok (expired, now2).
End Expire.

(** ** The invariant *)

(** Every slot knows its descriptor: slot [i] of heap [h] is that of descriptor
    [256 * h + i]. *)
Definition heaps_ok (hs : list (list mog_fd)) : Prop :=
  forall h base, hs !! h = Some base -> length base = Z.to_nat FD_PER_HEAP /\
    forall i s, base !! i = Some s -> mfd_fd s = FD_PER_HEAP * Z.of_nat h + Z.of_nat i.

Record fdmap_ok (open_max : Z) (t : fdmap) : Prop := {
  fo_heaps : heaps_ok (heaps t);
  fo_max : max_fd t = FD_PER_HEAP * zlen (heaps t);
  fo_cap : match fm_cap t with
           | None => heaps t = []
           | Some c => c = open_max / FD_PER_HEAP + 1 /\ zlen (heaps t) <= c
           end
}.

Definition fdmap0 : fdmap := FdMap None [] 0.

Lemma aref_fields (fd : Z) : 0 <= fd ->
  0 <= (aref fd).1 /\ 0 <= (aref fd).2 < FD_PER_HEAP /\ fd = FD_PER_HEAP * (aref fd).1 + (aref fd).2.
Proof.
  intros Hfd. unfold aref, FD_PER_HEAP. cbn [fst snd].
  pose proof (Z.div_mod fd 256 ltac:(lia)). pose proof (Z.mod_pos_bound fd 256 ltac:(lia)).
  pose proof (Z.div_pos fd 256 ltac:(lia) ltac:(lia)). lia.
Qed.

Lemma deref_ok (t : fdmap) (fd : Z) :
  heaps_ok (heaps t) -> 0 <= fd < FD_PER_HEAP * zlen (heaps t) ->
  exists s, deref t (aref fd) = Ok s /\ mfd_fd s = fd.
Proof.
  intros Hok Hfd. destruct (aref_fields fd ltac:(lia)) as (H1 & H2 & H3). unfold deref, FD_PER_HEAP in *.
  destruct (lookup_lt_is_Some_2 (heaps t) (Z.to_nat (aref fd).1)) as [base Hb]; [unfold zlen in *; lia|].
  rewrite Hb. destruct (Hok _ _ Hb) as [Hl Hs].
  destruct (lookup_lt_is_Some_2 base (Z.to_nat (aref fd).2)) as [s Hi]; [unfold FD_PER_HEAP in *; lia|].
  rewrite Hi. exists s. split; [done|]. rewrite (Hs _ _ Hi). unfold FD_PER_HEAP in *. lia.
Qed.

Lemma store_heaps_ok (t : fdmap) (q : mfd_ptr) (s0 s : mog_fd) :
  heaps_ok (heaps t) -> deref t q = Ok s0 -> mfd_fd s = mfd_fd s0 -> heaps_ok (heaps (store q s t)).
Proof.
  unfold deref. intros Hok Hd Hfd h base. cbn.
  destruct (heaps t !! Z.to_nat q.1) as [b0|] eqn:E0; [|done]. destruct (b0 !! Z.to_nat q.2) as [x|] eqn:E1; [|done].
  injection Hd as ->. destruct (decide (h = Z.to_nat q.1)) as [->|Hne].
  - rewrite list_lookup_alter_eq, E0. cbn. intros [= <-]. destruct (Hok _ _ E0) as [Hl Hs].
    split; [by rewrite length_insert|]. intros i x Hi. apply list_lookup_insert_Some in Hi as [(<- & -> & _)|[_ Hi]]; [|auto].
    rewrite Hfd. by apply Hs.
  - rewrite list_lookup_alter_ne by done. apply Hok.
Qed.

Lemma store_frame (q : mfd_ptr) (s : mog_fd) (t : fdmap) :
  zlen (heaps (store q s t)) = zlen (heaps t) /\ max_fd (store q s t) = max_fd t /\ fm_cap (store q s t) = fm_cap t.
Proof. unfold store, zlen. cbn. by rewrite length_alter. Qed.

Lemma store_deref_other (t : fdmap) (fd fd' : Z) (s : mog_fd) :
  0 <= fd -> 0 <= fd' -> fd <> fd' -> deref (store (aref fd) s t) (aref fd') = deref t (aref fd').
Proof.
  intros H H' Hne. destruct (aref_fields fd H) as (A1 & A2 & A3). destruct (aref_fields fd' H') as (B1 & B2 & B3).
  unfold deref, store. cbn [heaps]. destruct (decide (Z.to_nat (aref fd).1 = Z.to_nat (aref fd').1)) as [He|Hx].
  - rewrite He, list_lookup_alter_eq. destruct (heaps t !! _) as [b|]; [|done]. cbn [option_map fmap option_fmap].
    rewrite list_lookup_insert_ne; [done|]. unfold FD_PER_HEAP in *. lia.
  - by rewrite list_lookup_alter_ne.
Qed.

Lemma store_deref_same (t : fdmap) (q : mfd_ptr) (s0 s : mog_fd) :
  deref t q = Ok s0 -> deref (store q s t) q = Ok s.
Proof.
  unfold deref, store. cbn [heaps]. destruct (heaps t !! Z.to_nat q.1) as [b|] eqn:E; [|done].
  rewrite list_lookup_alter_eq, E. cbn. destruct (b !! Z.to_nat q.2) as [x|] eqn:Ex; [|done]. intros _.
  rewrite list_lookup_insert_eq; [done|]. by eapply lookup_lt_Some.
Qed.

Lemma store_ok (open_max : Z) (t : fdmap) (q : mfd_ptr) (s0 s : mog_fd) :
  fdmap_ok open_max t -> deref t q = Ok s0 -> mfd_fd s = mfd_fd s0 -> fdmap_ok open_max (store q s t).
Proof.
  intros [Hh Hm Hc] Hd Hfd. destruct (store_frame q s t) as (H1 & H2 & H3).
  split; [by eapply store_heaps_ok|congruence|]. rewrite H3. destruct (fm_cap t); [lia|].
  cbn. by rewrite Hc.
Qed.

Lemma new_heap_ok (hs : list (list mog_fd)) (fd_max : Z) :
  heaps_ok hs -> fd_max = FD_PER_HEAP * zlen hs -> heaps_ok (hs ++ [new_heap fd_max]).
Proof.
  intros Hok Hm h base Hb. apply lookup_app_Some in Hb as [Hb|[Hge Hb]]; [auto|].
  apply list_lookup_singleton_Some in Hb as [Hz <-]. unfold new_heap.
  split; [by rewrite length_map, length_seq|]. intros i s Hi.
  rewrite list_lookup_fmap in Hi. apply fmap_Some in Hi as (j & Hj & ->). apply lookup_seq in Hj as [-> _].
  cbn. unfold zlen in Hm. replace h with (length hs) by lia. lia.
Qed.

(** ** Growing *)

(** [t'] has all slots of [t], with what is in them. *)
Definition grown (t t' : fdmap) : Prop := heaps t `prefix_of` heaps t'.

Lemma grown_refl (t : fdmap) : grown t t.
Proof. unfold grown. done. Qed.

Lemma grown_deref (t t' : fdmap) (q : mfd_ptr) (s : mog_fd) :
  grown t t' -> deref t q = Ok s -> deref t' q = Ok s.
Proof.
  intros [l Hl]. unfold deref. rewrite Hl. destruct (heaps t !! Z.to_nat q.1) as [b|] eqn:E; [|done].
  by rewrite (lookup_app_l_Some _ _ _ _ E).
Qed.

Lemma grow_loop_ok (open_max : Z) (fuel : nat) (fd : Z) (t : fdmap) :
  fdmap_ok open_max t -> fm_cap t <> None -> 0 <= fd < open_max -> fd - max_fd t < Z.of_nat fuel ->
  exists t', grow_loop fuel fd t = Ok t' /\ fdmap_ok open_max t' /\ fd < max_fd t' /\ grown t t'.
Proof.
  revert t. induction fuel as [|fuel IH]; intros t Hok Hc Hfd Hfu; cbn [grow_loop];
    (destruct (Z.ltb_spec fd (max_fd t)); [by eauto using grown_refl|]); [lia|].
  destruct Hok as [Hh Hm Hcap]. unfold store_heap. destruct (fm_cap t) as [c|] eqn:Ec; [|done].
  destruct Hcap as [-> Hle].
  assert (zlen (heaps t) < open_max / FD_PER_HEAP + 1) as Hlt.
  { rewrite Hm in *. assert (zlen (heaps t) <= open_max / FD_PER_HEAP); [|lia].
    apply Z.div_le_lower_bound; unfold FD_PER_HEAP in *; lia. }
  unfold zlen in Hlt at 1. destruct (Z.ltb_spec (Z.of_nat (length (heaps t))) (open_max / FD_PER_HEAP + 1)); [|lia].
  cbn [res_bind]. destruct (IH (publish_heap (FdMap (Some (open_max / FD_PER_HEAP + 1)) (heaps t ++ [new_heap (max_fd t)]) (max_fd t))))
    as (t' & He & Hok' & Hlt' & Hgr).
  - split; cbn; [by apply new_heap_ok|rewrite zlen_app, Hm; change (zlen [_]) with 1; lia|].
    split; [done|]. rewrite zlen_app. change (zlen [_]) with 1. unfold zlen. lia.
  - done.
  - done.
  - cbn. unfold FD_PER_HEAP in *. lia.
  - rewrite He. exists t'. split; [done|]. split; [done|]. split; [done|]. destruct Hgr as [l Hl]. cbn in Hl.
    exists (new_heap (max_fd t) :: l). by rewrite Hl, <- app_assoc.
Qed.

Lemma fd_get_ok (open_max fd : Z) (t : fdmap) :
  fdmap_ok open_max t -> 0 <= fd < open_max -> open_max <= INT_MAX ->
  exists t' s, mog_fd_get open_max fd t = Ok (aref fd, t') /\ fdmap_ok open_max t' /\ grown t t' /\
    deref t' (aref fd) = Ok s /\ mfd_fd s = fd /\ fd < max_fd t'.
Proof.
  intros Hok Hfd Hmax. unfold mog_fd_get. destruct (Z.leb_spec 0 fd); [|lia]. cbn [assert_].
  assert (forall t', fdmap_ok open_max t' -> fd < max_fd t' ->
    exists s, deref t' (aref fd) = Ok s /\ mfd_fd s = fd) as Hd.
  { intros t' [Hh Hm _] Hlt. apply deref_ok; [done|lia]. }
  destruct (Z.ltb_spec fd (max_fd t)).
  { destruct (Hd t Hok ltac:(lia)) as (s & Hs & Hf). exists t, s. auto 8 using grown_refl. }
  unfold grow_ref. destruct (Z.ltb_spec fd INT_MAX); [|lia]. cbn [assert_].
  assert (exists t1, match fm_cap t with None => fd_map_init open_max t | Some _ => Ok t end = Ok t1 /\
    fdmap_ok open_max t1 /\ fm_cap t1 <> None /\ heaps t1 = heaps t /\ max_fd t1 = max_fd t) as (t1 & -> & Hok1 & Hc1 & Hh1 & Hm1).
  { pose proof Hok as [Hh Hm Hc]. destruct (fm_cap t) as [c|] eqn:Ec.
    - exists t. split_and!; try done. congruence.
    - unfold fd_map_init. rewrite Ec. rewrite bool_decide_true by done. eexists. split; [done|].
      split_and!; try done. split; cbn; try done. split; [done|]. rewrite Hc. cbn.
      pose proof (Z.div_pos open_max FD_PER_HEAP ltac:(lia) ltac:(done)). change (zlen []) with 0. lia. }
  cbn [res_bind]. destruct (grow_loop_ok open_max (grow_fuel fd t1) fd t1) as (t' & -> & Hok' & Hlt & Hgr);
    [done|done|done|unfold grow_fuel; lia|].
  cbn [res_bind]. destruct (Hd t' Hok' Hlt) as (s & Hs & Hf). exists t', s. split_and!; try done.
  unfold grown in *. by rewrite <- Hh1.
Qed.

(** ** Lookup without the lock *)

(** The map while threads look descriptors up: whether the thread that grows it
    has stored a heap that is not published yet, and the values of [max_fd]
    that other threads have read. *)
Record fd_conc := FdConc { fc_map : fdmap; fc_stored : bool; fc_seen : list Z }.

Inductive fd_conc_step (open_max : Z) : fd_conc -> fd_conc -> Prop :=
  | cs_store t t' seen fd :
      max_fd t <= fd < open_max -> store_heap t = Ok t' ->
      fd_conc_step open_max (FdConc t false seen) (FdConc t' true seen)
  | cs_publish t seen :
      fd_conc_step open_max (FdConc t true seen) (FdConc (publish_heap t) false seen)
  | cs_read t st seen :
      fd_conc_step open_max (FdConc t st seen) (FdConc t st (max_fd t :: seen))
  | cs_type t st seen fd s ty :
      deref t (aref fd) = Ok s ->
      fd_conc_step open_max (FdConc t st seen) (FdConc (store (aref fd) (MogFd ty (mfd_fd s) (as_prio s)) t) st seen).

Definition fd_conc0 (open_max : Z) : fd_conc :=
  FdConc (FdMap (Some (open_max / FD_PER_HEAP + 1)) [] 0) false [].

Record conc_inv (open_max : Z) (c : fd_conc) : Prop := {
  ci_heaps : heaps_ok (heaps (fc_map c));
  ci_max : max_fd (fc_map c) = FD_PER_HEAP * (zlen (heaps (fc_map c)) - (if fc_stored c then 1 else 0));
  ci_nonneg : 0 <= max_fd (fc_map c);
  ci_seen : Forall (fun n => n <= max_fd (fc_map c)) (fc_seen c)
}.

Lemma store_heap_eq (t t' : fdmap) :
  store_heap t = Ok t' -> t' = FdMap (fm_cap t) (heaps t ++ [new_heap (max_fd t)]) (max_fd t).
Proof. unfold store_heap. destruct (fm_cap t); [|done]. by destruct (_ <? _); intros [= <-]. Qed.

Lemma conc_step_inv (open_max : Z) (c c' : fd_conc) :
  conc_inv open_max c -> fd_conc_step open_max c c' -> conc_inv open_max c'.
Proof.
  intros Hi Hstep. destruct Hstep as [t t' seen fd Hfd ->%store_heap_eq|t seen|t st seen|t st seen fd s ty Hd];
    destruct Hi as [Hh Hm H0 Hs]; cbn [fc_map fc_stored fc_seen] in *.
  - assert (max_fd t = FD_PER_HEAP * zlen (heaps t)) as Hm' by (rewrite Hm; f_equal; lia). split; cbn; [by apply new_heap_ok|rewrite zlen_app; change (zlen [_]) with 1; lia|done|done].
  - split; cbn; [done|unfold FD_PER_HEAP in *; lia|unfold FD_PER_HEAP in *; lia|].
    eapply Forall_impl; [exact Hs|]. cbn. unfold FD_PER_HEAP. lia.
  - split; cbn; try done. by constructor.
  - destruct (store_frame (aref fd) (MogFd ty (mfd_fd s) (as_prio s)) t) as (H1 & H2 & H3).
    split; cbn [fc_map fc_stored fc_seen]; [by eapply store_heaps_ok|by rewrite H1, H2|by rewrite H2|by rewrite H2].
Qed.

(** ** Shutdown *)

Definition is_client (ty : mog_fd_type) : bool :=
  match ty with MOG_FD_TYPE_MGMT | MOG_FD_TYPE_HTTP | MOG_FD_TYPE_HTTPGET => true | _ => false end.

(** The type of a descriptor. *)
Definition type_at (t : fdmap) (fd : Z) : mog_fd_type :=
  match deref t (aref fd) with Ok s => fd_type s | Crash _ => MOG_FD_TYPE_UNUSED end.

(** The clients below [n], from the highest descriptor. *)
Fixpoint clients (t : fdmap) (n : nat) : list Z :=
  match n with
  | O => []
  | S n' => if is_client (type_at t (Z.of_nat n')) then Z.of_nat n' :: clients t n' else clients t n'
  end.

Lemma clients_ext (t t' : fdmap) (n : nat) :
  (forall fd, 0 <= fd < Z.of_nat n -> type_at t' fd = type_at t fd) -> clients t' n = clients t n.
Proof.
  induction n as [|n IH]; intros He; [done|]. cbn [clients]. rewrite He by lia. rewrite IH; [done|].
  intros fd Hfd. apply He. lia.
Qed.

(** What the hand-over leaves of a descriptor. *)
Definition requeued (s : mog_fd) : mog_fd :=
  match fd_type s with MOG_FD_TYPE_MGMT => MogFd (fd_type s) (mfd_fd s) MOG_PRIO_NONE | _ => s end.

Lemma requeue_step (open_max : Z) (t : fdmap) (fd : Z) (s : mog_fd) :
  fdmap_ok open_max t -> 0 <= fd -> deref t (aref fd) = Ok s ->
  let t' := match fd_type s with
            | MOG_FD_TYPE_MGMT => store (aref fd) (MogFd (fd_type s) (mfd_fd s) MOG_PRIO_NONE) t
            | _ => t
            end in
  fdmap_ok open_max t' /\ max_fd t' = max_fd t /\ deref t' (aref fd) = Ok (requeued s) /\
  forall other, 0 <= other -> other <> fd -> deref t' (aref other) = deref t (aref other).
Proof.
  intros Hok Hfd Hd t'. unfold t', requeued. destruct (fd_type s) eqn:E; try done.
  split; [by eapply store_ok|]. split; [done|]. split; [by eapply store_deref_same|].
  intros other Ho Hne. by apply store_deref_other.
Qed.

Lemma clients_le (t : fdmap) (n : nat) : zlen (clients t n) <= Z.of_nat n.
Proof. induction n as [|n IH]; [done|]. cbn [clients]. destruct (is_client _); rewrite ?zlen_cons; lia. Qed.

Lemma clients_spec (t : fdmap) (n : nat) (fd : Z) :
  In fd (clients t n) <-> 0 <= fd < Z.of_nat n /\ is_client (type_at t fd) = true.
Proof.
  induction n as [|n IH]; [cbn; lia|]. cbn [clients].
  destruct (is_client (type_at t (Z.of_nat n))) eqn:E; cbn [In]; rewrite IH; split; intros H;
    try (destruct (decide (fd = Z.of_nat n)) as [->|]); intuition (lia || congruence).
Qed.

Lemma clients_NoDup (t : fdmap) (n : nat) : NoDup (clients t n).
Proof.
  induction n as [|n IH]; [constructor|]. cbn [clients].
  destruct (is_client _); [|done]. constructor; [|done]. rewrite list_elem_of_In, clients_spec. lia.
Qed.

Lemma requeue_loop_ok (open_max : Z) (n : nat) (nr : Z) (t : fdmap) :
  fdmap_ok open_max t -> Z.of_nat n <= max_fd t -> 0 <= nr -> nr + Z.of_nat n < 2 ^ 64 ->
  exists t', requeue_loop n nr t = Ok (clients t n, nr + zlen (clients t n), t') /\
    fdmap_ok open_max t' /\ max_fd t' = max_fd t /\
    forall fd s, 0 <= fd -> deref t (aref fd) = Ok s ->
      deref t' (aref fd) = Ok (if fd <? Z.of_nat n then requeued s else s).
Proof.
  revert nr t. induction n as [|n IH]; intros nr t Hok Hn H0 Hnr; cbn [requeue_loop clients].
  { exists t. rewrite Z.add_0_r. split_and!; try done. intros fd s Hfd Hd.
    destruct (Z.ltb_spec fd (Z.of_nat 0)); [lia|done]. }
  destruct (deref_ok t (Z.of_nat n)) as (s & Hs & Hfd); [apply Hok|destruct Hok; lia|].
  rewrite Hs. cbn [res_bind]. pose proof (requeue_step open_max t (Z.of_nat n) s Hok ltac:(lia) Hs) as Hstep.
  set (t1 := match fd_type s with MOG_FD_TYPE_MGMT => _ | _ => t end) in *. cbv zeta in Hstep.
  destruct Hstep as (Hok1 & Hm1 & Hd1 & Ho1).
  assert (clients t1 n = clients t n) as Hcl.
  { apply clients_ext. intros fd Hr. unfold type_at. by rewrite Ho1 by lia. }
  assert (forall t', (forall fd x, 0 <= fd -> deref t1 (aref fd) = Ok x ->
      deref t' (aref fd) = Ok (if fd <? Z.of_nat n then requeued x else x)) ->
    forall fd x, 0 <= fd -> deref t (aref fd) = Ok x -> deref t' (aref fd) = Ok (if fd <? Z.of_nat (S n) then requeued x else x))
    as Hslots.
  { intros t' H fd x Hf Hx. destruct (decide (fd = Z.of_nat n)) as [->|Hne].
    - rewrite Hs in Hx. injection Hx as <-. rewrite (H _ _ Hf Hd1).
      destruct (Z.ltb_spec (Z.of_nat n) (Z.of_nat n)), (Z.ltb_spec (Z.of_nat n) (Z.of_nat (S n))); (done || lia).
    - rewrite <- Ho1 in Hx by done. rewrite (H _ _ Hf Hx).
      destruct (Z.ltb_spec fd (Z.of_nat n)), (Z.ltb_spec fd (Z.of_nat (S n))); (done || lia). }
  unfold type_at. rewrite Hs.
  destruct (is_client (fd_type s)) eqn:Ec.
  - destruct (IH (wrap_u64 (nr + 1)) t1) as (t' & He & Hok' & Hm' & Hd'); [done|lia|..];
      rewrite ?wrap_u64_id in * by lia; [lia|lia|].
    exists t'. split; [|split_and!; [done|lia|auto]]. rewrite zlen_cons, <- Hcl, He, Hfd.
    destruct (fd_type s); try done; cbn [res_bind]; do 3 f_equal; lia.
  - destruct (IH nr t1) as (t' & He & Hok' & Hm' & Hd'); [done|lia|lia|lia|].
    exists t'. split; [|split_and!; [done|lia|auto]]. rewrite <- Hcl, He. by destruct (fd_type s).
Qed.

(** ** Which clients expire *)

(** An idle HTTP client: established, and silent in both directions for more
    than [sec] seconds (when nothing but acknowledgements arrived, those count). *)
Definition idle_client (tcp : Z -> errno + tcp_info) (t : fdmap) (sec fd : Z) : bool :=
  match type_at t fd with
  | MOG_FD_TYPE_HTTP | MOG_FD_TYPE_HTTPGET =>
      match tcp fd with
      | inr i => tcpi_established i && (sec * 1000 <? tcpi_last_data_sent i) &&
                 (sec * 1000 <? if tcpi_ato i =? 0 then tcpi_last_ack_recv i else tcpi_last_data_recv i)
      | inl _ => false
      end
  | _ => false
  end.

Lemma expire_one tcp shut (t : fdmap) (fd sec : Z) (s : mog_fd) :
  (forall x, tcp x <> inl EINVAL /\ tcp x <> inl EFAULT) -> deref t (aref fd) = Ok s ->
  match fd_type s with
  | MOG_FD_TYPE_HTTP | MOG_FD_TYPE_HTTPGET => expire_http tcp shut fd (sec * 1000)
  | _ => Ok []
  end = Ok (if idle_client tcp t sec fd && shut fd then [fd] else []).
Proof.
  intros He Hs. unfold idle_client, type_at. rewrite Hs. unfold expire_http, tcp_timedout. specialize (He fd).
  assert (forall e, tcp fd = inl e ->
    assert_ (bool_decide (e <> EINVAL)) (assert_ (bool_decide (e <> EFAULT)) (Ok (@nil Z))) = Ok []) as Ha.
  { intros e E. destruct He. rewrite !bool_decide_true; [done|congruence..]. }
  destruct (fd_type s); try done; destruct (tcp fd) as [e|i]; try by rewrite Ha.
  all: destruct (tcpi_ato i =? 0), (tcpi_established i), (sec * 1000 <? tcpi_last_data_sent i); cbn [andb]; try done.
  all: by destruct (_ <? _), (shut fd).
Qed.

Lemma expire_loop_ok tcp shut busy (open_max : Z) (n : nat) (fd sec : Z) (t : fdmap) :
  fdmap_ok open_max t -> (forall x, tcp x <> inl EINVAL /\ tcp x <> inl EFAULT) -> 0 <= sec < 2 ^ 32 / 1000 ->
  0 <= fd -> fd + Z.of_nat n <= max_fd t ->
  expire_loop tcp shut busy n fd (wrap_u32 (sec * 1000)) t
  = Ok (List.filter (fun x => negb (busy x) && (idle_client tcp t sec x && shut x)) (zrange fd n)).
Proof.
  intros Hok He Hsec. assert (wrap_u32 (sec * 1000) = sec * 1000) as Hw.
  { apply Z.mod_small. change (2 ^ 32 / 1000) with 4294967 in Hsec. change (2 ^ 32) with 4294967296. lia. }
  rewrite Hw. revert fd. induction n as [|n IH]; intros fd Hfd Hle; [done|]. cbn [expire_loop].
  destruct (deref_ok t fd) as (s & Hs & _); [apply Hok|destruct Hok; lia|]. rewrite Hs. cbn [res_bind].
  assert (zrange fd (S n) = fd :: zrange (fd + 1) n) as ->.
  { unfold zrange. cbn [seq map]. rewrite Z.add_0_r. f_equal. rewrite <- seq_shift, map_map.
    apply map_ext. intros i. lia. }
  rewrite IH, (expire_one tcp shut t fd sec s He Hs) by lia. cbn [List.filter].
  destruct (busy fd); cbn [negb andb res_bind]; [done|]. by destruct (_ && shut fd).
Qed.

(** ** Properties *)

(** Every descriptor has its own memory: registering a descriptor that the
    system handed out finds a slot whose [fd] is that descriptor (so that the
    assertion in [mog_fd_init] holds), growing the map as far as needed and
    never beyond the array that was sized from the descriptor limit; nothing
    that is stored for another descriptor moves or changes, and releasing the
    descriptor through the pointer passes the assertions of [mog_fd_put] and
    changes that slot only. *)
Theorem fd_slots_stable (open_max fd : Z) (ty : mog_fd_type) (t : fdmap) :
  fdmap_ok open_max t -> 0 <= fd < open_max -> open_max <= INT_MAX ->
  exists t' prio, mog_fd_init open_max fd ty t = Ok (aref fd, t') /\ fdmap_ok open_max t' /\
    deref t' (aref fd) = Ok (MogFd ty fd prio) /\
    (forall o s, 0 <= o -> o <> fd -> deref t (aref o) = Ok s -> deref t' (aref o) = Ok s) /\
    exists t'', mog_fd_put (aref fd) t' = Ok t'' /\ fdmap_ok open_max t'' /\
      deref t'' (aref fd) = Ok (MogFd MOG_FD_TYPE_UNUSED fd prio) /\
      forall o, 0 <= o -> o <> fd -> deref t'' (aref o) = deref t' (aref o).
Proof.
  intros Hok Hfd Hmax. destruct (fd_get_ok open_max fd t Hok Hfd Hmax) as (t1 & s & He & Hok1 & Hg & Hd & Hf & Hlt).
  unfold mog_fd_init. rewrite He. cbn [res_bind]. rewrite Hd. cbn [res_bind]. rewrite Hf, Z.eqb_refl. cbn [assert_].
  set (t' := store (aref fd) (MogFd ty fd (as_prio s)) t1).
  assert (fdmap_ok open_max t') as Hok' by by eapply store_ok.
  assert (deref t' (aref fd) = Ok (MogFd ty fd (as_prio s))) as Hd' by by eapply store_deref_same.
  exists t', (as_prio s). split; [done|]. split; [done|]. split; [done|]. split.
  { intros o x Ho Hne Hx. unfold t'. rewrite store_deref_other by (done || lia). by eapply grown_deref. }
  unfold mog_fd_put. rewrite Hd'. cbn [res_bind mfd_fd]. destruct (Z.leb_spec 0 fd); [|lia]. cbn [assert_].
  change (max_fd t') with (max_fd t1). destruct (Z.ltb_spec fd (max_fd t1)); [|lia]. cbn [assert_]. rewrite bool_decide_true by done. cbn [assert_].
  eexists. split; [done|]. split; [by eapply store_ok|]. split; [by eapply store_deref_same|].
  intros o Ho Hne. apply store_deref_other; (done || lia).
Qed.

Lemma fdmap0_ok (open_max : Z) : fdmap_ok open_max fdmap0.
Proof. split; [|done|done]. intros h base Hb. by destruct h. Qed.

Lemma fd_slots_stable_witness :
  exists t' prio, mog_fd_init 1024 300 MOG_FD_TYPE_HTTP fdmap0 = Ok (aref 300, t') /\ fdmap_ok 1024 t' /\
    deref t' (aref 300) = Ok (MogFd MOG_FD_TYPE_HTTP 300 prio) /\
    (forall o s, 0 <= o -> o <> 300 -> deref fdmap0 (aref o) = Ok s -> deref t' (aref o) = Ok s) /\
    exists t'', mog_fd_put (aref 300) t' = Ok t'' /\ fdmap_ok 1024 t'' /\
      deref t'' (aref 300) = Ok (MogFd MOG_FD_TYPE_UNUSED 300 prio) /\
      forall o, 0 <= o -> o <> 300 -> deref t'' (aref o) = deref t' (aref o).
Proof.
  apply (fd_slots_stable 1024 300 MOG_FD_TYPE_HTTP fdmap0); [apply fdmap0_ok|lia|vm_compute; congruence].
Defined.

(** C17.  Lookup needs no lock: in every interleaving of a thread that grows the
    map (store the heap, then publish the new limit) with threads that read the
    limit, register and release descriptors, a descriptor below any limit that
    a thread has read, however long ago, leads to initialised memory, namely
    to the slot of that descriptor. *)
Theorem fd_lookup_lock_free (open_max : Z) (c : fd_conc) (seen fd : Z) :
  rtc (fd_conc_step open_max) (fd_conc0 open_max) c -> In seen (fc_seen c) -> 0 <= fd < seen ->
  exists s, deref (fc_map c) (aref fd) = Ok s /\ mfd_fd s = fd.
Proof.
  intros Hr Hin Hfd. assert (conc_inv open_max c) as [Hh Hm H0 Hs].
  { assert (conc_inv open_max (fd_conc0 open_max)) as Hi
      by (split; [intros h base Hb; by destruct h|done|done|constructor]).
    induction Hr; [done|]. eauto using conc_step_inv. }
  rewrite List.Forall_forall in Hs. specialize (Hs seen Hin). apply deref_ok; [done|].
  unfold FD_PER_HEAP in *. destruct (fc_stored c); lia.
Qed.

(** The limit was read before the second heap was stored, and is used after
    that. *)
Definition fd_race : fd_conc :=
  FdConc (FdMap (Some 5) [new_heap 0; new_heap 256] 256) true [256].

Lemma fd_lookup_lock_free_witness :
  exists s, deref (fc_map fd_race) (aref 7) = Ok s /\ mfd_fd s = 7.
Proof.
  apply (fd_lookup_lock_free 1024 fd_race 256 7); [|by left|lia].
  apply (rtc_l _ _ (FdConc (FdMap (Some 5) [new_heap 0] 0) true [])).
  { apply (cs_store 1024 (FdMap (Some 5) [] 0) _ [] 0); [cbn; lia|reflexivity]. }
  apply (rtc_l _ _ (FdConc (FdMap (Some 5) [new_heap 0] 256) false [])).
  { apply (cs_publish 1024 (FdMap (Some 5) [new_heap 0] 0)). }
  apply (rtc_l _ _ (FdConc (FdMap (Some 5) [new_heap 0] 256) false [256])).
  { apply (cs_read 1024 (FdMap (Some 5) [new_heap 0] 256)). }
  apply (rtc_l _ _ fd_race); [|apply rtc_refl].
  apply (cs_store 1024 (FdMap (Some 5) [new_heap 0] 256) _ [256] 256); [cbn; lia|reflexivity].
Defined.

(** No client is forgotten by a graceful shutdown, and none is taken twice:
    [mog_fdmap_requeue] adds exactly the HTTP and management connections to
    the queue of the shutdown, from the highest descriptor, counts them in
    [mog_nr_active_at_quit], and leaves every management connection with the
    normal priority, as the steps of the shutdown demand. *)
Theorem requeue_all_clients (open_max : Z) (t : fdmap) :
  fdmap_ok open_max t -> max_fd t <= INT_MAX ->
  let q := clients t (Z.to_nat (max_fd t)) in
  exists t', mog_fdmap_requeue t = Ok (q, zlen q, t') /\ fdmap_ok open_max t' /\
    (forall fd, In fd q <-> 0 <= fd < max_fd t /\ is_client (type_at t fd) = true) /\ NoDup q /\
    forall fd s, 0 <= fd < max_fd t -> deref t' (aref fd) = Ok s ->
      fd_type s = type_at t fd /\ (fd_type s = MOG_FD_TYPE_MGMT -> as_prio s = MOG_PRIO_NONE).
Proof.
  intros Hok Hmax q. assert (0 <= max_fd t) as H0 by (destruct Hok as [_ -> _]; unfold FD_PER_HEAP; pose proof (zlen_nonneg (heaps t)); lia).
  destruct (requeue_loop_ok open_max (Z.to_nat (max_fd t)) 0 t Hok) as (t' & He & Hok' & Hm' & Hd);
    [lia|lia|unfold INT_MAX in Hmax; lia|].
  exists t'. split; [exact He|]. split; [done|]. split; [|split].
  - intros fd. unfold q. rewrite clients_spec. by rewrite Z2Nat.id by lia.
  - apply clients_NoDup.
  - intros fd s Hfd Hs. destruct (deref_ok t fd) as (s0 & Hs0 & _); [apply Hok|destruct Hok; lia|].
    rewrite (Hd fd s0 ltac:(lia) Hs0) in Hs. unfold type_at. rewrite Hs0. rewrite Z2Nat.id in Hs by lia.
    destruct (Z.ltb_spec fd (max_fd t)); [|lia]. injection Hs as <-. unfold requeued.
    destruct (fd_type s0) eqn:E; cbn; rewrite ?E; done.
Qed.

(** A map with one connection of each kind. *)
Definition fdmap1 : fdmap :=
  match mog_fd_init 256 5 MOG_FD_TYPE_MGMT fdmap0 with
  | Ok (_, t) => match mog_fd_init 256 9 MOG_FD_TYPE_HTTP t with Ok (_, t) => t | Crash _ => fdmap0 end
  | Crash _ => fdmap0
  end.

Lemma fdmap1_ok : fdmap_ok 256 fdmap1.
Proof.
  unfold fdmap1.
  destruct (fd_get_ok 256 5 fdmap0 (fdmap0_ok 256) ltac:(lia) ltac:(vm_compute; congruence)) as (t1 & s & He & Hok1 & _ & Hd & Hf & _).
  unfold mog_fd_init at 1. rewrite He. cbn [res_bind]. rewrite Hd. cbn [res_bind]. rewrite Hf. cbn [Z.eqb Pos.eqb assert_].
  assert (fdmap_ok 256 (store (aref 5) (MogFd MOG_FD_TYPE_MGMT 5 (as_prio s)) t1)) as Hok2 by by eapply store_ok.
  destruct (fd_get_ok 256 9 _ Hok2 ltac:(lia) ltac:(vm_compute; congruence)) as (t3 & s3 & He3 & Hok3 & _ & Hd3 & Hf3 & _).
  unfold mog_fd_init. rewrite He3. cbn [res_bind]. rewrite Hd3. cbn [res_bind]. rewrite Hf3. cbn [Z.eqb Pos.eqb assert_].
  by eapply store_ok.
Qed.

Lemma requeue_all_clients_witness :
  let q := clients fdmap1 (Z.to_nat (max_fd fdmap1)) in
  q = [9; 5] /\
  exists t', mog_fdmap_requeue fdmap1 = Ok (q, zlen q, t') /\ fdmap_ok 256 t' /\
    (forall fd, In fd q <-> 0 <= fd < max_fd fdmap1 /\ is_client (type_at fdmap1 fd) = true) /\ NoDup q /\
    forall fd s, 0 <= fd < max_fd fdmap1 -> deref t' (aref fd) = Ok s ->
      fd_type s = type_at fdmap1 fd /\ (fd_type s = MOG_FD_TYPE_MGMT -> as_prio s = MOG_PRIO_NONE).
Proof.
  split; [vm_compute; reflexivity|].
  apply (requeue_all_clients 256 fdmap1); [exact fdmap1_ok|vm_compute; congruence].
Defined.

(** Only idle clients are cut off when descriptors run out: the connections
    that [mog_fdmap_expire] shuts down are, in order, exactly the established
    HTTP connections from descriptor 3 on that no other thread is releasing and
    that were silent in both directions for more than [sec] seconds, for every
    [sec] whose milliseconds fit 32 bits; listeners, files and management
    connections are left alone, and a second call in the same second does
    nothing. *)
Theorem expire_exact tcp shut busy (open_max sec now now2 last : Z) (t : fdmap) :
  fdmap_ok open_max t -> (forall x, tcp x <> inl EINVAL /\ tcp x <> inl EFAULT) -> 0 <= sec < 2 ^ 32 / 1000 -> 3 <= max_fd t ->
  mog_fdmap_expire tcp shut busy sec false now now2 last t =
  Ok (if now =? last then ([], last)
      else (List.filter (fun fd => negb (busy fd) && (idle_client tcp t sec fd && shut fd))
              (zrange 3 (Z.to_nat (max_fd t - 3))), now2)).
Proof.
  intros Hok He Hsec Hm. unfold mog_fdmap_expire. destruct (now =? last); [done|].
  by rewrite (expire_loop_ok tcp shut busy open_max) by (done || lia).
Qed.

(** Descriptor 9 was silent for 6 seconds. *)
Lemma expire_exact_witness :
  let tcp := fun _ => inr (TcpInfo true 0 6000 0 6000) in
  mog_fdmap_expire tcp (fun _ => true) (fun _ => false) 5 false 100 100 90 fdmap1 = Ok ([9], 100) /\
  mog_fdmap_expire tcp (fun _ => true) (fun _ => false) 5 false 100 100 90 fdmap1 =
  Ok (if 100 =? 90 then ([], 90)
      else (List.filter (fun fd => negb false && (idle_client tcp fdmap1 5 fd && true))
              (zrange 3 (Z.to_nat (max_fd fdmap1 - 3))), 100)).
Proof.
  intros tcp. split; [vm_compute; reflexivity|].
  apply (expire_exact tcp (fun _ => true) (fun _ => false) 256 5 100 100 90 fdmap1); [exact fdmap1_ok|done|vm_compute|vm_compute];
    [split; congruence|congruence].
Defined.
