(* ===== verification/Upgrade.v ===== *)
(** Upgrades without lost connections: a process hands its listeners to its
    successor through the environment (upgrade.c), which finds them by address
    (inherit.c). *)
From S2P Require Import Prelude Fmt FdMap.
From stdpp Require Import base list numbers gmap.
From Stdlib Require Import ZArith Lia.

#[local] Open Scope Z_scope.

(** ** The old process (upgrade.c) *)

Definition FD_PFX : list Z := str "CMOGSTORED_FD=".

(** [strncmp (e, FD_PFX, strlen (FD_PFX)) == 0]. *)
Definition has_pfx (e : list Z) : bool := bool_decide (take (length FD_PFX) e = FD_PFX).

(** [mog_upgrade_prepare]: the environment, with a slot for the listeners. *)
Definition mog_upgrade_prepare (envp : list (list Z)) : list (list Z) :=
  FD_PFX :: List.filter (fun e => negb (has_pfx e)) envp.

(** The listeners of a service; negative when there is none. *)
Record svc_fds := SvcFds { mgmt_fd : Z; http_fd : Z; httpget_fd : Z }.

(** [fprintf] on the memory stream works or not. *)
Definition emit_fd (fd : Z) (out : list Z) (rs : list reply) : bool * list Z * list reply :=
  if fd <? 0 then (true, out, rs)
  else match rs with
       | Fail _ :: rs => (false, out, rs)
       | _ => (true, out ++ fmt_d fd ++ [44], tail rs)
       end.

Definition svc_emit_fd_i (svc : svc_fds) (out : list Z) (rs : list reply) : bool * list Z * list reply :=
  let '(ok, out, rs) := emit_fd (mgmt_fd svc) out rs in
  if negb ok then (false, out, rs)
  else
    let '(ok, out, rs) := emit_fd (http_fd svc) out rs in
    if negb ok then (false, out, rs) else emit_fd (httpget_fd svc) out rs.

(** [mog_svc_each (svc_emit_fd_i, fp)]: iteration stops on false. *)
Fixpoint svc_each_emit (svcs : list svc_fds) (out : list Z) (rs : list reply) : list Z :=
  match svcs with
  | [] => out
  | svc :: svcs =>
      let '(ok, out, rs) := svc_emit_fd_i svc out rs in
      if ok : bool then svc_each_emit svcs out rs else out
  end.

(** The string [mog_upgrade_spawn] puts into the environment. *)
Definition upgrade_string (svcs : list svc_fds) (rs : list reply) : res (list Z) :=
  let dst := svc_each_emit svcs FD_PFX rs in
  assert! bool_decide (last dst = Some 44);
  Ok (removelast dst).

(** The environment of the new process. *)
Definition mog_upgrade_spawn (envp : list (list Z)) (svcs : list svc_fds) (rs : list reply) : res (list (list Z)) :=
  let* dst := upgrade_string svcs rs in
  Ok (dst :: tail (mog_upgrade_prepare envp)).

(** ** The new process (inherit.c) *)

(** [getenv "CMOGSTORED_FD"]: the value of the first entry of that name. *)
Fixpoint getenv_fd (envp : list (list Z)) : option (list Z) :=
  match envp with
  | [] => None
  | e :: envp => if has_pfx e then Some (drop (length FD_PFX) e) else getenv_fd envp
  end.

(** Inherited listeners by their addresses. *)
Abbreviation listeners := (gmap (list Z) Z).

Section Inherit.
(** [getsockname]: the address a descriptor is bound to; [None] when it or
    [getnameinfo] fails. *)
Variable sockname : Z -> option (list Z).

Definition register_listen_fd (fd : Z) (t : listeners) : res listeners :=
  match sockname fd with
  | None => Crash Died
  | Some a => match t !! a with Some _ => Crash Died | None => Ok (<[a := fd]> t) end
  end.

Fixpoint inherit_loop (fuel : nat) (tip : list Z) (t : listeners) : res listeners :=
  match fuel with
  | O => Crash OutOfFuel
  | S fuel' =>
      let '(fd, end_, erange) := strtoul tip in
      if erange : bool then Crash Died
      else if INT_MAX <? fd then Crash Died
      else
        let* t := register_listen_fd fd t in
        match end_ with
        | [] => Ok t
        | 44 :: tip => inherit_loop fuel' tip t
        | _ => Crash Died
        end
  end.

(** [None]: nothing was inherited. *)
Definition mog_inherit_init (env : option (list Z)) : res (option listeners) :=
  match env with
  | None => Ok None
  | Some fds => let* t := inherit_loop (S (length fds)) fds ∅ in Ok (Some t)
  end.
End Inherit.

(** [mog_inherit_get]: the descriptor, -1 when there is none. *)
Definition mog_inherit_get (addr : list Z) (t : option listeners) : Z * option listeners :=
  match t with
  | None => (-1, None)
  | Some t => match t !! addr with
              | Some fd => (fd, Some (delete addr t))
              | None => (-1, Some t)
              end
  end.

(** [mog_inherit_cleanup]: the descriptors that are closed. *)
Definition mog_inherit_cleanup (t : option listeners) : list Z :=
  match t with None => [] | Some t => map snd (map_to_list t) end.

(** ** The string of listeners *)

(** The listeners of the services, in the order in which they are written. *)
Definition all_fds (svcs : list svc_fds) : list Z :=
  List.filter (fun fd => 0 <=? fd) (concat (map (fun s => [mgmt_fd s; http_fd s; httpget_fd s]) svcs)).

Definition fd_list (fds : list Z) : list Z := concat (map (fun fd => fmt_d fd ++ [44]) fds).

Lemma emit_fd_ok (fd : Z) (out : list Z) :
  emit_fd fd out [] = (true, out ++ fd_list (List.filter (fun fd => 0 <=? fd) [fd]), []).
Proof.
  unfold emit_fd. cbn [List.filter]. destruct (Z.ltb_spec fd 0), (Z.leb_spec 0 fd); try lia; unfold fd_list; cbn [map concat].
  - by rewrite app_nil_r.
  - by rewrite app_nil_r.
Qed.

Lemma fd_list_app (a b : list Z) : fd_list (a ++ b) = fd_list a ++ fd_list b.
Proof. unfold fd_list. by rewrite map_app, concat_app. Qed.

Lemma svc_each_emit_ok (svcs : list svc_fds) (out : list Z) :
  svc_each_emit svcs out [] = out ++ fd_list (all_fds svcs).
Proof.
  revert out. induction svcs as [|s svcs IH]; intros out; cbn [svc_each_emit]; [by rewrite app_nil_r|].
  unfold svc_emit_fd_i. do 2 (rewrite emit_fd_ok; cbn [negb]). rewrite emit_fd_ok, IH.
  unfold all_fds. cbn [map concat]. rewrite List.filter_app, fd_list_app, <- !app_assoc. f_equal.
  change [mgmt_fd s; http_fd s; httpget_fd s] with ([mgmt_fd s] ++ [http_fd s] ++ [httpget_fd s]).
  by rewrite !List.filter_app, !fd_list_app, <- !app_assoc.
Qed.

(** Without the last comma. *)
Lemma fd_list_last (fd : Z) (fds : list Z) :
  last (fd_list (fd :: fds)) = Some 44 /\
  removelast (fd_list (fd :: fds)) = match fds with [] => fmt_d fd | _ => fmt_d fd ++ 44 :: removelast (fd_list fds) end.
Proof.
  revert fd. induction fds as [|f fds IH]; intros fd.
  - unfold fd_list. cbn [map concat]. rewrite app_nil_r. split; [apply last_snoc|apply removelast_last].
  - destruct (IH f) as [Hl _]. change (fd_list (fd :: f :: fds)) with ((fmt_d fd ++ [44]) ++ fd_list (f :: fds)).
    destruct (fd_list (f :: fds)) as [|c l] eqn:E; [done|].
    split; [by rewrite last_app_cons|]. rewrite removelast_app by done. by rewrite <- app_assoc.
Qed.

(** ** The table of the new process *)

(** Every descriptor is bound, no two to the same address. *)
Definition bound (sockname : Z -> option (list Z)) (fds : list Z) : Prop :=
  NoDup fds /\ (forall fd, In fd fds -> is_Some (sockname fd)) /\
  (forall a b x, In a fds -> In b fds -> sockname a = Some x -> sockname b = Some x -> a = b).

(** [t] has exactly the listeners [fds] and those of [t0]. *)
Definition inherited (sockname : Z -> option (list Z)) (fds : list Z) (t0 t : listeners) : Prop :=
  forall a fd, t !! a = Some fd <-> (In fd fds /\ sockname fd = Some a) \/ t0 !! a = Some fd.

Lemma inherit_loop_ok (sockname : Z -> option (list Z)) (fds : list Z) (fuel : nat) (t0 : listeners) :
  fds <> [] -> bound sockname fds -> Forall (fun fd => 0 <= fd <= INT_MAX) fds -> (length fds <= fuel)%nat ->
  (forall a fd, t0 !! a = Some fd -> forall x, In x fds -> sockname x <> Some a) ->
  exists t, inherit_loop sockname fuel (removelast (fd_list fds)) t0 = Ok t /\ inherited sockname fds t0 t.
Proof.
  revert fuel t0. induction fds as [|fd fds IH]; intros fuel t0 Hne (Hnd & Hb & Hinj) Hr Hfu Hfresh; [done|].
  destruct fuel as [|fuel]; [cbn in Hfu; lia|]. cbn [inherit_loop].
  apply Forall_cons_1 in Hr as [Hfd Hr]. destruct (Hb fd (or_introl eq_refl)) as [a Ha].
  assert (t0 !! a = None) as Hnone.
  { destruct (t0 !! a) as [x|] eqn:E; [|done]. by destruct (Hfresh _ _ E fd (or_introl eq_refl)). }
  assert (forall rest, match rest with c :: _ => is_digit c = false | [] => True end ->
    strtoul (fmt_d fd ++ rest) = (fd, rest, false)) as Hst by (intros rest; apply strtoul_fmt; unfold INT_MAX in Hfd; lia).
  assert (register_listen_fd sockname fd t0 = Ok (<[a := fd]> t0)) as Hreg by (unfold register_listen_fd; by rewrite Ha, Hnone).
  destruct (fd_list_last fd fds) as [_ ->]. destruct fds as [|f fds].
  - specialize (Hst [] I). rewrite app_nil_r in Hst. rewrite Hst. destruct (Z.ltb_spec INT_MAX fd) as [?|_]; [lia|].
    rewrite Hreg. cbn [res_bind]. eexists. split; [done|]. intros a' fd'. cbn [In].
    destruct (decide (a' = a)) as [->|Hx]; [rewrite lookup_insert_eq|rewrite lookup_insert_ne by done].
    + split; [intros [= <-]; auto|]. intros [[[<-|[]] _]|H]; [done|congruence].
    + split; [auto|]. intros [[[<-|[]] H]|H]; [congruence|done].
  - rewrite (Hst (44 :: _)) by done. destruct (Z.ltb_spec INT_MAX fd) as [?|_]; [lia|]. rewrite Hreg. cbn [res_bind].
    apply NoDup_cons in Hnd as [Hni Hnd].
    destruct (IH fuel (<[a := fd]> t0)) as (t & He & Hi); [done| |done|cbn in *; lia| |].
    + split_and!; [done|intros; apply Hb; by right|intros ? ? ? ? ?; apply Hinj; by right].
    + intros a' fd' Hl x Hx Hsx. destruct (decide (a' = a)) as [->|Hn].
      * apply Hni. rewrite list_elem_of_In. by rewrite (Hinj fd x a (or_introl eq_refl) (or_intror Hx) Ha Hsx).
      * rewrite lookup_insert_ne in Hl by done. by apply (Hfresh _ _ Hl x (or_intror Hx)).
    + rewrite He. exists t. split; [done|]. intros a' fd'. rewrite (Hi a' fd').
      destruct (decide (a' = a)) as [->|Hn]; [rewrite lookup_insert_eq|rewrite lookup_insert_ne by done].
      * cbn [In]. split; [intros [[? ?]|[= <-]]; auto|]. intros [[[<-|?] ?]|H]; [by right|by left|congruence].
      * cbn [In]. split; [intros [[? ?]|?]; auto|]. intros [[[<-|?] ?]|H]; [congruence|by left|by right].
Qed.

Lemma getenv_first (v : list Z) (envp : list (list Z)) : getenv_fd ((FD_PFX ++ v) :: envp) = Some v.
Proof.
  cbn [getenv_fd]. unfold has_pfx. rewrite take_app_length, bool_decide_true by done. by rewrite drop_app_length.
Qed.

Lemma fd_list_length (fds : list Z) : (length fds <= length (fd_list fds))%nat.
Proof.
  induction fds as [|fd fds IH]; [done|]. change (fd_list (fd :: fds)) with ((fmt_d fd ++ [44]) ++ fd_list fds).
  rewrite !length_app. cbn. lia.
Qed.

(** C18.  An upgrade loses no listener: for any services with at least one
    listener, the environment the old process builds (from whatever environment
    it was started with) gives the new process exactly the listeners of the old
    one: its table maps every address that one of them is bound to to that
    descriptor, and nothing else, so that asking for such an address returns
    the inherited descriptor. *)
Theorem upgrade_roundtrip (sockname : Z -> option (list Z)) (envp : list (list Z)) (svcs : list svc_fds) :
  all_fds svcs <> [] -> bound sockname (all_fds svcs) -> Forall (fun fd => fd <= INT_MAX) (all_fds svcs) ->
  exists env t, mog_upgrade_spawn envp svcs [] = Ok env /\
    mog_inherit_init sockname (getenv_fd env) = Ok (Some t) /\
    inherited sockname (all_fds svcs) ∅ t /\
    forall fd a, In fd (all_fds svcs) -> sockname fd = Some a -> (mog_inherit_get a (Some t)).1 = fd.
Proof.
  intros Hne Hb Hmax. set (fds := all_fds svcs) in *.
  assert (Forall (fun fd => 0 <= fd <= INT_MAX) fds) as Hr.
  { rewrite List.Forall_forall in *. intros fd Hin. split; [|auto]. apply filter_In in Hin as [_ Hin]. lia. }
  destruct fds as [|fd fds'] eqn:E; [done|]. rewrite <- E in *.
  destruct (fd_list_last fd fds') as [Hl _]. rewrite <- E in Hl.
  assert (fd_list fds <> []) as Hnn by (rewrite E; unfold fd_list; cbn [map concat]; by destruct (fmt_d fd)).
  destruct (inherit_loop_ok sockname fds (S (length (removelast (fd_list fds)))) ∅) as (t & Ht & Hi); [by rewrite E|done|done| |done|].
  { pose proof (fd_list_length fds). destruct (exists_last Hnn) as (l & x & Hx). rewrite Hx, removelast_last in *.
    rewrite length_app in *. cbn in *. lia. }
  exists ((FD_PFX ++ removelast (fd_list fds)) :: tail (mog_upgrade_prepare envp)), t. split_and!.
  - unfold mog_upgrade_spawn, upgrade_string. rewrite svc_each_emit_ok. fold fds.
    assert (last (FD_PFX ++ fd_list fds) = Some 44) as ->.
    { destruct (exists_last Hnn) as (l & x & Hx). rewrite Hx in *. rewrite app_assoc. rewrite !last_snoc in *. done. }
    rewrite bool_decide_true by done. cbn [assert_ res_bind]. by rewrite removelast_app by done.
  - rewrite getenv_first. unfold mog_inherit_init. by rewrite Ht.
  - done.
  - intros fd0 a Hin Ha. unfold mog_inherit_get. by rewrite (proj2 (Hi a fd0) (or_introl (conj Hin Ha))).
Qed.

Lemma upgrade_roundtrip_witness :
  let sockname := fun fd => if rng 5 7 fd then Some [fd] else None in
  let svcs := [SvcFds 5 6 (-1); SvcFds (-1) 7 (-1)] in
  exists env t, mog_upgrade_spawn [str "PATH=/bin"; str "CMOGSTORED_FD=1"] svcs [] = Ok env /\
    mog_inherit_init sockname (getenv_fd env) = Ok (Some t) /\
    inherited sockname (all_fds svcs) ∅ t /\
    forall fd a, In fd (all_fds svcs) -> sockname fd = Some a -> (mog_inherit_get a (Some t)).1 = fd.
Proof.
  intros sockname svcs. apply upgrade_roundtrip.
  - vm_compute. congruence.
  - change (all_fds svcs) with [5; 6; 7]. split_and!.
    + repeat constructor; rewrite list_elem_of_In; cbn; lia.
    + intros fd H. cbn in H. destruct H as [<-|[<-|[<-|[]]]]; vm_compute; eauto.
    + intros a b x Ha Hb. cbn in Ha, Hb. destruct Ha as [<-|[<-|[<-|[]]]], Hb as [<-|[<-|[<-|[]]]]; vm_compute; congruence.
  - change (all_fds svcs) with [5; 6; 7]. repeat constructor; vm_compute; congruence.
Defined.
