(* ===== verification/Listen.v ===== *)
(** Addresses to listen on (listen_parser.c, listen_parser_internal.c): the text
    [[ipv4 ":"] port] is cut in place and given to [getaddrinfo]. *)
From S2P Require Import Prelude Fmt Ragel.
From stdpp Require Import base list numbers.
From Stdlib Require Import ZArith Lia.

#[local] Open Scope Z_scope.

(** ** Text that is cut in place *)

(** The local variables of a parser: the offsets at which a NUL was written,
    the pointers into the buffer with their lengths, and [a] or the
    configuration. *)
Record lst (X : Type) := LSt {
  nuls : list Z;
  mark_beg : option Z;
  mark_len : Z;
  port_beg : option Z;
  port_len : Z;
  l_out : X
}.
Arguments LSt {X} nuls mark_beg mark_len port_beg port_len l_out.
Arguments nuls {X} l.
Arguments mark_beg {X} l.
Arguments mark_len {X} l.
Arguments port_beg {X} l.
Arguments port_len {X} l.
Arguments l_out {X} l.

Section State.
Context {X : Type}.
Definition set_mark_beg (v : Z) (s : lst X) := LSt (nuls s) (Some v) (mark_len s) (port_beg s) (port_len s) (l_out s).
Definition set_mark_len (v : Z) (s : lst X) := LSt (nuls s) (mark_beg s) v (port_beg s) (port_len s) (l_out s).
Definition set_port_beg (v : Z) (s : lst X) := LSt (nuls s) (mark_beg s) (mark_len s) (Some v) (port_len s) (l_out s).
Definition set_port_len (v : Z) (s : lst X) := LSt (nuls s) (mark_beg s) (mark_len s) (port_beg s) v (l_out s).
Definition set_out (v : X) (s : lst X) := LSt (nuls s) (mark_beg s) (mark_len s) (port_beg s) (port_len s) v.
Definition set_nuls (v : list Z) (s : lst X) := LSt v (mark_beg s) (mark_len s) (port_beg s) (port_len s) (l_out s).

(** [{ port_len = p - port_beg + 1; }], and the same for [mark_len]. *)
Definition port_more (p : Z) (s : lst X) : lst X :=
  match port_beg s with Some b => set_port_len (p - b + 1) s | None => s end.
Definition mark_more (p : Z) (s : lst X) : lst X :=
  match mark_beg s with Some b => set_mark_len (p - b + 1) s | None => s end.
End State.

(** What is in memory now. *)
Definition mem_at (buf nl : list Z) (p : Z) : Z := if existsb (Z.eqb p) nl then 0 else char_at buf p.

(** [ *q = 0 ], inside the buffer. *)
Definition put_nul (buf : list Z) (q : Z) (nl : list Z) : res (list Z) :=
  if (0 <=? q) && (q <? zlen buf) then Ok (q :: nl) else Crash OutOfBounds.

(** The string at [q]: up to the next NUL. *)
Fixpoint cstr_from (fuel : nat) (buf nl : list Z) (q : Z) : res (list Z) :=
  match fuel with
  | O => Crash OutOfBounds
  | S fuel' =>
      if (0 <=? q) && (q <? zlen buf) then
        if mem_at buf nl q =? 0 then Ok []
        else let* r := cstr_from fuel' buf nl (q + 1) in Ok (mem_at buf nl q :: r)
      else Crash OutOfBounds
  end.
Definition cstr (buf nl : list Z) (q : Z) : res (list Z) := cstr_from (S (length buf)) buf nl q.

(** Socket addresses as bytes. *)
Abbreviation sockaddr := (list Z).

Record mog_addrinfo := MogAddrinfo { addr : sockaddr; orig : list Z }.

Section Listen.
(** [getaddrinfo (node, service)]: the address, or nothing. *)
Variable resolve : option (list Z) -> list Z -> option sockaddr.

(** The pointers are NULL or lead into [buf]; the strings are read after both
    have been cut. *)
Definition mog_listen_parse_internal (buf nl : list Z) (mark_beg : option Z) (mark_len : Z)
    (port_beg : option Z) (port_len : Z) : res (option mog_addrinfo * list Z) :=
  let* nl := (if mark_len =? 0 then Ok nl
              else match mark_beg with Some m => put_nul buf (m + mark_len) nl | None => Crash OutOfBounds end) in
  match port_beg with
  | None => Crash OutOfBounds
  | Some b =>
      let* nl := put_nul buf (b + port_len) nl in
      let* node := (if mark_len =? 0 then Ok None
                    else match mark_beg with
                         | Some m => let* n := cstr buf nl m in Ok (Some n)
                         | None => Crash OutOfBounds
                         end) in
      let* port := cstr buf nl b in
      Ok (match resolve node port with
          | Some x => Some (MogAddrinfo x (match node with Some n => n | None => str "0.0.0.0" end ++ [58] ++ port))
          | None => None
          end, nl)
  end.
End Listen.

(** ** The machine *)

Module ListenParser.
Definition listen_parser_start : Z := 1.
Definition listen_parser_first_final : Z := 11.
Definition listen_parser_error : Z := 0.

(** [case 1] to [case 10] (listen_parser.c, lines 52-185). *)
Definition cases_1 (cs c : Z) : option label :=
  match cs with
  | 1 => Some (if c =? 58 then St 9
      else if rng 48 57 c then Tr 1
      else Tr 0)
  | 2 => Some (if c =? 0 then Tr 3
      else if c =? 46 then St 3
      else if rng 48 57 c then Tr 5
      else Tr 0)
  | 11 => Some (St 0)
  | 3 => Some (if rng 48 57 c then St 4
      else Tr 0)
  | 4 => Some (if c =? 46 then St 5
      else if rng 48 57 c then St 4
      else Tr 0)
  | 5 => Some (if rng 48 57 c then St 6
      else Tr 0)
  | 6 => Some (if c =? 46 then St 7
      else if rng 48 57 c then St 6
      else Tr 0)
  | 7 => Some (if rng 48 57 c then Tr 10
      else Tr 0)
  | 8 => Some (if c =? 58 then St 9
      else if rng 48 57 c then Tr 10
      else Tr 0)
  | 9 => Some (if rng 48 57 c then Tr 11
      else Tr 0)
  | 10 => Some (if c =? 0 then Tr 3
      else if rng 48 57 c then Tr 12
      else Tr 0)
  | _ => None
  end.

Definition goto (cs c : Z) : option label :=
  cases_1 cs c.

Section Parser.
Variable resolve : option (list Z) -> list Z -> option sockaddr.
Abbreviation st := (lst (option mog_addrinfo)).

(** The blocks [trN]. *)
Definition act (k : Z) (buf : list Z) (p : Z) (s : st) : jump st :=
  match k with
  | 0 => GoOut 0 p s
  | 1 => GoSt 2 p (port_more p (set_port_beg p (set_mark_beg p s)))
  | 5 => GoSt 2 p (port_more p s)
  | 3 => match mog_listen_parse_internal resolve buf (nuls s) (mark_beg s) (mark_len s) (port_beg s) (port_len s) with
         | Ok (a, nl) => GoSt 11 p (set_out a (set_nuls nl s))
         | Crash w => Stop w
         end
  | 10 => GoSt 8 p (mark_more p s)
  | 12 => GoSt 10 p (port_more p s)
  | 11 => GoSt 10 p (port_more p (set_port_beg p s))
  | _ => Stop AssertFailed
  end.

Definition step (buf : list Z) (cs p : Z) (s : st) : jump st :=
  match goto cs (mem_at buf (nuls s) p) with
  | Some (St n) => if n =? 0 then GoOut 0 p s else GoSt n p s
  | Some (Tr k) => act k buf p s
  | None => Stop AssertFailed
  end.

(** [listen_parse] on its private copy of the string. *)
Definition listen_parse (s : list Z) : res (option mog_addrinfo) :=
  let buf := s ++ [0] in
  let* r := enter step (S (length buf)) buf listen_parser_start 0 (LSt [] None 0 None 0 None) in
  let a := if r_cs r =? listen_parser_error then None else l_out (r_s r) in
  assert! r_p r <=? zlen buf;
  Ok a.

Definition mog_listen_parse (s : list Z) : res (option mog_addrinfo) := listen_parse s.
End Parser.
End ListenParser.

(** ** The text of an address *)

(** The digits at the start, and the rest. *)
Fixpoint span (s : list Z) : list Z * list Z :=
  match s with
  | c :: r => if is_digit c then (c :: (span r).1, (span r).2) else ([], s)
  | [] => ([], [])
  end.

(** The node (none: any address) and the port that a text stands for. *)
Definition port_spec (node : option (list Z)) (s : list Z) : option (option (list Z) * list Z) :=
  match span s with
  | ((_ :: _) as port, []) => Some (node, port)
  | _ => None
  end.

(** Behind a dot, with [k] dots to come. *)
Fixpoint dots (k : nat) (acc s : list Z) : option (option (list Z) * list Z) :=
  match span s with
  | ((_ :: _) as d, 46 :: r) => match k with S k' => dots k' (acc ++ d ++ [46]) r | O => None end
  | ((_ :: _) as d, 58 :: r) => match k with O => port_spec (Some (acc ++ d)) r | S _ => None end
  | _ => None
  end.

Definition listen_spec (s : list Z) : option (option (list Z) * list Z) :=
  match s with
  | [] => None
  | c :: r =>
      if c =? 58 then port_spec None r
      else match span s with
           | ((_ :: _) as port, []) => Some (None, port)
           | ((_ :: _) as d, 46 :: r) => dots 2 (d ++ [46]) r
           | _ => None
           end
  end.

(** ** Every copy of the machine *)

(** The machine of listen_parser_common.rl, which cfg_parser.c contains three
    times: its states with what its transitions do. *)
Section Edge.
Context {X : Type}.

Definition edge (i c : Z) : option (Z * (Z -> lst X -> lst X)) :=
  let keep := fun (_ : Z) (s : lst X) => s in
  match i with
  | 1 => if c =? 58 then Some (9, keep)
         else if is_digit c then Some (2, fun p s => port_more p (set_port_beg p (set_mark_beg p s))) else None
  | 2 => if c =? 46 then Some (3, keep) else if is_digit c then Some (2, port_more) else None
  | 3 => if is_digit c then Some (4, keep) else None
  | 4 => if c =? 46 then Some (5, keep) else if is_digit c then Some (4, keep) else None
  | 5 => if is_digit c then Some (6, keep) else None
  | 6 => if c =? 46 then Some (7, keep) else if is_digit c then Some (6, keep) else None
  | 7 => if is_digit c then Some (8, mark_more) else None
  | 8 => if c =? 58 then Some (9, keep) else if is_digit c then Some (8, mark_more) else None
  | 9 => if is_digit c then Some (10, fun p s => port_more p (set_port_beg p s)) else None
  | 10 => if is_digit c then Some (10, port_more) else None
  | _ => None
  end.

Fixpoint erun (i p : Z) (s : lst X) (ws : list Z) : option (Z * lst X) :=
  match ws with
  | [] => Some (i, s)
  | c :: r => match edge i c with
              | Some (j, f) => erun j (p + 1) (f p s) r
              | None => None
              end
  end.

Lemma span_spec (s : list Z) :
  s = (span s).1 ++ (span s).2 /\ Forall (fun c => is_digit c = true) (span s).1 /\
  match (span s).2 with c :: _ => is_digit c = false | [] => True end.
Proof.
  induction s as [|c r (IH1 & IH2 & IH3)]; [done|]. cbn [span]. destruct (is_digit c) eqn:E; cbn [fst snd app].
  - split; [by f_equal|]. split; [by constructor|done].
  - by rewrite E.
Qed.

Lemma span_app (d r : list Z) :
  Forall (fun c => is_digit c = true) d -> match r with c :: _ => is_digit c = false | [] => True end ->
  span (d ++ r) = (d, r).
Proof.
  intros Hd Hr. induction Hd as [|c d Hc _ IH]; cbn [app span].
  - destruct r as [|c r]; [done|]. cbn. by rewrite Hr.
  - by rewrite Hc, IH.
Qed.

Lemma erun_app (i p : Z) (s : lst X) (a b : list Z) (j : Z) (s' : lst X) :
  erun i p s a = Some (j, s') -> erun i p s (a ++ b) = erun j (p + zlen a) s' b.
Proof.
  revert i p s. induction a as [|c a IH]; intros i p s H.
  - injection H as -> ->. rewrite zlen_nil. by rewrite Z.add_0_r.
  - cbn [erun app] in *. destruct (edge i c) as [[k f]|]; [|done]. rewrite (IH _ _ _ H). f_equal. rewrite zlen_cons. lia.
Qed.

(** Digits in a state that keeps them. *)
Lemma erun_keep (i p : Z) (s : lst X) (d : list Z) :
  (forall c, is_digit c = true -> edge i c = Some (i, fun _ s => s)) ->
  Forall (fun c => is_digit c = true) d -> erun i p s d = Some (i, s).
Proof.
  intros He Hd. revert p. induction Hd as [|c d Hc _ IH]; intros p; [done|]. cbn [erun]. rewrite He by done. apply IH.
Qed.

Lemma erun_port (i p b : Z) (s : lst X) (d : list Z) :
  (forall c, is_digit c = true -> edge i c = Some (i, port_more)) ->
  Forall (fun c => is_digit c = true) d -> port_beg s = Some b -> port_len s = p - b ->
  erun i p s d = Some (i, set_port_len (p + zlen d - b) s).
Proof.
  intros He Hd. revert p s. induction Hd as [|c d Hc _ IH]; intros p s Hb Hl.
  - cbn [erun]. rewrite zlen_nil, Z.add_0_r, <- Hl. by destruct s.
  - cbn [erun]. rewrite He by done. unfold port_more. rewrite Hb. rewrite IH; [|done|cbn; lia].
    unfold set_port_len; cbn. do 3 f_equal. rewrite zlen_cons. lia.
Qed.

Lemma erun_mark (i p b : Z) (s : lst X) (d : list Z) :
  (forall c, is_digit c = true -> edge i c = Some (i, mark_more)) ->
  Forall (fun c => is_digit c = true) d -> mark_beg s = Some b -> mark_len s = p - b ->
  erun i p s d = Some (i, set_mark_len (p + zlen d - b) s).
Proof.
  intros He Hd. revert p s. induction Hd as [|c d Hc _ IH]; intros p s Hb Hl.
  - cbn [erun]. rewrite zlen_nil, Z.add_0_r, <- Hl. by destruct s.
  - cbn [erun]. rewrite He by done. unfold mark_more. rewrite Hb. rewrite IH; [|done|cbn; lia].
    unfold set_mark_len; cbn. do 3 f_equal. rewrite zlen_cons. lia.
Qed.

(** The text ended, or went wrong, in a state from which no address follows. *)
Definition rejected (r : option (Z * lst X)) : Prop :=
  match r with Some (i, _) => i <> 2 /\ i <> 10 | None => True end.

Ltac no_digit := repeat match goal with H : is_digit ?c = false |- context [is_digit ?c] => rewrite H end.

(** Behind the colon. *)
Lemma erun_port_spec (node : option (list Z)) (p : Z) (s : lst X) (ws : list Z) :
  match port_spec node ws with
  | Some (n, port) => n = node /\ port = ws /\ erun 9 p s ws = Some (10, set_port_len (zlen ws) (set_port_beg p s))
  | None => rejected (erun 9 p s ws)
  end.
Proof.
  unfold port_spec. destruct (span_spec ws) as (Hws & Hd & Hr). destruct (span ws) as [d r]; cbn [fst snd] in *. subst ws.
  destruct Hd as [|c d Hc Hd].
  - destruct r as [|c r]; cbn [app erun edge]; [done|]. by rewrite Hr.
  - cbn [app erun edge]. rewrite Hc.
    rewrite (erun_app _ _ _ _ _ _ _ (erun_port 10 (p + 1) p (port_more p (set_port_beg p s)) d ltac:(intros x Hx; cbn; by rewrite Hx) Hd eq_refl ltac:(cbn; lia))).
    destruct r as [|c' r]; cbn [erun edge]; [|by rewrite Hr]. rewrite app_nil_r. split; [done|]. split; [done|].
    unfold set_port_len, set_port_beg; cbn. do 3 f_equal. rewrite zlen_cons. lia.
Qed.

(** What a run over an address leaves in the variables. *)
Definition addressed (beg end_ : Z) (node : option (list Z)) (port : list Z) (s s' : lst X) : Prop :=
  nuls s' = nuls s /\ l_out s' = l_out s /\ port_beg s' = Some (end_ - zlen port) /\ port_len s' = zlen port /\
  match node with
  | Some n => mark_beg s' = Some beg /\ mark_len s' = zlen n
  | None => mark_len s' = mark_len s
  end.

Lemma erun_dots (k : nat) (acc : list Z) (p p0 : Z) (s : lst X) (ws : list Z) :
  (k <= 2)%nat -> mark_beg s = Some p0 -> p = p0 + zlen acc ->
  match dots k acc ws with
  | Some (node, port) => exists n s', node = Some n /\ erun (7 - 2 * Z.of_nat k) p s ws = Some (10, s') /\
      acc ++ ws = n ++ 58 :: port /\ n <> [] /\ addressed p0 (p + zlen ws) node port s s'
  | None => rejected (erun (7 - 2 * Z.of_nat k) p s ws)
  end.
Proof.
  revert acc p s ws. induction k as [|k IH]; intros acc p s ws Hk Hm Hp; cbn [dots];
    destruct (span_spec ws) as (Hws & Hd & Hr); destruct (span ws) as [d r]; cbn [fst snd] in *; subst ws.
  - change (7 - 2 * Z.of_nat 0) with 7. destruct Hd as [|c d Hc Hd].
    { destruct r as [|c r]; cbn [app erun edge]; [done|]. by rewrite Hr. }
    cbn [app erun edge]. rewrite Hc.
    assert (erun 8 (p + 1) (mark_more p s) d = Some (8, set_mark_len (zlen acc + zlen (c :: d)) s)) as He.
    { unfold mark_more. rewrite Hm. rewrite (erun_mark 8 _ p0) by
        ((intros x Hx; cbn; rewrite Hx; destruct (Z.eqb_spec x 58); [subst; done|done]) || done || (cbn; lia)).
      unfold set_mark_len; cbn. do 3 f_equal. rewrite zlen_cons. lia. }
    rewrite (erun_app _ _ _ _ _ _ _ He). destruct r as [|c' r]; [done|]. cbn [erun edge].
    destruct (Z.eqb_spec c' 58) as [->|Hn].
    + pose proof (erun_port_spec (Some (acc ++ c :: d)) (p + 1 + zlen d + 1) (set_mark_len (zlen acc + zlen (c :: d)) s) r) as Hps.
      destruct (port_spec _ r) as [[n port]|]; [|done]. destruct Hps as (-> & -> & ->).
      exists (acc ++ c :: d), (set_port_len (zlen r) (set_port_beg (p + 1 + zlen d + 1) (set_mark_len (zlen acc + zlen (c :: d)) s))).
      split; [done|]. split; [done|]. split; [by rewrite <- app_assoc|]. split; [by destruct acc|]. split_and!; try done; cbn.
      * f_equal. rewrite ?zlen_cons, ?zlen_app, ?zlen_cons. lia.
      * rewrite ?zlen_app, ?zlen_cons. lia.
    + rewrite Hr. by repeat case_match; try lia.
  - set (i := 7 - 2 * Z.of_nat (S k)).
    assert (forall x, edge i x = if is_digit x then Some (i + 1, fun _ (s : lst X) => s) else None) as Hfst
      by (intros x; unfold i; assert (k = 0 \/ k = 1)%nat as [->| ->] by lia; done).
    assert (forall x, edge (i + 1) x = if x =? 46 then Some (i + 2, fun _ (s : lst X) => s)
        else if is_digit x then Some (i + 1, fun _ (s : lst X) => s) else None) as Hed
      by (intros x; unfold i; assert (k = 0 \/ k = 1)%nat as [->| ->] by lia; done).
    destruct Hd as [|c d Hc Hd].
    { destruct r as [|c r]; [cbn [app erun rejected]; lia|]. cbn [app erun]. by rewrite Hfst, Hr. }
    assert (erun i p s (c :: d) = Some (i + 1, s)) as He.
    { cbn [erun]. rewrite Hfst, Hc. apply erun_keep; [|done]. intros x Hx. rewrite Hed, Hx.
      destruct (Z.eqb_spec x 46); [subst; done|done]. }
    rewrite (erun_app _ _ _ _ _ _ _ He).
    destruct r as [|c' r].
    { cbn [erun rejected]. unfold i. lia. }
    cbn [erun]. rewrite Hed, Hr. destruct (Z.eqb_spec c' 46) as [->|Hn]; [|by repeat case_match; try lia].
    specialize (IH (acc ++ (c :: d) ++ [46]) (p + zlen (c :: d) + 1) s r ltac:(lia) Hm).
    replace (i + 2) with (7 - 2 * Z.of_nat k) by (unfold i; lia).
    destruct (dots k _ r) as [[node port]|].
    + destruct IH as (n & s' & -> & -> & Hn & Hne & Hadd); [rewrite ?zlen_app; cbn; rewrite ?zlen_cons, ?zlen_nil; lia|].
      exists n, s'. split; [done|]. split; [done|]. split; [rewrite <- Hn, <- !app_assoc; done|]. split; [done|].
      replace (p + zlen ((c :: d) ++ 46 :: r)) with (p + zlen (c :: d) + 1 + zlen r); [done|].
      rewrite zlen_app, (zlen_cons 46). lia.
    + apply IH. rewrite ?zlen_app, (zlen_cons 46), zlen_nil. lia.
Qed.

(** The machine knows exactly the texts of [listen_spec]. *)
Lemma erun_spec (p : Z) (s : lst X) (ws : list Z) :
  match listen_spec ws with
  | Some (node, port) => exists i s', (i = 2 \/ i = 10) /\ erun 1 p s ws = Some (i, s') /\
      addressed p (p + zlen ws) node port s s' /\
      match node with Some n => ws = n ++ 58 :: port /\ n <> [] | None => ws = port \/ ws = 58 :: port end
  | None => rejected (erun 1 p s ws)
  end.
Proof.
  unfold listen_spec. destruct ws as [|c0 ws0]; [done|].
  destruct (Z.eqb_spec c0 58) as [->|H58].
  { pose proof (erun_port_spec None (p + 1) s ws0) as H. cbn [erun edge Z.eqb Pos.eqb].
    destruct (port_spec None ws0) as [[n port]|]; [|done]. destruct H as (-> & -> & ->).
    eexists 10, _. split; [by right|]. split; [done|]. split; [|by right]. split_and!; try done. cbn. f_equal. rewrite zlen_cons. lia. }
  set (ws := c0 :: ws0) in *. destruct (span_spec ws) as (Hws & Hd & Hr). destruct (span ws) as [d r]; cbn [fst snd] in *.
  destruct Hd as [|c d Hc Hd].
  { destruct r as [|c r]; [done|]. unfold ws. injection Hws as -> ->. cbn [erun edge]. rewrite Hr.
    by destruct (Z.eqb_spec c 58). }
  rewrite Hws. injection Hws as -> Hws0. cbn [app erun edge]. rewrite Hc. destruct (Z.eqb_spec c 58) as [|_]; [done|].
  set (s1 := port_more p (set_port_beg p (set_mark_beg p s))).
  assert (erun 2 (p + 1) s1 d = Some (2, set_port_len (zlen (c :: d)) s1)) as He.
  { rewrite (erun_port 2 _ p) by ((intros x Hx; cbn; rewrite Hx; destruct (Z.eqb_spec x 46); [subst; done|done]) || done || (cbn; lia)).
    unfold set_port_len; cbn. do 3 f_equal. rewrite zlen_cons. lia. }
  rewrite (erun_app _ _ _ _ _ _ _ He). destruct r as [|c' r].
  { eexists 2, _. split; [by left|]. split; [done|]. rewrite app_nil_r. split; [|by left]. split_and!; try done. cbn. f_equal. rewrite zlen_cons. lia. }
  cbn [erun edge]. rewrite Hr. destruct (Z.eqb_spec c' 46) as [->|Hn]; [|by repeat case_match; try lia].
  pose proof (erun_dots 2 ((c :: d) ++ [46]) (p + 1 + zlen d + 1) p (set_port_len (zlen (c :: d)) s1) r ltac:(lia) eq_refl
    ltac:(rewrite zlen_app, zlen_cons, (zlen_cons 46), zlen_nil; lia)) as H. change (7 - 2 * Z.of_nat 2) with 3 in H.
  destruct (dots 2 _ r) as [[node port]|]; [|done]. destruct H as (n & s' & -> & -> & Ht & Hne & Ha1 & Ha2 & Ha3 & Ha4 & Ha5).
  exists 10, s'. split; [by right|]. split; [done|]. split.
  - split; [done|]. split; [done|]. split; [|done]. rewrite Ha3. f_equal. rewrite zlen_cons, zlen_app, (zlen_cons 46). lia.
  - rewrite <- Ht. by rewrite <- app_assoc.
Qed.
End Edge.

(** ** Running the machine *)

(** Nothing was written at [p] or behind it. *)
Definition behind {X} (s : lst X) (p : Z) : Prop := Forall (fun x => x < p) (nuls s).

Lemma behind_next {X} (s : lst X) (p q : Z) : p <= q -> behind s p -> behind s q.
Proof. unfold behind. intros Hle. apply Forall_impl. intros; lia. Qed.

Lemma mem_at_ahead {X} (buf : list Z) (s : lst X) (p : Z) : behind s p -> mem_at buf (nuls s) p = char_at buf p.
Proof.
  unfold mem_at, behind. intros H. destruct (existsb _ _) eqn:E; [|done].
  apply existsb_exists in E as (x & Hx & ->%Z.eqb_eq). rewrite List.Forall_forall in H. specialize (H x Hx). lia.
Qed.

Section Run.
Context {X : Type}.
Variable step : list Z -> Z -> Z -> lst X -> jump (lst X).
(** Where the copy of the machine is. *)
Variable q : Z -> Z.
Hypothesis edge_step : forall buf i p s j f,
  behind s p -> edge i (char_at buf p) = Some (j, f) -> step buf (q i) p s = GoSt (q j) p (f p s).

Lemma edge_nuls (i c j p : Z) (f : Z -> lst X -> lst X) (s : lst X) : edge i c = Some (j, f) -> nuls (f p s) = nuls s.
Proof.
  unfold edge, port_more, mark_more. intros H.
  repeat case_match; try done; injection H as <- <-; cbn; repeat case_match; done.
Qed.

Lemma erun_runs (ws pre suf : list Z) (i j : Z) (s s' : lst X) Q :
  behind s (zlen pre) -> erun i (zlen pre) s ws = Some (j, s') ->
  runs step ((pre ++ ws) ++ suf) (q j) (zlen (pre ++ ws)) s' Q ->
  runs step (pre ++ ws ++ suf) (q i) (zlen pre) s Q.
Proof.
  revert pre i s. induction ws as [|c ws IH]; intros pre i s Hb He Hr.
  - injection He as -> ->. by rewrite app_nil_r in Hr.
  - cbn [erun] in He. destruct (edge i c) as [[k f]|] eqn:E; [|done]. cbn [app].
    eapply (runs_char _ _ _ _ _ _ (q k) (f (zlen pre) s)).
    + apply edge_step; [done|by rewrite char_at_mid].
    + apply IH.
      * unfold behind. rewrite (edge_nuls _ _ _ _ _ _ E), zlen_app. eapply (behind_next s); [|exact Hb]. pose proof (zlen_nonneg [c]). lia.
      * by rewrite zlen_app.
      * by rewrite <- !app_assoc in *.
Qed.

(** A text that leaves the states of the machine leaves them at some character. *)
Lemma erun_stuck (ws pre suf : list Z) (i : Z) (s : lst X) Q :
  behind s (zlen pre) -> erun i (zlen pre) s ws = None ->
  (forall a c b j s', ws = a ++ c :: b -> behind s' (zlen (pre ++ a)) -> edge (X := X) j c = None -> erun i (zlen pre) s a = Some (j, s') ->
     runs step ((pre ++ a) ++ c :: b ++ suf) (q j) (zlen (pre ++ a)) s' Q) ->
  runs step (pre ++ ws ++ suf) (q i) (zlen pre) s Q.
Proof.
  revert pre i s. induction ws as [|c ws IH]; intros pre i s Hb He Hr; [done|].
  cbn [erun] in He. cbn [app]. destruct (edge i c) as [[k f]|] eqn:E.
  - eapply (runs_char _ _ _ _ _ _ (q k) (f (zlen pre) s)).
    + apply edge_step; [done|by rewrite char_at_mid].
    + apply IH.
      * unfold behind. rewrite (edge_nuls _ _ _ _ _ _ E), zlen_app. eapply (behind_next s); [|exact Hb]. pose proof (zlen_nonneg [c]). lia.
      * by rewrite zlen_app.
      * intros a c' b j s' -> Hb' He' Hrun.
        specialize (Hr (c :: a) c' b j s'). rewrite <- (app_assoc pre [c] a) in *. apply Hr; [done|done|done|].
        cbn [erun]. rewrite E. by rewrite zlen_app in Hrun.
  - specialize (Hr [] c ws i s). rewrite app_nil_r in Hr. by apply Hr.
Qed.
End Run.

(** ** Cutting *)

Lemma mem_at_app (a b nl : list Z) (c : Z) :
  mem_at (a ++ c :: b) nl (zlen a) = if existsb (Z.eqb (zlen a)) nl then 0 else c.
Proof. unfold mem_at. by rewrite char_at_mid. Qed.

Lemma existsb_eqb_In (x : Z) (l : list Z) : existsb (Z.eqb x) l = true <-> In x l.
Proof.
  rewrite existsb_exists. split; [intros (y & Hy & ->%Z.eqb_eq); done|]. intros H. exists x. by rewrite Z.eqb_refl.
Qed.

Lemma cstr_ok (a w b nl : list Z) (c : Z) :
  Forall (fun x => x <> 0) w -> (forall x, In x nl -> x < zlen a \/ zlen a + zlen w <= x) ->
  In (zlen a + zlen w) nl -> cstr (a ++ w ++ c :: b) nl (zlen a) = Ok w.
Proof.
  intros Hw Hnl Hin. unfold cstr.
  assert (length w < S (length (a ++ w ++ c :: b)))%nat as Hf by (rewrite !length_app; cbn; lia).
  revert Hf. generalize (S (length (a ++ w ++ c :: b))) as fuel. revert a Hnl Hin.
  induction Hw as [|x w Hx Hw IH]; intros a Hnl Hin fuel Hf; (destruct fuel as [|fuel]; [lia|]); cbn [cstr_from].
  all: assert (forall y t, (0 <=? zlen a) && (zlen a <? zlen (a ++ y :: t)) = true) as Hb
    by (intros y t; rewrite zlen_app, zlen_cons, andb_true_iff, Z.leb_le, Z.ltb_lt;
        pose proof (zlen_nonneg a); pose proof (zlen_nonneg t); lia).
  all: cbn [app]; rewrite Hb, mem_at_app.
  - rewrite zlen_nil, Z.add_0_r in Hin. by rewrite (proj2 (existsb_eqb_In _ _) Hin).
  - destruct (existsb _ _) eqn:E.
    { apply existsb_eqb_In in E. destruct (Hnl _ E) as [|H]; [lia|]. rewrite zlen_cons in H. pose proof (zlen_nonneg w). lia. }
    destruct (Z.eqb_spec x 0); [done|]. specialize (IH (a ++ [x])).
    rewrite (zlen_app a [x]), (zlen_cons x []), zlen_nil, Z.add_0_l, <- app_assoc in IH. cbn [app] in IH.
    rewrite zlen_cons in *. rewrite IH; [done| | |cbn in Hf; lia].
    + intros y Hy. destruct (Hnl y Hy) as [|]; lia.
    + replace (zlen a + 1 + zlen w) with (zlen a + (zlen w + 1)) by lia. done.
Qed.

(** The value of an address. *)
Definition resolved (resolve : option (list Z) -> list Z -> option sockaddr) (node : option (list Z)) (port : list Z) : option mog_addrinfo :=
  match resolve node port with
  | Some x => Some (MogAddrinfo x (match node with Some n => n | None => str "0.0.0.0" end ++ [58] ++ port))
  | None => None
  end.

Lemma put_nul_ok (buf nl : list Z) (q : Z) : 0 <= q < zlen buf -> put_nul buf q nl = Ok (q :: nl).
Proof. intros. unfold put_nul. destruct (Z.leb_spec 0 q), (Z.ltb_spec q (zlen buf)); (done || lia). Qed.

(** The strings that [getaddrinfo] gets are those of the text. *)
Lemma listen_internal_ok resolve {X} (pre ws suf : list Z) (c : Z) (node : option (list Z)) (port : list Z) (s s' : lst X) :
  behind s (zlen pre) -> Forall (fun x => x <> 0) ws ->
  addressed (zlen pre) (zlen (pre ++ ws)) node port s s' ->
  match node with Some n => ws = n ++ 58 :: port /\ n <> [] | None => (ws = port \/ ws = 58 :: port) /\ mark_len s = 0 end ->
  exists nl, mog_listen_parse_internal resolve (pre ++ ws ++ c :: suf) (nuls s') (mark_beg s') (mark_len s') (port_beg s') (port_len s')
    = Ok (resolved resolve node port, nl) /\ Forall (fun x => x <= zlen (pre ++ ws)) nl.
Proof.
  intros Hb Hnz (Hn & _ & Hpb & Hpl & Hm) Hws. unfold mog_listen_parse_internal. rewrite Hn, Hpb, Hpl.
  pose proof (zlen_nonneg pre) as Hz1. pose proof (zlen_nonneg suf) as Hz2. pose proof (zlen_nonneg port) as Hz3.
  unfold behind in Hb.
  assert (Forall (fun x => x <= zlen (pre ++ ws)) (nuls s)) as Hb'.
  { revert Hb. apply Forall_impl. intros x Hx. rewrite zlen_app. pose proof (zlen_nonneg ws). lia. }
  assert (forall x, zlen (pre ++ ws ++ x :: suf) = zlen (pre ++ ws) + 1 + zlen suf) as Hlen
    by (intros; rewrite !zlen_app, zlen_cons; lia).
  rewrite List.Forall_forall in Hb. destruct node as [n|].
  - destruct Hws as [-> Hne]. destruct Hm as [-> ->]. destruct (Z.eqb_spec (zlen n) 0) as [E|_].
    { destruct n; [done|]. rewrite zlen_cons in E. pose proof (zlen_nonneg n). lia. }
    assert (zlen (pre ++ n ++ 58 :: port) = zlen pre + zlen n + 1 + zlen port) as Hl by (rewrite !zlen_app, zlen_cons; lia).
    pose proof (zlen_nonneg n) as Hz4. apply List.Forall_app in Hnz as [Hnzn Hnzp]. apply Forall_cons_1 in Hnzp as [_ Hnzp].
    rewrite put_nul_ok by (rewrite Hlen, Hl; lia). cbn [res_bind].
    replace (zlen (pre ++ n ++ 58 :: port) - zlen port + zlen port) with (zlen pre + zlen n + 1 + zlen port) by lia.
    rewrite put_nul_ok by (rewrite Hlen, Hl; lia). cbn [res_bind].
    set (nl := _ :: _ :: nuls s).
    assert (cstr (pre ++ (n ++ 58 :: port) ++ c :: suf) nl (zlen pre) = Ok n) as ->.
    { rewrite <- app_assoc. apply cstr_ok; [done| |by right; left].
      intros x [<-|[<-|Hx%Hb]]; lia. }
    cbn [res_bind].
    assert (cstr (pre ++ (n ++ 58 :: port) ++ c :: suf) nl (zlen (pre ++ n ++ 58 :: port) - zlen port) = Ok port) as ->.
    { replace (zlen (pre ++ n ++ 58 :: port) - zlen port) with (zlen (pre ++ n ++ [58])) by (rewrite Hl, !zlen_app, zlen_cons, zlen_nil; lia).
      replace (pre ++ (n ++ 58 :: port) ++ c :: suf) with ((pre ++ n ++ [58]) ++ port ++ c :: suf) by (by rewrite <- !app_assoc).
      assert (zlen (pre ++ n ++ [58]) = zlen pre + zlen n + 1) as Hl2 by (rewrite !zlen_app, zlen_cons, zlen_nil; lia).
      apply cstr_ok; [done| |by left; lia]. intros x [<-|[<-|Hx%Hb]]; lia. }
    cbn [res_bind]. exists nl. split; [done|]. repeat constructor; [lia|lia|done].
  - destruct Hws as [Hws Hm0]. rewrite Hm, Hm0. cbn [Z.eqb res_bind].
    rewrite put_nul_ok by (rewrite Hlen; pose proof (zlen_nonneg (pre ++ ws)); destruct Hws as [->| ->]; rewrite !zlen_app in *; rewrite ?zlen_cons in *; lia).
    cbn [res_bind]. replace (zlen (pre ++ ws) - zlen port + zlen port) with (zlen (pre ++ ws)) by lia.
    set (nl := _ :: nuls s).
    assert (cstr (pre ++ ws ++ c :: suf) nl (zlen (pre ++ ws) - zlen port) = Ok port) as ->.
    { destruct Hws as [->| ->].
      - replace (zlen (pre ++ port) - zlen port) with (zlen pre) by (rewrite zlen_app; lia).
        apply cstr_ok; [done| |left; by rewrite zlen_app]. intros x [<-|Hx%Hb]; rewrite ?zlen_app; lia.
      - apply Forall_cons_1 in Hnz as [_ Hnz].
        replace (zlen (pre ++ 58 :: port) - zlen port) with (zlen (pre ++ [58])) by (rewrite !zlen_app, !zlen_cons, zlen_nil; lia).
        replace (pre ++ (58 :: port) ++ c :: suf) with ((pre ++ [58]) ++ port ++ c :: suf) by (by rewrite <- app_assoc).
        apply cstr_ok; [done| |left; rewrite !zlen_app, !zlen_cons, zlen_nil; lia].
        intros x [<-|Hx%Hb]; rewrite !zlen_app, !zlen_cons, ?zlen_nil in *; lia. }
    cbn [res_bind]. exists nl. split; [done|]. constructor; [lia|done].
Qed.

(** ** Properties *)

Section Exact.
Variable resolve : option (list Z) -> list Z -> option sockaddr.
Abbreviation lstep := (ListenParser.step resolve).

Lemma listen_edge_step (buf : list Z) (i p j : Z) (s : lst (option mog_addrinfo)) f :
  behind s p -> edge i (char_at buf p) = Some (j, f) -> lstep buf i p s = GoSt j p (f p s).
Proof.
  intros Hb He. unfold ListenParser.step. rewrite (mem_at_ahead _ _ _ Hb). revert He. generalize (char_at buf p). intros c.
  unfold edge, is_digit, ListenParser.goto, ListenParser.cases_1.
  destruct i as [|i|i]; try done. repeat (destruct i as [i|i|]; try done).
  all: destruct (Z.eqb_spec c 58), (Z.eqb_spec c 46), (Z.eqb_spec c 0), (rng 48 57 c) eqn:Er; subst; try done;
    try (rewrite rng_true in Er; lia); by intros [= <- <-].
Qed.

Lemma listen_reject_step (buf : list Z) (i p : Z) (s : lst (option mog_addrinfo)) :
  behind s p -> 1 <= i <= 10 -> edge (X := option mog_addrinfo) i (char_at buf p) = None ->
  char_at buf p <> 0 \/ (i <> 2 /\ i <> 10) -> lstep buf i p s = GoOut 0 p s.
Proof.
  intros Hb Hi. unfold ListenParser.step. rewrite (mem_at_ahead _ _ _ Hb). generalize (char_at buf p). intros c.
  unfold edge, is_digit, ListenParser.goto, ListenParser.cases_1.
  assert (i = 1 \/ i = 2 \/ i = 3 \/ i = 4 \/ i = 5 \/ i = 6 \/ i = 7 \/ i = 8 \/ i = 9 \/ i = 10) as Hc by lia.
  repeat destruct Hc as [->|Hc]; [..|subst i].
  all: destruct (Z.eqb_spec c 58), (Z.eqb_spec c 46), (Z.eqb_spec c 0), (rng 48 57 c); subst; try done; intros _ [?|[? ?]]; done.
Qed.

Lemma erun_range {X} (i p j : Z) (s s' : lst X) (ws : list Z) :
  1 <= i <= 10 -> erun i p s ws = Some (j, s') -> 1 <= j <= 10.
Proof.
  revert i p s. induction ws as [|c ws IH]; intros i p s Hi H; [by injection H as -> ->|]. cbn [erun] in H.
  destruct (edge i c) as [[k f]|] eqn:E; [|done]. apply (IH _ _ _) in H; [done|].
  unfold edge in E. repeat case_match; try done; injection E as <- <-; lia.
Qed.

Lemma erun_nuls {X} (i p j : Z) (s s' : lst X) (ws : list Z) : erun i p s ws = Some (j, s') -> nuls s' = nuls s.
Proof.
  revert i p s. induction ws as [|c ws IH]; intros i p s H; [by injection H as -> ->|]. cbn [erun] in H.
  destruct (edge i c) as [[k f]|] eqn:E; [|done]. rewrite (IH _ _ _ H). by eapply edge_nuls.
Qed.

Lemma erun_nonzero {X} (i p j : Z) (s s' : lst X) (ws : list Z) : erun i p s ws = Some (j, s') -> Forall (fun c => c <> 0) ws.
Proof.
  revert i p s. induction ws as [|c ws IH]; intros i p s H; [constructor|]. cbn [erun] in H.
  destruct (edge i c) as [[k f]|] eqn:E; [|done]. constructor; [|by eapply IH].
  intros ->. unfold edge in E. by repeat case_match.
Qed.

(** The outcome of the machine on a whole text. *)
Lemma listen_runs (text : list Z) :
  Forall (fun c => c <> 0) text ->
  runs lstep (text ++ [0]) 1 0 (LSt [] None 0 None 0 None) (fun r =>
    r_p r <= zlen (text ++ [0]) /\
    (if r_cs r =? 0 then None else l_out (r_s r)) =
    match listen_spec text with Some (node, port) => resolved resolve node port | None => None end).
Proof.
  intros Hnz. set (s0 := LSt [] None 0 None 0 None). pose proof (erun_spec 0 s0 text) as Hs.
  assert (forall p, behind s0 p) as Hb0 by (intros; constructor).
  assert (forall i, edge (X := option mog_addrinfo) i 0 = None) as H0 by (intros i; unfold edge; by repeat case_match).
  pose proof (zlen_nonneg text) as Hz. assert (zlen (text ++ [0]) = zlen text + 1) as Hlen by (rewrite zlen_app; change (zlen [0]) with 1; lia).
  pose proof listen_edge_step as Hedge.
  destruct (listen_spec text) as [[node port]|].
  - destruct Hs as (i & s' & Hi & He & Hadd & Hnode).
    apply (erun_runs lstep (fun i => i) ltac:(intros; by apply Hedge) text [] [0] 1 i s0 s'); [done|done|]. cbn [app].
    destruct (listen_internal_ok resolve [] text [] 0 node port s0 s' ltac:(done) Hnz) as (nl & Hint & _);
      [done|by destruct node|]. cbn [app] in Hint.
    eexists. split.
    + eapply reach_char; [|apply reach_done; by rewrite zlen_app]. unfold ListenParser.step.
      rewrite mem_at_ahead by (unfold behind; destruct Hadd as (-> & _); constructor). rewrite char_at_mid.
      assert (ListenParser.goto i 0 = Some (Tr 3)) as -> by by destruct Hi as [->| ->].
      unfold ListenParser.act. by rewrite Hint.
    + cbn [r_p r_cs r_s]. split; [done|]. done.
  - destruct (erun 1 0 s0 text) as [[i s']|] eqn:He.
    + pose proof (erun_range 1 _ _ _ _ _ ltac:(lia) He) as Hi.
      apply (erun_runs lstep (fun i => i) ltac:(intros; by apply Hedge) text [] [0] 1 i s0 s'); [done|done|]. cbn [app].
      assert (behind s' (zlen text)) as Hb.
      { unfold behind. by rewrite (erun_nuls _ _ _ _ _ _ He). }
      eapply runs_out; [apply listen_reject_step; [done|done|by rewrite char_at_mid|by right]|]. cbn [r_p r_cs r_s]. split; [lia|done].
    + apply (erun_stuck lstep (fun i => i) ltac:(intros; by apply Hedge) text [] [0] 1 s0); [done|done|].
      intros a c b j s' -> Hb Hj Hr. cbn [app] in *. apply List.Forall_app in Hnz as [_ Hc]. apply Forall_cons_1 in Hc as [Hc _].
      pose proof (erun_range 1 _ _ _ _ _ ltac:(lia) Hr) as Hi.
      eapply runs_out; [apply listen_reject_step; [done|done|by rewrite char_at_mid|rewrite char_at_mid; by left]|]. cbn [r_p r_cs r_s].
      split; [|done]. rewrite <- app_assoc, zlen_app. cbn [app]. pose proof (zlen_nonneg (c :: b ++ [0])). lia.
Qed.

Lemma listen_forward (buf : list Z) (cs p : Z) (s : lst (option mog_addrinfo)) (n p' : Z) (s' : lst (option mog_addrinfo)) :
  lstep buf cs p s = GoSt n p' s' -> p <= p'.
Proof.
  unfold ListenParser.step, ListenParser.act. intros H. repeat case_match; try done; injection H as <- <- <-; lia.
Qed.

Lemma listen_parse_eq (text : list Z) :
  Forall (fun c => c <> 0) text ->
  ListenParser.mog_listen_parse resolve text =
  Ok (match listen_spec text with Some (node, port) => resolved resolve node port | None => None end).
Proof.
  intros Hnz. destruct (listen_runs text Hnz) as (r & Hr & Hp & Hout).
  unfold ListenParser.mog_listen_parse, ListenParser.listen_parse.
  rewrite (reach_linear lstep _ _ _ _ _ r); [|apply listen_forward|exact Hr|unfold zlen; lia].
  cbn [res_bind]. destruct (Z.leb_spec (r_p r) (zlen (text ++ [0]))); [|lia]. cbn [assert_]. by rewrite <- Hout.
Qed.

(** C20.  [mog_listen_parse] understands exactly [[ipv4 ":"] port]: for every
    string, [getaddrinfo] is asked for the node and the port that the text
    denotes (no node: any address) and nothing else, and every other text is
    refused; no byte outside the private copy is read or written. *)
Theorem listen_parse_exact (text : list Z) :
  Forall (fun c => c <> 0) text ->
  ListenParser.mog_listen_parse resolve text =
  Ok (match listen_spec text with Some (node, port) => resolved resolve node port | None => None end).
Proof. apply listen_parse_eq. Qed.
End Exact.

Lemma listen_parse_exact_witness :
  let resolve := fun node port => Some (match node with Some n => n | None => [] end ++ port) in
  ListenParser.mog_listen_parse resolve (str "10.0.0.1:7500") = Ok (Some (MogAddrinfo (str "10.0.0.17500") (str "10.0.0.1:7500"))) /\
  ListenParser.mog_listen_parse resolve (str "10.0.0.1:7500") =
  Ok (match listen_spec (str "10.0.0.1:7500") with Some (node, port) => resolved resolve node port | None => None end).
Proof.
  intros resolve. split; [vm_compute; reflexivity|]. apply listen_parse_exact. repeat constructor; vm_compute; congruence.
Defined.
