(* ===== verification/CfgParser.v ===== *)
(** The parser of configuration files (cfg_parser.c, generated from
    cfg_parser.rl), [mog_cfg_check_server] of cfg_validate.c and [mog_cfg_load]
    of cfg.c. *)
From S2P Require Import Prelude Fmt Ragel Listen.
From stdpp Require Import base list numbers.
From Stdlib Require Import ZArith Lia.

#[local] Open Scope Z_scope.

Record mog_cfg := MogCfg {
  docroot : option (list Z);
  daemonize : bool;
  maxconns : Z;
  pidfile : option (list Z);
  configfile : option (list Z);
  config : option (list Z);
  server : option (list Z);
  httplisten : option mog_addrinfo;
  mgmtlisten : option mog_addrinfo;
  httpgetlisten : option mog_addrinfo
}.

Definition set_docroot v c := MogCfg v (daemonize c) (maxconns c) (pidfile c) (configfile c) (config c) (server c) (httplisten c) (mgmtlisten c) (httpgetlisten c).
Definition set_daemonize v c := MogCfg (docroot c) v (maxconns c) (pidfile c) (configfile c) (config c) (server c) (httplisten c) (mgmtlisten c) (httpgetlisten c).
Definition set_maxconns v c := MogCfg (docroot c) (daemonize c) v (pidfile c) (configfile c) (config c) (server c) (httplisten c) (mgmtlisten c) (httpgetlisten c).
Definition set_pidfile v c := MogCfg (docroot c) (daemonize c) (maxconns c) v (configfile c) (config c) (server c) (httplisten c) (mgmtlisten c) (httpgetlisten c).
Definition set_server v c := MogCfg (docroot c) (daemonize c) (maxconns c) (pidfile c) (configfile c) (config c) v (httplisten c) (mgmtlisten c) (httpgetlisten c).
Definition set_httplisten v c := MogCfg (docroot c) (daemonize c) (maxconns c) (pidfile c) (configfile c) (config c) (server c) v (mgmtlisten c) (httpgetlisten c).
Definition set_mgmtlisten v c := MogCfg (docroot c) (daemonize c) (maxconns c) (pidfile c) (configfile c) (config c) (server c) (httplisten c) v (httpgetlisten c).
Definition set_httpgetlisten v c := MogCfg (docroot c) (daemonize c) (maxconns c) (pidfile c) (configfile c) (config c) (server c) (httplisten c) (mgmtlisten c) v.

(** A zeroed configuration. *)
Definition cfg0 : mog_cfg := MogCfg None false 0 None None None None None None None.

Definition cfg_parser_start : Z := 1.
Definition cfg_parser_first_final : Z := 124.
Definition cfg_parser_error : Z := 0.

(** ** Transitions *)

(** [case 1] to [case 12] (cfg_parser.c, lines 74-197). *)
Definition cases_1 (cs c : Z) : option label :=
  match cs with
  | 1 => Some (if (c =? 9) || (c =? 32) then St 1
      else if c =? 100 then St 2
      else if c =? 104 then St 13
      else if c =? 109 then St 56
      else if c =? 112 then St 89
      else if c =? 115 then St 99
      else if rng 11 13 c then St 1
      else Tr 0)
  | 2 => Some (if c =? 97 then St 3
      else if c =? 111 then St 114
      else Tr 0)
  | 3 => Some (if c =? 101 then St 4
      else Tr 0)
  | 4 => Some (if c =? 109 then St 5
      else Tr 0)
  | 5 => Some (if c =? 111 then St 6
      else Tr 0)
  | 6 => Some (if c =? 110 then St 7
      else Tr 0)
  | 7 => Some (if c =? 105 then St 8
      else Tr 0)
  | 8 => Some (if c =? 122 then St 9
      else Tr 0)
  | 9 => Some (if c =? 101 then St 10
      else Tr 0)
  | 10 => Some (if c =? 10 then Tr 17
      else if c =? 32 then St 11
      else if c =? 35 then St 12
      else if rng 9 13 c then St 11
      else Tr 0)
  | 11 => Some (if (c =? 9) || (c =? 32) then St 11
      else if c =? 35 then St 12
      else if rng 11 13 c then St 11
      else Tr 0)
  | 12 => Some (if c =? 10 then Tr 17
      else St 12)
  | _ => None
  end.

(** [case 124] to [case 26] (cfg_parser.c, lines 280-406). *)
Definition cases_2 (cs c : Z) : option label :=
  match cs with
  | 124 => Some (if (c =? 9) || (c =? 32) then St 1
      else if c =? 100 then St 2
      else if c =? 104 then St 13
      else if c =? 109 then St 56
      else if c =? 112 then St 89
      else if c =? 115 then St 99
      else if rng 11 13 c then St 1
      else Tr 0)
  | 13 => Some (if c =? 116 then St 14
      else Tr 0)
  | 14 => Some (if c =? 116 then St 15
      else Tr 0)
  | 15 => Some (if c =? 112 then St 16
      else Tr 0)
  | 16 => Some (if c =? 103 then St 17
      else if c =? 108 then St 38
      else Tr 0)
  | 17 => Some (if c =? 101 then St 18
      else Tr 0)
  | 18 => Some (if c =? 116 then St 19
      else Tr 0)
  | 19 => Some (if c =? 108 then St 20
      else Tr 0)
  | 20 => Some (if c =? 105 then St 21
      else Tr 0)
  | 21 => Some (if c =? 115 then St 22
      else Tr 0)
  | 22 => Some (if c =? 116 then St 23
      else Tr 0)
  | 23 => Some (if c =? 101 then St 24
      else Tr 0)
  | 24 => Some (if c =? 110 then St 25
      else Tr 0)
  | 25 => Some (if (c =? 9) || (c =? 32) then St 25
      else if c =? 61 then St 26
      else if rng 11 13 c then St 25
      else Tr 0)
  | 26 => Some (if (c =? 9) || (c =? 32) then St 26
      else if c =? 58 then St 36
      else if 13 <? c then if rng 48 57 c then Tr 34
        else Tr 33
      else if 11 <=? c then St 26
      else Tr 33)
  | _ => None
  end.

(** [case 27] to [case 41] (cfg_parser.c, lines 422-568). *)
Definition cases_3 (cs c : Z) : option label :=
  match cs with
  | 27 => Some (if c =? 10 then Tr 37
      else if c =? 32 then St 28
      else if c =? 35 then St 29
      else if c =? 46 then St 30
      else if 13 <? c then if rng 48 57 c then Tr 40
        else Tr 33
      else if 9 <=? c then St 28
      else Tr 33)
  | 28 => Some (if (c =? 9) || (c =? 32) then St 28
      else if c =? 35 then St 29
      else if rng 11 13 c then St 28
      else Tr 0)
  | 29 => Some (if c =? 10 then Tr 37
      else St 29)
  | 30 => Some (if rng 48 57 c then St 31
      else Tr 33)
  | 31 => Some (if c =? 46 then St 32
      else if rng 48 57 c then St 31
      else Tr 33)
  | 32 => Some (if rng 48 57 c then St 33
      else Tr 33)
  | 33 => Some (if c =? 46 then St 34
      else if rng 48 57 c then St 33
      else Tr 33)
  | 34 => Some (if rng 48 57 c then Tr 45
      else Tr 33)
  | 35 => Some (if c =? 58 then St 36
      else if rng 48 57 c then Tr 45
      else Tr 33)
  | 36 => Some (if rng 48 57 c then Tr 46
      else Tr 33)
  | 37 => Some (if c =? 10 then Tr 37
      else if c =? 32 then St 28
      else if c =? 35 then St 29
      else if 13 <? c then if rng 48 57 c then Tr 47
        else Tr 33
      else if 9 <=? c then St 28
      else Tr 33)
  | 38 => Some (if c =? 105 then St 39
      else Tr 0)
  | 39 => Some (if c =? 115 then St 40
      else Tr 0)
  | 40 => Some (if c =? 116 then St 41
      else Tr 0)
  | 41 => Some (if c =? 101 then St 42
      else Tr 0)
  | _ => None
  end.

(** [case 42] to [case 54] (cfg_parser.c, lines 572-710). *)
Definition cases_4 (cs c : Z) : option label :=
  match cs with
  | 42 => Some (if c =? 110 then St 43
      else Tr 0)
  | 43 => Some (if (c =? 9) || (c =? 32) then St 43
      else if c =? 61 then St 44
      else if rng 11 13 c then St 43
      else Tr 0)
  | 44 => Some (if (c =? 9) || (c =? 32) then St 44
      else if c =? 58 then St 54
      else if 13 <? c then if rng 48 57 c then Tr 54
        else Tr 33
      else if 11 <=? c then St 44
      else Tr 33)
  | 45 => Some (if c =? 10 then Tr 57
      else if c =? 32 then St 46
      else if c =? 35 then St 47
      else if c =? 46 then St 48
      else if 13 <? c then if rng 48 57 c then Tr 60
        else Tr 33
      else if 9 <=? c then St 46
      else Tr 33)
  | 46 => Some (if (c =? 9) || (c =? 32) then St 46
      else if c =? 35 then St 47
      else if rng 11 13 c then St 46
      else Tr 0)
  | 47 => Some (if c =? 10 then Tr 57
      else St 47)
  | 48 => Some (if rng 48 57 c then St 49
      else Tr 33)
  | 49 => Some (if c =? 46 then St 50
      else if rng 48 57 c then St 49
      else Tr 33)
  | 50 => Some (if rng 48 57 c then St 51
      else Tr 33)
  | 51 => Some (if c =? 46 then St 52
      else if rng 48 57 c then St 51
      else Tr 33)
  | 52 => Some (if rng 48 57 c then Tr 65
      else Tr 33)
  | 53 => Some (if c =? 58 then St 54
      else if rng 48 57 c then Tr 65
      else Tr 33)
  | 54 => Some (if rng 48 57 c then Tr 66
      else Tr 33)
  | _ => None
  end.

(** [case 55] to [case 65] (cfg_parser.c, lines 724-833). *)
Definition cases_5 (cs c : Z) : option label :=
  match cs with
  | 55 => Some (if c =? 10 then Tr 57
      else if c =? 32 then St 46
      else if c =? 35 then St 47
      else if 13 <? c then if rng 48 57 c then Tr 67
        else Tr 33
      else if 9 <=? c then St 46
      else Tr 33)
  | 56 => Some (if c =? 97 then St 57
      else if c =? 103 then St 68
      else Tr 0)
  | 57 => Some (if c =? 120 then St 58
      else Tr 0)
  | 58 => Some (if c =? 99 then St 59
      else Tr 0)
  | 59 => Some (if c =? 111 then St 60
      else Tr 0)
  | 60 => Some (if c =? 110 then St 61
      else Tr 0)
  | 61 => Some (if c =? 110 then St 62
      else Tr 0)
  | 62 => Some (if c =? 115 then St 63
      else Tr 0)
  | 63 => Some (if (c =? 9) || (c =? 32) then St 63
      else if c =? 61 then St 64
      else if rng 11 13 c then St 63
      else Tr 0)
  | 64 => Some (if (c =? 9) || (c =? 32) then St 64
      else if 13 <? c then if rng 48 57 c then Tr 77
        else Tr 0
      else if 11 <=? c then St 64
      else Tr 0)
  | 65 => Some (if c =? 10 then Tr 79
      else if c =? 32 then Tr 78
      else if c =? 35 then Tr 80
      else if 13 <? c then if rng 48 57 c then St 65
        else Tr 0
      else if 9 <=? c then Tr 78
      else Tr 0)
  | _ => None
  end.

(** [case 66] to [case 76] (cfg_parser.c, lines 885-1018). *)
Definition cases_6 (cs c : Z) : option label :=
  match cs with
  | 66 => Some (if (c =? 9) || (c =? 32) then St 66
      else if c =? 35 then St 67
      else if rng 11 13 c then St 66
      else Tr 0)
  | 67 => Some (if c =? 10 then St 124
      else St 67)
  | 68 => Some (if c =? 109 then St 69
      else Tr 0)
  | 69 => Some (if c =? 116 then St 70
      else Tr 0)
  | 70 => Some (if c =? 108 then St 71
      else Tr 0)
  | 71 => Some (if c =? 105 then St 72
      else Tr 0)
  | 72 => Some (if c =? 115 then St 73
      else Tr 0)
  | 73 => Some (if c =? 116 then St 74
      else Tr 0)
  | 74 => Some (if c =? 101 then St 75
      else Tr 0)
  | 75 => Some (if c =? 110 then St 76
      else Tr 0)
  | 76 => Some (if (c =? 9) || (c =? 32) then St 76
      else if c =? 61 then St 77
      else if rng 11 13 c then St 76
      else Tr 0)
  | _ => None
  end.

(** [case 77] to [case 88] (cfg_parser.c, lines 1022-1167). *)
Definition cases_7 (cs c : Z) : option label :=
  match cs with
  | 77 => Some (if (c =? 9) || (c =? 32) then St 77
      else if c =? 58 then St 87
      else if 13 <? c then if rng 48 57 c then Tr 94
        else Tr 33
      else if 11 <=? c then St 77
      else Tr 33)
  | 78 => Some (if c =? 10 then Tr 97
      else if c =? 32 then St 79
      else if c =? 35 then St 80
      else if c =? 46 then St 81
      else if 13 <? c then if rng 48 57 c then Tr 100
        else Tr 33
      else if 9 <=? c then St 79
      else Tr 33)
  | 79 => Some (if (c =? 9) || (c =? 32) then St 79
      else if c =? 35 then St 80
      else if rng 11 13 c then St 79
      else Tr 0)
  | 80 => Some (if c =? 10 then Tr 97
      else St 80)
  | 81 => Some (if rng 48 57 c then St 82
      else Tr 33)
  | 82 => Some (if c =? 46 then St 83
      else if rng 48 57 c then St 82
      else Tr 33)
  | 83 => Some (if rng 48 57 c then St 84
      else Tr 33)
  | 84 => Some (if c =? 46 then St 85
      else if rng 48 57 c then St 84
      else Tr 33)
  | 85 => Some (if rng 48 57 c then Tr 105
      else Tr 33)
  | 86 => Some (if c =? 58 then St 87
      else if rng 48 57 c then Tr 105
      else Tr 33)
  | 87 => Some (if rng 48 57 c then Tr 106
      else Tr 33)
  | 88 => Some (if c =? 10 then Tr 97
      else if c =? 32 then St 79
      else if c =? 35 then St 80
      else if 13 <? c then if rng 48 57 c then Tr 107
        else Tr 33
      else if 9 <=? c then St 79
      else Tr 33)
  | _ => None
  end.

(** [case 89] to [case 103] (cfg_parser.c, lines 1171-1305). *)
Definition cases_8 (cs c : Z) : option label :=
  match cs with
  | 89 => Some (if c =? 105 then St 90
      else Tr 0)
  | 90 => Some (if c =? 100 then St 91
      else Tr 0)
  | 91 => Some (if c =? 102 then St 92
      else Tr 0)
  | 92 => Some (if c =? 105 then St 93
      else Tr 0)
  | 93 => Some (if c =? 108 then St 94
      else Tr 0)
  | 94 => Some (if c =? 101 then St 95
      else Tr 0)
  | 95 => Some (if (c =? 9) || (c =? 32) then St 95
      else if c =? 61 then St 96
      else if rng 11 13 c then St 95
      else Tr 0)
  | 96 => Some (if c =? 10 then Tr 0
      else if c =? 32 then St 96
      else if rng 9 13 c then St 96
      else Tr 115)
  | 97 => Some (if c =? 10 then Tr 118
      else if c =? 32 then Tr 117
      else if c =? 35 then Tr 119
      else if rng 9 13 c then Tr 117
      else St 97)
  | 98 => Some (if c =? 10 then Tr 118
      else if c =? 32 then Tr 121
      else if c =? 35 then Tr 119
      else if rng 9 13 c then Tr 121
      else St 98)
  | 99 => Some (if c =? 101 then St 100
      else Tr 0)
  | 100 => Some (if c =? 114 then St 101
      else Tr 0)
  | 101 => Some (if c =? 118 then St 102
      else Tr 0)
  | 102 => Some (if c =? 101 then St 103
      else Tr 0)
  | 103 => Some (if c =? 114 then St 104
      else Tr 0)
  | _ => None
  end.

(** [case 104] to [case 114] (cfg_parser.c, lines 1309-1453). *)
Definition cases_9 (cs c : Z) : option label :=
  match cs with
  | 104 => Some (if (c =? 9) || (c =? 32) then St 105
      else if c =? 61 then St 106
      else if c =? 98 then St 108
      else if rng 11 13 c then St 105
      else Tr 0)
  | 105 => Some (if (c =? 9) || (c =? 32) then St 105
      else if c =? 61 then St 106
      else if rng 11 13 c then St 105
      else Tr 0)
  | 106 => Some (if (c =? 9) || (c =? 32) then St 106
      else if c <? 65 then if rng 11 13 c then St 106
        else Tr 0
      else if 90 <? c then if rng 97 122 c then Tr 130
        else Tr 0
      else Tr 130)
  | 107 => Some (if c =? 10 then Tr 132
      else if c =? 32 then Tr 131
      else if c =? 35 then Tr 133
      else if c <? 65 then if rng 9 13 c then Tr 131
        else Tr 0
      else if 90 <? c then if rng 97 122 c then St 107
        else Tr 0
      else St 107)
  | 108 => Some (if c =? 105 then St 109
      else Tr 0)
  | 109 => Some (if c =? 110 then St 110
      else Tr 0)
  | 110 => Some (if (c =? 9) || (c =? 32) then St 110
      else if c =? 61 then St 111
      else if rng 11 13 c then St 110
      else Tr 0)
  | 111 => Some (if c =? 10 then Tr 0
      else if c =? 32 then St 111
      else if rng 9 13 c then St 111
      else Tr 138)
  | 112 => Some (if c =? 10 then Tr 141
      else if c =? 32 then Tr 140
      else if c =? 35 then Tr 142
      else if rng 9 13 c then Tr 140
      else St 112)
  | 113 => Some (if c =? 10 then Tr 141
      else if c =? 32 then Tr 144
      else if c =? 35 then Tr 142
      else if rng 9 13 c then Tr 144
      else St 113)
  | 114 => Some (if c =? 99 then St 115
      else Tr 0)
  | _ => None
  end.

(** [case 115] to [case 125] (cfg_parser.c, lines 1457-1560). *)
Definition cases_10 (cs c : Z) : option label :=
  match cs with
  | 115 => Some (if c =? 114 then St 116
      else Tr 0)
  | 116 => Some (if c =? 111 then St 117
      else Tr 0)
  | 117 => Some (if c =? 111 then St 118
      else Tr 0)
  | 118 => Some (if c =? 116 then St 119
      else Tr 0)
  | 119 => Some (if (c =? 9) || (c =? 32) then St 119
      else if c =? 61 then St 120
      else if rng 11 13 c then St 119
      else Tr 0)
  | 120 => Some (if c =? 10 then Tr 0
      else if c =? 32 then St 120
      else if rng 9 13 c then St 120
      else Tr 151)
  | 121 => Some (if c =? 10 then Tr 154
      else if c =? 32 then Tr 153
      else if c =? 35 then Tr 155
      else if rng 9 13 c then Tr 153
      else St 121)
  | 122 => Some (if c =? 10 then Tr 154
      else if c =? 32 then Tr 157
      else if c =? 35 then Tr 155
      else if rng 9 13 c then Tr 157
      else St 122)
  | 123 => Some (if c =? 10 then Tr 159
      else St 123)
  | 125 => Some (St 0)
  | _ => None
  end.

Definition goto (cs c : Z) : option label :=
  match cases_1 cs c with Some l => Some l | None =>
  match cases_2 cs c with Some l => Some l | None =>
  match cases_3 cs c with Some l => Some l | None =>
  match cases_4 cs c with Some l => Some l | None =>
  match cases_5 cs c with Some l => Some l | None =>
  match cases_6 cs c with Some l => Some l | None =>
  match cases_7 cs c with Some l => Some l | None =>
  match cases_8 cs c with Some l => Some l | None =>
  match cases_9 cs c with Some l => Some l | None =>
  cases_10 cs c
  end end end end end end end end end .

(** ** Actions *)

Abbreviation st := (lst mog_cfg).

(** [mystrdup]: the string from [mark_beg] to [p], which is cut off there;
    [None] when it has a NUL. *)
Definition mystrdup (buf : list Z) (p : Z) (s : st) : res (option (list Z) * st) :=
  match mark_beg s with
  | None => Crash OutOfBounds
  | Some m =>
      let* nl := put_nul buf p (nuls s) in
      let* v := cstr buf nl m in
      Ok (if zlen v =? p - m then Some v else None, set_nuls nl s)
  end.

Definition mog_cfg_check_server (c : mog_cfg) : res unit :=
  match server c with
  | None => Ok tt
  | Some v => if bool_decide (v = str "none") then Ok tt
              else if bool_decide (v = str "perlbal") then Ok tt
              else Crash Died
  end.

(** An action that goes on in state [n] or leaves with [return -1], which has
    the effect of the error state. *)
Definition after (n p : Z) (r : res (bool * st)) : jump st :=
  match r with
  | Ok (true, s) => GoSt n p s
  | Ok (false, s) => GoOut cfg_parser_error p s
  | Crash w => Stop w
  end.

Section Parser.
Variable resolve : option (list Z) -> list Z -> option sockaddr.

Definition listen_action (set : option mog_addrinfo -> mog_cfg -> mog_cfg) (buf : list Z) (s : st) : res (bool * st) :=
  let* an := mog_listen_parse_internal resolve buf (nuls s) (mark_beg s) (mark_len s) (port_beg s) (port_len s) in
  let s := set_nuls an.2 s in
  match an.1 with
  | None => Ok (false, s)
  | Some a => Ok (true, set_out (set (Some a) (l_out s)) s)
  end.

(** The field is assigned before it is tested. *)
Definition string_action (set : option (list Z) -> mog_cfg -> mog_cfg) (buf : list Z) (p : Z) (s : st) : res (bool * st) :=
  let* vs := mystrdup buf p s in
  Ok (bool_decide (vs.1 <> None), set_out (set vs.1 (l_out vs.2)) vs.2).

Definition server_action (buf : list Z) (p : Z) (s : st) : res (bool * st) :=
  let* r := string_action set_server buf p s in
  if r.1 then let* _ := mog_cfg_check_server (l_out r.2) in Ok r else Ok r.

Definition serverbin_action (buf : list Z) (p : Z) (s : st) : res (bool * st) :=
  let* vs := mystrdup buf p s in
  Ok (bool_decide (vs.1 <> None), vs.2).

Definition maxconns_action (buf : list Z) (p : Z) (s : st) : res (bool * st) :=
  match mark_beg s with
  | None => Crash OutOfBounds
  | Some m =>
      let s := set_mark_len (p - m) s in
      let* nl := put_nul buf (m + mark_len s) (nuls s) in
      let s := set_nuls nl s in
      let* v := cstr buf nl m in
      let '(n, _, erange) := strtoul v in
      Ok (negb erange, set_out (set_maxconns n (l_out s)) s)
  end.

(** [{ mark_beg = p; } { port_beg = p; } { port_len = p - port_beg + 1; }] and
    the last two of them. *)
Definition addr_begin (p : Z) (s : st) : st := port_more p (set_port_beg p (set_mark_beg p s)).
Definition port_begin (p : Z) (s : st) : st := port_more p (set_port_beg p s).

Definition act (k : Z) (buf : list Z) (p : Z) (s : st) : jump st :=
  match k with
  | 0 | 33 => GoSt 123 (p - 1) s
  | 17 => GoSt 124 p (set_out (set_daemonize true (l_out s)) s)
  | 37 => after 124 p (listen_action set_httpgetlisten buf s)
  | 57 => after 124 p (listen_action set_httplisten buf s)
  | 97 => after 124 p (listen_action set_mgmtlisten buf s)
  | 79 => after 124 p (maxconns_action buf p s)
  | 78 => after 66 p (maxconns_action buf p s)
  | 80 => after 67 p (maxconns_action buf p s)
  | 118 => after 124 p (string_action set_pidfile buf p s)
  | 117 => after 66 p (string_action set_pidfile buf p s)
  | 121 => after 67 p (string_action set_pidfile buf p s)
  | 119 => after 98 p (string_action set_pidfile buf p s)
  | 132 => after 124 p (server_action buf p s)
  | 131 => after 66 p (server_action buf p s)
  | 133 => after 67 p (server_action buf p s)
  | 141 => after 124 p (serverbin_action buf p s)
  | 140 => after 66 p (serverbin_action buf p s)
  | 144 => after 67 p (serverbin_action buf p s)
  | 142 => after 113 p (serverbin_action buf p s)
  | 154 => after 124 p (string_action set_docroot buf p s)
  | 153 => after 66 p (string_action set_docroot buf p s)
  | 157 => after 67 p (string_action set_docroot buf p s)
  | 155 => after 122 p (string_action set_docroot buf p s)
  | 34 => GoSt 27 p (addr_begin p s)
  | 40 => GoSt 27 p (port_more p s)
  | 45 => GoSt 35 p (mark_more p s)
  | 47 => GoSt 37 p (port_more p s)
  | 46 => GoSt 37 p (port_begin p s)
  | 54 => GoSt 45 p (addr_begin p s)
  | 60 => GoSt 45 p (port_more p s)
  | 65 => GoSt 53 p (mark_more p s)
  | 67 => GoSt 55 p (port_more p s)
  | 66 => GoSt 55 p (port_begin p s)
  | 94 => GoSt 78 p (addr_begin p s)
  | 100 => GoSt 78 p (port_more p s)
  | 105 => GoSt 86 p (mark_more p s)
  | 107 => GoSt 88 p (port_more p s)
  | 106 => GoSt 88 p (port_begin p s)
  | 77 => GoSt 65 p (set_mark_beg p s)
  | 115 => GoSt 97 p (set_mark_beg p s)
  | 130 => GoSt 107 p (set_mark_beg p s)
  | 138 => GoSt 112 p (set_mark_beg p s)
  | 151 => GoSt 121 p (set_mark_beg p s)
  | 159 => GoSt 1 p s
  | _ => Stop AssertFailed
  end.

Definition step (buf : list Z) (cs p : Z) (s : st) : jump st :=
  match goto cs (mem_at buf (nuls s) p) with
  | Some (St n) => if n =? 0 then GoOut 0 p s else GoSt n p s
  | Some (Tr k) => act k buf p s
  | None => Stop AssertFailed
  end.

(** The result is 0 or -1. *)
Definition mog_cfg_parse (c : mog_cfg) (buf : list Z) : res (Z * mog_cfg) :=
  let* r := enter step (2 * length buf + 2) buf cfg_parser_start 0 (LSt [] None 0 None 0 c) in
  if r_cs r =? cfg_parser_error then Ok (-1, l_out (r_s r))
  else assert! r_p r <=? zlen buf; Ok (0, l_out (r_s r)).

(** [mog_cfg_load]: [file] is the contents when it can be opened, [got] what
    [read] returns of it. *)
Definition mog_cfg_load (c : mog_cfg) (file : option (list Z)) (got : list Z) : res (Z * mog_cfg) :=
  match file with
  | None => Ok (-1, c)
  | Some f => if negb (zlen got =? zlen f) then Crash Died else mog_cfg_parse c (got ++ [10])
  end.
End Parser.
