(* ===== verification/CfgFile.v ===== *)
(** The meaning of configuration files: what the parser of CfgParser.v makes of
    a file, line by line. *)
From S2P Require Import Prelude Fmt Ragel Listen CfgParser.
From stdpp Require Import base list numbers.
From Stdlib Require Import ZArith Lia.

#[local] Open Scope Z_scope.

(** ** Lines *)

(** White space inside a line. *)
Definition lws (c : Z) : bool := (c =? 9) || (c =? 32) || rng 11 13 c.

Inductive listen_key := KMgmtlisten | KHttplisten | KHttpgetlisten.
Inductive string_key := KDocroot | KPidfile | KServer | KServerbin.

Inductive setting :=
  | SListen (k : listen_key) (text : list Z)
  | SString (k : string_key) (v : list Z)
  | SMaxconns (digits : list Z)
  | SDaemonize
  | SIgnored (text : list Z).

(** A line with its white space and what follows the value. *)
Record line := Line { l_indent : list Z; l_sp1 : list Z; l_sp2 : list Z; l_set : setting; l_tail : list Z }.

Definition listen_name (k : listen_key) : list Z :=
  match k with KMgmtlisten => str "mgmtlisten" | KHttplisten => str "httplisten" | KHttpgetlisten => str "httpgetlisten" end.
Definition string_name (k : string_key) : list Z :=
  match k with KDocroot => str "docroot" | KPidfile => str "pidfile" | KServer => str "server" | KServerbin => str "serverbin" end.

Definition keyed (l : line) (key value : list Z) : list Z :=
  (l_indent l ++ key ++ l_sp1 l ++ [61] ++ l_sp2 l) ++ value ++ l_tail l ++ [10].

Definition line_text (l : line) : list Z :=
  match l_set l with
  | SListen k text => keyed l (listen_name k) text
  | SString k v => keyed l (string_name k) v
  | SMaxconns d => keyed l (str "maxconns") d
  | SDaemonize => (l_indent l ++ str "daemonize") ++ l_tail l ++ [10]
  | SIgnored t => l_indent l ++ t ++ [10]
  end.

(** Nothing, or a comment. *)
Definition tail_ok (t : list Z) : Prop :=
  t = [] \/ exists b x, forallb lws b = true /\ Forall (fun c => c <> 10) x /\ t = b ++ 35 :: x.

(** Characters of paths: no white space, and no [#]. *)
Definition path_char (c : Z) : bool := negb (c =? 0) && negb (c =? 32) && negb (rng 9 13 c) && negb (c =? 35).

(** A comment, or something no key starts with. *)
Definition ignored_ok (t : list Z) : Prop :=
  Forall (fun c => c <> 10) t /\
  match t with
  | [] => True
  | c :: _ => lws c = false /\ c <> 100 /\ c <> 104 /\ c <> 109 /\ c <> 112 /\ c <> 115
  end.

Definition line_ok (l : line) : Prop :=
  forallb lws (l_indent l) = true /\ forallb lws (l_sp1 l) = true /\ forallb lws (l_sp2 l) = true /\ tail_ok (l_tail l) /\
  match l_set l with
  | SListen _ text => is_Some (listen_spec text)
  | SString KServer v => v = str "none" \/ v = str "perlbal"
  | SString _ v => v <> [] /\ forallb path_char v = true /\ hd 0 (l_tail l) <> 35
  | SMaxconns d => d <> [] /\ forallb is_digit d = true
  | SDaemonize => True
  | SIgnored t => ignored_ok t
  end.

(** ** Their meaning *)

Definition set_listen (k : listen_key) : option mog_addrinfo -> mog_cfg -> mog_cfg :=
  match k with KMgmtlisten => set_mgmtlisten | KHttplisten => set_httplisten | KHttpgetlisten => set_httpgetlisten end.
Definition set_string (k : string_key) (v : list Z) (c : mog_cfg) : mog_cfg :=
  match k with
  | KDocroot => set_docroot (Some v) c
  | KPidfile => set_pidfile (Some v) c
  | KServer => set_server (Some v) c
  | KServerbin => c
  end.

(** The configuration after a setting; [None] when it cannot be used. *)
Definition apply_setting resolve (c : mog_cfg) (s : setting) : option mog_cfg :=
  match s with
  | SListen k text =>
      match listen_spec text with
      | Some (node, port) => match resolved resolve node port with
                             | Some a => Some (set_listen k (Some a) c)
                             | None => None
                             end
      | None => None
      end
  | SString k v => Some (set_string k v c)
  | SMaxconns d => if dec_value d <? 2 ^ 64 then Some (set_maxconns (dec_value d) c) else None
  | SDaemonize => Some (set_daemonize true c)
  | SIgnored _ => Some c
  end.

Fixpoint apply_lines resolve (c : mog_cfg) (ls : list line) : option mog_cfg :=
  match ls with
  | [] => Some c
  | l :: ls => match apply_setting resolve c (l_set l) with Some c => apply_lines resolve c ls | None => None end
  end.

(** Settings that leave [mark_len] set, and those that need it clear. *)
Definition leaves_mark (s : setting) : bool :=
  match s with
  | SListen _ text => match listen_spec text with Some (Some _, _) => true | _ => false end
  | SMaxconns _ => true
  | _ => false
  end.
Definition needs_clear (s : setting) : bool :=
  match s with
  | SListen _ text => match listen_spec text with Some (None, _) => true | _ => false end
  | _ => false
  end.

(** A file whose listeners without an address come before the lines that leave
    a mark. *)
Fixpoint lines_ok (marked : bool) (ls : list line) : Prop :=
  match ls with
  | [] => True
  | l :: ls => line_ok l /\ (needs_clear (l_set l) = true -> marked = false) /\ lines_ok (marked || leaves_mark (l_set l)) ls
  end.

Definition file_text (ls : list line) : list Z := concat (map line_text ls).

(** ** Steps *)

Section Lines.
Variable resolve : option (list Z) -> list Z -> option sockaddr.
Abbreviation cstep := (step resolve).
Abbreviation cact := (act resolve).

Lemma cfg_step_mem (buf : list Z) (cs p : Z) (s : st) (l : label) :
  behind s p -> goto cs (char_at buf p) = Some l ->
  cstep buf cs p s = match l with
                     | St n => if n =? 0 then GoOut 0 p s else GoSt n p s
                     | Tr k => cact k buf p s
                     end.
Proof. intros Hb Hg. unfold step. rewrite (mem_at_ahead _ _ _ Hb), Hg. by destruct l. Qed.

Lemma behind_succ (s : st) (p : Z) : behind s p -> behind s (p + 1).
Proof. apply behind_next. lia. Qed.

Definition cwalk := mem_walk goto cact cstep behind behind_succ cfg_step_mem.
Definition cact_go := mem_act goto cact cstep behind cfg_step_mem.
Definition cact_out := mem_act_out goto cact cstep behind cfg_step_mem.

(** The two states at the start of a line are alike. *)
Lemma goto_start (c : Z) : goto 124 c = goto 1 c.
Proof. done. Qed.

Lemma walk_start (cs : Z) (c : Z) (ws : list Z) : cs = 1 \/ cs = 124 -> walk goto cs (c :: ws) = walk goto 1 (c :: ws).
Proof. by intros [->| ->]. Qed.

Lemma lws_cases (c : Z) : lws c = true -> c = 9 \/ c = 11 \/ c = 12 \/ c = 13 \/ c = 32.
Proof. unfold lws. rewrite !orb_true_iff, !Z.eqb_eq, rng_true. lia. Qed.

(** States in which white space stays. *)
Lemma walk_lws (n : Z) (ws : list Z) :
  In n [1; 25; 26; 43; 44; 63; 64; 66; 76; 77; 95; 96; 105; 106; 110; 111; 119; 120; 11; 28; 46; 79] ->
  forallb lws ws = true -> walk goto n ws = Some n.
Proof.
  intros Hn. apply walk_loop.
  - cbn in Hn. intuition lia.
  - intros c Hc%lws_cases. cbn in Hn.
    repeat destruct Hn as [<-|Hn]; try done; repeat destruct Hc as [->|Hc]; try subst c; reflexivity.
Qed.

(** A key with its white space, up to the value. *)
Lemma walk_keyed (l : line) (key : list Z) (K V : Z) :
  forallb lws (l_indent l) = true -> forallb lws (l_sp1 l) = true -> forallb lws (l_sp2 l) = true ->
  walk goto 1 key = Some K ->
  (forall ws, forallb lws ws = true -> walk goto K (ws ++ [61]) = Some V) ->
  In V [26; 44; 64; 77; 96; 106; 111; 120] ->
  walk goto 1 (l_indent l ++ key ++ l_sp1 l ++ [61] ++ l_sp2 l) = Some V.
Proof.
  intros Hi H1 H2 Hk HK HV. rewrite (walk_app goto 1 1) by (apply walk_lws; [by left|done]).
  rewrite (walk_app goto 1 K) by done. rewrite app_assoc. rewrite (walk_app goto K V) by auto.
  apply walk_lws; [|done]. cbn in *. intuition.
Qed.

Lemma walk_eq (K V : Z) (ws : list Z) :
  In K [25; 43; 63; 76; 95; 110; 119] -> goto K 61 = Some (St V) -> V <> 0 -> forallb lws ws = true ->
  walk goto K (ws ++ [61]) = Some V.
Proof.
  intros HK HV Hz Hws. rewrite (walk_app goto K K) by (apply walk_lws; [cbn in *; intuition|done]).
  cbn [walk]. rewrite HV. by destruct (Z.eqb_spec V 0).
Qed.

Lemma walk_eq_server (ws : list Z) : forallb lws ws = true -> walk goto 104 (ws ++ [61]) = Some 106.
Proof.
  destruct ws as [|c ws]; [done|]. intros [Hc Hws]%andb_true_iff. cbn [app].
  assert (goto 104 c = Some (St 105)) as Hg.
  { apply lws_cases in Hc. repeat destruct Hc as [->|Hc]; try subst c; reflexivity. }
  cbn [walk]. rewrite Hg. change (105 =? 0) with false. cbv iota.
  rewrite (walk_app goto 105 105) by (apply walk_lws; [cbn; tauto|done]). done.
Qed.

(** The rest of a line in a comment. *)
Lemma walk_comment (n : Z) (x : list Z) :
  In n [12; 29; 47; 67; 80; 123] -> Forall (fun c => c <> 10) x -> walk goto n x = Some n.
Proof.
  intros Hn Hx. apply (walk_loop goto (fun c => negb (c =? 10))).
  - cbn in Hn. intuition lia.
  - intros c Hc. apply negb_true_iff in Hc. cbn in Hn.
    repeat destruct Hn as [<-|Hn]; try done; unfold goto; cbn; by rewrite Hc.
  - apply forallb_forall. rewrite List.Forall_forall in Hx. intros c Hc. specialize (Hx c Hc). apply negb_true_iff. lia.
Qed.

(** ** What a line leads to *)

Definition line_post (pre suf : list Z) (l : line) (s : st) (Q : regs st -> Prop) : Prop :=
  match apply_setting resolve (l_out s) (l_set l) with
  | Some c => forall cs s', cs = 1 \/ cs = 124 -> behind s' (zlen (pre ++ line_text l)) -> l_out s' = c ->
      (leaves_mark (l_set l) = false -> mark_len s' = mark_len s) ->
      runs cstep ((pre ++ line_text l) ++ suf) cs (zlen (pre ++ line_text l)) s' Q
  | None => forall r, r_cs r = 0 -> Q r
  end.

(** White space and a comment at the start of a value's tail. *)
Lemma tail_cases (t : list Z) :
  tail_ok t -> t = [] \/ (exists x, Forall (fun c => c <> 10) x /\ t = 35 :: x) \/
  exists c b x, lws c = true /\ forallb lws b = true /\ Forall (fun c => c <> 10) x /\ t = (c :: b) ++ 35 :: x.
Proof.
  intros [->|(b & x & Hb & Hx & ->)]; [by left|]. right. destruct b as [|c b]; [left; eauto|right].
  apply andb_true_iff in Hb as [Hc Hb]. by exists c, b, x.
Qed.

Lemma value_tail (T t10 tb t35 : Z) (A : list Z -> Z -> st -> res (bool * st)) (pre tail suf : list Z) (s s' : st) (ok : bool) Q :
  behind s (zlen pre) -> tail_ok tail ->
  goto T 10 = Some (Tr t10) -> (forall c, lws c = true -> goto T c = Some (Tr tb)) ->
  (hd 0 tail = 35 -> goto T 35 = Some (Tr t35)) ->
  (forall buf p s, cact t10 buf p s = after 124 p (A buf p s)) ->
  (forall buf p s, cact tb buf p s = after 66 p (A buf p s)) ->
  (forall buf p s, hd 0 tail = 35 -> cact t35 buf p s = after 67 p (A buf p s)) ->
  A (pre ++ tail ++ [10] ++ suf) (zlen pre) s = Ok (ok, s') ->
  (if ok then behind s' (zlen pre + 1) /\ runs cstep ((pre ++ tail ++ [10]) ++ suf) 124 (zlen (pre ++ tail ++ [10])) s' Q
   else forall r, r_cs r = 0 -> Q r) ->
  runs cstep (pre ++ (tail ++ [10]) ++ suf) T (zlen pre) s Q.
Proof.
  intros Hb Ht H10 Hbl H35 A10 Ab A35 HA HQ.
  (* the action on the first character, then a walk to the start of the next line *)
  assert (forall c rest n k, tail ++ [10] = c :: rest -> goto T c = Some (Tr k) ->
    (forall buf p s, cact k buf p s = after n p (A buf p s)) -> walk goto n rest = Some 124 ->
    runs cstep (pre ++ (tail ++ [10]) ++ suf) T (zlen pre) s Q) as Hrun.
  { intros c rest n k Etl Hg Hact Hw. rewrite (app_assoc tail [10] suf), Etl in HA. rewrite Etl in *. cbn [app] in *.
    destruct ok.
    - destruct HQ as [Hb' HQ]. apply (cact_go pre (rest ++ suf) c T n k s s'); [done|done| |].
      + rewrite Hact, HA. done.
      + apply (cwalk rest (pre ++ [c]) suf n 124 s' Q); [rewrite zlen_app; exact Hb'|done|]. intros _.
        rewrite <- (app_assoc pre [c] rest). exact HQ.
    - eapply (cact_out pre (rest ++ suf) c T 0 k); [done|done| |by apply HQ]. rewrite Hact, HA. done. }
  destruct (tail_cases tail Ht) as [->|[(x & Hx & ->)|(c & b & x & Hc & Hws & Hx & ->)]].
  - by apply (Hrun 10 [] 124 t10).
  - apply (Hrun 35 (x ++ [10]) 67 t35); [done|by apply H35|intros; by apply A35|].
    rewrite (walk_app goto 67 67) by (apply walk_comment; [cbn; tauto|done]). done.
  - apply (Hrun c ((b ++ 35 :: x) ++ [10]) 66 tb); [done|by apply Hbl|done|].
    rewrite <- app_assoc. rewrite (walk_app goto 66 66) by (apply walk_lws; [cbn; tauto|done]).
    change ((35 :: x) ++ [10]) with ([35] ++ x ++ [10]). rewrite (walk_app goto 66 67) by done.
    rewrite (walk_app goto 67 67) by (apply walk_comment; [cbn; tauto|done]). done.
Qed.

(** A marked value. *)
Lemma mystrdup_ok (pre v suf : list Z) (c : Z) (s : st) :
  Forall (fun x => x <> 0) v -> behind s (zlen pre) -> mark_beg s = Some (zlen pre) ->
  mystrdup (pre ++ v ++ c :: suf) (zlen (pre ++ v)) s = Ok (Some v, set_nuls (zlen (pre ++ v) :: nuls s) s).
Proof.
  intros Hv Hb Hm. unfold mystrdup. rewrite Hm.
  assert (zlen (pre ++ v) = zlen pre + zlen v) as Hl by by rewrite zlen_app.
  pose proof (zlen_nonneg pre). pose proof (zlen_nonneg v). pose proof (zlen_nonneg suf).
  rewrite put_nul_ok by (rewrite !zlen_app, zlen_cons; lia). cbn [res_bind].
  rewrite cstr_ok; [cbn [res_bind]| done| |left; lia].
  - rewrite Hl. destruct (Z.eqb_spec (zlen v) (zlen pre + zlen v - zlen pre)); [done|lia].
  - unfold behind in Hb. rewrite List.Forall_forall in Hb. intros x [<-|Hx%Hb]; lia.
Qed.

(** A run over the characters of a value that are kept. *)
Lemma value_runs (V T k0 : Z) (f : Z -> bool) (pre v suf : list Z) (s : st) Q :
  v <> [] -> forallb f v = true -> behind s (zlen pre) ->
  (forall c, f c = true -> goto V c = Some (Tr k0)) -> (forall c, f c = true -> goto T c = Some (St T)) -> T <> 0 ->
  (forall buf p s, cact k0 buf p s = GoSt T p (set_mark_beg p s)) ->
  runs cstep ((pre ++ v) ++ suf) T (zlen (pre ++ v)) (set_mark_beg (zlen pre) s) Q ->
  runs cstep (pre ++ v ++ suf) V (zlen pre) s Q.
Proof.
  intros Hne Hf Hb HV HT HT0 Hk HQ. destruct v as [|c v]; [done|]. apply andb_true_iff in Hf as [Hc Hf].
  apply (cact_go pre (v ++ suf) c V T k0 s (set_mark_beg (zlen pre) s)); [done|auto|auto|].
  assert (behind (set_mark_beg (zlen pre) s) (zlen (pre ++ [c]))) as Hb2.
  { rewrite zlen_app. change (zlen [c]) with 1. unfold behind. cbn. by apply behind_succ. }
  apply (cwalk v (pre ++ [c]) suf T T); [done|by apply (walk_loop goto f)|]. intros _.
  rewrite <- (app_assoc pre [c] v). exact HQ.
Qed.

Definition head_of (l : line) (key : list Z) : list Z := l_indent l ++ key ++ l_sp1 l ++ [61] ++ l_sp2 l.

Lemma keyed_runs (l : line) (key value pre suf : list Z) (V cs : Z) (s : st) Q :
  cs = 1 \/ cs = 124 -> behind s (zlen pre) -> walk goto 1 (head_of l key) = Some V ->
  (behind s (zlen (pre ++ head_of l key)) ->
   runs cstep ((pre ++ head_of l key) ++ value ++ (l_tail l ++ [10]) ++ suf) V (zlen (pre ++ head_of l key)) s Q) ->
  runs cstep (pre ++ keyed l key value ++ suf) cs (zlen pre) s Q.
Proof.
  intros Hcs Hb Hw HQ. unfold keyed. fold (head_of l key). rewrite <- !app_assoc.
  apply (cwalk (head_of l key) pre (value ++ l_tail l ++ [10] ++ suf) cs V); [done| |].
  - destruct (head_of l key) as [|c h] eqn:E; [|by rewrite walk_start].
    unfold head_of in E. destruct (l_indent l), key, (l_sp1 l); done.
  - intros Hb'. specialize (HQ Hb'). rewrite <- !app_assoc in HQ. rewrite <- !app_assoc. exact HQ.
Qed.

Lemma keyed_app (l : line) (key value pre : list Z) :
  pre ++ keyed l key value = ((pre ++ head_of l key) ++ value) ++ l_tail l ++ [10].
Proof. unfold keyed. fold (head_of l key). by rewrite <- !app_assoc. Qed.

(** Values that are copied with [mystrdup], by an action that works. *)
Lemma copied_runs (l : line) (key v pre suf : list Z) (V T k0 t10 tb t35 cs : Z) (f : Z -> bool)
    (A : list Z -> Z -> st -> res (bool * st)) (g : mog_cfg -> mog_cfg) (s : st) Q :
  cs = 1 \/ cs = 124 -> behind s (zlen pre) -> walk goto 1 (head_of l key) = Some V ->
  v <> [] -> forallb f v = true -> (forall c, f c = true -> c <> 0) -> tail_ok (l_tail l) ->
  (forall c, f c = true -> goto V c = Some (Tr k0)) -> (forall c, f c = true -> goto T c = Some (St T)) -> T <> 0 ->
  (forall buf p s, cact k0 buf p s = GoSt T p (set_mark_beg p s)) ->
  goto T 10 = Some (Tr t10) -> (forall c, lws c = true -> goto T c = Some (Tr tb)) ->
  (hd 0 (l_tail l) = 35 -> goto T 35 = Some (Tr t35)) ->
  (forall buf p s, cact t10 buf p s = after 124 p (A buf p s)) ->
  (forall buf p s, cact tb buf p s = after 66 p (A buf p s)) ->
  (forall buf p s, hd 0 (l_tail l) = 35 -> cact t35 buf p s = after 67 p (A buf p s)) ->
  (forall buf p s s', mystrdup buf p s = Ok (Some v, s') -> A buf p s = Ok (true, set_out (g (l_out s')) s')) ->
  (forall s', behind s' (zlen (pre ++ keyed l key v)) -> l_out s' = g (l_out s) -> mark_len s' = mark_len s ->
     runs cstep ((pre ++ keyed l key v) ++ suf) 124 (zlen (pre ++ keyed l key v)) s' Q) ->
  runs cstep (pre ++ keyed l key v ++ suf) cs (zlen pre) s Q.
Proof.
  intros Hcs Hb Hw Hne Hf Hnz Ht HV HT HT0 Hk H10 Hbl H35 A10 Ab A35 HA HQ.
  apply (keyed_runs l key v pre suf V); [done|done|done|]. intros Hb1. set (p1 := pre ++ head_of l key) in *.
  apply (value_runs V T k0 f); try done. set (s1 := set_mark_beg (zlen p1) s).
  assert (Forall (fun c => c <> 0) v) as Hv.
  { apply List.Forall_forall. intros c Hc. apply Hnz. rewrite forallb_forall in Hf. auto. }
  assert (mystrdup ((p1 ++ v) ++ l_tail l ++ [10] ++ suf) (zlen (p1 ++ v)) s1 = Ok (Some v, set_nuls (zlen (p1 ++ v) :: nuls s1) s1)) as Hdup.
  { destruct (l_tail l ++ [10] ++ suf) as [|c rest] eqn:E; [by destruct (l_tail l)|]. rewrite <- app_assoc. by apply mystrdup_ok. }
  assert (behind s1 (zlen (p1 ++ v))) as Hb2.
  { rewrite zlen_app. eapply (behind_next s1); [|exact Hb1]. pose proof (zlen_nonneg v). lia. }
  set (s2 := set_nuls (zlen (p1 ++ v) :: nuls s1) s1) in *.
  apply (value_tail T t10 tb t35 A (p1 ++ v) (l_tail l) suf s1 (set_out (g (l_out s2)) s2) true); try done.
  - by apply HA.
  - assert (behind (set_out (g (l_out s2)) s2) (zlen (p1 ++ v) + 1)) as Hb3.
    { unfold behind. cbn. constructor; [lia|]. by apply behind_succ. }
    split; [done|]. unfold p1. rewrite <- keyed_app. apply HQ; [|done|done].
    rewrite keyed_app. fold p1. rewrite (zlen_app (p1 ++ v)). eapply behind_next; [|exact Hb3].
    rewrite (zlen_app (l_tail l)). change (zlen [10]) with 1. pose proof (zlen_nonneg (l_tail l)). lia.
Qed.

Lemma path_char_facts (c : Z) :
  path_char c = true -> c <> 0 /\ c <> 10 /\ c <> 32 /\ c <> 35 /\ rng 9 13 c = false.
Proof. unfold path_char. rewrite !andb_true_iff, !negb_true_iff, rng_false, !Z.eqb_neq. lia. Qed.

Lemma path_goto (V T k0 : Z) (c : Z) :
  In (V, T, k0) [(120, 121, 151); (96, 97, 115); (111, 112, 138)] -> path_char c = true ->
  goto V c = Some (Tr k0) /\ goto T c = Some (St T).
Proof.
  intros Hin (H0 & H10 & H32 & H35 & Hr)%path_char_facts. cbn in Hin.
  repeat destruct Hin as [[= <- <- <-]|Hin]; try done; unfold goto; cbn [cases_1 cases_2 cases_3 cases_4 cases_5 cases_6 cases_7 cases_8 cases_9 cases_10];
    destruct (Z.eqb_spec c 10), (Z.eqb_spec c 32), (Z.eqb_spec c 35); try done; by rewrite Hr.
Qed.

Lemma string_action_some set (v buf : list Z) (p : Z) (s s' : st) :
  mystrdup buf p s = Ok (Some v, s') -> string_action set buf p s = Ok (true, set_out (set (Some v) (l_out s')) s').
Proof. intros H. unfold string_action. by rewrite H. Qed.

Lemma server_goto (c : Z) : rng 97 122 c = true -> c <> 0 /\ goto 106 c = Some (Tr 130) /\ goto 107 c = Some (St 107).
Proof.
  intros Hr. pose proof Hr as Hc. rewrite rng_true in Hc. split; [lia|].
  unfold goto; cbn [cases_1 cases_2 cases_3 cases_4 cases_5 cases_6 cases_7 cases_8 cases_9 cases_10].
  destruct (Z.eqb_spec c 9), (Z.eqb_spec c 10), (Z.eqb_spec c 32), (Z.eqb_spec c 35), (Z.ltb_spec c 65), (Z.ltb_spec 90 c); try lia.
  by rewrite Hr.
Qed.

Lemma lws_goto (T tb : Z) (c : Z) :
  In (T, tb) [(121, 153); (97, 117); (112, 140); (107, 131); (65, 78)] -> lws c = true -> goto T c = Some (Tr tb).
Proof.
  intros Hin Hc%lws_cases. cbn in Hin. repeat destruct Hin as [[= <- <-]|Hin]; try done;
    repeat destruct Hc as [->|Hc]; try subst c; reflexivity.
Qed.

Lemma string_line (k : string_key) (v : list Z) (l : line) (pre suf : list Z) (cs : Z) (s : st) Q :
  l_set l = SString k v -> line_ok l -> cs = 1 \/ cs = 124 -> behind s (zlen pre) -> line_post pre suf l s Q ->
  runs cstep (pre ++ line_text l ++ suf) cs (zlen pre) s Q.
Proof.
  intros Hl (Hi & H1 & H2 & Ht & Hv) Hcs Hb HQ. unfold line_post, line_text in *. rewrite Hl in *. cbn [apply_setting leaves_mark] in HQ.
  assert (forall s', behind s' (zlen (pre ++ keyed l (string_name k) v)) -> l_out s' = set_string k v (l_out s) -> mark_len s' = mark_len s ->
    runs cstep ((pre ++ keyed l (string_name k) v) ++ suf) 124 (zlen (pre ++ keyed l (string_name k) v)) s' Q) as HQ'
    by (intros; apply HQ; auto).
  assert (forall K V, walk goto 1 (string_name k) = Some K -> (forall ws, forallb lws ws = true -> walk goto K (ws ++ [61]) = Some V) ->
    In V [26; 44; 64; 77; 96; 106; 111; 120] -> walk goto 1 (head_of l (string_name k)) = Some V) as Hhead
    by (intros; by eapply walk_keyed).
  destruct k.
  - destruct Hv as (Hne & Hp & Hh).
    apply (copied_runs l _ v pre suf 120 121 151 154 153 0 cs path_char (string_action set_docroot) (set_docroot (Some v)));
      try done; [apply (Hhead 119); [done|intros; apply walk_eq; [cbn; tauto|done..]|cbn; tauto]|..].
    + by intros c (? & _)%path_char_facts.
    + intros c Hc. apply (path_goto 120 121 151 c); [cbn; tauto|done].
    + intros c Hc. apply (path_goto 120 121 151 c); [cbn; tauto|done].
    + intros c Hc. apply lws_goto; [cbn; tauto|done].
    + intros buf p s1 s2 Hd. by apply string_action_some.
  - destruct Hv as (Hne & Hp & Hh).
    apply (copied_runs l _ v pre suf 96 97 115 118 117 0 cs path_char (string_action set_pidfile) (set_pidfile (Some v)));
      try done; [apply (Hhead 95); [done|intros; apply walk_eq; [cbn; tauto|done..]|cbn; tauto]|..].
    + by intros c (? & _)%path_char_facts.
    + intros c Hc. apply (path_goto 96 97 115 c); [cbn; tauto|done].
    + intros c Hc. apply (path_goto 96 97 115 c); [cbn; tauto|done].
    + intros c Hc. apply lws_goto; [cbn; tauto|done].
    + intros buf p s1 s2 Hd. by apply string_action_some.
  - apply (copied_runs l _ v pre suf 106 107 130 132 131 133 cs (rng 97 122) server_action (set_server (Some v))); try done.
    + apply (Hhead 104); [done|apply walk_eq_server|cbn; tauto].
    + by destruct Hv as [->| ->].
    + by destruct Hv as [->| ->].
    + by intros c (? & _)%server_goto.
    + by intros c (_ & ? & _)%server_goto.
    + by intros c (_ & _ & ?)%server_goto.
    + intros c Hc. apply lws_goto; [cbn; tauto|done].
    + intros buf p s1 s2 Hd. unfold server_action. rewrite (string_action_some set_server v _ _ _ _ Hd). cbn [res_bind fst snd l_out set_out].
      unfold mog_cfg_check_server. cbn [server set_server]. by destruct Hv as [->| ->].
  - destruct Hv as (Hne & Hp & Hh).
    apply (copied_runs l _ v pre suf 111 112 138 141 140 0 cs path_char serverbin_action (fun c => c));
      try done; [apply (Hhead 110); [done|intros; apply walk_eq; [cbn; tauto|done..]|cbn; tauto]|..].
    + by intros c (? & _)%path_char_facts.
    + intros c Hc. apply (path_goto 111 112 138 c); [cbn; tauto|done].
    + intros c Hc. apply (path_goto 111 112 138 c); [cbn; tauto|done].
    + intros c Hc. apply lws_goto; [cbn; tauto|done].
    + intros buf p s1 s2 Hd. unfold serverbin_action. rewrite Hd. cbn. by destruct s2.
Qed.

Lemma digit_goto (c : Z) : is_digit c = true -> c <> 0 /\ goto 64 c = Some (Tr 77) /\ goto 65 c = Some (St 65).
Proof.
  unfold is_digit. intros Hr. pose proof Hr as Hc. rewrite rng_true in Hc. split; [lia|].
  unfold goto; cbn [cases_1 cases_2 cases_3 cases_4 cases_5 cases_6 cases_7 cases_8 cases_9 cases_10].
  destruct (Z.eqb_spec c 9), (Z.eqb_spec c 10), (Z.eqb_spec c 32), (Z.eqb_spec c 35), (Z.ltb_spec 13 c); try lia. by rewrite Hr.
Qed.

Lemma maxconns_action_ok (pre v suf : list Z) (c : Z) (s : st) :
  v <> [] -> forallb is_digit v = true -> behind s (zlen pre) -> mark_beg s = Some (zlen pre) ->
  maxconns_action (pre ++ v ++ c :: suf) (zlen (pre ++ v)) s =
  Ok (dec_value v <? 2 ^ 64,
      set_out (set_maxconns (if dec_value v <? 2 ^ 64 then dec_value v else 2 ^ 64 - 1) (l_out s))
        (set_nuls (zlen (pre ++ v) :: nuls s) (set_mark_len (zlen v) s))).
Proof.
  intros Hne Hd Hb Hm. unfold maxconns_action. rewrite Hm. cbn [mark_len set_mark_len nuls].
  assert (zlen (pre ++ v) = zlen pre + zlen v) as Hl by by rewrite zlen_app.
  assert (Forall (fun c => is_digit c = true) v) as Hd'.
  { apply List.Forall_forall. rewrite forallb_forall in Hd. auto. }
  assert (Forall (fun x => x <> 0) v) as Hnz.
  { revert Hd'. apply Forall_impl. by intros x (? & _)%digit_goto. }
  pose proof (zlen_nonneg pre). pose proof (zlen_nonneg v). pose proof (zlen_nonneg suf).
  replace (zlen (pre ++ v) - zlen pre) with (zlen v) by lia. replace (zlen pre + zlen v) with (zlen (pre ++ v)) by lia.
  rewrite put_nul_ok by (rewrite !zlen_app, zlen_cons; lia). cbn [res_bind].
  rewrite cstr_ok; [cbn [res_bind]|done| |left; lia].
  - pose proof (strtoul_value v [] Hne Hd' I) as Hs. rewrite app_nil_r in Hs. rewrite Hs.
    by destruct (Z.leb_spec (2 ^ 64) (dec_value v)), (Z.ltb_spec (dec_value v) (2 ^ 64)); try lia.
  - unfold behind in Hb. rewrite List.Forall_forall in Hb. intros x [<-|Hx%Hb]; lia.
Qed.

Lemma maxconns_line (v : list Z) (l : line) (pre suf : list Z) (cs : Z) (s : st) Q :
  l_set l = SMaxconns v -> line_ok l -> cs = 1 \/ cs = 124 -> behind s (zlen pre) -> line_post pre suf l s Q ->
  runs cstep (pre ++ line_text l ++ suf) cs (zlen pre) s Q.
Proof.
  intros Hl (Hi & H1 & H2 & Ht & Hv) Hcs Hb HQ. unfold line_post, line_text in *. rewrite Hl in *. cbn [apply_setting leaves_mark] in HQ.
  destruct Hv as [Hne Hd].
  apply (keyed_runs l _ v pre suf 64); [done|done| |].
  { apply (walk_keyed l _ 63); [done..|intros; apply walk_eq; [cbn; tauto|done..]|cbn; tauto]. }
  intros Hb1. set (p1 := pre ++ head_of l (str "maxconns")) in *.
  apply (value_runs 64 65 77 is_digit); [done|done|done|by intros c (_ & ? & _)%digit_goto|by intros c (_ & _ & ?)%digit_goto|done|done|].
  set (s1 := set_mark_beg (zlen p1) s).
  assert (behind s1 (zlen (p1 ++ v))) as Hb2.
  { rewrite zlen_app. eapply (behind_next s1); [|exact Hb1]. pose proof (zlen_nonneg v). lia. }
  eapply (value_tail 65 79 78 80 maxconns_action (p1 ++ v) (l_tail l) suf s1); try done.
  - intros c Hc. apply lws_goto; [cbn; tauto|done].
  - destruct (l_tail l ++ [10] ++ suf) as [|c rest] eqn:E; [by destruct (l_tail l)|]. rewrite <- app_assoc. by apply maxconns_action_ok.
  - destruct (Z.ltb_spec (dec_value v) (2 ^ 64)); [|done].
    match goal with |- behind ?x _ /\ _ => set (s2 := x) end.
    assert (behind s2 (zlen (p1 ++ v) + 1)) as Hb3.
    { unfold behind. cbn. constructor; [lia|]. by apply behind_succ. }
    split; [done|]. unfold p1. rewrite <- keyed_app. apply HQ; [by right| |done|done].
    rewrite keyed_app. fold p1. rewrite (zlen_app (p1 ++ v)). eapply behind_next; [|exact Hb3].
    rewrite (zlen_app (l_tail l)). change (zlen [10]) with 1. pose proof (zlen_nonneg (l_tail l)). lia.
Qed.

(** ** Lines with an address *)

(** Where the copy of the machine for a key starts, its states, and the action
    at the end of the line. *)
Definition listen_base (k : listen_key) : Z := match k with KHttpgetlisten => 26 | KHttplisten => 44 | KMgmtlisten => 77 end.
Definition listen_tr (k : listen_key) : Z := match k with KHttpgetlisten => 37 | KHttplisten => 57 | KMgmtlisten => 97 end.
Definition copy (k : listen_key) (i : Z) : Z :=
  if i =? 1 then listen_base k else if i =? 2 then listen_base k + 1 else listen_base k + i + 1.

Lemma cfg_edge_step (k : listen_key) (buf : list Z) (i p : Z) (s : st) (j : Z) f :
  behind s p -> edge i (char_at buf p) = Some (j, f) -> cstep buf (copy k i) p s = GoSt (copy k j) p (f p s).
Proof.
  intros Hb He. unfold step. rewrite (mem_at_ahead _ _ _ Hb). revert He. generalize (char_at buf p). intros c.
  unfold edge, is_digit. destruct i as [|i|i]; try done. repeat (destruct i as [i|i|]; try done).
  all: destruct k; match goal with |- context [goto (copy ?k ?i) ?x] => let v := eval vm_compute in (copy k i) in change (copy k i) with v end.
  all: unfold goto; cbn [cases_1 cases_2 cases_3 cases_4 cases_5 cases_6 cases_7].
  all: destruct (Z.eqb_spec c 58), (Z.eqb_spec c 46), (rng 48 57 c) eqn:Er; subst; try done; try (rewrite rng_true in Er; lia); intros [= <- <-]; try done.
  all: rewrite rng_true in Er; destruct (Z.eqb_spec c 9), (Z.eqb_spec c 10), (Z.eqb_spec c 32), (Z.eqb_spec c 35), (Z.ltb_spec 13 c); try lia; done.
Qed.

Lemma listen_tail (k : listen_key) (i : Z) (tail : list Z) :
  i = 2 \/ i = 10 -> tail_ok tail ->
  exists n, walk goto (copy k i) tail = Some n /\ goto n 10 = Some (Tr (listen_tr k)).
Proof.
  intros Hi Ht.
  assert (In (listen_base k + 2) [1; 25; 26; 43; 44; 63; 64; 66; 76; 77; 95; 96; 105; 106; 110; 111; 119; 120; 11; 28; 46; 79]) as Hin1
    by (destruct k; cbn; tauto).
  assert (In (listen_base k + 3) [12; 29; 47; 67; 80; 123]) as Hin2 by (destruct k; cbn; tauto).
  assert (forall x, Forall (fun c => c <> 10) x -> walk goto (listen_base k + 3) x = Some (listen_base k + 3)) as Hc
    by (intros; by apply walk_comment).
  assert (goto (listen_base k + 3) 10 = Some (Tr (listen_tr k))) as H10 by by destruct k.
  destruct (tail_cases tail Ht) as [->|[(x & Hx & ->)|(c & b & x & Hlc & Hws & Hx & ->)]].
  - exists (copy k i). split; [done|]. by destruct Hi as [->| ->], k.
  - exists (listen_base k + 3). split; [|done]. change (35 :: x) with ([35] ++ x).
    rewrite (walk_app goto _ (listen_base k + 3)); [auto|]. by destruct Hi as [->| ->], k.
  - exists (listen_base k + 3). split; [|done]. change ((c :: b) ++ 35 :: x) with ([c] ++ b ++ [35] ++ x).
    rewrite (walk_app goto _ (listen_base k + 2)).
    2: { apply lws_cases in Hlc. destruct Hi as [->| ->], k; repeat destruct Hlc as [->|Hlc]; try subst c; reflexivity. }
    rewrite (walk_app goto _ (listen_base k + 2)) by by apply walk_lws.
    rewrite (walk_app goto _ (listen_base k + 3)) by by destruct k. auto.
Qed.

Lemma listen_line (k : listen_key) (text : list Z) (l : line) (pre suf : list Z) (cs : Z) (s : st) Q :
  l_set l = SListen k text -> line_ok l -> cs = 1 \/ cs = 124 -> behind s (zlen pre) ->
  (needs_clear (l_set l) = true -> mark_len s = 0) -> line_post pre suf l s Q ->
  runs cstep (pre ++ line_text l ++ suf) cs (zlen pre) s Q.
Proof.
  intros Hl (Hi & H1 & H2 & Ht & Hv) Hcs Hb Hclear HQ. unfold line_post, line_text in *. rewrite Hl in *.
  cbn [apply_setting leaves_mark needs_clear] in *.
  apply (keyed_runs l _ text pre suf (listen_base k)); [done|done| |].
  { apply (walk_keyed l _ (match k with KHttpgetlisten => 25 | KHttplisten => 43 | KMgmtlisten => 76 end)); [done..|by destruct k| |];
      [intros; apply walk_eq; [destruct k; cbn; tauto|by destruct k|by destruct k|done]|destruct k; cbn; tauto]. }
  intros Hb1. set (p1 := pre ++ head_of l (listen_name k)) in *.
  pose proof (erun_spec (zlen p1) s text) as Hs. destruct (listen_spec text) as [[node port]|]; [|by destruct Hv].
  destruct Hs as (i & s1 & Hi1 & He & Hadd & Hnode).
  apply (erun_runs cstep (copy k) (cfg_edge_step k) text p1 ((l_tail l ++ [10]) ++ suf) 1 i s s1); [done|done|].
  destruct (listen_tail k i (l_tail l) Hi1 Ht) as (n & Hw & H10). rewrite <- (app_assoc (l_tail l)).
  assert (behind s1 (zlen (p1 ++ text))) as Hb2.
  { destruct Hadd as (E & _). unfold behind. rewrite E, zlen_app. eapply (behind_next s); [|exact Hb1].
    pose proof (zlen_nonneg text). lia. }
  apply (cwalk (l_tail l) (p1 ++ text) ([10] ++ suf) (copy k i) n); [done|done|]. intros Hb3.
  set (p2 := (p1 ++ text) ++ l_tail l) in *.
  assert (zlen (p1 ++ text) <= zlen p2) as Hle by (unfold p2; rewrite (zlen_app (p1 ++ text)); pose proof (zlen_nonneg (l_tail l)); lia).
  destruct (l_tail l ++ [10] ++ suf) as [|c rest] eqn:Erest; [by destruct (l_tail l)|].
  destruct (listen_internal_ok resolve p1 text rest c node port s s1 Hb1 (erun_nonzero _ _ _ _ _ _ He)) as (nl & Hint & Hnl);
    [by rewrite zlen_app| |].
  { destruct node; [done|]. split; [done|]. by apply Hclear. }
  assert (p2 ++ [10] ++ suf = p1 ++ text ++ c :: rest) as Ebuf by (unfold p2; by rewrite <- !app_assoc, Erest).
  assert (cact (listen_tr k) (p2 ++ [10] ++ suf) (zlen p2) s1 =
    after 124 (zlen p2) (listen_action resolve (set_listen k) (p2 ++ [10] ++ suf) s1)) as Hact by by destruct k.
  unfold listen_action in Hact. rewrite Ebuf, Hint in Hact. cbn [res_bind fst snd] in Hact. rewrite <- Ebuf in Hact.
  destruct Hadd as (Ha1 & Ha2 & Ha3 & Ha4 & Ha5).
  destruct (resolved resolve node port) as [a|].
  - match type of Hact with _ = after _ _ (Ok (_, ?x)) => set (s2 := x) in * end.
    apply (cact_go p2 suf 10 n 124 (listen_tr k) s1 s2); [done|done|exact Hact|].
    assert (p2 ++ [10] = pre ++ keyed l (listen_name k) text) as -> by (rewrite keyed_app; unfold p2, p1; by rewrite <- !app_assoc).
    apply HQ; [by right| | |].
    + rewrite keyed_app. fold p1. unfold behind. cbn. rewrite (app_assoc _ _ [10]). fold p2. rewrite zlen_app. change (zlen [10]) with 1.
      revert Hnl. apply Forall_impl. intros; lia.
    + cbn. by rewrite Ha2.
    + destruct node; [done|]. by intros _.
  - eapply (cact_out p2 suf 10 n 0 (listen_tr k) (zlen p2)); [done|done|exact Hact|]. by apply HQ.
Qed.

(** ** The other lines *)

Lemma daemonize_line (l : line) (pre suf : list Z) (cs : Z) (s : st) Q :
  l_set l = SDaemonize -> line_ok l -> cs = 1 \/ cs = 124 -> behind s (zlen pre) -> line_post pre suf l s Q ->
  runs cstep (pre ++ line_text l ++ suf) cs (zlen pre) s Q.
Proof.
  intros Hl (Hi & _ & _ & Ht & _) Hcs Hb HQ. unfold line_post, line_text in *. rewrite Hl in *. cbn [apply_setting leaves_mark] in HQ.
  assert (exists n, walk goto cs (l_indent l ++ str "daemonize" ++ l_tail l) = Some n /\ goto n 10 = Some (Tr 17)) as (n & Hw & H10).
  { assert (walk goto cs (l_indent l ++ str "daemonize" ++ l_tail l) = walk goto 10 (l_tail l)) as ->.
    { rewrite (app_assoc (l_indent l)). apply walk_app. destruct (l_indent l) as [|c b] eqn:E; [by destruct Hcs as [->| ->]|].
      cbn [app]. rewrite walk_start by done. change (c :: b ++ str "daemonize") with ((c :: b) ++ str "daemonize").
      rewrite (walk_app goto 1 1) by (apply walk_lws; [by left|by rewrite <- E in *]). done. }
    destruct (tail_cases _ Ht) as [->|[(x & Hx & ->)|(c & b & x & Hlc & Hws & Hx & ->)]].
    - by exists 10.
    - exists 12. split; [|done]. change (35 :: x) with ([35] ++ x). rewrite (walk_app goto 10 12) by done.
      apply walk_comment; [cbn; tauto|done].
    - exists 12. split; [|done]. change ((c :: b) ++ 35 :: x) with ([c] ++ b ++ [35] ++ x).
      rewrite (walk_app goto 10 11) by (apply lws_cases in Hlc; repeat destruct Hlc as [->|Hlc]; try subst c; reflexivity).
      rewrite (walk_app goto 11 11) by (apply walk_lws; [cbn; tauto|done]). rewrite (walk_app goto 11 12) by done.
      apply walk_comment; [cbn; tauto|done]. }
  set (ws := l_indent l ++ str "daemonize" ++ l_tail l) in *.
  assert ((l_indent l ++ str "daemonize") ++ l_tail l ++ [10] = ws ++ [10]) as Ews by (unfold ws; by rewrite <- !app_assoc).
  rewrite Ews in *. rewrite <- app_assoc.
  apply (cwalk ws pre ([10] ++ suf) cs n); [done|done|]. intros Hb1.
  eapply (cact_go (pre ++ ws) suf 10 n 124 17); [done|done|done|]. rewrite <- (app_assoc pre ws [10]). apply HQ; [by right| |done|done].
  rewrite app_assoc, zlen_app. by apply behind_succ.
Qed.

Lemma ignored_line (t : list Z) (l : line) (pre suf : list Z) (cs : Z) (s : st) Q :
  l_set l = SIgnored t -> line_ok l -> cs = 1 \/ cs = 124 -> behind s (zlen pre) -> line_post pre suf l s Q ->
  runs cstep (pre ++ line_text l ++ suf) cs (zlen pre) s Q.
Proof.
  intros Hl (Hi & _ & _ & _ & Hv) Hcs Hb HQ. unfold line_post, line_text in *. rewrite Hl in *. cbn [apply_setting leaves_mark] in HQ.
  assert (exists n, walk goto cs (l_indent l) = Some n /\ (n = 1 \/ n = 124)) as (n & Hw & Hn).
  { destruct (l_indent l) as [|c b] eqn:E; [by exists cs|]. exists 1. split; [|by left]. rewrite walk_start by done.
    apply walk_lws; [by left|done]. }
  destruct Hv as [Hnl Hhd]. rewrite <- !app_assoc in *.
  apply (cwalk (l_indent l) pre (t ++ [10] ++ suf) cs n); [done|done|]. intros Hb1. set (p1 := pre ++ l_indent l) in *.
  destruct (t ++ [10] ++ suf) as [|c rest] eqn:E; [by destruct t|].
  assert (goto n c = Some (Tr 0)) as Hg.
  { assert (goto n c = goto 1 c) as -> by (destruct Hn as [->| ->]; [done|apply goto_start]).
    destruct t as [|c0 t]; [by injection E as <- _|]. injection E as <- _. destruct Hhd as (Hws & H1 & H2 & H3 & H4 & H5).
    unfold lws in Hws. apply orb_false_iff in Hws as [Hws Hr]. unfold goto; cbn [cases_1]. rewrite Hws, Hr.
    destruct (Z.eqb_spec c0 100), (Z.eqb_spec c0 104), (Z.eqb_spec c0 109), (Z.eqb_spec c0 112), (Z.eqb_spec c0 115); done. }
  apply (runs_go cstep _ _ _ _ 123 (zlen p1 - 1) s).
  { rewrite zlen_app, zlen_cons. pose proof (zlen_nonneg p1). pose proof (zlen_nonneg rest). lia. }
  { rewrite (mem_step_at goto cact cstep behind cfg_step_mem p1 c rest n s (Tr 0) Hb1 Hg). done. }
  replace (zlen p1 - 1 + 1) with (zlen p1) by lia. rewrite <- E.
  apply (cwalk t p1 ([10] ++ suf) 123 123); [done|apply walk_comment; [cbn; tauto|done]|]. intros Hb2.
  eapply (cact_go (p1 ++ t) suf 10 123 1 159); [done|done|done|].
  assert ((p1 ++ t) ++ [10] = pre ++ l_indent l ++ t ++ [10]) as -> by (unfold p1; by rewrite <- !app_assoc).
  specialize (HQ 1 s (or_introl eq_refl)). rewrite <- E in HQ. rewrite <- !app_assoc. apply HQ; [|done|done].
  unfold p1 in Hb2. rewrite <- !app_assoc in Hb2.
  assert (zlen (pre ++ l_indent l ++ t ++ [10]) = zlen (pre ++ l_indent l ++ t) + 1) as ->
    by (rewrite !zlen_app; change (zlen [10]) with 1; lia).
  by apply behind_succ.
Qed.

Lemma line_runs (l : line) (pre suf : list Z) (cs : Z) (s : st) Q :
  line_ok l -> cs = 1 \/ cs = 124 -> behind s (zlen pre) -> (needs_clear (l_set l) = true -> mark_len s = 0) ->
  line_post pre suf l s Q -> runs cstep (pre ++ line_text l ++ suf) cs (zlen pre) s Q.
Proof.
  intros. destruct (l_set l) as [k t|k v|d| |t] eqn:E.
  - eapply listen_line; rewrite ?E; eauto.
  - by eapply string_line.
  - by eapply maxconns_line.
  - by eapply daemonize_line.
  - by eapply ignored_line.
Qed.

Lemma lines_run (ls : list line) (marked : bool) (pre : list Z) (cs : Z) (s : st) :
  lines_ok marked ls -> cs = 1 \/ cs = 124 -> behind s (zlen pre) -> (marked = false -> mark_len s = 0) ->
  runs cstep (pre ++ file_text ls) cs (zlen pre) s (fun r =>
    match apply_lines resolve (l_out s) ls with
    | Some c => r_cs r <> 0 /\ r_p r = zlen (pre ++ file_text ls) /\ l_out (r_s r) = c
    | None => r_cs r = 0
    end).
Proof.
  revert marked pre cs s. induction ls as [|l ls IH]; intros marked pre cs s Hls Hcs Hb Hm.
  - cbn [file_text map concat apply_lines]. rewrite app_nil_r. eexists. split; [by apply reach_done|]. cbn. split_and!; [|done|done]. destruct Hcs; lia.
  - destruct Hls as (Hl & Hn & Hls). change (file_text (l :: ls)) with (line_text l ++ file_text ls).
    apply line_runs; [done|done|done|auto|]. unfold line_post. cbn [apply_lines].
    destruct (apply_setting resolve (l_out s) (l_set l)) as [c|]; [|done].
    intros cs' s' Hcs' Hb' Hc Hmk. rewrite <- Hc, (app_assoc pre). eapply IH; [done|done|done|].
    intros [Hf Hlm]%orb_false_iff. rewrite Hmk by done. auto.
Qed.

Lemma cfg_measure (buf : list Z) (cs p : Z) (s : st) (n p' : Z) (s' : st) :
  cstep buf cs p s = GoSt n p' s' ->
  2 * (zlen buf - (p' + 1)) + (if n =? 123 then 0 else 1) < 2 * (zlen buf - p) + (if cs =? 123 then 0 else 1).
Proof.
  unfold step. intros H. destruct (Z.eqb_spec cs 123) as [->|Hcs].
  - destruct (goto 123 _) as [[m|k]|] eqn:E; [|..|done]; unfold goto in E; cbn in E.
    + destruct (_ =? 10); [done|]. injection E as <-. injection H as <- <- <-. cbn. lia.
    + destruct (_ =? 10); [|done]. injection E as <-. injection H as <- <- <-. cbn. lia.
  - destruct (goto cs _) as [[m|k]|]; [destruct (m =? 0); [done|]; injection H as <- <- <-; destruct (m =? 123); lia| |done].
    unfold act, after in H. repeat case_match; try done; injection H as <- <- <-; lia.
Qed.
End Lines.


(** A file as people write it. *)
Definition sample_lines : list line :=
  let sp := [32] in
  [Line [] [] [] (SIgnored (str "# mogstored.conf")) [];
   Line [] [] [] SDaemonize [];
   Line [] sp sp (SListen KHttplisten (str "7500")) [];
   Line [] sp sp (SListen KMgmtlisten (str "10.0.0.1:7501")) (str " # trackers");
   Line sp [9] [] (SString KDocroot (str "/var/mogdata")) (str " # data");
   Line [] sp sp (SString KServer (str "none")) [];
   Line [] sp sp (SMaxconns (str "10000")) [];
   Line [] [] [] (SIgnored []) []].

Definition sample_resolve (node : option (list Z)) (port : list Z) : option sockaddr :=
  Some (match node with Some n => n | None => str "*" end ++ [32] ++ port).


(** The length of an address survives its line: after a listener with an
    address, one without listens on the address of the first; after a
    [maxconns] line it cuts its own port; and a NUL may be written behind the
    end of the file.  White space behind a port makes the whole line ignored. *)
Theorem cfg_stale_mark :
  let parse := fun ls => mog_cfg_parse sample_resolve cfg0 (concat (map (fun l => l ++ [10]) ls)) in
  let mgmt := fun r => match r with Ok (rc, c) => Some (rc, option_map orig (mgmtlisten c)) | Crash _ => None end in
  mgmt (parse [str "httplisten = 127.0.0.1:7500"; str "mgmtlisten = :7501"]) = Some (0, Some (str "127.0.0.1:7501")) /\
  mgmt (parse [str "maxconns = 10"; str "mgmtlisten = 7501"]) = Some (0, Some (str "75:75")) /\
  parse [str "httplisten = 123.123.123.123:7500"; str "mgmtlisten = 7501"] = Crash OutOfBounds /\
  mgmt (parse [str "mgmtlisten = 7501 "]) = Some (0, None).
Proof. split_and!; vm_compute; reflexivity. Qed.
