(* ===== verification/Cfg.v ===== *)
(** From the command line to running services: options (cmogstored.c),
    validation and merging of configurations (cfg.c, cfg_validate.c,
    canonpath.c), the limit of descriptors (maxconns.c) and the services
    (svc.c). *)
From S2P Require Import Prelude Fmt Ragel Listen CfgParser.
From stdpp Require Import base list numbers list_basics.
From Stdlib Require Import ZArith Lia.

#[local] Open Scope Z_scope.

Definition MOG_DEFAULT_MAXCONNS : Z := 10000.
Definition MOG_DEFAULT_HTTPLISTEN : list Z := str "0.0.0.0:7500".
Definition MOG_DEFAULT_MGMTLISTEN : list Z := str "0.0.0.0:7501".
Definition MOG_DEFAULT_DOCROOT : list Z := str "/var/mogdata".

Inductive canon_mode := CAN_EXISTING | CAN_ALL_BUT_LAST.

Definition set_configfile (f g : option (list Z)) (c : mog_cfg) : mog_cfg :=
  MogCfg (docroot c) (daemonize c) (maxconns c) (pidfile c) f g (server c) (httplisten c) (mgmtlisten c) (httpgetlisten c).

Section Cfg.
(** [getaddrinfo], and [canonicalize_filename_mode] of gnulib. *)
Variable resolve : option (list Z) -> list Z -> option sockaddr.
Variable canonicalize : list Z -> canon_mode -> option (list Z).
Abbreviation mog_listen_parse := (ListenParser.mog_listen_parse resolve).

(** ** Merging (cfg_validate.c) *)

Definition mog_canonpath_die (path : list Z) (m : canon_mode) : res (list Z) :=
  match canonicalize path m with Some p => Ok p | None => Crash Died end.

Definition paths_eql_or_die (a b : list Z) (m : canon_mode) : res unit :=
  let* a := mog_canonpath_die a m in
  let* b := mog_canonpath_die b m in
  if bool_decide (a = b) then Ok tt else Crash Died.

Definition merge_addr (dst src : option mog_addrinfo) : res (option mog_addrinfo) :=
  match dst, src with
  | None, Some a => mog_listen_parse (orig a)
  | _, _ => Ok dst
  end.

Definition merge_str (dst src : option (list Z)) : option (list Z) :=
  match dst, src with
  | None, Some s => Some s
  | _, _ => dst
  end.

Definition both_eql (a b : option (list Z)) (m : canon_mode) : res unit :=
  match a, b with
  | Some a, Some b => paths_eql_or_die a b m
  | _, _ => Ok tt
  end.

Definition validate_merge_common (ent cli : mog_cfg) : res mog_cfg :=
  let* m := merge_addr (mgmtlisten cli) (mgmtlisten ent) in
  let* h := merge_addr (httplisten cli) (httplisten ent) in
  let* g := merge_addr (httpgetlisten cli) (httpgetlisten ent) in
  let cli := set_httpgetlisten g (set_httplisten h (set_mgmtlisten m cli)) in
  let* _ := both_eql (pidfile cli) (pidfile ent) CAN_ALL_BUT_LAST in
  let cli := set_pidfile (merge_str (pidfile cli) (pidfile ent)) cli in
  let cli := set_maxconns (wrap_u64 (maxconns cli + maxconns ent)) cli in
  Ok (set_daemonize (daemonize cli || daemonize ent) cli).

Definition mog_cfg_validate_one (ent cli : mog_cfg) : res mog_cfg :=
  let* _ := both_eql (docroot cli) (docroot ent) CAN_EXISTING in
  let cli := set_docroot (merge_str (docroot cli) (docroot ent)) cli in
  validate_merge_common ent cli.

Definition is_null {A} (x : option A) : bool := match x with None => true | Some _ => false end.

Definition mog_cfg_validate_multi (ent cli : mog_cfg) : res mog_cfg :=
  if is_null (configfile ent) then Crash Died
  else if is_null (httplisten ent) && is_null (mgmtlisten ent) && is_null (httpgetlisten ent) then Crash Died
  else if is_null (docroot ent) then Crash Died
  else validate_merge_common ent cli.

(** [hash_do_for_each (all_cfg, f, cli)], in the order of the table. *)
Fixpoint for_each (f : mog_cfg -> mog_cfg -> res mog_cfg) (all : list mog_cfg) (cli : mog_cfg) : res mog_cfg :=
  match all with
  | [] => Ok cli
  | ent :: all => let* cli := f ent cli in for_each f all cli
  end.

(** [path && path[0] != '/']: one more error. *)
Definition relative (path : option (list Z)) : bool :=
  match path with
  | Some (c :: _) => negb (c =? 47)
  | Some [] => true
  | None => false
  end.

Definition mog_cfg_validate_daemon (ent : mog_cfg) (nerr : Z) : Z :=
  let nerr := if relative (config ent) then nerr + 1 else nerr in
  let nerr := if relative (pidfile ent) then nerr + 1 else nerr in
  if relative (docroot ent) then nerr + 1 else nerr.

Definition mog_cfg_die_if_cli_set (cli : mog_cfg) : res unit :=
  if is_null (docroot cli) && is_null (httplisten cli) && is_null (mgmtlisten cli) && is_null (httpgetlisten cli)
  then Ok tt else Crash Died.

Definition mog_cfg_merge_defaults (cli : mog_cfg) : res mog_cfg :=
  let cli := if is_null (docroot cli) then set_docroot (Some MOG_DEFAULT_DOCROOT) cli else cli in
  if is_null (httplisten cli) && is_null (httpgetlisten cli) && is_null (mgmtlisten cli) then
    let* h := mog_listen_parse MOG_DEFAULT_HTTPLISTEN in
    let* m := mog_listen_parse MOG_DEFAULT_MGMTLISTEN in
    Ok (set_mgmtlisten m (set_httplisten h cli))
  else Ok cli.

(** ** Daemons (cfg.c) *)

(** [strchr (p, ':')] and one further; [None] when there is no colon. *)
Fixpoint after_colon (p : list Z) : option (list Z) :=
  match p with
  | [] => None
  | c :: p' => if c =? 58 then Some p' else after_colon p'
  end.

(** The loop over PATH: does it hold a relative path? *)
Fixpoint path_relative (fuel : nat) (p : list Z) : res bool :=
  match fuel with
  | O => Crash OutOfFuel
  | S fuel' =>
      match p with
      | [] => Ok false
      | c :: _ => if c =? 47 then match after_colon p with
                                  | None => Ok false
                                  | Some p' => path_relative fuel' p'
                                  end
                  else Ok true
      end
  end.

(** [PATH] is [None] when it is not set. *)
Definition validate_daemonize (all : list mog_cfg) (cli : mog_cfg) (PATH : option (list Z)) : res unit :=
  let nerr := fold_left (fun n e => mog_cfg_validate_daemon e n) all 0 in
  let nerr := if nerr =? 0 then mog_cfg_validate_daemon cli nerr else nerr in
  match PATH with
  | None => Crash Died
  | Some path =>
      match last path with
      | None => Crash OutOfBounds (* p[-1] *)
      | Some c =>
          let* rel := if c =? 58 then Ok true else path_relative (S (length path)) path in
          let nerr := if rel : bool then nerr + 1 else nerr in
          if nerr =? 0 then Ok tt else Crash Died
      end
  end.

(** Followed by [mog_set_maxconns] below on [maxconns cli], which only warns. *)
Definition mog_cfg_validate_or_die (multi : bool) (PATH : option (list Z)) (all : list mog_cfg) (cli : mog_cfg) : res mog_cfg :=
  let* cli := match all with
              | [] =>
                  let* cli := mog_cfg_merge_defaults cli in
                  assert! is_null (configfile cli); Ok cli
              | [_] =>
                  let* cli := for_each mog_cfg_validate_one all cli in
                  mog_cfg_merge_defaults cli
              | _ =>
                  let* _ := mog_cfg_die_if_cli_set cli in
                  let* cli := for_each mog_cfg_validate_multi all cli in
                  if multi then Ok cli else Crash Died
              end in
  let* _ := if daemonize cli then validate_daemonize all cli PATH else Ok tt in
  Ok cli.

(** ** Services (svc.c, cfg.c) *)

Record mog_svc := MogSvc {
  svc_docroot : list Z;
  svc_mgmt_fd : Z;
  svc_http_fd : Z;
  svc_httpget_fd : Z;
  put_perms : Z;
  mkcol_perms : Z;
  idle_timeout : Z
}.

(** The table of services, and the process: the file mode creation mask,
    directories that can be opened, and what [mog_bind_listen] returns. *)
Variable umask : Z.
Variable opendir : list Z -> bool.
Variable mog_bind_listen : sockaddr -> Z.

(** [None] stands for NULL. *)
Definition mog_svc_new (root : option (list Z)) (svcs : list mog_svc) : res (option (mog_svc * list mog_svc)) :=
  let* root := mog_canonpath_die (match root with Some r => r | None => MOG_DEFAULT_DOCROOT end) CAN_EXISTING in
  if negb (opendir root) then Ok None
  else
    let svc := MogSvc root (-1) (-1) (-1) (Z.land (Z.lnot umask) 438) (Z.land (Z.lnot umask) 511) 5 in
    if existsb (fun s => bool_decide (svc_docroot s = root)) svcs then Ok None
    else Ok (Some (svc, svcs)).

Definition bind_or_die (a : option mog_addrinfo) : res Z :=
  match a with
  | None => Ok (-1)
  | Some a => let fd := mog_bind_listen (addr a) in if 0 <=? fd then Ok fd else Crash Died
  end.

Definition set_fds (m h g : Z) (s : mog_svc) : mog_svc :=
  MogSvc (svc_docroot s) m h g (put_perms s) (mkcol_perms s) (idle_timeout s).

Definition svc_from_cfg (cfg : mog_cfg) (svcs : list mog_svc) : res (list mog_svc) :=
  assert! negb (is_null (docroot cfg));
  let* r := mog_svc_new (docroot cfg) svcs in
  match r with
  | None => Crash Died
  | Some (svc, svcs) =>
      let* m := bind_or_die (mgmtlisten cfg) in
      if bool_decide (server cfg = Some (str "none")) then Ok (svcs ++ [set_fds m (-1) (-1) svc])
      else
        let* h := bind_or_die (httplisten cfg) in
        let* g := bind_or_die (httpgetlisten cfg) in
        Ok (svcs ++ [set_fds m h g svc])
  end.

Fixpoint svcs_from_cfgs (all : list mog_cfg) (svcs : list mog_svc) : res (list mog_svc) :=
  match all with
  | [] => Ok svcs
  | c :: all => let* svcs := svc_from_cfg c svcs in svcs_from_cfgs all svcs
  end.

Definition mog_cfg_svc_start_or_die (all : list mog_cfg) (cli : mog_cfg) : res (list mog_svc) :=
  match all with
  | [] | [_] => svc_from_cfg cli []
  | _ => svcs_from_cfgs all []
  end.
End Cfg.

(** ** Options (cmogstored.c) *)

Inductive opt :=
  | OptDaemonize | OptSkipconfig | OptMulti
  | OptDocroot (arg : list Z) | OptPidfile (arg : list Z) | OptConfigfile (arg : list Z)
  | OptMaxconns (arg : list Z) | OptHttplisten (arg : list Z) | OptMgmtlisten (arg : list Z)
  | OptServer (arg : list Z) | OptWorkers (arg : list Z).

Record setup_st := Setup { mog_cli : mog_cfg; all_cfg : list mog_cfg; mog_cfg_multi : bool; worker_processes : Z }.

Definition set_cli (c : mog_cfg) (s : setup_st) : setup_st := Setup c (all_cfg s) (mog_cfg_multi s) (worker_processes s).

Section Options.
Variable resolve : option (list Z) -> list Z -> option sockaddr.
Variable canonicalize : list Z -> canon_mode -> option (list Z).
(** The files that can be opened. *)
Variable file : list Z -> option (list Z).

Definition check_strtoul (s : list Z) : res Z :=
  let '(v, end_, erange) := strtoul s in
  if erange : bool then Crash Died
  else match end_ with [] => Ok v | _ => Crash Died end.

Definition addr_or_die (s : list Z) : res mog_addrinfo :=
  let* a := ListenParser.mog_listen_parse resolve s in
  match a with Some a => Ok a | None => Crash Died end.

(** [None]: the configuration is known already. *)
Definition mog_cfg_new (configfile_ : list Z) (all : list mog_cfg) : res (option mog_cfg) :=
  let* p := mog_canonpath_die canonicalize configfile_ CAN_EXISTING in
  if existsb (fun c => bool_decide (configfile c = Some p)) all then Ok None
  else Ok (Some (set_configfile (Some p) (Some configfile_) cfg0)).

Definition new_cfg_or_die (config_ : list Z) (all : list mog_cfg) : res (list mog_cfg) :=
  let* c := mog_cfg_new config_ all in
  match c with
  | None => Crash Died
  | Some c =>
      let f := match configfile c with Some p => file p | None => None end in
      let* r := mog_cfg_load resolve c f (match f with Some t => t | None => [] end) in
      if r.1 =? 0 then Ok (all ++ [r.2]) else Crash Died
  end.

Definition parse_opt (o : opt) (s : setup_st) : res setup_st :=
  let c := mog_cli s in
  match o with
  | OptDaemonize => Ok (set_cli (set_daemonize true c) s)
  | OptSkipconfig => Ok s
  | OptDocroot arg => Ok (set_cli (set_docroot (Some arg) c) s)
  | OptPidfile arg => Ok (set_cli (set_pidfile (Some arg) c) s)
  | OptConfigfile arg =>
      let* all := new_cfg_or_die arg (all_cfg s) in
      Ok (Setup c all (mog_cfg_multi s) (worker_processes s))
  | OptMaxconns arg => let* v := check_strtoul arg in Ok (set_cli (set_maxconns v c) s)
  | OptHttplisten arg => let* a := addr_or_die arg in Ok (set_cli (set_httplisten (Some a) c) s)
  | OptMgmtlisten arg => let* a := addr_or_die arg in Ok (set_cli (set_mgmtlisten (Some a) c) s)
  | OptServer arg =>
      let c := set_server (Some arg) c in
      let* _ := mog_cfg_check_server c in
      Ok (set_cli c s)
  | OptMulti => Ok (Setup c (all_cfg s) true (worker_processes s))
  | OptWorkers arg =>
      let* v := check_strtoul arg in
      if UINT_MAX <? v then Crash Died else Ok (Setup c (all_cfg s) (mog_cfg_multi s) v)
  end.

Fixpoint argp_parse (os : list opt) (s : setup_st) : res setup_st :=
  match os with
  | [] => Ok s
  | o :: os => let* s := parse_opt o s in argp_parse os s
  end.
End Options.

(** ** The limit of descriptors (maxconns.c) *)

Definition RLIM_INFINITY : Z := 2 ^ 64 - 1.
Definition MOG_FD_MAX : Z := INT_MAX - 1.

Record rlimit := Rlimit { rlim_cur : Z; rlim_max : Z }.

(** [(int) want < 0]. *)
Definition int_negative (want : Z) : bool := 2 ^ 31 <=? want mod 2 ^ 32.

(** The loop at the end: the limits that are asked for, until one is granted. *)
Fixpoint shrink (fuel : nat) (want maxconns_ : Z) (set : rlimit -> bool) : res (list rlimit) :=
  match fuel with
  | O => Crash OutOfFuel
  | S fuel' =>
      let want := wrap_u64 (want - 64) in
      if want <? maxconns_ then Ok []
      else
        let r := Rlimit want want in
        if set r then Ok [r] else let* rs := shrink fuel' want maxconns_ set in Ok (r :: rs)
  end.

(** The limits that [setrlimit] is asked for, which answers with [set]. *)
Definition mog_set_maxconns (fuel : nat) (mc : Z) (r : rlimit) (set : rlimit -> bool) : res (list rlimit) :=
  let mc := if mc =? 0 then MOG_DEFAULT_MAXCONNS else mc in
  let want := if int_negative mc || (MOG_FD_MAX <? mc) then MOG_FD_MAX else mc in
  if want <=? rlim_cur r then Ok []
  else
    let r := if (rlim_max r =? RLIM_INFINITY) || (rlim_cur r =? RLIM_INFINITY) then Rlimit want want
             else if rlim_max r =? 0 then Rlimit want want
             else if rlim_max r <? want then Rlimit (rlim_max r) (rlim_max r)
             else Rlimit want want in
    if set r then Ok [r]
    else let* rs := shrink fuel want mc set in Ok (r :: rs).

(** ** What validation promises *)

Section Validated.
Variable resolve : option (list Z) -> list Z -> option sockaddr.
Variable canonicalize : list Z -> canon_mode -> option (list Z).

(** An address that a parser of addresses made. *)
Definition from_text (a : option mog_addrinfo) : Prop :=
  match a with
  | None => True
  | Some a => exists text node port, listen_spec text = Some (node, port) /\ resolved resolve node port = Some a
  end.

Definition or_else {A} (x y : option A) : option A := match x with Some _ => x | None => y end.

(** The command line first, then the file. *)
Definition merged (ent cli : mog_cfg) : mog_cfg :=
  MogCfg (docroot cli) (daemonize cli || daemonize ent) (wrap_u64 (maxconns cli + maxconns ent))
    (or_else (pidfile cli) (pidfile ent)) (configfile cli) (config cli) (server cli)
    (or_else (httplisten cli) (httplisten ent)) (or_else (mgmtlisten cli) (mgmtlisten ent))
    (or_else (httpgetlisten cli) (httpgetlisten ent)).

Definition with_defaults (cli : mog_cfg) : mog_cfg :=
  let none := is_null (httplisten cli) && is_null (httpgetlisten cli) && is_null (mgmtlisten cli) in
  MogCfg (or_else (docroot cli) (Some MOG_DEFAULT_DOCROOT)) (daemonize cli) (maxconns cli) (pidfile cli)
    (configfile cli) (config cli) (server cli)
    (if none then resolved resolve (Some (str "0.0.0.0")) (str "7500") else httplisten cli)
    (if none then resolved resolve (Some (str "0.0.0.0")) (str "7501") else mgmtlisten cli)
    (httpgetlisten cli).

(** A configuration a service can be started from. *)
Definition complete (c : mog_cfg) : Prop :=
  docroot c <> None /\ (httplisten c <> None \/ mgmtlisten c <> None \/ httpgetlisten c <> None).

(** The entries of PATH. *)
Fixpoint entries (cur p : list Z) : list (list Z) :=
  match p with
  | [] => [cur]
  | c :: p' => if c =? 58 then cur :: entries [] p' else entries (cur ++ [c]) p'
  end.
Definition absolute (e : list Z) : Prop := exists r, e = 47 :: r.

(** ** Lemmas *)

Lemma entries_cur (cur p : list Z) :
  entries cur p = match after_colon p with
                  | None => [cur ++ p]
                  | Some p' => (cur ++ take (length p - length p' - 1) p) :: entries [] p'
                  end.
Proof.
  revert cur. induction p as [|c p IH]; intros cur; cbn [entries after_colon]; [by rewrite app_nil_r|].
  destruct (c =? 58).
  - f_equal. replace (length (c :: p) - length p - 1)%nat with 0%nat by (cbn; lia). by rewrite app_nil_r.
  - rewrite IH. destruct (after_colon p) as [p'|] eqn:E; [|by rewrite <- app_assoc].
    assert (length p' < length p)%nat as Hlt.
    { clear -E. revert E. induction p as [|c p IH]; [done|]. cbn [after_colon]. destruct (c =? 58); [intros [= ->]; cbn; lia|].
      intros E. specialize (IH E). cbn. lia. }
    f_equal. replace (length (c :: p) - length p' - 1)%nat with (S (length p - length p' - 1)) by (cbn; lia).
    by rewrite <- app_assoc.
Qed.

Lemma after_colon_shorter (p p' : list Z) : after_colon p = Some p' -> (length p' < length p)%nat.
Proof.
  revert p'. induction p as [|c p IH]; [done|]. intros p'. cbn [after_colon]. destruct (c =? 58); [intros [= ->]; cbn; lia|].
  intros E. specialize (IH _ E). cbn. lia.
Qed.

Lemma after_colon_last (p p' : list Z) : after_colon p = Some p' -> p' = [] -> last p = Some 58.
Proof.
  intros E ->. induction p as [|c p IH]; [done|]. cbn [after_colon] in E. destruct (Z.eqb_spec c 58) as [->|].
  - by injection E as ->.
  - specialize (IH E). by destruct p.
Qed.

Lemma after_colon_last_eq (p p' : list Z) : after_colon p = Some p' -> p' <> [] -> last p' = last p.
Proof.
  revert p'. induction p as [|c p IH]; [done|]. intros p' E Hne. cbn [after_colon] in E. destruct (c =? 58).
  - injection E as ->. by destruct p'.
  - rewrite (IH _ E Hne). destruct p; [done|done].
Qed.

(** The loop over PATH ends, and finds a relative entry if there is one. *)
Lemma path_relative_ok (fuel : nat) (p : list Z) :
  (length p < fuel)%nat -> p <> [] -> last p <> Some 58 ->
  exists b, path_relative fuel p = Ok b /\ (b = false <-> Forall absolute (entries [] p)).
Proof.
  revert p. induction fuel as [|fuel IH]; intros p Hf Hne Hl; [lia|]. cbn [path_relative].
  destruct p as [|c p]; [done|]. rewrite entries_cur. destruct (Z.eqb_spec c 47) as [->|Hc].
  - destruct (after_colon (47 :: p)) as [p'|] eqn:E.
    + pose proof (after_colon_shorter _ _ E) as Hlt.
      assert (p' <> []) as Hne' by (intros ->; by apply Hl, (after_colon_last _ _ E)).
      destruct (IH p') as (b & Hb & Hiff); [lia|done|by rewrite (after_colon_last_eq _ _ E Hne')|].
      exists b. split; [done|]. rewrite Hiff, Forall_cons_iff.
      assert (absolute ([] ++ take (length (47 :: p) - length p' - 1) (47 :: p))) as Ha; [|tauto].
      cbn [app]. match goal with |- context [take ?n _] => destruct n as [|n'] eqn:El end; [|by eexists].
      cbn [after_colon] in E. change (47 =? 58) with false in E. cbv iota in E.
      pose proof (after_colon_shorter _ _ E). cbn in El. lia.
    + exists false. split; [done|]. rewrite Forall_cons_iff. cbn [app]. split; [|done]. intros _. split; [by eexists|constructor].
  - exists true. split; [done|]. split; [done|]. intros H. exfalso.
    cbn [after_colon] in H. destruct (Z.eqb_spec c 58) as [->|].
    + apply Forall_cons_1 in H as [[r Hr] _]. cbn [app] in Hr.
      match type of Hr with context [take ?n _] => replace n with 0%nat in Hr by (cbn; lia) end. done.
    + destruct (after_colon p) as [p'|] eqn:E; apply Forall_cons_1 in H as [[r Hr] _]; cbn [app] in Hr.
      * pose proof (after_colon_shorter _ _ E). match type of Hr with context [take ?n _] => destruct n as [|n'] eqn:El end; [done|]. injection Hr as -> _. done.
      * injection Hr as -> _. done.
Qed.

Hypothesis any_address : forall port, resolve None port = resolve (Some (str "0.0.0.0")) port.

Lemma digits_nonzero (d : list Z) : Forall (fun c => is_digit c = true) d -> Forall (fun c => c <> 0) d.
Proof. apply Forall_impl. intros c Hc. unfold is_digit in Hc. rewrite rng_true in Hc. lia. Qed.

Lemma port_spec_eq (node node' : option (list Z)) (s port : list Z) :
  port_spec node s = Some (node', port) -> node' = node /\ port = s /\ forall n, port_spec n s = Some (n, s).
Proof.
  unfold port_spec. destruct (span_spec s) as (Es & _). destruct (span s) as [[|d0 d] [|x r]]; try done.
  cbn [fst snd] in Es. rewrite app_nil_r in Es. intros [= <- <-]. subst s. done.
Qed.

Lemma dots_node (k : nat) (acc s : list Z) (node : option (list Z)) (port : list Z) :
  dots k acc s = Some (node, port) -> node <> None.
Proof.
  revert acc s. induction k as [|k IH]; intros acc s H; cbn [dots] in H; repeat case_match; try done; eauto.
  by apply port_spec_eq in H as (-> & _).
Qed.

(** With a node the text is the node, a colon and the port; without, the port
    is digits. *)
Lemma listen_spec_text (text : list Z) (node : option (list Z)) (port : list Z) :
  listen_spec text = Some (node, port) ->
  match node with Some n => text = n ++ 58 :: port | None => forall n, port_spec n port = Some (n, port) end.
Proof.
  intros H. pose proof (erun_spec 0 (LSt (X := unit) [] None 0 None 0 tt) text) as Hs. rewrite H in Hs.
  destruct Hs as (i & s' & _ & _ & _ & Hn). destruct node as [n|]; [tauto|].
  unfold listen_spec in H. destruct text as [|c t]; [done|]. destruct (c =? 58).
  - apply port_spec_eq in H as (_ & -> & Hp). done.
  - destruct (span_spec (c :: t)) as (Et & Hd & _). destruct (span (c :: t)) as [[|d0 d] r]; [done|]. cbn [fst snd] in *.
    destruct r as [|x r].
    + injection H as <-. intros n. unfold port_spec. pose proof (span_app (d0 :: d) [] Hd I) as E. rewrite app_nil_r in E. by rewrite E.
    + exfalso. repeat case_match; try done. by apply dots_node in H.
Qed.

Lemma listen_spec_nonzero (text : list Z) : is_Some (listen_spec text) -> Forall (fun c => c <> 0) text.
Proof.
  intros [[node port] H]. pose proof (erun_spec 0 (LSt (X := unit) [] None 0 None 0 tt) text) as Hs. rewrite H in Hs.
  destruct Hs as (i & s' & _ & He & _). by eapply erun_nonzero.
Qed.

(** Parsing the text that was kept of an address gives the address. *)
Lemma orig_roundtrip (a : mog_addrinfo) : from_text (Some a) -> ListenParser.mog_listen_parse resolve (orig a) = Ok (Some a).
Proof.
  intros (text & node & port & Hs & Hr). pose proof (listen_spec_text _ _ _ Hs) as Ht.
  assert (exists n, listen_spec (orig a) = Some (Some n, port) /\ resolved resolve (Some n) port = Some a) as (n & Ho & Hn).
  { destruct node as [n|].
    - exists n. split; [|done]. unfold resolved in Hr. destruct (resolve _ _); [|done]. injection Hr as <-. cbn [orig].
      change (n ++ [58] ++ port) with (n ++ 58 :: port). by rewrite <- Ht.
    - exists (str "0.0.0.0"). unfold resolved in *. rewrite <- any_address. destruct (resolve None port); [|done].
      injection Hr as <-. split; [|done]. cbn [orig]. exact (Ht (Some (str "0.0.0.0"))). }
  rewrite listen_parse_eq by (apply listen_spec_nonzero; by eexists). by rewrite Ho, Hn.
Qed.

Lemma merge_addr_ok (dst src : option mog_addrinfo) : from_text src -> merge_addr resolve dst src = Ok (or_else dst src).
Proof. intros H. destruct dst, src as [a|]; try done. by apply orig_roundtrip. Qed.

Definition listeners_ok (c : mog_cfg) : Prop := from_text (httplisten c) /\ from_text (mgmtlisten c) /\ from_text (httpgetlisten c).

Lemma merge_common_ok (ent cli cli' : mog_cfg) :
  listeners_ok ent -> validate_merge_common resolve canonicalize ent cli = Ok cli' -> cli' = merged ent cli.
Proof.
  intros (H1 & H2 & H3). unfold validate_merge_common. rewrite !merge_addr_ok by done. cbn [res_bind].
  destruct (both_eql _ _ _ _); [|done]. cbn [res_bind]. intros [= <-]. unfold merged. cbn. f_equal.
  by destruct (pidfile cli), (pidfile ent).
Qed.

Lemma merge_defaults_ok (cli : mog_cfg) : mog_cfg_merge_defaults resolve cli = Ok (with_defaults cli).
Proof.
  unfold mog_cfg_merge_defaults, with_defaults. rewrite !listen_parse_eq by (repeat constructor; done).
  destruct cli as [[d|] ? ? ? ? ? ? [h|] [m|] [g|]]; reflexivity.
Qed.

Definition absolute_paths (c : mog_cfg) : Prop :=
  relative (config c) = false /\ relative (pidfile c) = false /\ relative (docroot c) = false.

Lemma validate_daemon_count (e : mog_cfg) (n : Z) :
  0 <= n -> n <= mog_cfg_validate_daemon e n /\ (mog_cfg_validate_daemon e n = 0 -> n = 0 /\ absolute_paths e).
Proof.
  intros Hn. unfold mog_cfg_validate_daemon, absolute_paths.
  destruct (relative (config e)), (relative (pidfile e)), (relative (docroot e)); split; try lia; intros; (split; [lia|done]).
Qed.

Lemma daemon_count_all (all : list mog_cfg) (n : Z) :
  0 <= n -> n <= fold_left (fun n e => mog_cfg_validate_daemon e n) all n /\
  (fold_left (fun n e => mog_cfg_validate_daemon e n) all n = 0 -> n = 0 /\ Forall absolute_paths all).
Proof.
  revert n. induction all as [|e all IH]; intros n Hn; cbn [fold_left]; [split; [lia|]; intros; split; [lia|constructor]|].
  destruct (validate_daemon_count e n Hn) as [Hle H0]. destruct (IH (mog_cfg_validate_daemon e n) ltac:(lia)) as [Hle2 H2].
  split; [lia|]. intros H. destruct (H2 H) as [He Hall]. destruct (H0 He). split; [done|by constructor].
Qed.

Lemma validate_daemonize_ok (all : list mog_cfg) (cli : mog_cfg) (PATH : option (list Z)) :
  validate_daemonize all cli PATH = Ok tt ->
  Forall absolute_paths (cli :: all) /\ exists p, PATH = Some p /\ Forall absolute (entries [] p).
Proof.
  unfold validate_daemonize. destruct PATH as [p|]; [|done]. destruct (last p) as [c|] eqn:El; [|done].
  destruct (daemon_count_all all 0 ltac:(lia)) as [Hge Hall].
  set (n := fold_left (fun n e => mog_cfg_validate_daemon e n) all 0) in *.
  set (n' := if n =? 0 then mog_cfg_validate_daemon cli n else n).
  assert (0 <= n' /\ (n' = 0 -> n = 0 /\ absolute_paths cli)) as [Hge' Hn'].
  { destruct (validate_daemon_count cli n Hge). unfold n'. destruct (Z.eqb_spec n 0); [split; [lia|done]|split; [lia|done]]. }
  destruct (Z.eqb_spec c 58) as [->|Hc].
  { cbn [res_bind]. destruct (Z.eqb_spec (n' + 1) 0); [lia|done]. }
  destruct (path_relative_ok (S (length p)) p) as (b & -> & Hb); [lia|by destruct p|congruence|]. cbn [res_bind].
  destruct b; [destruct (Z.eqb_spec (n' + 1) 0); [lia|done]|]. destruct (Z.eqb_spec n' 0) as [E|]; [|done]. intros _.
  destruct (Hn' E) as [E0 Hcli]. destruct (Hall E0). split; [by constructor|]. exists p. split; [done|by apply Hb].
Qed.

Lemma for_each_multi (all : list mog_cfg) (cli cli' : mog_cfg) :
  Forall listeners_ok all -> for_each (mog_cfg_validate_multi resolve canonicalize) all cli = Ok cli' ->
  Forall complete all /\ cli' = fold_left (fun c e => merged e c) all cli.
Proof.
  intros Hl. revert cli. induction Hl as [|e all He _ IH]; intros cli H; [by injection H as <-|]. cbn [for_each] in H.
  destruct (mog_cfg_validate_multi _ _ e cli) as [c|] eqn:E; [|done]. cbn [res_bind] in H.
  unfold mog_cfg_validate_multi in E. destruct (is_null (configfile e)); [done|].
  destruct (is_null (httplisten e) && is_null (mgmtlisten e) && is_null (httpgetlisten e)) eqn:En; [done|].
  destruct (is_null (docroot e)) eqn:Ed; [done|]. apply merge_common_ok in E as ->; [|done].
  destruct (IH _ H) as [Hc ->]. split; [|done]. constructor; [|done]. split; [by destruct (docroot e)|].
  destruct (httplisten e), (mgmtlisten e), (httpgetlisten e); cbn in En; try done; naive_solver.
Qed.

(** ** Services *)

Variable umask : Z.
Variable opendir : list Z -> bool.
Variable mog_bind_listen : sockaddr -> Z.
Abbreviation svc_from := (svc_from_cfg canonicalize umask opendir mog_bind_listen).

Lemma svc_from_ok (c : mog_cfg) (svcs : list mog_svc) :
  docroot c <> None -> NoDup (map svc_docroot svcs) ->
  match svc_from c svcs with
  | Ok svcs' => NoDup (map svc_docroot svcs') /\ length svcs' = S (length svcs)
  | Crash w => w = Died
  end.
Proof.
  intros Hd Hnd. unfold svc_from_cfg. destruct (docroot c) as [d|]; [|done]. cbn [is_null negb assert_].
  unfold mog_svc_new, mog_canonpath_die. destruct (canonicalize d CAN_EXISTING) as [root|]; [|done]. cbn [res_bind].
  destruct (negb (opendir root)); [done|]. destruct (existsb _ svcs) eqn:E; [done|]. cbn [res_bind].
  assert (root ∉ map svc_docroot svcs) as Hni.
  { intros Hin. apply list_elem_of_In, in_map_iff in Hin as (s & Hs & Hin).
    assert (existsb (fun s => bool_decide (svc_docroot s = root)) svcs = true); [|congruence].
    apply existsb_exists. exists s. split; [done|]. by apply bool_decide_true. }
  assert (forall m h g svc, svc_docroot svc = root -> NoDup (map svc_docroot (svcs ++ [set_fds m h g svc])) /\
    length (svcs ++ [set_fds m h g svc]) = S (length svcs)) as Hok.
  { intros m h g svc Hs. rewrite map_app, length_app. cbn. split; [|lia]. apply list.NoDup_app. split; [done|].
    split; [|apply NoDup_singleton]. intros x Hx ->%list_elem_of_singleton. by rewrite Hs in Hx. }
  assert (forall a, match bind_or_die mog_bind_listen a with Ok _ => True | Crash w => w = Died end) as Hb.
  { intros [a|]; cbn; [|done]. by destruct (0 <=? _). }
  pose proof (Hb (mgmtlisten c)). destruct (bind_or_die _ (mgmtlisten c)); [|done]. cbn [res_bind].
  destruct (bool_decide _); [by apply Hok|].
  pose proof (Hb (httplisten c)). destruct (bind_or_die _ (httplisten c)); [|done]. cbn [res_bind].
  pose proof (Hb (httpgetlisten c)). destruct (bind_or_die _ (httpgetlisten c)); [|done]. cbn [res_bind]. by apply Hok.
Qed.

Lemma svcs_from_ok (all : list mog_cfg) (svcs : list mog_svc) :
  Forall complete all -> NoDup (map svc_docroot svcs) ->
  match svcs_from_cfgs canonicalize umask opendir mog_bind_listen all svcs with
  | Ok svcs' => NoDup (map svc_docroot svcs') /\ length svcs' = (length svcs + length all)%nat
  | Crash w => w = Died
  end.
Proof.
  intros Hc. revert svcs. induction Hc as [|c all [Hd _] _ IH]; intros svcs Hnd; cbn [svcs_from_cfgs length]; [split; [done|lia]|].
  pose proof (svc_from_ok c svcs Hd Hnd) as Hs. destruct (svc_from c svcs) as [svcs1|]; [|done]. cbn [res_bind].
  destruct Hs as [Hnd1 Hl]. specialize (IH svcs1 Hnd1). destruct (svcs_from_cfgs _ _ _ _ all svcs1); [|done].
  destruct IH. split; [done|lia].
Qed.

(** The configuration that is left, case by case. *)
Lemma validate_cases (multi : bool) (PATH : option (list Z)) (all : list mog_cfg) (cli cli' : mog_cfg) :
  Forall listeners_ok all -> mog_cfg_validate_or_die resolve canonicalize multi PATH all cli = Ok cli' ->
  match all with
  | [] => cli' = with_defaults cli
  | [ent] => cli' = with_defaults (merged ent (set_docroot (or_else (docroot cli) (docroot ent)) cli))
  | _ => multi = true /\ docroot cli = None /\ Forall complete all /\ cli' = fold_left (fun c e => merged e c) all cli
  end /\
  (daemonize cli' = true -> Forall absolute_paths (cli' :: all) /\ exists p, PATH = Some p /\ Forall absolute (entries [] p)).
Proof.
  intros Hl. unfold mog_cfg_validate_or_die.
  match goal with |- res_bind ?m _ = _ -> _ => destruct m as [c|] eqn:E; [|done] end. cbn [res_bind].
  destruct (if daemonize c then _ else _) as [[]|] eqn:Ed; [|done]. cbn [res_bind]. intros [= <-]. split.
  - destruct all as [|e [|e2 all]].
    + rewrite merge_defaults_ok in E. cbn [res_bind] in E. unfold assert_ in E. destruct (is_null _); [|done]. by injection E as <-.
    + cbn [for_each] in E. destruct (mog_cfg_validate_one _ _ e cli) as [c1|] eqn:E1; [|done]. cbn [res_bind] in E.
      rewrite merge_defaults_ok in E. injection E as <-. f_equal.
      unfold mog_cfg_validate_one in E1. destruct (both_eql _ _ _ _); [|done]. cbn [res_bind] in E1.
      apply merge_common_ok in E1; [|by apply Forall_cons_1 in Hl as [? _]]. rewrite E1. f_equal.
      by destruct (docroot cli), (docroot e).
    + destruct (mog_cfg_die_if_cli_set cli) eqn:Edie; [|done]. cbn [res_bind] in E.
      unfold mog_cfg_die_if_cli_set in Edie. destruct (for_each _ _ cli) as [c1|] eqn:Ef; [|done]. cbn [res_bind] in E.
      destruct multi; [|done]. injection E as <-. apply for_each_multi in Ef as [Hc ->]; [|done].
      split_and!; try done. by destruct (docroot cli).
  - intros Hd. rewrite Hd in Ed. by apply validate_daemonize_ok.
Qed.

(** C22.  Whatever validation lets through can be run: options and files are
    merged with the command line first, the file second and the defaults last,
    addresses unchanged; several files are accepted with --multi only, each
    with a docroot and a listener; a daemon has absolute paths only, in its
    configuration and in PATH; and starting the services from the result fails
    no assertion and gives one service per configuration, no two with the same
    docroot. *)
Theorem cfg_validated (multi : bool) (PATH : option (list Z)) (all : list mog_cfg) (cli cli' : mog_cfg) :
  Forall listeners_ok all -> mog_cfg_validate_or_die resolve canonicalize multi PATH all cli = Ok cli' ->
  match all with
  | [] => cli' = with_defaults cli
  | [ent] => cli' = with_defaults (merged ent (set_docroot (or_else (docroot cli) (docroot ent)) cli))
  | _ => multi = true /\ Forall complete all /\ cli' = fold_left (fun c e => merged e c) all cli
  end /\
  (daemonize cli' = true -> Forall absolute_paths (cli' :: all) /\ exists p, PATH = Some p /\ Forall absolute (entries [] p)) /\
  match mog_cfg_svc_start_or_die canonicalize umask opendir mog_bind_listen all cli' with
  | Ok svcs => NoDup (map svc_docroot svcs) /\ length svcs = Nat.max 1 (length all)
  | Crash w => w = Died
  end.
Proof.
  intros Hl H. destruct (validate_cases _ _ _ _ _ Hl H) as [Hm Hd].
  assert (forall c, docroot (with_defaults c) <> None) as Hdef by (intros c; cbn; by destruct (docroot c)).
  unfold mog_cfg_svc_start_or_die. destruct all as [|e [|e2 all]].
  - split; [done|]. split; [done|]. subst cli'. apply (svc_from_ok _ [] (Hdef _)). constructor.
  - split; [done|]. split; [done|]. subst cli'. apply (svc_from_ok _ [] (Hdef _)). constructor.
  - destruct Hm as (Hmu & _ & Hc & He). split; [done|]. split; [done|].
    exact (svcs_from_ok _ [] Hc ltac:(constructor)).
Qed.
End Validated.

(** A daemon with one configuration file. *)
Definition sample_ent : mog_cfg :=
  set_docroot (Some (str "/data")) (set_httplisten (Some (MogAddrinfo (str "a") (str "10.0.0.1:80"))) (set_daemonize true cfg0)).
Definition one_address (node : option (list Z)) (port : list Z) : option sockaddr := Some (str "a").

Lemma cfg_validated_witness :
  exists cli', mog_cfg_validate_or_die one_address (fun p _ => Some p) false (Some (str "/bin:/usr/bin")) [sample_ent] cfg0 = Ok cli' /\
  cli' = with_defaults one_address (merged sample_ent (set_docroot (or_else (docroot cfg0) (docroot sample_ent)) cfg0)) /\
  (daemonize cli' = true -> Forall absolute_paths (cli' :: [sample_ent]) /\ exists p, Some (str "/bin:/usr/bin") = Some p /\ Forall absolute (entries [] p)) /\
  match mog_cfg_svc_start_or_die (fun p _ => Some p) 18 (fun _ => true) (fun _ => 3) [sample_ent] cli' with
  | Ok svcs => NoDup (map svc_docroot svcs) /\ length svcs = Nat.max 1 (length [sample_ent])
  | Crash w => w = Died
  end.
Proof.
  eexists. split; [vm_compute; reflexivity|].
  apply (cfg_validated one_address (fun p _ => Some p) ltac:(done) 18 (fun _ => true) (fun _ => 3) false (Some (str "/bin:/usr/bin")) [sample_ent] cfg0).
  - repeat constructor; try done. exists (str "10.0.0.1:80"), (Some (str "10.0.0.1")), (str "80"). done.
  - vm_compute. reflexivity.
Defined.

(** ** The limit of descriptors *)

(** From 64 connections on, one request is made at most, for no more than
    [MOG_FD_MAX] and not above the hard limit it names; the loop that is meant
    to try smaller limits never runs. *)
Theorem maxconns_once (mc : Z) (r : rlimit) (set : rlimit -> bool) (fuel : nat) :
  mc = 0 \/ 64 <= mc < 2 ^ 64 -> 0 <= rlim_cur r < 2 ^ 64 -> 0 <= rlim_max r < 2 ^ 64 ->
  exists rs, mog_set_maxconns (S fuel) mc r set = Ok rs /\ (length rs <= 1)%nat /\
    Forall (fun q => rlim_cur q <= MOG_FD_MAX /\ rlim_cur q <= rlim_max q) rs.
Proof.
  intros Hmc Hc Hm. unfold mog_set_maxconns. set (m := if mc =? 0 then MOG_DEFAULT_MAXCONNS else mc).
  assert (64 <= m < 2 ^ 64) as Hm64.
  { unfold m, MOG_DEFAULT_MAXCONNS. destruct (Z.eqb_spec mc 0); lia. }
  set (want := if int_negative m || (MOG_FD_MAX <? m) then MOG_FD_MAX else m).
  assert (want <= MOG_FD_MAX /\ want <= m /\ 64 <= want) as (Hw1 & Hw2 & Hw3).
  { unfold want, MOG_FD_MAX, INT_MAX. destruct (Z.ltb_spec (2 ^ 31 - 1 - 1) m); [rewrite orb_true_r; lia|].
    unfold int_negative. rewrite Z.mod_small by lia. destruct (Z.leb_spec (2 ^ 31) m); cbn [orb]; lia. }
  destruct (want <=? rlim_cur r); [by exists []; repeat constructor|].
  match goal with |- context [if set ?x then _ else _] => set (q := x) end.
  assert (rlim_cur q <= MOG_FD_MAX /\ rlim_cur q <= rlim_max q) as Hq.
  { unfold q. repeat case_match; cbn; lia. }
  assert (exists rs, Ok [q] = Ok rs /\ (length rs <= 1)%nat /\
    Forall (fun q => rlim_cur q <= MOG_FD_MAX /\ rlim_cur q <= rlim_max q) rs) as Hone.
  { exists [q]. split; [done|]. split; [cbn; lia|]. by constructor. }
  destruct (set q); [done|].
  cbn [shrink]. rewrite wrap_u64_id by lia. destruct (Z.ltb_spec (want - 64) m); [|lia]. done.
Qed.

(** Below 64 the subtraction wraps: when the limit cannot be raised to 50, the
    first smaller limit that is tried is [2 ^ 64 - 14]. *)
Theorem maxconns_wraps :
  mog_set_maxconns 2 50 (Rlimit 20 30) (fun q => 100 <? rlim_cur q) =
  Ok [Rlimit 30 30; Rlimit (2 ^ 64 - 14) (2 ^ 64 - 14)].
Proof. vm_compute. reflexivity. Qed.
