(* ===== verification/Master.v ===== *)
(** The processes of the server: the table of children (process.c), and the
    master that keeps its workers running, upgrades and shuts down
    (cmogstored.c).  What an upgrade does to the pid file
    ([mog_pidfile_upgrade_prepare], [mog_pidfile_upgrade_abort]) is in PidFile.v;
    here the server has none. *)
From S2P Require Import Prelude Fmt.
From stdpp Require Import base list numbers gmap fin_maps fin_map_dom relations.
From Stdlib Require Import ZArith Lia.

#[local] Open Scope Z_scope.

Definition MOG_PROC_UNKNOWN : Z := UINT_MAX.
Definition MOG_PROC_IOSTAT : Z := UINT_MAX - 1.
Definition MOG_PROC_UPGRADE : Z := UINT_MAX - 2.

(** ** The table (process.c): ids by process id *)

Abbreviation processes := (gmap Z Z).

Definition mog_process_is_worker (id : Z) : bool :=
  negb ((id =? MOG_PROC_UNKNOWN) || (id =? MOG_PROC_IOSTAT) || (id =? MOG_PROC_UPGRADE)).

Definition mog_process_name (id : Z) : res (list Z) :=
  if mog_process_is_worker id then Ok (str "worker[" ++ fmt_u id ++ str "]")
  else if id =? MOG_PROC_UNKNOWN then Ok (str "unknown")
  else if id =? MOG_PROC_IOSTAT then Ok (str "iostat")
  else if id =? MOG_PROC_UPGRADE then Ok (str "upgrade")
  else Crash AssertFailed.

(** [hash_insert] keeps an entry that is there already. *)
Definition mog_process_register (pid id : Z) (t : processes) : res processes :=
  assert! negb (id =? MOG_PROC_UNKNOWN);
  Ok (match t !! pid with Some _ => t | None => <[pid := id]> t end).

Definition mog_process_reaped (pid : Z) (t : processes) : Z * processes :=
  match t !! pid with
  | Some id => (id, delete pid t)
  | None => (MOG_PROC_UNKNOWN, t)
  end.

Definition mog_process_reset (t : processes) : processes := ∅.

(** The workers that are signalled; [kill] may fail, which is counted too. *)
Fixpoint kill_each (ps : list (Z * Z)) (count : Z) : res Z :=
  match ps with
  | [] => Ok count
  | (_, id) :: ps =>
      assert! negb (id =? MOG_PROC_UNKNOWN);
      kill_each ps (if mog_process_is_worker id then wrap_u32 (count + 1) else count)
  end.

Definition mog_kill_each_worker (t : processes) : res Z := kill_each (map_to_list t) 0.

(** ** The master (cmogstored.c) *)

Record master := Master {
  procs : processes;
  do_exit : bool;
  do_upgrade : bool;
  sigchld_hit : bool;
  upgrade_pid : Z;
  running : Z;
  iostat_running : bool
}.

Definition set_procs v (m : master) := Master v (do_exit m) (do_upgrade m) (sigchld_hit m) (upgrade_pid m) (running m) (iostat_running m).
Definition set_exit v (m : master) := Master (procs m) v (do_upgrade m) (sigchld_hit m) (upgrade_pid m) (running m) (iostat_running m).
Definition set_upgrade v (m : master) := Master (procs m) (do_exit m) v (sigchld_hit m) (upgrade_pid m) (running m) (iostat_running m).
Definition set_sigchld v (m : master) := Master (procs m) (do_exit m) (do_upgrade m) v (upgrade_pid m) (running m) (iostat_running m).
Definition set_upgrade_pid v (m : master) := Master (procs m) (do_exit m) (do_upgrade m) (sigchld_hit m) v (running m) (iostat_running m).
Definition set_running v (m : master) := Master (procs m) (do_exit m) (do_upgrade m) (sigchld_hit m) (upgrade_pid m) v (iostat_running m).
Definition set_iostat v (m : master) := Master (procs m) (do_exit m) (do_upgrade m) (sigchld_hit m) (upgrade_pid m) (running m) v.

Inductive signal := SIGCHLD | SIGUSR2 | SIGQUIT | SIGTERM | SIGINT | SIGOTHER.

(** [master_wakeup_handler], apart from the wake-up itself; that of a worker
    does the same. *)
Definition master_wakeup_handler (sig : signal) (m : master) : master :=
  match sig with
  | SIGCHLD => set_sigchld true m
  | SIGUSR2 => set_upgrade true m
  | SIGQUIT | SIGTERM | SIGINT => set_exit true m
  | SIGOTHER => m
  end.

(** What the system answers: [fork] in the parent, and [waitpid]. *)
Inductive wait_reply := WDied (pid : Z) | WNone | WErr (e : errno).
Abbreviation forks := (list (option Z)).

Section Master.
(** [worker_processes] of this process. *)
Variable worker_processes : Z.

(** [fork] gives a process id that is not in use, or fails. *)
Definition fork (t : processes) (fs : forks) : res (option Z * forks) :=
  match fs with
  | Some pid :: fs => if (0 <? pid) && bool_decide (t !! pid = None) then Ok (Some pid, fs) else Crash NoReply
  | None :: fs => Ok (None, fs)
  | [] => Crash NoReply
  end.

Definition fork_worker (id : Z) (m : master) (fs : forks) : res (master * forks) :=
  let* r := fork (procs m) fs in
  match r.1 with
  | Some pid => let* t := mog_process_register pid id (procs m) in Ok (set_procs t m, r.2)
  | None => Ok (m, r.2)
  end.

Definition worker_died (id : Z) (m : master) (fs : forks) : res (master * forks) :=
  if do_exit m then Ok (m, fs) else fork_worker id m fs.

(** [mog_iostat_respawn] with its [fork]; a failed [pipe2] leaves what a failed
    fork leaves. *)
Definition mog_iostat_respawn (m : master) (fs : forks) : res (bool * master * forks) :=
  let* r := fork (procs m) fs in
  match r.1 with
  | Some pid => let* t := mog_process_register pid MOG_PROC_IOSTAT (procs m) in Ok (true, set_procs t m, r.2)
  | None => Ok (false, m, r.2)
  end.

Definition iostat_died (m : master) (fs : forks) : res (master * forks) :=
  if do_exit m then Ok (m, fs)
  else let* '(ok, m, fs) := mog_iostat_respawn m fs in Ok (set_iostat ok m, fs).

Definition process_died (pid : Z) (m : master) (fs : forks) : res (master * forks) :=
  let '(id, t) := mog_process_reaped pid (procs m) in
  let m := set_procs t m in
  if mog_process_is_worker id then worker_died id m fs
  else if id =? MOG_PROC_IOSTAT then
    assert! worker_processes =? 0; iostat_died m fs
  else if id =? MOG_PROC_UPGRADE then
    assert! pid =? upgrade_pid m; Ok (set_upgrade_pid (-1) m, fs)
  else let* _ := mog_process_name id in Ok (m, fs).

(** [sigchld_handler]; a script that ends is a child that still runs. *)
Fixpoint reap (ws : list wait_reply) (m : master) (fs : forks) : res (master * forks) :=
  match ws with
  | WDied pid :: ws => let* '(m, fs) := process_died pid m fs in reap ws m fs
  | [] | WNone :: _ => Ok (m, fs)
  | WErr EINTR :: _ => Ok (set_sigchld true m, fs)
  | WErr ECHILD :: _ => Ok (m, fs)
  | WErr _ :: _ => Crash Died
  end.

Definition sigchld_handler (ws : list wait_reply) (m : master) (fs : forks) : res (master * forks) :=
  reap ws (set_sigchld false m) fs.

(** [upgrade_handler]; [mog_upgrade_spawn] forks, and its failures before the
    fork leave what a failed fork leaves.  Only the first process upgrades. *)
Definition upgrade_handler (first : bool) (m : master) (fs : forks) : res (master * forks) :=
  let m := set_upgrade false m in
  if 0 <? upgrade_pid m then Ok (m, fs)
  else if first then
    let* r := fork (procs m) fs in
    match r.1 with
    | Some pid =>
        let* t := mog_process_register pid MOG_PROC_UPGRADE (procs m) in
        Ok (set_upgrade_pid pid (set_procs t m), r.2)
    | None => Ok (set_upgrade_pid (-1) m, r.2)
    end
  else Ok (m, fs).

(** One turn of the loop in [run_master], after a wake-up. *)
Definition master_turn (ws : list wait_reply) (fs : forks) (m : master) : res master :=
  let* '(m, fs) := if sigchld_hit m then sigchld_handler ws m fs else Ok (m, fs) in
  let* '(m, fs) := if do_upgrade m then upgrade_handler true m fs else Ok (m, fs) in
  if do_exit m then let* n := mog_kill_each_worker (procs m) in Ok (set_running n m) else Ok m.

(** The start of [run_master]: workers [id], [id + 1], ... *)
Fixpoint fork_workers (n : nat) (id : Z) (m : master) (fs : forks) : res (master * forks) :=
  match n with
  | O => Ok (m, fs)
  | S n' => let* '(m, fs) := fork_worker id m fs in fork_workers n' (id + 1) m fs
  end.

Definition master0 : master := Master ∅ false false false 0 worker_processes false.

Definition run_master_start (fs : forks) : res master :=
  let* '(m, _) := fork_workers (Z.to_nat worker_processes) 0 master0 fs in Ok m.
End Master.

(** ** A worker's own loop *)

(** One turn of [main_worker_loop] after [mog_notify_wait]: the flags, whether
    the mounts are read again, and whether the process leaves the loop.  The
    process is the first one when no worker processes are configured. *)
Definition worker_turn (first have_mgmt : bool) (ws : list wait_reply) (fs : forks) (m : master) : res (master * bool * bool) :=
  let* '(m, fs) := if sigchld_hit m then sigchld_handler 0 ws m fs else Ok (m, fs) in
  let* '(m, fs) := if do_upgrade m then upgrade_handler first m fs else Ok (m, fs) in
  if do_exit m then Ok (m, false, true)
  else if have_mgmt then Ok (m, true, false)
  else if have_mgmt && negb (iostat_running m) && negb (do_exit m) then
    let* '(ok, m, _) := mog_iostat_respawn m fs in Ok (set_iostat ok m, false, false)
  else Ok (m, false, false).

(** ** What the master keeps *)

(** The ids of [full] have a process, unless the server is going down; every
    worker id has one process at most, and what else is registered is the
    upgrade that runs. *)
Record minv (n : Z) (full : Z -> Prop) (m : master) : Prop := {
  mi_worker : forall pid id, procs m !! pid = Some id -> mog_process_is_worker id = true -> 0 <= id < n;
  mi_uniq : forall pid pid' id, procs m !! pid = Some id -> procs m !! pid' = Some id ->
    mog_process_is_worker id = true -> pid = pid';
  mi_known : forall pid id, procs m !! pid = Some id ->
    mog_process_is_worker id = true \/ (id = MOG_PROC_UPGRADE /\ pid = upgrade_pid m /\ 0 < pid);
  mi_full : forall id, full id -> do_exit m = false -> exists pid, procs m !! pid = Some id
}.

(** The system's part: signals, and turns whose forks all succeed if [lossless]. *)
Inductive master_step (n : Z) (lossless : bool) : master -> master -> Prop :=
| ms_signal sig m : master_step n lossless m (master_wakeup_handler sig m)
| ms_turn ws fs m m' : (lossless = true -> Forall is_Some fs) ->
    master_turn n ws fs m = Ok m' -> master_step n lossless m m'.

Definition all_workers (n : Z) (lossless : bool) (id : Z) : Prop := lossless = true /\ 0 <= id < n.

Lemma worker_id_is_worker n id : n <= MOG_PROC_UPGRADE -> 0 <= id < n -> mog_process_is_worker id = true.
Proof.
  unfold mog_process_is_worker, MOG_PROC_UNKNOWN, MOG_PROC_IOSTAT, MOG_PROC_UPGRADE. intros.
  rewrite !(proj2 (Z.eqb_neq _ _)) by lia. done.
Qed.

Lemma worker_not_unknown id : mog_process_is_worker id = true -> id <> MOG_PROC_UNKNOWN.
Proof. intros H ->. vm_compute in H. done. Qed.

Lemma minv_weaken n (full full' : Z -> Prop) m : (forall id, full' id -> full id) -> minv n full m -> minv n full' m.
Proof. intros Hf [H1 H2 H3 H4]. split; eauto. Qed.

Lemma fork_ok t fs r fs' : fork t fs = Ok (r, fs') ->
  exists f, fs = f :: fs' /\ r = f /\ (forall pid, f = Some pid -> 0 < pid /\ t !! pid = None).
Proof.
  destruct fs as [|[pid|] fs]; simpl; [done| |].
  - case_match eqn:E; intros [= <- <-]. apply andb_true_iff in E as [E1 E2].
    apply bool_decide_eq_true in E2. eexists; split_and!; [done..|]. intros ? [= <-]. split; [lia|done].
  - intros [= <- <-]. eexists; split_and!; [done..|]. done.
Qed.

Lemma minv_register n full m pid id : minv n full m -> 0 <= id < n -> procs m !! pid = None ->
  mog_process_is_worker id = true ->
  (forall pid', procs m !! pid' <> Some id) ->
  minv n (fun i => full i \/ i = id) (set_procs (<[pid := id]> (procs m)) m).
Proof.
  intros [H1 H2 H3 H4] Hid Hp Hw Hno. split; simpl.
  - intros p i [[-> ->]|[Hne Hi]]%lookup_insert_Some; eauto.
  - intros p p' i [[<- <-]|[Hne Hi]]%lookup_insert_Some [[<- Hi2]|[Hne' Hi']]%lookup_insert_Some Hiw;
      subst; try done; [by destruct (Hno p')|by destruct (Hno p)|eauto].
  - intros p i [[<- <-]|[Hne Hi]]%lookup_insert_Some; [by left|eauto].
  - intros i [Hf| ->] Hd; [|exists pid; by rewrite lookup_insert_eq].
    destruct (H4 i Hf Hd) as [p Hp']. exists p. rewrite lookup_insert_ne; [done|congruence].
Qed.

(** The assertions hold, and so does [P] of what is returned. *)
Definition returns {A} (r : res A) (P : A -> Prop) : Prop :=
  match r with Ok a => P a | Crash w => w <> AssertFailed end.

Lemma returns_bind {A B} (r : res A) (k : A -> res B) (P : A -> Prop) (Q : B -> Prop) :
  returns r P -> (forall a, P a -> returns (k a) Q) -> returns (res_bind r k) Q.
Proof. destruct r; simpl; auto. Qed.

Lemma returns_impl {A} (r : res A) (P Q : A -> Prop) : returns r P -> (forall a, P a -> Q a) -> returns r Q.
Proof. destruct r; simpl; auto. Qed.

Section Keeps.
Context (n : Z) (lossless : bool) (Hn : n <= MOG_PROC_UPGRADE).

Abbreviation good_forks fs := (lossless = true -> Forall is_Some fs).

(** What a call that reaps or forks leaves: the invariant, and good forks. *)
Definition kept (full : Z -> Prop) (d : bool) (r : master * forks) : Prop :=
  minv n full r.1 /\ do_exit r.1 = d /\ good_forks r.2.

Lemma fork_returns t fs : good_forks fs ->
  returns (fork t fs) (fun r => good_forks r.2 /\ (lossless = true -> is_Some r.1) /\
    (forall pid, r.1 = Some pid -> 0 < pid /\ t !! pid = None)).
Proof.
  intros Hg. destruct (fork t fs) as [[r fs']|w] eqn:E; simpl.
  - apply fork_ok in E as (f & -> & -> & Hf). split_and!; [| |done];
      intros Hl; apply Hg, Forall_cons in Hl; tauto.
  - destruct fs as [|[pid|] fs]; simpl in E; repeat case_match; by simplify_eq.
Qed.

Lemma fork_worker_keeps full id m fs : minv n full m -> 0 <= id < n -> good_forks fs ->
  (forall pid, procs m !! pid <> Some id) ->
  returns (fork_worker id m fs) (kept (fun i => full i \/ (lossless = true /\ i = id)) (do_exit m)).
Proof.
  intros Hi Hid Hg Hno. pose proof (worker_id_is_worker n id Hn Hid) as Hw. unfold fork_worker.
  eapply returns_bind; [by apply fork_returns|]. intros [[pid|] fs'] (Hg' & Hs & Hf); simpl in *.
  - destruct (Hf pid eq_refl) as [Hp Hnone]. unfold mog_process_register, assert_. rewrite Hnone.
    rewrite (proj2 (Z.eqb_neq _ _)) by (by apply worker_not_unknown). simpl.
    split_and!; [|done..]. eapply minv_weaken; [|by apply minv_register]. simpl. tauto.
  - split_and!; [|done..]. eapply minv_weaken; [|exact Hi]. simpl.
    intros i [?|[Hl _]]; [done|]. by destruct (Hs Hl).
Qed.

(** A process that is reaped was the only one of its id. *)
Lemma minv_delete full m pid id : minv n full m -> procs m !! pid = Some id ->
  minv n (fun i => full i /\ i <> id) (set_procs (delete pid (procs m)) m) /\
  (mog_process_is_worker id = true -> forall p, delete pid (procs m) !! p <> Some id).
Proof.
  intros [H1 H2 H3 H4] Hp. split.
  - split; simpl.
    + intros p i [_ ?]%lookup_delete_Some; eauto.
    + intros p p' i [_ ?]%lookup_delete_Some [_ ?]%lookup_delete_Some; eauto.
    + intros p i [_ ?]%lookup_delete_Some; eauto.
    + intros i [Hf Hne] Hd. destruct (H4 i Hf Hd) as [p Hp']. exists p.
      rewrite lookup_delete_ne; [done|congruence].
  - intros Hw p [Hne Hp']%lookup_delete_Some. apply Hne. eauto.
Qed.

Lemma process_died_keeps pid m fs : minv n (all_workers n lossless) m -> good_forks fs ->
  returns (process_died n pid m fs) (kept (all_workers n lossless) (do_exit m)).
Proof.
  intros Hi Hg. unfold process_died, mog_process_reaped.
  destruct (procs m !! pid) as [id|] eqn:E.
  2:{ vm_compute (mog_process_is_worker _). vm_compute (_ =? _). simpl. by destruct m. }
  destruct (minv_delete _ _ _ _ Hi E) as [Hd Hno]. destruct (mi_known _ _ _ Hi _ _ E) as [Hw|(-> & Hp & Hpos)].
  - rewrite Hw. unfold worker_died. simpl. destruct (do_exit m) eqn:Ex; simpl.
    + split_and!; [|done..]. destruct Hd as [H1 H2 H3 H4]. split; auto. simpl. congruence.
    + eapply returns_impl; [eapply fork_worker_keeps; [exact Hd| |exact Hg|by apply Hno]|].
      * exact (mi_worker _ _ _ Hi _ _ E Hw).
      * simpl. rewrite Ex. intros r (Hr & ? & ?). split_and!; [|done..]. eapply minv_weaken; [|exact Hr].
        intros i [Hl Hi']. simpl. destruct (decide (i = id)); unfold all_workers; tauto.
  - change (mog_process_is_worker MOG_PROC_UPGRADE) with false.
    change (MOG_PROC_UPGRADE =? MOG_PROC_IOSTAT) with false. rewrite Z.eqb_refl. simpl. subst pid. unfold assert_.
    rewrite Z.eqb_refl. split_and!; [|done..].
    destruct Hd as [H1 H2 H3 H4]. destruct Hi as [_ _ K3 K4]. split; simpl in *; eauto.
    + intros p i [Hne Hp']%lookup_delete_Some. destruct (K3 _ _ Hp') as [?|(_ & -> & _)]; [by left|done].
    + intros i [Hl Hi] Hx. apply H4; [|done]. split; [done|]. intros ->.
      destruct Hi. unfold MOG_PROC_UPGRADE in *. lia.
Qed.

Lemma reap_keeps ws : forall m fs, minv n (all_workers n lossless) m -> good_forks fs ->
  returns (reap n ws m fs) (kept (all_workers n lossless) (do_exit m)).
Proof.
  induction ws as [|[pid| |e] ws IH]; intros m fs Hi Hg; simpl; try done.
  - eapply returns_bind; [by apply process_died_keeps|]. intros [m' fs'] (Hi' & <- & Hg'); by apply IH.
  - destruct e; try done. split_and!; [|done..]. by destruct Hi.
Qed.

Lemma upgrade_keeps m fs : minv n (all_workers n lossless) m -> good_forks fs ->
  returns (upgrade_handler true m fs) (kept (all_workers n lossless) (do_exit m)).
Proof.
  intros [H1 H2 H3 H4] Hg. unfold upgrade_handler. simpl.
  case_match eqn:E; [by split_and!|]. apply Z.ltb_ge in E.
  assert (Hw : forall p i, procs m !! p = Some i -> mog_process_is_worker i = true).
  { intros p i Hp. destruct (H3 _ _ Hp) as [?|(_ & -> & ?)]; [done|lia]. }
  eapply returns_bind; [by apply fork_returns|]. intros [[pid|] fs'] (Hg' & _ & Hf); simpl in *.
  - destruct (Hf pid eq_refl) as [Hp Hnone]. unfold mog_process_register. rewrite Hnone.
    vm_compute (negb _). simpl. split_and!; [|done..]. split; simpl.
    + intros p i [[<- <-]|[_ ?]]%lookup_insert_Some Hx; [by vm_compute in Hx|eauto].
    + intros p p' i [[<- <-]|[_ ?]]%lookup_insert_Some [[<- Hx]|[_ ?]]%lookup_insert_Some Hiw;
        subst; try (by vm_compute in Hiw). eauto.
    + intros p i [[<- <-]|[_ ?]]%lookup_insert_Some; [by right|eauto].
    + intros i Hi Hd. destruct (H4 i Hi Hd) as [p Hp']. exists p. rewrite lookup_insert_ne; [done|congruence].
  - split_and!; [|done..]. split; simpl; eauto.
Qed.

Lemma kill_each_counts ps c : Forall (fun p : Z * Z => p.2 <> MOG_PROC_UNKNOWN) ps ->
  0 <= c -> c + zlen (filter (fun p : Z * Z => mog_process_is_worker p.2 = true) ps) <= UINT_MAX ->
  kill_each ps c = Ok (c + zlen (filter (fun p : Z * Z => mog_process_is_worker p.2 = true) ps)).
Proof.
  revert c. induction ps as [|[p i] ps IH]; intros c Hk Hc Hb; simpl.
  { f_equal. unfold zlen. simpl. lia. }
  apply Forall_cons in Hk as [Hi Hk]. simpl in *. rewrite (proj2 (Z.eqb_neq _ _)) by done. simpl.
  rewrite filter_cons in *. simpl in *. destruct (mog_process_is_worker i); simpl in *.
  - rewrite zlen_cons in *.
    pose proof (zlen_nonneg (filter (fun p : Z * Z => mog_process_is_worker p.2 = true) ps)).
    unfold wrap_u32. rewrite Z.mod_small by (unfold UINT_MAX in *; lia). rewrite IH; [f_equal; lia|done|lia|lia].
  - by apply IH.
Qed.

Lemma minv_known full m : minv n full m ->
  Forall (fun p : Z * Z => p.2 <> MOG_PROC_UNKNOWN) (map_to_list (procs m)).
Proof.
  intros Hi. apply Forall_forall. intros [p i] Hin%elem_of_map_to_list. simpl.
  destruct (mi_known _ _ _ Hi _ _ Hin) as [?|(-> & _)]; [by apply worker_not_unknown|done].
Qed.

(** There are at most as many workers as configured. *)
Lemma workers_bounded full m : minv n full m -> 0 <= n ->
  zlen (filter (fun p : Z * Z => mog_process_is_worker p.2 = true) (map_to_list (procs m))) <= n.
Proof.
  intros Hi Hn0. set (l := filter _ _).
  assert (Hl : forall p, p ∈ l -> procs m !! p.1 = Some p.2 /\ mog_process_is_worker p.2 = true).
  { intros [p i] [Hw Hin]%list_elem_of_filter. by rewrite <- elem_of_map_to_list. }
  assert (Hsub : snd <$> l ⊆+ seqZ 0 n).
  { apply NoDup_submseteq.
    - apply NoDup_fmap_2_strong; [|apply NoDup_filter, NoDup_map_to_list].
      intros [p i] [p' i'] [Hp Hw]%Hl [Hp' _]%Hl Heq. simpl in *. subst i'.
      f_equal. exact (mi_uniq _ _ _ Hi _ _ _ Hp Hp' Hw).
    - intros i ([p i'] & -> & [Hp Hw]%Hl)%list_elem_of_fmap. apply elem_of_seqZ.
      pose proof (mi_worker _ _ _ Hi _ _ Hp Hw). simpl in *. lia. }
  apply submseteq_length in Hsub. rewrite length_fmap, length_seqZ in Hsub. unfold zlen. lia.
Qed.

Lemma kill_workers full m : minv n full m -> 0 <= n ->
  mog_kill_each_worker (procs m) =
  Ok (zlen (filter (fun p : Z * Z => mog_process_is_worker p.2 = true) (map_to_list (procs m)))).
Proof.
  intros Hi Hn0. pose proof (workers_bounded _ _ Hi Hn0). unfold mog_kill_each_worker.
  rewrite kill_each_counts; [done|by eapply minv_known|done|]. unfold MOG_PROC_UPGRADE in Hn. lia.
Qed.

Lemma turn_keeps ws fs m : 0 <= n -> minv n (all_workers n lossless) m -> good_forks fs ->
  returns (master_turn n ws fs m) (fun m' => minv n (all_workers n lossless) m').
Proof.
  intros Hn0 Hi Hg. unfold master_turn.
  eapply returns_bind with (P := kept (all_workers n lossless) (do_exit m)).
  { destruct (sigchld_hit m); [|done]. unfold sigchld_handler.
    change (do_exit m) with (do_exit (set_sigchld false m)). apply reap_keeps; [|done]. by destruct Hi. }
  intros [m1 fs1] (Hi1 & _ & Hg1). simpl in *.
  eapply returns_bind with (P := kept (all_workers n lossless) (do_exit m1)).
  { destruct (do_upgrade m1); [|done]. by apply upgrade_keeps. }
  intros [m2 fs2] (Hi2 & _ & Hg2). simpl in *. destruct (do_exit m2) eqn:E; [|done].
  rewrite (kill_workers _ _ Hi2 Hn0). simpl. by destruct Hi2.
Qed.

Lemma fork_workers_keeps k : forall id m fs, 0 <= id -> id + Z.of_nat k <= n -> good_forks fs ->
  minv n (all_workers id lossless) m -> (forall pid i, procs m !! pid = Some i -> i < id) ->
  returns (fork_workers k id m fs) (fun r => minv n (all_workers (id + Z.of_nat k) lossless) r.1).
Proof.
  induction k as [|k IH]; intros id m fs Hid Hk Hg Hi Hlt; cbn [fork_workers].
  { simpl. replace (id + Z.of_nat 0) with id by lia. done. }
  pose proof (fork_worker_keeps _ id m fs Hi ltac:(lia) Hg
    ltac:(intros p Hp; specialize (Hlt _ _ Hp); lia)) as Hr.
  destruct (fork_worker id m fs) as [[m1 fs1]|w] eqn:E; [|done]. destruct Hr as (Hi1 & _ & Hg1). simpl in *.
  replace (id + Z.of_nat (S k)) with ((id + 1) + Z.of_nat k) by lia. apply IH; [lia..|done| |].
  - eapply minv_weaken; [|exact Hi1]. unfold all_workers. intros i [Hl Hi']. simpl.
    destruct (decide (i = id)); [tauto|]. left. split; [done|lia].
  - intros p i Hp. enough (i = id \/ procs m !! p = Some i) as [->|Hp'] by (try specialize (Hlt _ _ Hp'); lia).
    unfold fork_worker in E. destruct (fork (procs m) fs) as [[[q|] fs2]|] eqn:F; simpl in E; [| |done].
    + apply fork_ok in F as (f & _ & <- & Hf). destruct (Hf q eq_refl) as [_ Hq].
      unfold mog_process_register in E. rewrite Hq in E. unfold assert_ in E. case_match; simplify_eq/=.
      apply lookup_insert_Some in Hp as [[_ ->]|[_ ?]]; auto.
    + simplify_eq. auto.
Qed.
End Keeps.

(** The workers of a table, which SIGQUIT goes to. *)
Definition workers (t : processes) : processes :=
  filter (fun p : Z * Z => mog_process_is_worker p.2 = true) t.

Lemma workers_size t :
  zlen (filter (fun p : Z * Z => mog_process_is_worker p.2 = true) (map_to_list t)) = Z.of_nat (size (workers t)).
Proof.
  unfold zlen, workers. f_equal. rewrite map_filter_alt, <- length_map_to_list.
  rewrite map_to_list_to_map; [done|].
  eapply (sublist_NoDup _ (map_to_list t).*1); [apply (NoDup_fst_map_to_list t)|]. apply fmap_sublist, sublist_filter.
Qed.

(** Going down, a child that is reaped is not replaced. *)
Lemma process_died_exiting n full pid m fs : minv n full m -> do_exit m = true ->
  exists m', process_died n pid m fs = Ok (m', fs) /\ procs m' = delete pid (procs m) /\
    do_exit m' = true /\ do_upgrade m' = do_upgrade m /\ minv n full m'.
Proof.
  intros Hi Hx. unfold process_died, mog_process_reaped. destruct (procs m !! pid) as [id|] eqn:E.
  2:{ eexists; split_and!; [reflexivity|simpl; by rewrite delete_id|done..|]. by destruct Hi, m. }
  assert (Hd : forall u, (forall p, p <> pid -> u = upgrade_pid m \/ p <> upgrade_pid m) ->
    minv n full (set_upgrade_pid u (set_procs (delete pid (procs m)) m))).
  { intros u Hu. destruct Hi as [H1 H2 H3 H4]. split; simpl; [| | |congruence].
    - intros p i [_ ?]%lookup_delete_Some; eauto.
    - intros p p' i [_ ?]%lookup_delete_Some [_ ?]%lookup_delete_Some; eauto.
    - intros p i [Hne Hp]%lookup_delete_Some. destruct (H3 _ _ Hp) as [?|(-> & -> & ?)]; [by left|].
      destruct (Hu (upgrade_pid m)) as [->|?]; [done|by right|done]. }
  destruct (mi_known _ _ _ Hi _ _ E) as [Hw|(-> & Hp & Hpos)].
  - rewrite Hw. unfold worker_died. simpl. rewrite Hx. eexists; split_and!; [reflexivity|done..|].
    exact (Hd (upgrade_pid m) ltac:(auto)).
  - change (mog_process_is_worker MOG_PROC_UPGRADE) with false.
    change (MOG_PROC_UPGRADE =? MOG_PROC_IOSTAT) with false. rewrite Z.eqb_refl. simpl.
    unfold assert_. rewrite Hp, Z.eqb_refl. eexists; split_and!; [reflexivity|simpl; by rewrite <- Hp|done..|].
    rewrite <- Hp. apply Hd. intros p Hne. right. congruence.
Qed.

Lemma reap_exiting n full pids fs : forall m, minv n full m -> do_exit m = true ->
  exists m', reap n (map WDied pids ++ [WNone]) m fs = Ok (m', fs) /\
    procs m' = filter (fun p : Z * Z => p.1 ∉ pids) (procs m) /\
    do_exit m' = true /\ do_upgrade m' = do_upgrade m /\ minv n full m'.
Proof.
  induction pids as [|pid pids IH]; intros m Hi Hx; simpl.
  - exists m. split_and!; [done| |done..]. symmetry. apply map_filter_id. intros; set_solver.
  - destruct (process_died_exiting _ _ pid m fs Hi Hx) as (m1 & -> & Hp1 & Hx1 & Hu1 & Hi1). simpl.
    destruct (IH m1 Hi1 Hx1) as (m2 & -> & Hp2 & Hx2 & Hu2 & Hi2).
    exists m2. split_and!; [done| |done|congruence|done]. rewrite Hp2, Hp1.
    apply map_eq. intros p. apply option_eq. intros i. rewrite !map_lookup_filter_Some, lookup_delete_Some.
    simpl. rewrite not_elem_of_cons. naive_solver.
Qed.

(** A master that has started its workers, after any signals and turns. *)
Definition reached (n : Z) (lossless : bool) (m : master) : Prop :=
  exists fs m0, run_master_start n fs = Ok m0 /\ (lossless = true -> Forall is_Some fs) /\
    rtc (master_step n lossless) m0 m.

Lemma signal_keeps n full sig m : minv n full m -> minv n full (master_wakeup_handler sig m).
Proof. intros [H1 H2 H3 H4]. destruct sig; split; simpl; eauto; congruence. Qed.

Lemma reached_minv n lossless m : 0 <= n <= MOG_PROC_UPGRADE -> reached n lossless m ->
  minv n (all_workers n lossless) m.
Proof.
  intros Hn (fs & m0 & Hs & Hg & Hr). assert (H0 : minv n (all_workers n lossless) m0).
  { unfold run_master_start in Hs.
    pose proof (fork_workers_keeps n lossless ltac:(lia) (Z.to_nat n) 0 (master0 n) fs
      ltac:(lia) ltac:(lia) Hg) as Hk.
    destruct (fork_workers _ _ _ _) as [[m' fs']|]; simplify_eq/=.
    replace (Z.of_nat (Z.to_nat n)) with n in Hk by lia. apply Hk; [|done].
    split; [done..|]. intros i [_ Hi]. simpl in Hi. lia. }
  clear Hs. induction Hr as [|m1 m2 m3 Hst _ IH]; [done|]. apply IH. destruct Hst as [sig m1|ws fs' m1 m2 Hf Ht].
  - by apply signal_keeps.
  - pose proof (turn_keeps n lossless ltac:(lia) ws fs' m1 ltac:(lia) H0 Hf) as Hk. by rewrite Ht in Hk.
Qed.


(** C24.  A master that was told to exit gets there.  When [waitpid] reports
    [pids] (in any order, its upgrade and strangers among them), the turn
    returns, starts no process, and goes on exactly as long as workers remain
    that were not reported; when all were, the loop ends. *)
Theorem master_exits n lossless m pids fs : 0 <= n <= MOG_PROC_UPGRADE -> reached n lossless m ->
  do_exit m = true -> sigchld_hit m = true -> do_upgrade m = false ->
  exists m', master_turn n (map WDied pids ++ [WNone]) fs m = Ok m' /\
    procs m' = filter (fun p : Z * Z => p.1 ∉ pids) (procs m) /\
    running m' = Z.of_nat (size (workers (procs m'))) /\
    (running m' = 0 <-> forall pid id, procs m !! pid = Some id -> mog_process_is_worker id = true -> pid ∈ pids).
Proof.
  intros Hn Hr Hx Hc Hu. pose proof (reached_minv _ _ _ Hn Hr) as Hi. unfold master_turn, sigchld_handler.
  rewrite Hc. destruct (reap_exiting n (all_workers n lossless) pids fs (set_sigchld false m)) as
    (m' & -> & Hp & Hx' & Hu' & Hi'); [by destruct Hi|done|]. simpl in *. rewrite Hu', Hu. simpl. rewrite Hx'.
  rewrite (kill_workers n ltac:(lia) _ _ Hi') by lia. simpl.
  eexists; split_and!; [reflexivity|done|simpl; apply workers_size|]. simpl. rewrite workers_size, Hp.
  assert (Heq : forall z : nat, Z.of_nat z = 0 <-> z = 0%nat) by lia. rewrite Heq, map_size_empty_iff.
  unfold workers. rewrite map_empty. split.
  - intros He pid id Hid Hw. destruct (decide (pid ∈ pids)) as [|Hno]; [done|].
    specialize (He pid). apply map_lookup_filter_None in He as [He|He].
    + rewrite (proj2 (map_lookup_filter_Some _ _ _ _)) in He by done. done.
    + by destruct (He id); [apply map_lookup_filter_Some|].
  - intros Hall pid. apply map_lookup_filter_None. right. intros id [Hid Hno]%map_lookup_filter_Some Hw.
    simpl in *. eauto.
Qed.

(** Two workers, of which one dies and is replaced. *)
Definition respawned : master :=
  Master {[ 11 := 1; 12 := 0 ]} false false false 0 2 false.

Lemma respawned_reached : reached 2 true respawned.
Proof.
  exists [Some 10; Some 11], (Master {[ 10 := 0; 11 := 1 ]} false false false 0 2 false). split_and!.
  - vm_compute. reflexivity.
  - intros _. repeat constructor; eauto.
  - eapply rtc_l; [apply (ms_signal 2 true SIGCHLD)|]. apply rtc_once.
    apply (ms_turn 2 true [WDied 10; WNone] [Some 12]); [intros _; repeat constructor; eauto|].
    vm_compute. reflexivity.
Qed.


Lemma master_exits_witness :
  exists m', master_turn 2 [WDied 12; WDied 99; WDied 11; WNone] []
    (master_wakeup_handler SIGCHLD (master_wakeup_handler SIGQUIT respawned)) = Ok m' /\ running m' = 0.
Proof.
  destruct (master_exits 2 true (master_wakeup_handler SIGCHLD (master_wakeup_handler SIGQUIT respawned)) [12; 99; 11] [])
    as (m' & Hm & _ & _ & Hr); [vm_compute; split; congruence| |done..|].
  - destruct respawned_reached as (fs & m0 & ? & ? & ?). exists fs, m0. split_and!; [done..|].
    eapply rtc_r; [|apply ms_signal]. by eapply rtc_r; [|apply ms_signal].
  - exists m'. split; [exact Hm|]. apply Hr. intros pid id Hp _. simpl in Hp.
    apply lookup_insert_Some in Hp as [[<- _]|[_ Hp]]; [set_solver|].
    apply lookup_singleton_Some in Hp as [<- _]. set_solver.
Defined.

(** Workers that could not be forked are not started again: after a failed
    fork the master waits with one worker less. *)
Lemma failed_fork_loses_worker :
  exists m, master_turn 2 [WDied 11; WNone] [None] (set_sigchld true respawned) = Ok m /\
    procs m = {[ 12 := 0 ]} /\ sigchld_hit m = false /\
    forall ws fs, master_turn 2 ws fs m = Ok m.
Proof. eexists; split_and!; [vm_compute; reflexivity|vm_compute; reflexivity|done|]. done. Qed.

(** An iostat that did not start is not tried again by the loop of a worker:
    the branch that would do so is under the negation of its own condition. *)
Lemma iostat_not_retried first have_mgmt ws fs m : sigchld_hit m = false -> do_upgrade m = false ->
  iostat_running m = false ->
  exists refresh leave, worker_turn first have_mgmt ws fs m = Ok (m, refresh, leave).
Proof.
  intros Hc Hu Hio. unfold worker_turn. rewrite Hc. simpl. rewrite Hu. simpl.
  destruct (do_exit m), have_mgmt; simpl; eauto.
Qed.
