(* ===== verification/Mnt.v ===== *)
(** Mounts and the utilization of their devices: the table of utilizations
    (ioutil.c), the mount entries by device (mnt.c) and which of them can be
    used (mnt_usable.c). *)
From S2P Require Import Prelude Fmt.
From stdpp Require Import base list numbers gmap fin_maps.
From Stdlib Require Import ZArith Lia.

#[local] Open Scope Z_scope.

(** Strings in arrays: the bytes in front of the first NUL. *)
Fixpoint c_string (a : list Z) : list Z :=
  match a with [] => [] | c :: a => if c =? 0 then [] else c :: c_string a end.

Definition MOG_IOUTIL_LEN : Z := 8.

(** ** Utilizations (ioutil.c) *)

(** [free_next] only links entries that are about to be released. *)
Record ioutil := Ioutil { util : list Z; in_use : bool }.

Abbreviation iou_table := (gmap Z ioutil).

(** A new entry; what is behind the NUL is not initialised and not read. *)
Definition util_none : list Z := [45; 0; 0; 0; 0; 0; 0; 0].

Definition iou_vivify (st_dev : Z) (t : iou_table) : iou_table :=
  match t !! st_dev with
  | Some iou => <[st_dev := Ioutil (util iou) true]> t
  | None => <[st_dev := Ioutil util_none true]> t
  end.

Definition mog_iou_read (st_dev : Z) (t : iou_table) : list Z * iou_table :=
  let t := iou_vivify st_dev t in
  (match t !! st_dev with Some iou => util iou | None => [] end, t).

Definition mog_iou_write (st_dev : Z) (buf : list Z) (t : iou_table) : iou_table :=
  let t := iou_vivify st_dev t in
  match t !! st_dev with
  | Some iou => <[st_dev := Ioutil buf (in_use iou)]> t
  | None => t
  end.

Definition mog_iou_active (st_dev : Z) (t : iou_table) : iou_table := iou_vivify st_dev t.

Definition mog_iou_cleanup_begin (t : iou_table) : iou_table :=
  (fun iou => Ioutil (util iou) false) <$> t.

(** The free list: every entry that is not in use is put in front. *)
Definition freelist_append (fl : list Z) (ent : Z * ioutil) : list Z :=
  if in_use ent.2 then fl else ent.1 :: fl.

Fixpoint free_entries (fl : list Z) (t : iou_table) : res iou_table :=
  match fl with
  | [] => Ok t
  | d :: fl => match t !! d with
               | Some _ => free_entries fl (delete d t)
               | None => Crash AssertFailed
               end
  end.

Definition mog_iou_cleanup_finish (t : iou_table) : res iou_table :=
  free_entries (fold_left freelist_append (map_to_list t) []) t.

(** ** Mount entries (mnt.c) *)

(** The fields of gnulib's [struct mount_entry] that are used; [me_next] is the
    rest of the chain. *)
Record mount_entry := MountEntry {
  me_devname : list Z;
  me_mountdir : list Z;
  me_dev : Z;
  me_dummy : bool
}.

(** Chains of entries by device id. *)
Abbreviation mounts := (gmap Z (list mount_entry)).

Definition NODEV : Z := 2 ^ 64 - 1.

Definition absolute_name (s : list Z) : bool :=
  match s with c :: _ => c =? 47 | [] => false end.

Section Mnt.
(** The system: the replies to [statfs], the device of a path that can be
    found, symbolic links and [canonicalize_filename_mode]. *)
Variable statfs : list Z -> list reply.
Variable stat_dev : list Z -> option Z.
Variable is_link : list Z -> bool.
Variable canonicalize : list Z -> option (list Z).

(** What [statfs] says in the end: blocks, an error that rules the file system
    out, or one that does not. *)
Inductive fs_answer := FsBlocks (n : Z) | FsBad | FsUnknown.

Fixpoint statfs_loop (rs : list reply) : res fs_answer :=
  match rs with
  | [] => Crash NoReply
  | Ret n :: _ => Ok (FsBlocks n)
  | Fail EFAULT :: _ => Crash AssertFailed
  | Fail EINTR :: rs => statfs_loop rs
  | Fail (EIO | EOVERFLOW | ENOTDIR | ELOOP | ENOSYS | EACCES) :: _ => Ok FsBad
  | Fail _ :: _ => Ok FsUnknown
  end.

Definition resolve_symlink (orig : list Z) : option (list Z) := canonicalize orig.

(** [None]: false; an entry: true, with what was found out. *)
Definition stat_harder (me : mount_entry) : option mount_entry :=
  match (if me_dev me =? NODEV then stat_dev (me_mountdir me) else Some (me_dev me)) with
  | None => None
  | Some dev =>
      if absolute_name (me_devname me) && is_link (me_devname me) then
        match resolve_symlink (me_devname me) with
        | None => None
        | Some p => Some (MountEntry p (me_mountdir me) dev (me_dummy me))
        end
      else Some (MountEntry (me_devname me) (me_mountdir me) dev (me_dummy me))
  end.

Definition mog_mnt_usable (me : mount_entry) : res (option mount_entry) :=
  if me_dummy me then Ok None
  else
    let* a := statfs_loop (statfs (me_mountdir me)) in
    Ok match a with
       | FsBlocks n => if 0 <? n then stat_harder me else None
       | FsBad => None
       | FsUnknown => Some me
       end.

(** Over what [read_file_system_list] returns; the chain grows at its end. *)
Fixpoint mnt_populate (head : list mount_entry) (tbl : mounts) (t : iou_table) : res (mounts * iou_table) :=
  match head with
  | [] => Ok (tbl, t)
  | me :: next =>
      let* u := mog_mnt_usable me in
      match u with
      | None => mnt_populate next tbl t
      | Some me =>
          let chain := match tbl !! me_dev me with Some c => c | None => [] end in
          mnt_populate next (<[me_dev me := chain ++ [me]]> tbl) (mog_iou_active (me_dev me) t)
      end
  end.

(** The state of both files; [by_dev] is NULL before the first refresh. *)
Record mnt_state := MntState { by_dev : option mounts; dev_iou : iou_table }.

(** [mog_mnt_refresh] without other threads; [timed_init_once] reads the list
    in a thread of its own. *)
Definition mog_mnt_refresh (head : list mount_entry) (s : mnt_state) : res mnt_state :=
  match by_dev s with
  | Some _ =>
      let* '(new, t) := mnt_populate head ∅ (mog_iou_cleanup_begin (dev_iou s)) in
      let* t := mog_iou_cleanup_finish t in
      Ok (MntState (Some new) t)
  | None =>
      let* '(new, t) := mnt_populate head ∅ (dev_iou s) in
      Ok (MntState (Some new) t)
  end.
End Mnt.

(** The place in the chain and the entry: the first whose name has a leading
    slash, or else the first. *)
Fixpoint first_slash (i : nat) (chain : list mount_entry) : option (nat * mount_entry) :=
  match chain with
  | [] => None
  | me :: chain => if absolute_name (me_devname me) then Some (i, me) else first_slash (S i) chain
  end.

Definition mog_mnt_acquire (st_dev : Z) (m : mounts) : option (nat * mount_entry) :=
  match m !! st_dev with
  | None => None
  | Some chain =>
      match first_slash 0 chain with
      | Some r => Some r
      | None => match chain with me :: _ => Some (0%nat, me) | [] => None end
      end
  end.

(** [while (check_me->me_next && check_me != me)]: entries are compared by
    their place. *)
Fixpoint release_walk (i : nat) (chain : list mount_entry) (me : nat) : nat :=
  match chain with
  | _ :: (_ :: _) as next => if decide (i = me) then i else release_walk (S i) next me
  | _ => i
  end.

Definition mog_mnt_release (me : nat * mount_entry) (m : mounts) : res unit :=
  match m !! me_dev me.2 with
  | None | Some [] => Crash OutOfBounds
  | Some chain => assert! bool_decide (release_walk 0 chain me.1 = me.1); Ok tt
  end.

(** [strlen] and [memcmp]. *)
Definition me_update_match (prefix : list Z) (me : mount_entry) : bool :=
  if zlen (me_devname me) <? zlen prefix then false
  else bool_decide (take (length prefix) (me_devname me) = prefix).

Fixpoint update_util_each (prefix buf : list Z) (this_dev : Z) (chain : list mount_entry) (t : iou_table) : res iou_table :=
  match chain with
  | [] => Ok t
  | me :: chain =>
      assert! this_dev =? me_dev me;
      if me_update_match prefix me then Ok (mog_iou_write this_dev buf t)
      else update_util_each prefix buf this_dev chain t
  end.

Fixpoint update_each (prefix buf : list Z) (ents : list (Z * list mount_entry)) (t : iou_table) : res iou_table :=
  match ents with
  | [] => Ok t
  | (d, chain) :: ents => let* t := update_util_each prefix buf d chain t in update_each prefix buf ents t
  end.

(** [dev] and [buf] are the arrays of the iostat parser. *)
Definition mog_mnt_update_util (dev buf : list Z) (m : mounts) (t : iou_table) : res iou_table :=
  update_each (str "/dev/" ++ c_string dev) buf (map_to_list m) t.

(** ** Entries between the two halves of a cleanup *)

(** The users of the table, which run at any time. *)
Inductive iou_op := IouRead (d : Z) | IouWrite (d : Z) (buf : list Z) | IouActive (d : Z).

Definition iou_run (t : iou_table) (o : iou_op) : iou_table :=
  match o with
  | IouRead d => (mog_iou_read d t).2
  | IouWrite d buf => mog_iou_write d buf t
  | IouActive d => mog_iou_active d t
  end.

Definition op_dev (o : iou_op) : Z := match o with IouRead d | IouWrite d _ | IouActive d => d end.

(** The utilization of a device: what was last written, or what it was. *)
Fixpoint last_util (d : Z) (ops : list iou_op) (u : list Z) : list Z :=
  match ops with
  | [] => u
  | IouWrite d' buf :: ops => last_util d ops (if decide (d' = d) then buf else u)
  | _ :: ops => last_util d ops u
  end.

Definition util_of (d : Z) (t : iou_table) : list Z :=
  match t !! d with Some iou => util iou | None => util_none end.

Lemma iou_run_lookup t o d :
  iou_run t o !! d =
    if decide (op_dev o = d) then Some (Ioutil (last_util d [o] (util_of d t)) true) else t !! d.
Proof.
  destruct o as [d'|d' buf|d']; simpl; unfold mog_iou_write, mog_iou_active, iou_vivify, util_of;
    destruct (decide (d' = d)) as [->|Hne].
  1, 3, 5: destruct (t !! d) as [iou|]; simpl; repeat (rewrite lookup_insert_eq; simpl); by rewrite ?decide_True.
  all: destruct (t !! d') as [iou|]; simpl; rewrite ?lookup_insert_eq; simpl; by rewrite ?lookup_insert_ne.
Qed.

Lemma iou_runs_lookup ops : forall t d,
  fold_left iou_run ops t !! d =
    if decide (d ∈ map op_dev ops) then Some (Ioutil (last_util d ops (util_of d t)) true) else t !! d.
Proof.
  induction ops as [|o ops IH]; intros t d; cbn [fold_left map].
  { by rewrite decide_False by set_solver. }
  rewrite IH. assert (Hu : util_of d (iou_run t o) = last_util d [o] (util_of d t)).
  { unfold util_of at 1. rewrite iou_run_lookup. destruct (decide (op_dev o = d)) as [Hd|Hd]; [done|].
    destruct o as [d'|d' buf|d']; simpl in *; try done. by rewrite decide_False. }
  rewrite Hu, iou_run_lookup.
  assert (Hl : last_util d ops (last_util d [o] (util_of d t)) = last_util d (o :: ops) (util_of d t)) by by destruct o.
  rewrite Hl. destruct (decide (d ∈ map op_dev ops)) as [Hin|Hin].
  { by rewrite decide_True by set_solver. }
  destruct (decide (op_dev o = d)) as [<-|Hd].
  - rewrite decide_True by set_solver. rewrite <- Hl. f_equal. f_equal. clear -Hin. revert Hin.
    generalize (last_util (op_dev o) [o] (util_of (op_dev o) t)) as u.
    induction ops as [|o' ops IH]; intros u Hin; [done|]. cbn [map] in Hin. apply not_elem_of_cons in Hin as [Hne Hin].
    destruct o' as [d'|d' buf|d']; simpl in *; try (apply (IH _ Hin)). rewrite decide_False by done. apply (IH _ Hin).
  - by rewrite decide_False by set_solver.
Qed.

Lemma freelist_keys ents fl : fold_left freelist_append ents fl =
  reverse (map fst (filter (fun e : Z * ioutil => in_use e.2 = false) ents)) ++ fl.
Proof.
  revert fl. induction ents as [|[d iou] ents IH]; intros fl; [done|]. cbn [fold_left]. rewrite IH.
  unfold freelist_append. rewrite filter_cons. simpl. destruct (in_use iou); simpl; [done|].
  by rewrite reverse_cons, <- app_assoc.
Qed.

Lemma free_entries_ok fl : forall t, NoDup fl -> (forall d, d ∈ fl -> is_Some (t !! d)) ->
  exists t', free_entries fl t = Ok t' /\ forall d, t' !! d = if decide (d ∈ fl) then None else t !! d.
Proof.
  induction fl as [|d fl IH]; intros t Hnd Hin; cbn [free_entries].
  { exists t. split; [done|]. intros d. by rewrite decide_False by set_solver. }
  apply NoDup_cons in Hnd as [Hd Hnd]. destruct (Hin d ltac:(set_solver)) as [iou ->].
  destruct (IH (delete d t) Hnd) as (t' & -> & Ht').
  { intros d' Hd'. rewrite lookup_delete_ne by set_solver. apply Hin. set_solver. }
  exists t'. split; [done|]. intros d'. rewrite Ht'. destruct (decide (d' ∈ fl)).
  - by rewrite decide_True by set_solver.
  - destruct (decide (d' = d)) as [->|Hne].
    + by rewrite lookup_delete_eq, decide_True by set_solver.
    + rewrite lookup_delete_ne by done. by rewrite decide_False by set_solver.
Qed.

(** Releasing keeps exactly what is in use, and its assertion holds. *)
Lemma cleanup_finish_ok t : exists t', mog_iou_cleanup_finish t = Ok t' /\
  forall d, t' !! d = match t !! d with Some iou => if in_use iou then Some iou else None | None => None end.
Proof.
  unfold mog_iou_cleanup_finish. rewrite freelist_keys, app_nil_r.
  set (fl := reverse _). assert (Hin : forall d, d ∈ fl <-> exists iou, t !! d = Some iou /\ in_use iou = false).
  { intros d. unfold fl. rewrite elem_of_reverse. split.
    - intros ([d' iou] & -> & [Hu Hm]%list_elem_of_filter)%list_elem_of_fmap. apply elem_of_map_to_list in Hm. eauto.
    - intros (iou & Hd & Hu). apply list_elem_of_fmap. exists (d, iou). split; [done|].
      apply list_elem_of_filter. by rewrite elem_of_map_to_list. }
  destruct (free_entries_ok fl t) as (t' & -> & Ht').
  - unfold fl. rewrite reverse_Permutation. eapply (sublist_NoDup _ (map fst (map_to_list t))); [apply NoDup_fst_map_to_list|].
    apply fmap_sublist, sublist_filter.
  - intros d (iou & Hd & _)%Hin. eauto.
  - exists t'. split; [done|]. intros d. rewrite Ht'. destruct (t !! d) as [iou|] eqn:E; [|by destruct (decide _)].
    destruct (in_use iou) eqn:Hu.
    + rewrite decide_False; [done|]. intros (iou' & Hd & Hu')%Hin. congruence.
    + rewrite decide_True; [done|]. apply Hin. eauto.
Qed.

(** A cleanup keeps exactly the devices that anybody used since it began. *)
Lemma iou_cleanup_exact ops t :
  exists t', mog_iou_cleanup_finish (fold_left iou_run ops (mog_iou_cleanup_begin t)) = Ok t' /\
  forall d, t' !! d =
    if decide (d ∈ map op_dev ops) then Some (Ioutil (last_util d ops (util_of d t)) true) else None.
Proof.
  destruct (cleanup_finish_ok (fold_left iou_run ops (mog_iou_cleanup_begin t))) as (t' & -> & Ht').
  exists t'. split; [done|]. intros d. rewrite Ht', iou_runs_lookup. destruct (decide _); simpl.
  - unfold util_of, mog_iou_cleanup_begin. rewrite lookup_fmap. by destruct (t !! d).
  - unfold mog_iou_cleanup_begin. rewrite lookup_fmap. by destruct (t !! d).
Qed.

(** ** The mount list *)

(** Chains are not empty and hold entries of their device. *)
Definition mounts_ok (m : mounts) : Prop :=
  forall d chain, m !! d = Some chain -> chain <> [] /\ Forall (fun me => me_dev me = d) chain.

Section Refresh.
Variable statfs : list Z -> list reply.
Variable stat_dev : list Z -> option Z.
Variable is_link : list Z -> bool.
Variable canonicalize : list Z -> option (list Z).
Abbreviation usable := (mog_mnt_usable statfs stat_dev is_link canonicalize).
Abbreviation populate := (mnt_populate statfs stat_dev is_link canonicalize).

(** The entries that are used, with what was found out about them. *)
Definition usable_entries (head : list mount_entry) : list mount_entry :=
  omap (fun me => match usable me with Ok u => u | Crash _ => None end) head.

Definition entries_of (d : Z) (l : list mount_entry) : list mount_entry := filter (fun me => me_dev me = d) l.

Definition chain_at (d : Z) (m : mounts) : list mount_entry := match m !! d with Some c => c | None => [] end.

(** Every [statfs] is answered, and not with EFAULT. *)
Definition answered (me : mount_entry) : Prop := exists a, statfs_loop (statfs (me_mountdir me)) = Ok a.

Lemma usable_answered me : answered me -> exists u, usable me = Ok u.
Proof. intros [a Ha]. unfold mog_mnt_usable. rewrite Ha. destruct (me_dummy me); simpl; eauto. Qed.

Lemma populate_spec head : Forall answered head -> forall m t, mounts_ok m ->
  exists m', populate head m t = Ok (m', fold_left iou_run (map (fun me => IouActive (me_dev me)) (usable_entries head)) t) /\
    mounts_ok m' /\ forall d, chain_at d m' = chain_at d m ++ entries_of d (usable_entries head).
Proof.
  induction 1 as [|me head Ha _ IH]; intros m t Hm; cbn [mnt_populate].
  { exists m. split_and!; [done..|]. intros d. by rewrite app_nil_r. }
  destruct (usable_answered me Ha) as [u Hu]. unfold usable_entries. simpl. rewrite Hu. cbn [res_bind].
  destruct u as [me'|]; [|by apply IH]. cbn [map fold_left].
  destruct (IH (<[me_dev me' := chain_at (me_dev me') m ++ [me']]> m) (mog_iou_active (me_dev me') t)) as (m' & Hr & Hok & Hc).
  - intros d chain [[<- <-]|[Hne Hd]]%lookup_insert_Some; [|by apply Hm].
    split; [by destruct (chain_at _ m)|]. apply Forall_app. split; [|by repeat constructor].
    unfold chain_at. destruct (m !! me_dev me') as [c|] eqn:E; [|constructor]. by apply Hm.
  - exists m'. split_and!; [exact Hr|done|]. intros d. rewrite Hc. unfold entries_of, chain_at.
    rewrite filter_cons. destruct (decide (me_dev me' = d)) as [<-|Hne].
    + rewrite lookup_insert_eq. by rewrite <- app_assoc.
    + by rewrite lookup_insert_ne.
Qed.

Lemma last_util_active d l u : last_util d (map (fun me => IouActive (me_dev me)) l) u = u.
Proof. induction l; done. Qed.

Lemma map_op_dev l : map op_dev (map (fun me => IouActive (me_dev me)) l) = map me_dev l.
Proof. rewrite map_map. done. Qed.
End Refresh.

Lemma first_slash_in chain i r : first_slash i chain = Some r ->
  exists j, r.1 = (i + j)%nat /\ chain !! j = Some r.2 /\ absolute_name (me_devname r.2) = true.
Proof.
  revert i. induction chain as [|me chain IH]; intros i; simpl; [done|]. destruct (absolute_name (me_devname me)) eqn:E.
  - intros [= <-]. exists 0%nat. simpl. split; [lia|done].
  - intros (j & Hj & Hl & Ha)%IH. exists (S j). simpl. split; [lia|done].
Qed.

Lemma first_slash_none chain i : first_slash i chain = None ->
  Forall (fun me => absolute_name (me_devname me) = false) chain.
Proof. revert i. induction chain as [|me chain IH]; intros i; simpl; [done|]. case_match; [done|]. eauto. Qed.

Lemma release_walk_finds chain : forall i j, (j < length chain)%nat -> release_walk i chain (i + j) = (i + j)%nat.
Proof.
  induction chain as [|me [|me2 chain] IH]; intros i j Hj; cbn [release_walk length] in *; [lia|lia|].
  destruct (decide (i = i + j)%nat) as [|Hne]; [done|]. destruct j as [|j]; [lia|].
  replace (i + S j)%nat with (S i + j)%nat by lia. apply IH. cbn [length]. lia.
Qed.

(** What is acquired is an entry of the device, one with a device name if there
    is any, and can be released. *)
Lemma acquire_release st_dev m : mounts_ok m ->
  match mog_mnt_acquire st_dev m with
  | None => m !! st_dev = None
  | Some me => me.2 ∈ chain_at st_dev m /\ mog_mnt_release me m = Ok tt /\
      (absolute_name (me_devname me.2) = false -> Forall (fun x => absolute_name (me_devname x) = false) (chain_at st_dev m))
  end.
Proof.
  intros Hm. unfold mog_mnt_acquire, chain_at. destruct (m !! st_dev) as [chain|] eqn:E; [|done].
  destruct (Hm _ _ E) as [Hne Hd].
  assert (Hrel : forall j me, chain !! j = Some me -> mog_mnt_release (j, me) m = Ok tt).
  { intros j me Hj. unfold mog_mnt_release. rewrite Forall_lookup in Hd. simpl. rewrite (Hd _ _ Hj), E.
    apply lookup_lt_Some in Hj. pose proof (release_walk_finds chain 0 j Hj) as Hw. simpl in Hw.
    destruct chain; [done|]. by rewrite Hw, bool_decide_true. }
  destruct (first_slash 0 chain) as [[j me]|] eqn:Es.
  - apply first_slash_in in Es as (j' & Hj & Hl & Ha). simpl in *. subst j'. split_and!; [|by apply Hrel|congruence].
    by eapply list_elem_of_lookup_2.
  - apply first_slash_none in Es. destruct chain as [|me chain]; [done|]. split_and!; [set_solver|by apply Hrel|done].
Qed.

(** ** Updates *)

Lemma match_prefix prefix me : me_update_match prefix me = true <-> prefix `prefix_of` me_devname me.
Proof.
  unfold me_update_match, zlen. split.
  - case_match; [done|]. intros Hp%bool_decide_eq_true. exists (drop (length prefix) (me_devname me)).
    rewrite <- Hp at 1. by rewrite take_drop.
  - intros [r ->]. rewrite length_app, (proj2 (Z.ltb_ge _ _)) by lia. apply bool_decide_eq_true. apply take_app_length.
Qed.

Lemma update_chain prefix buf d chain t : Forall (fun me => me_dev me = d) chain ->
  update_util_each prefix buf d chain t =
  Ok (if decide (Exists (fun me => prefix `prefix_of` me_devname me) chain) then mog_iou_write d buf t else t).
Proof.
  induction 1 as [|me chain Hd _ IH]; cbn [update_util_each].
  { by rewrite decide_False by inversion 1. }
  rewrite Hd, Z.eqb_refl. simpl assert_. unfold assert_. destruct (me_update_match prefix me) eqn:E.
  - apply match_prefix in E. rewrite decide_True; [done|]. by left.
  - rewrite IH. assert (Hn : ~ prefix `prefix_of` me_devname me) by (rewrite <- match_prefix; congruence).
    f_equal. destruct (decide (Exists _ chain)) as [Hx|Hx].
    + rewrite decide_True; [done|]. by right.
    + rewrite decide_False; [done|]. intros [?|?]%Exists_cons; done.
Qed.

(** The devices with a mount whose name starts with that of the line. *)
Definition concerned (prefix : list Z) (m : mounts) (d : Z) : bool :=
  bool_decide (Exists (fun me => prefix `prefix_of` me_devname me) (chain_at d m)).

Lemma update_ops prefix buf ents t : Forall (fun e : Z * list mount_entry => Forall (fun me => me_dev me = e.1) e.2) ents ->
  update_each prefix buf ents t =
  Ok (fold_left iou_run (omap (fun e : Z * list mount_entry =>
    if decide (Exists (fun me => prefix `prefix_of` me_devname me) e.2) then Some (IouWrite e.1 buf) else None) ents) t).
Proof.
  intros H. revert t. induction H as [|[d chain] ents Hd _ IH]; intros t; [done|]. cbn [update_each].
  rewrite update_chain by done. cbn [res_bind]. rewrite IH. simpl. by destruct (decide _).
Qed.

Lemma last_util_same d buf ops u : Forall (fun o => exists d', o = IouWrite d' buf) ops ->
  IouWrite d buf ∈ ops \/ u = buf -> last_util d ops u = buf.
Proof.
  intros Hall. revert u. induction Hall as [|o ops [d' ->] _ IH]; intros u Hin; cbn [last_util].
  { by destruct Hin as [?%not_elem_of_nil|]. }
  apply IH. destruct (decide (d' = d)); [by right|]. destruct Hin as [[?|?]%elem_of_cons|]; [congruence|by left|by right].
Qed.

(** A line of iostat changes the devices it concerns, and only those. *)
Lemma update_util_lookup dev buf m t : mounts_ok m ->
  exists t', mog_mnt_update_util dev buf m t = Ok t' /\
  forall d, t' !! d = if concerned (str "/dev/" ++ c_string dev) m d then Some (Ioutil buf true) else t !! d.
Proof.
  intros Hm. unfold mog_mnt_update_util. set (prefix := str "/dev/" ++ _). rewrite update_ops.
  2:{ apply Forall_forall. intros [d chain] Hin%elem_of_map_to_list. by apply Hm. }
  eexists. split; [done|]. intros d. rewrite iou_runs_lookup. set (ops := omap _ _).
  assert (Hops : forall o, o ∈ ops <-> exists d, o = IouWrite d buf /\ concerned prefix m d = true).
  { intros o. unfold ops, concerned, chain_at. rewrite list_elem_of_omap. split.
    - intros ([d' c] & Hin%elem_of_map_to_list & Ho). simpl in Ho. case_decide as Hx; [|done]. injection Ho as <-.
      exists d'. split; [done|]. rewrite Hin. by apply bool_decide_eq_true.
    - intros (d' & -> & Hc%bool_decide_eq_true). destruct (m !! d') as [c|] eqn:E; [|by inversion Hc].
      exists (d', c). rewrite elem_of_map_to_list. simpl. by rewrite decide_True. }
  assert (Hmem : d ∈ map op_dev ops <-> concerned prefix m d = true).
  { rewrite list_elem_of_fmap. split.
    - intros (o & -> & (d' & -> & Hc)%Hops). done.
    - intros Hc. exists (IouWrite d buf). split; [done|]. apply Hops. eauto. }
  destruct (concerned prefix m d) eqn:Ec.
  - rewrite decide_True by tauto. do 2 f_equal. apply last_util_same; [|left; apply Hops; eauto].
    apply Forall_forall. intros o (d' & -> & _)%Hops. eauto.
  - rewrite decide_False; [done|]. intros ?%Hmem. done.
Qed.

Section RefreshExact.
Variable statfs : list Z -> list reply.
Variable stat_dev : list Z -> option Z.
Variable is_link : list Z -> bool.
Variable canonicalize : list Z -> option (list Z).
Abbreviation found head := (usable_entries statfs stat_dev is_link canonicalize head).

End RefreshExact.

(** A disk that was unmounted, one that stays, and a dummy file system. *)
Definition sample_mounts : list mount_entry :=
  [MountEntry (str "rootfs") (str "/") 1 false; MountEntry (str "/dev/sda1") (str "/") 1 false;
   MountEntry (str "proc") (str "/proc") 2 true].

Definition sample_mnt : mnt_state :=
  MntState (Some ∅) {[ 1 := Ioutil (str "12.00" ++ [0; 0; 0]) true; 7 := Ioutil util_none true ]}.

