(* ===== verification/Usage.v ===== *)
(** The file [usage] of a device (dev.c): disk usage as text, written to a
    temporary file that replaces the old one. *)
From S2P Require Import Prelude Fmt Http TryWrite World HttpGet Mnt.
From stdpp Require Import base list numbers gmap.
From Stdlib Require Import ZArith Lia.

#[local] Open Scope Z_scope.

Record mog_dev := MogDev { dev_st_dev : Z; devid : Z; prefix : name }.

(** [mog_dev_new]: [stat_dev] is the device of a directory below the docroot
    that [mog_stat] finds. *)
Definition mog_dev_new (stat_dev : name -> option Z) (mog_devid : Z) : option mog_dev :=
  let devprefix := str "/dev" ++ fmt_u mog_devid ++ str "/" in
  match stat_dev devprefix with
  | None => None
  | Some d => Some (MogDev d mog_devid (take (length devprefix - 1) devprefix))
  end.

(** [%x]: hexadecimal digits without leading zeros. *)
Fixpoint hex_digits (fuel : nat) (n : Z) : list Z :=
  match fuel with
  | O => []
  | S fuel' => if n <? 16 then [hex_char n] else hex_digits fuel' (n / 16) ++ [hex_char (n mod 16)]
  end.
Definition fmt_x (n : Z) : list Z := hex_digits 8 n.

(** The fields of [struct statvfs] that are used. *)
Record statvfs := Statvfs { f_blocks : Z; f_bfree : Z; f_bavail : Z; f_frsize : Z }.

(** [n *= mb] with [mb = v->f_frsize / (long double) 1024.0]: the product is
    exact as long as it is less than 2^64 bytes. *)
Definition kilobytes (v : statvfs) (n : Z) : Z := n * f_frsize v / 1024.

Definition us_total (v : statvfs) : Z := wrap_u64 (f_blocks v - wrap_u64 (f_bfree v - f_bavail v)).
Definition us_used (v : statvfs) : Z := wrap_u64 (f_blocks v - f_bfree v).

(** [unsigned use]; a division by zero ends the process. *)
Definition us_percent (v : statvfs) : res Z :=
  let h := wrap_u64 (us_used v * 100) in
  if us_total v =? 0 then Crash OutOfBounds
  else
    let use := wrap_u32 (h / us_total v + (if h mod us_total v =? 0 then 0 else 1)) in
    Ok (if 100 <? use then 100 else use).

Definition usage_text (docroot : name) (dev : mog_dev) (v : statvfs) (devname : list Z) (now use : Z) : list Z :=
  str "available: " ++ fmt_u (kilobytes v (f_bavail v)) ++ [10] ++
  str "device: " ++ devname ++ [10] ++
  str "disk: " ++ docroot ++ prefix dev ++ [10] ++
  str "time: " ++ fmt_d now ++ [10] ++
  str "total: " ++ fmt_u (kilobytes v (us_total v)) ++ [10] ++
  str "use: " ++ fmt_u use ++ str "%" ++ [10] ++
  str "used: " ++ fmt_u (kilobytes v (us_used v)) ++ [10].

Section Usage.
Context {S : Type}.
(** The docroot, the clock, the mount list, what [fstatvfs] reports, and how
    many bytes a [dprintf] that fails has written. *)
Variable docroot : name.
Variable now : Z.
Variable mnts : mounts.
Variable vfs : statvfs.
Variable cut : nat.
Variable pid : Z.

(** A reply that is not a failure. *)
Definition sys_ok : MS S bool := e ← sys_reply; mret (match e with Some _ => false | None => true end).

Definition emit_usage (dev : mog_dev) (tmp : name) : MS S bool :=
  use ← lift_res (us_percent vfs);
  match mog_mnt_acquire (dev_st_dev dev) mnts with
  | Some me =>
      put_world (set_errno None);;
      let text := usage_text docroot dev vfs (me_devname me.2) now use in
      ok ← sys_ok;
      put_world (fun w => set_fs (<[tmp := if ok : bool then text else take cut text]> (w_fs w)) w);;
      lift_res (mog_mnt_release me mnts);;
      mret ok
  | None =>
      put_world (set_errno (Some ENODEV));;
      mret false
  end.

(** The end of the function: [errno] decides. *)
Definition mkusage_out (tmp : name) (open : bool) : MS S bool :=
  w ← get_world;
  match w_err w with
  | Some e =>
      _ ← mog_unlink tmp;
      _ ← (if open then sys_ok else mret true);
      put_world (set_errno (Some e));; mret false
  | None =>
      _ ← (if open then sys_ok else mret true);
      put_world (set_errno None);; mret true
  end.

(** [mog_open_put (svc, tmp_path, O_EXCL|O_CREAT)], again after expiry. *)
Definition mkusage_open (tmp : name) : MS S bool :=
  fd ← sys_open tmp true;
  match fd with
  | inr _ => mret true
  | inl e =>
      match e with
      | ENFILE | EMFILE | ENOMEM =>
          n ← sys_value; (* mog_fdmap_expire *)
          if mog_open_expire_retry e n then
            fd ← sys_open tmp true; mret (match fd with inr _ => true | inl _ => false end)
          else mret false
      | _ => mret false
      end
  end.

(** [close], whose EINTR is not an error. *)
Definition mkusage_close : MS S bool :=
  e ← sys_reply;
  match e with
  | None | Some EINTR => mret true
  | Some EBADF => crash AssertFailed
  | Some _ => mret false
  end.

Definition mkusage_rename (tmp usage_path : name) : MS S unit :=
  ok ← sys_ok;
  if ok : bool then
    put_world (fun w => set_fs (match w_fs w !! tmp with
                                | Some c => <[usage_path := c]> (delete tmp (w_fs w))
                                | None => w_fs w
                                end) w)
  else mret tt.

(** [true]: 0 is returned. *)
Definition mog_dev_mkusage (dev : mog_dev) : MS S bool :=
  let usage_path := prefix dev ++ str "/usage" in
  let tmp := usage_path ++ str "." ++ fmt_x pid in
  r ← mog_unlink tmp;
  if (match r with Some e => bool_decide (e <> ENOENT) | None => false end) then mkusage_out tmp false
  else
    put_world (set_errno None);;
    ok ← mkusage_open tmp;
    if negb ok then mkusage_out tmp false
    else
      ok ← sys_ok; (* fstatvfs *)
      if negb ok then mkusage_out tmp true
      else
        ok ← emit_usage dev tmp;
        if negb ok then mkusage_out tmp true
        else
          ok ← sys_ok; (* fchmod *)
          if negb ok then mkusage_out tmp true
          else
            ok ← mkusage_close;
            if negb ok then mkusage_out tmp false
            else
              put_world (set_errno None);;
              mkusage_rename tmp usage_path;;
              mkusage_out tmp false.
End Usage.

(** ** Replacing the file *)

(** Nothing but [tmp] has changed; no reply to come is EBADF, which a descriptor
    that is open does not get. *)
Definition no_ebadf (w : world) : Prop := Forall (fun r => r <> Fail EBADF) (w_sys w).
Definition only_tmp (tmp : name) (w w' : world) : Prop :=
  (forall p, p <> tmp -> w_fs w' !! p = w_fs w !! p) /\ no_ebadf w'.

Section Replace.
Context {S : Type}.

Lemma only_tmp_refl tmp w : no_ebadf w -> only_tmp tmp w w.
Proof. done. Qed.

Lemma only_tmp_trans tmp w w1 w2 : only_tmp tmp w w1 -> only_tmp tmp w1 w2 -> only_tmp tmp w w2.
Proof. intros [H1 _] [H2 Hn]. split; [|done]. intros p Hp. by rewrite H2, H1. Qed.

Lemma no_ebadf_tail w r rs : w_sys w = r :: rs -> no_ebadf w -> Forall (fun r => r <> Fail EBADF) rs.
Proof. unfold no_ebadf. intros ->. apply Forall_cons_1. Qed.

Lemma wp_reply_ebadf (h : S) w : no_ebadf w ->
  wp sys_reply h w (fun e _ w' => w_fs w' = w_fs w /\ no_ebadf w' /\ e <> Some EBADF /\
    match e with Some e => w_err w' = Some e | None => w_err w' = w_err w end).
Proof.
  intros Hn. unfold wp, sys_reply. destruct (w_sys w) as [|[n|e] rs] eqn:E.
  - by eexists _, _, _.
  - eexists _, _, _. split; [done|]. split; [done|]. split; [exact (no_ebadf_tail _ _ _ E Hn)|done].
  - eexists _, _, _. split; [done|]. split; [done|]. split; [exact (no_ebadf_tail _ _ _ E Hn)|]. split; [|done].
    unfold no_ebadf in Hn. rewrite E in Hn. apply Forall_cons_1 in Hn as [Hn _]. congruence.
Qed.

Lemma wp_sys_ok (h : S) w : no_ebadf w ->
  wp sys_ok h w (fun ok _ w' => w_fs w' = w_fs w /\ no_ebadf w' /\
    if ok : bool then w_err w' = w_err w else w_err w' <> None).
Proof.
  intros Hn. unfold sys_ok. apply wp_bind. eapply wp_mono; [by apply wp_reply_ebadf|]. simpl.
  intros e h' w' (Hf & Hn' & _ & He). apply wp_ret. split; [done|]. split; [done|]. destruct e; congruence.
Qed.

Lemma wp_unlink tmp (h : S) w : no_ebadf w ->
  wp (mog_unlink tmp) h w (fun r _ w' => only_tmp tmp w w' /\
    match r with Some e => w_err w' = Some e | None => True end).
Proof.
  intros Hn. unfold mog_unlink. apply wp_bind. eapply wp_mono; [by apply wp_reply_ebadf|]. simpl.
  intros e h' w1 (Hf & Hn1 & _ & He). apply wp_bind, wp_get_world. destruct e as [e|].
  - apply wp_ret. split; [|done]. split; [by intros; rewrite Hf|done].
  - destruct (w_fs w1 !! tmp) eqn:E; apply wp_bind, wp_put_world, wp_ret.
    + split; [|done]. split; [|done]. intros p Hp. simpl. by rewrite lookup_delete_ne, Hf.
    + split; [|done]. split; [|done]. intros p Hp. simpl. by rewrite Hf.
Qed.

Lemma wp_open1 tmp (h : S) w : no_ebadf w ->
  wp (sys_open tmp true) h w (fun r _ w' => only_tmp tmp w w' /\
    match r with inl e => w_err w' = Some e | inr _ => True end).
Proof.
  intros Hn. unfold sys_open. apply wp_bind. eapply wp_mono; [by apply wp_reply_ebadf|]. simpl.
  intros e h' w1 (Hf & Hn1 & _ & He). apply wp_bind, wp_get_world. destruct e as [e|].
  - apply wp_ret. split; [|done]. split; [by intros; rewrite Hf|done].
  - destruct (w_fs w1 !! tmp) eqn:E; apply wp_bind, wp_put_world, wp_ret.
    + split; [|done]. split; [|done]. intros p Hp. simpl. by rewrite Hf.
    + split; [|done]. split; [|done]. intros p Hp. simpl. by rewrite lookup_insert_ne, Hf.
Qed.

Lemma sys_value_ebadf (h : S) w : no_ebadf w ->
  wp sys_value h w (fun _ _ w' => w_fs w' = w_fs w /\ no_ebadf w' /\ w_err w' = w_err w).
Proof.
  intros Hn. unfold wp, sys_value. destruct (w_sys w) as [|[n|e] rs] eqn:E; eexists _, _, _; split; try done.
  split; [done|]. split; [exact (no_ebadf_tail _ _ _ E Hn)|done].
Qed.

Lemma wp_open tmp (h : S) w : no_ebadf w ->
  wp (mkusage_open tmp) h w (fun ok _ w' => only_tmp tmp w w' /\ (ok = false -> w_err w' <> None)).
Proof.
  intros Hn. unfold mkusage_open. apply wp_bind. eapply wp_mono; [by apply wp_open1|]. simpl.
  intros r h1 w1 [H1 He]. destruct r as [e|c]; [|by apply wp_ret].
  assert (Hfail : wp (mret false) h1 w1 (fun ok _ w' => only_tmp tmp w w' /\ (ok = false -> w_err w' <> None)))
    by (apply wp_ret; split; [done|congruence]).
  destruct e; try exact Hfail.
  all: apply wp_bind; eapply wp_mono; [by apply sys_value_ebadf, H1|]; simpl; intros n h2 w2 (Hf & Hn2 & He2).
  all: assert (H2 : only_tmp tmp w w2) by (split; [intros p Hp; rewrite Hf; by apply H1|done]).
  all: case_match; [|apply wp_ret; split; [done|congruence]].
  all: apply wp_bind; eapply wp_mono; [by apply wp_open1|]; simpl; intros r h3 w3 [H3 He3]; apply wp_ret.
  all: split; [by eapply only_tmp_trans|]; destruct r; congruence.
Qed.

Lemma wp_out tmp open (h : S) w : no_ebadf w ->
  wp (mkusage_out tmp open) h w (fun ok _ w' => only_tmp tmp w w' /\
    match w_err w with Some _ => ok = false | None => ok = true /\ w_fs w' = w_fs w end).
Proof.
  intros Hn. unfold mkusage_out. apply wp_bind, wp_get_world. destruct (w_err w) as [e|] eqn:E.
  - apply wp_bind. eapply wp_mono; [by apply wp_unlink|]. simpl. intros r h1 w1 [H1 _].
    apply wp_bind. eapply (wp_mono _ _ _ (fun _ _ w2 => w_fs w2 = w_fs w1 /\ no_ebadf w2)).
    + destruct open; [|by apply wp_ret; destruct H1]. eapply wp_mono; [by apply wp_sys_ok, H1|]. simpl. tauto.
    + intros _ h2 w2 [Hf Hn2]. apply wp_bind, wp_put_world, wp_ret. split; [|done].
      split; [|done]. intros p Hp. simpl. rewrite Hf. by apply H1.
  - apply wp_bind. eapply (wp_mono _ _ _ (fun _ _ w2 => w_fs w2 = w_fs w /\ no_ebadf w2)).
    + destruct open; [|by apply wp_ret]. eapply wp_mono; [by apply wp_sys_ok|]. simpl. tauto.
    + intros _ h2 w2 [Hf Hn2]. apply wp_bind, wp_put_world, wp_ret. split; [|done]. split; [|done].
      intros p Hp. simpl. by rewrite Hf.
Qed.
End Replace.

Section Atomic.
Context {S : Type}.
Variable docroot : name.
Variable now : Z.
Variable mnts : mounts.
Variable vfs : statvfs.
Variable cut : nat.
Variable pid : Z.
Variable dev : mog_dev.
Hypothesis mnts_ok : mounts_ok mnts.
(** The file system has blocks. *)
Variable use : Z.
Hypothesis has_blocks : us_percent vfs = Ok use.

Definition usage_path : name := prefix dev ++ str "/usage".
Definition tmp_path : name := usage_path ++ str "." ++ fmt_x pid.

(** The file that is due: what the mount entry of the device says. *)
Definition new_usage (c : list Z) : Prop :=
  exists me, mog_mnt_acquire (dev_st_dev dev) mnts = Some me /\
    c = usage_text docroot dev vfs (me_devname me.2) now use.

Lemma tmp_not_usage : tmp_path <> usage_path.
Proof.
  intros H%(f_equal length). unfold tmp_path in H. rewrite length_app in H.
  change (length (str "." ++ fmt_x pid)) with (Datatypes.S (length (fmt_x pid))) in H. lia.
Qed.

Lemma wp_emit tmp (h : S) w : no_ebadf w ->
  wp (emit_usage docroot now mnts vfs cut dev tmp) h w (fun ok _ w' => only_tmp tmp w w' /\
    if ok : bool then exists c, w_fs w' !! tmp = Some c /\ new_usage c else w_err w' <> None).
Proof.
  intros Hn. unfold emit_usage. rewrite has_blocks. apply wp_bind. exists use, h, w. split; [done|].
  pose proof (acquire_release (dev_st_dev dev) mnts mnts_ok) as Har. unfold new_usage.
  destruct (mog_mnt_acquire (dev_st_dev dev) mnts) as [me|].
  - apply wp_bind, wp_put_world, wp_bind. eapply wp_mono; [by apply wp_sys_ok|]. simpl. intros ok h1 w1 (Hf & Hn1 & He).
    apply wp_bind, wp_put_world, wp_bind. destruct Har as (_ & Hrel & _). rewrite Hrel. eexists _, _, _. split; [reflexivity|].
    apply wp_ret. split.
    + split; [|done]. intros p Hp. simpl. rewrite lookup_insert_ne by done. by rewrite Hf.
    + destruct ok; [|done]. simpl. rewrite lookup_insert_eq. eauto.
  - apply wp_bind, wp_put_world, wp_ret. split; [|done]. split; done.
Qed.

(** C28.  A usage file is replaced as a whole.  Whatever fails on the way, with
    descriptors running out, interrupts or a full disk, nothing below the docroot
    changes except the temporary file and the usage file itself, which holds
    either what it held or the complete new text; success means that it holds the
    new text and that no temporary file is left. *)
Theorem mkusage_atomic (h : S) w : no_ebadf w ->
  wp (mog_dev_mkusage docroot now mnts vfs cut pid dev) h w (fun ok _ w' =>
    (forall p, p <> tmp_path -> p <> usage_path -> w_fs w' !! p = w_fs w !! p) /\
    (w_fs w' !! usage_path = w_fs w !! usage_path \/ exists c, w_fs w' !! usage_path = Some c /\ new_usage c) /\
    (ok = true -> w_fs w' !! tmp_path = None /\ exists c, w_fs w' !! usage_path = Some c /\ new_usage c)).
Proof.
  intros Hn. unfold mog_dev_mkusage. fold usage_path. fold tmp_path. pose proof tmp_not_usage as Hne.
  set (Q := fun (ok : bool) (_ : S) (w' : world) => _).
  assert (Hfail : forall open h1 w1, only_tmp tmp_path w w1 -> w_err w1 <> None -> wp (mkusage_out tmp_path open) h1 w1 Q).
  { intros open h1 w1 H1 He. eapply wp_mono; [by apply wp_out, H1|]. intros ok h2 w2 [H2 Hok].
    destruct (w_err w1); [|done]. subst ok. pose proof (only_tmp_trans _ _ _ _ H1 H2) as [H3 _].
    split; [by auto|]. split; [left; by auto|done]. }
  apply wp_bind. eapply wp_mono; [by apply wp_unlink|]. intros r h1 w1 [H1 Hr].
  destruct (match r with Some e => bool_decide (e <> ENOENT) | None => false end) eqn:Er.
  { apply Hfail; [done|]. destruct r; [congruence|done]. }
  apply wp_bind, wp_put_world, wp_bind. eapply wp_mono; [apply wp_open, H1|]. intros ok h2 w2 [H2 He2].
  assert (H12 : only_tmp tmp_path w w2) by (eapply only_tmp_trans; [|exact H2]; exact H1).
  destruct ok; cbn [negb]; [|by apply Hfail; auto].
  apply wp_bind. eapply wp_mono; [apply wp_sys_ok, H12|]. intros ok h3 w3 (Hf3 & Hn3 & He3).
  assert (H13 : only_tmp tmp_path w w3) by (split; [intros p Hp; rewrite Hf3; by apply H12|done]).
  destruct ok; cbn [negb]; [|by apply Hfail].
  apply wp_bind. eapply wp_mono; [apply (wp_emit tmp_path), Hn3|]. intros ok h4 w4 [H4 He4].
  assert (H14 : only_tmp tmp_path w w4) by by eapply only_tmp_trans.
  destruct ok; cbn [negb]; [|by apply Hfail]. destruct He4 as (c & Hc & Hnew).
  apply wp_bind. eapply wp_mono; [apply wp_sys_ok, H14|]. intros ok h5 w5 (Hf5 & Hn5 & He5).
  assert (H15 : only_tmp tmp_path w w5) by (split; [intros p Hp; rewrite Hf5; by apply H14|done]).
  destruct ok; cbn [negb]; [|by apply Hfail]. rewrite <- Hf5 in Hc.
  apply wp_bind. unfold mkusage_close. apply wp_bind. eapply wp_mono; [apply wp_reply_ebadf, Hn5|].
  intros e h6 w6 (Hf6 & Hn6 & Hb & He6).
  assert (H16 : only_tmp tmp_path w w6) by (split; [intros p Hp; rewrite Hf6; by apply H15|done]).
  assert (Hclosed : forall b, (b = false -> w_err w6 <> None) ->
    wp (if negb b then mkusage_out tmp_path false
        else put_world (set_errno None);; mkusage_rename tmp_path usage_path;; mkusage_out tmp_path false) h6 w6 Q).
  { intros b Hbf. destruct b; cbn [negb]; [|by apply Hfail; auto].
    apply wp_bind, wp_put_world, wp_bind. unfold mkusage_rename. apply wp_bind. eapply wp_mono; [apply wp_sys_ok, Hn6|].
    simpl. intros ok h7 w7 (Hf7 & Hn7 & He7). destruct ok.
    - apply wp_put_world. eapply wp_mono; [by apply wp_out|]. simpl. rewrite He7. intros ok h8 w8 [_ [-> Hf8]].
      rewrite Hf7, Hf6, Hc in Hf8. unfold Q. rewrite Hf8. split.
      + intros p Hp1 Hp2. rewrite lookup_insert_ne, lookup_delete_ne by done. rewrite <- Hf6. by apply H16.
      + rewrite lookup_insert_eq. split; [right; eauto|]. intros _. split; [|eauto].
        by rewrite lookup_insert_ne, lookup_delete_eq.
    - apply wp_ret. apply Hfail; [|done]. split; [|done]. intros p Hp. rewrite Hf7. by apply H16. }
  destruct e as [e|]; [|apply wp_ret; by apply (Hclosed true)].
  destruct e; try (apply wp_ret; apply (Hclosed false); congruence); [|done].
  apply wp_ret. by apply (Hclosed true).
Qed.
End Atomic.

(** The percentage is that of [df]: used blocks over used and available ones,
    rounded up. *)
Lemma us_percent_exact v : 0 <= f_bavail v <= f_bfree v -> f_bfree v <= f_blocks v < 2 ^ 57 ->
  0 < f_blocks v - f_bfree v + f_bavail v ->
  us_percent v = Ok (- (- ((f_blocks v - f_bfree v) * 100) / (f_blocks v - f_bfree v + f_bavail v))).
Proof.
  intros Ha Hb Ht. unfold us_percent, us_total, us_used. rewrite !wrap_u64_id by (rewrite ?wrap_u64_id; lia).
  set (u := f_blocks v - f_bfree v). replace (f_blocks v - (f_bfree v - f_bavail v)) with (u + f_bavail v) by lia.
  assert (0 <= u /\ 0 <= f_bavail v /\ 0 < u + f_bavail v) as (Hu & Ha0 & Ht') by (subst u; lia). clearbody u.
  set (t := u + f_bavail v) in *. assert (u <= t) by lia. clearbody t.
  rewrite (proj2 (Z.eqb_neq _ _)) by lia.
  assert (Hceil : u * 100 / t + (if (u * 100) mod t =? 0 then 0 else 1) = - (- (u * 100) / t)).
  { destruct (Z.eqb_spec ((u * 100) mod t) 0) as [E|E].
    - rewrite Z.div_opp_l_z by lia. lia.
    - rewrite Z.div_opp_l_nz by lia. lia. }
  rewrite Hceil. set (q := - (- (u * 100) / t)) in *. assert (0 <= q <= 100).
  { unfold q. split.
    - enough (- (u * 100) / t <= 0) by lia. apply Z.div_le_upper_bound; nia.
    - enough (-100 <= - (u * 100) / t) by lia. apply Z.div_le_lower_bound; nia. }
  unfold wrap_u32. rewrite Z.mod_small by lia. rewrite (proj2 (Z.ltb_ge _ _)) by lia. done.
Qed.

(** A file system that reports no blocks ends the process. *)
Lemma us_percent_no_blocks frsize : us_percent (Statvfs 0 0 0 frsize) = Crash OutOfBounds.
Proof. reflexivity. Qed.

Definition sample_dev : mog_dev := MogDev 1 5 (str "/dev5").
Definition sample_disk : mounts := {[ 1 := [MountEntry (str "/dev/sda1") (str "/srv") 1 false] ]}.
Definition sample_vfs : statvfs := Statvfs 1000 300 200 4096.
Definition sample_world (rs : list reply) : world :=
  World {[ str "/dev5/usage" := str "old" ]} [] [] rs [] (Chan [] []) None true.

(** A disk that is full when the text is written. *)
Lemma mkusage_atomic_witness :
  exists ok h w', mog_dev_mkusage (S := unit) (str "/srv") 0 sample_disk sample_vfs 7 255 sample_dev tt
      (sample_world [Ret 0; Ret 0; Ret 0; Fail ENOSPC]) = Ok (ok, h, w') /\
    (w_fs w' !! str "/dev5/usage" = Some (str "old") \/
     exists c, w_fs w' !! str "/dev5/usage" = Some c /\ new_usage (str "/srv") 0 sample_disk sample_vfs sample_dev 78 c).
Proof.
  destruct (mkusage_atomic (S := unit) (str "/srv") 0 sample_disk sample_vfs 7 255 sample_dev
    ltac:(unfold sample_disk; intros d chain [<- <-]%lookup_singleton_Some; split; [done|by repeat constructor]) 78 ltac:(vm_compute; reflexivity)
    tt (sample_world [Ret 0; Ret 0; Ret 0; Fail ENOSPC]) ltac:(repeat constructor; done)) as (ok & h & w' & Hr & _ & Hu & _).
  exists ok, h, w'. split; [exact Hr|exact Hu].
Defined.
