(* ===== verification/Iostat.v ===== *)
(** The output of iostat(1): the generated line parser (iostat_parser.c) and the
    step that feeds it from the pipe (iostat.c). *)
From S2P Require Import Prelude Fmt Ragel World Mnt.
From stdpp Require Import base list numbers.
From Stdlib Require Import ZArith Lia.

#[local] Open Scope Z_scope.

(** [struct mog_iostat] (iostat.h). *)
Record mog_iostat := MogIostat {
  io_cs : Z;
  ready : bool;
  util_tip : Z;
  dev_tip : Z;
  io_util : list Z;
  io_dev : list Z
}.

Definition set_io_cs v (i : mog_iostat) := MogIostat v (ready i) (util_tip i) (dev_tip i) (io_util i) (io_dev i).
Definition set_ready v (i : mog_iostat) := MogIostat (io_cs i) v (util_tip i) (dev_tip i) (io_util i) (io_dev i).
Definition set_util_tip v (i : mog_iostat) := MogIostat (io_cs i) (ready i) v (dev_tip i) (io_util i) (io_dev i).
Definition set_dev_tip v (i : mog_iostat) := MogIostat (io_cs i) (ready i) (util_tip i) v (io_util i) (io_dev i).
Definition set_io_util v (i : mog_iostat) := MogIostat (io_cs i) (ready i) (util_tip i) (dev_tip i) v (io_dev i).
Definition set_io_dev v (i : mog_iostat) := MogIostat (io_cs i) (ready i) (util_tip i) (dev_tip i) (io_util i) v.

Definition sizeof_dev : Z := 72.

(** What the parser calls: the update of the mounts with the arrays [dev] and
    [util] of a line ([mog_mnt_update_util]), and the report of all devices to
    the subscribers of every service ([mog_svc_each], [mog_svc_devstats_broadcast]). *)
Class StatsOps (X : Type) := {
  stats_update : list Z -> list Z -> X -> res X;
  stats_broadcast : X -> res X
}.

(** What the parser relies on: in states that [Inv] describes both return. *)
Class StatsLaws (X : Type) `{StatsOps X} (Inv : X -> Prop) := {
  stats_update_ok : forall dev util x, length dev = 72%nat -> length util = 8%nat -> Inv x ->
    exists x', stats_update dev util x = Ok x' /\ Inv x';
  stats_broadcast_ok : forall x, Inv x -> exists x', stats_broadcast x = Ok x' /\ Inv x'
}.

Definition iostat_parser_start : Z := 1.
Definition iostat_parser_first_final : Z := 8.
Definition iostat_parser_error : Z := 0.

(** ** The transitions *)

(** [case 1] to [case 7] (iostat_parser.c, lines 64-210). *)
Definition cases_1 (cs c : Z) : option label :=
  match cs with
  | 1 => Some (if (c =? 9) || (c =? 32) then St 1
      else if c <? 65 then if rng 47 57 c then Tr 2
        else Tr 0
      else if 90 <? c then if rng 97 122 c then Tr 2
        else Tr 0
      else Tr 2)
  | 2 => Some (if (c =? 9) || (c =? 32) then St 3
      else if c <? 65 then if rng 47 57 c then Tr 2
        else Tr 0
      else if 90 <? c then if rng 97 122 c then Tr 2
        else Tr 0
      else Tr 2)
  | 3 => Some (if (c =? 9) || (c =? 32) then St 4
      else if c =? 10 then Tr 0
      else St 3)
  | 4 => Some (if (c =? 9) || (c =? 32) then St 4
      else if c =? 10 then Tr 0
      else if c =? 46 then Tr 5
      else if rng 48 57 c then Tr 5
      else St 3)
  | 5 => Some (if (c =? 9) || (c =? 32) then St 6
      else if c =? 10 then Tr 7
      else if c =? 46 then Tr 8
      else if rng 48 57 c then Tr 8
      else St 3)
  | 6 => Some (if (c =? 9) || (c =? 32) then St 6
      else if c =? 10 then Tr 7
      else if c =? 46 then Tr 5
      else if rng 48 57 c then Tr 5
      else St 3)
  | 8 => Some (if (c =? 9) || (c =? 32) then St 1
      else if c <? 65 then if rng 47 57 c then Tr 2
        else Tr 0
      else if 90 <? c then if rng 97 122 c then Tr 2
        else Tr 0
      else Tr 2)
  | 7 => Some (if c =? 10 then Tr 10
      else St 7)
  | _ => None
  end.

(** [case 9] to [case 9] (iostat_parser.c, lines 226-229). *)
Definition cases_2 (cs c : Z) : option label :=
  match cs with
  | 9 => Some (St 0)
  | _ => None
  end.

Definition goto (cs c : Z) : option label :=
  match cases_1 cs c with Some l => Some l | None =>
  cases_2 cs c
  end .

(** ** The actions *)

Section Iostat.
Context {X : Type} `{StatsOps X}.

(** [a[i] = c] inside the array. *)
Definition array_set (a : list Z) (i c : Z) : option (list Z) :=
  if (0 <=? i) && (i <? zlen a) then Some (<[Z.to_nat i := c]> a) else None.

Definition dev_char (c : Z) (i : mog_iostat) : option mog_iostat :=
  if dev_tip i <? sizeof_dev - 1 then
    match array_set (io_dev i) (dev_tip i) c with
    | Some a => Some (set_dev_tip (dev_tip i + 1) (set_io_dev a i))
    | None => None
    end
  else Some i.

Definition util_char (c : Z) (i : mog_iostat) : option mog_iostat :=
  if util_tip i <? MOG_IOUTIL_LEN - 1 then
    match array_set (io_util i) (util_tip i) c with
    | Some a => Some (set_util_tip (util_tip i + 1) (set_io_util a i))
    | None => None
    end
  else Some i.

Definition mog_iostat_line_done (i : mog_iostat) (x : X) : res (mog_iostat * X) :=
  if dev_tip i <? sizeof_dev then
    match array_set (io_dev i) (dev_tip i) 0 with
    | None => Crash OutOfBounds
    | Some d =>
        let i := set_io_dev d i in
        let u := if util_tip i <? MOG_IOUTIL_LEN then array_set (io_util i) (util_tip i) 0
                 else match array_set (io_util i) 0 45 with Some a => array_set a 1 0 | None => None end in
        match u with
        | None => Crash OutOfBounds
        | Some u =>
            let i := set_io_util u i in
            let* x := stats_update (io_dev i) (io_util i) x in Ok (i, x)
        end
    end
  else Ok (i, x).

Definition mog_iostat_commit (x : X) : res X := stats_broadcast x.

Abbreviation st := (mog_iostat * X)%type.

Definition go_opt (n p : Z) (i : option mog_iostat) (x : X) : jump st :=
  match i with Some i => GoSt n p (i, x) | None => Stop OutOfBounds end.

Definition act (k : Z) (buf : list Z) (p : Z) (s : st) : jump st :=
  let c := char_at buf p in
  let '(i, x) := s in
  match k with
  | 0 => GoSt 7 (p - 1) s
  | 2 => go_opt 2 p (dev_char c i) x
  | 5 => go_opt 5 p (util_char c (set_util_tip 0 i)) x
  | 8 => go_opt 5 p (util_char c i) x
  | 7 => match mog_iostat_line_done i x with
         | Ok (i, x) => GoSt 8 p (set_dev_tip 0 (set_ready true i), x)
         | Crash w => Stop w
         end
  | 10 => let i := set_dev_tip 0 i in
          if ready i then
            match mog_iostat_commit x with
            | Ok x => GoSt 1 p (set_ready false i, x)
            | Crash w => Stop w
            end
          else GoSt 1 p (i, x)
  | _ => Stop OutOfBounds
  end.

Definition step (buf : list Z) (cs p : Z) (s : st) : jump st :=
  match goto cs (char_at buf p) with
  | Some (St n) => if n =? 0 then GoOut 0 p s else GoSt n p s
  | Some (Tr k) => act k buf p s
  | None => GoOut cs p s (* no case: the switch falls through *)
  end.

(** A character is read twice at most. *)
Definition iostat_fuel (buf : list Z) : nat := S (2 * length buf).

Definition mog_iostat_init (i : mog_iostat) : mog_iostat :=
  MogIostat iostat_parser_start false 0 0 (replicate 8 0) (replicate 72 0).

Definition mog_iostat_parse (i : mog_iostat) (x : X) (buf : list Z) : res (mog_parser_state * mog_iostat * X) :=
  if io_cs i =? iostat_parser_first_final then Ok (MOG_PARSER_DONE, i, x)
  else
    let* r := enter step (iostat_fuel buf) buf (io_cs i) 0 (i, x) in
    let '(i, x) := r_s r in
    let i := set_io_cs (r_cs r) i in
    if r_cs r =? iostat_parser_error then Ok (MOG_PARSER_ERROR, i, x)
    else
      assert! r_p r <=? zlen buf;
      if r_cs r =? iostat_parser_first_final then Ok (MOG_PARSER_DONE, i, x)
      else Ok (MOG_PARSER_CONTINUE, i, x).

(** ** The pipe (iostat.c) *)

Definition iostat_reset (i : mog_iostat) : mog_iostat := set_ready (ready i) (mog_iostat_init i).

(** What becomes of the descriptor. *)
Inductive io_next := IoClosed | IoWaitRd.

(** The loop around [read], with a buffer of 1024 bytes; a script that ends
    means that the pipe is empty. *)
Fixpoint iostat_loop (fuel : nat) (s : list rd) (i : mog_iostat) (x : X) : res (io_next * mog_iostat * X) :=
  match fuel with
  | O => Crash OutOfFuel
  | S fuel' =>
      match s with
      | [] | RErr EAGAIN :: _ => Ok (IoWaitRd, i, x)
      | RErr EINTR :: s => iostat_loop fuel' s i x
      | RErr _ :: _ | RBytes [] :: _ => Ok (IoClosed, i, x)
      | RBytes bs :: s =>
          let s := match drop 1024 bs with [] => s | more => RBytes more :: s end in
          let* '(ps, i, x) := mog_iostat_parse i x (take 1024 bs) in
          match ps with
          | MOG_PARSER_ERROR => Ok (IoClosed, i, x)
          | MOG_PARSER_DONE => iostat_loop fuel' s (iostat_reset i) x
          | MOG_PARSER_CONTINUE => iostat_loop fuel' s i x
          end
      end
  end.

Definition mog_iostat_queue_step (s : list rd) (i : mog_iostat) (x : X) : res (io_next * mog_iostat * X) :=
  iostat_loop (S (sock_size s)) s i x.
End Iostat.

(** ** What a line says *)

Definition is_lws (c : Z) : bool := (c =? 32) || (c =? 9).
Definition is_name (c : Z) : bool := rng 47 57 c || rng 65 90 c || rng 97 122 c.
Definition is_num (c : Z) : bool := (c =? 46) || is_digit c.

Fixpoint drop_lws (q : list Z) : list Z :=
  match q with c :: q' => if is_lws c then drop_lws q' else q | [] => [] end.

(** The characters up to the next white space, and the rest. *)
Fixpoint field (q : list Z) : list Z * list Z :=
  match q with
  | c :: q' => if is_lws c then ([], q) else (c :: (field q').1, (field q').2)
  | [] => ([], [])
  end.

(** The last field of a reversed text, if it is a number behind white space. *)
Definition last_field (q : list Z) : option (list Z) :=
  match field (drop_lws q) with
  | ((_ :: _) as u, _ :: _) => if forallb is_num u then Some (reverse u) else None
  | _ => None
  end.

(** A line is read from the left: the name, then, reversed, what follows. *)
Inductive lstate := LStart | LName (n : list Z) | LTail (n q : list Z) | LDead.

Definition lstep (s : lstate) (c : Z) : lstate :=
  match s with
  | LStart => if is_lws c then LStart else if is_name c then LName [c] else LDead
  | LName n => if is_lws c then LTail n [] else if is_name c then LName (n ++ [c]) else LDead
  | LTail n q => LTail n (c :: q)
  | LDead => LDead
  end.

(** The device and its utilization, when the line is one of statistics. *)
Definition stat_line (l : list Z) : option (list Z * list Z) :=
  match fold_left lstep l LStart with
  | LTail n q => match last_field q with Some u => Some (n, u) | None => None end
  | _ => None
  end.

(** What a line does: statistics are noted, with the arrays of the parser
    holding the name and the number as far as they fit; any other line that
    follows statistics makes them be reported. *)
Inductive line_does {X} `{StatsOps X} (l : list Z) : bool * X -> bool * X -> Prop :=
| ld_stat b x x' n u dev util : stat_line l = Some (n, u) ->
    c_string dev = take 71 n -> c_string util = take 7 u ->
    stats_update dev util x = Ok x' -> line_does l (b, x) (true, x')
| ld_report x x' : stat_line l = None -> stats_broadcast x = Ok x' -> line_does l (true, x) (false, x')
| ld_other x : stat_line l = None -> line_does l (false, x) (false, x).

Inductive lines_do {X} `{StatsOps X} : list (list Z) -> bool * X -> bool * X -> Prop :=
| lsd_nil s : lines_do [] s s
| lsd_snoc ls l s s' s'' : lines_do ls s s' -> line_does l s' s'' -> lines_do (ls ++ [l]) s s''.

(** ** One character at a time *)

Section Feed.
Context {X : Type} `{StatsOps X}.
Abbreviation st := (mog_iostat * X)%type.

(** The step on a character alone, with the second look at it. *)
Definition feed1 (cs : Z) (s : st) (c : Z) : res (Z * st) :=
  match step [c] cs 0 s with
  | GoSt n q s =>
      if q =? 0 then Ok (n, s)
      else if q =? -1 then
        match step [c] n 0 s with
        | GoSt n q s => if q =? 0 then Ok (n, s) else Crash OutOfFuel
        | GoOut _ _ _ => Crash OutOfFuel
        | Stop w => Crash w
        end
      else Crash OutOfFuel
  | GoOut _ _ _ => Crash OutOfFuel
  | Stop w => Crash w
  end.

Fixpoint feed (cs : Z) (s : st) (l : list Z) : res (Z * st) :=
  match l with
  | [] => Ok (cs, s)
  | c :: l => let* '(cs, s) := feed1 cs s c in feed cs s l
  end.

Lemma feed_app cs s a b : feed cs s (a ++ b) = let* '(cs, s) := feed cs s a in feed cs s b.
Proof.
  revert cs s. induction a as [|c a IH]; intros cs s; [done|]. cbn [feed app].
  destruct (feed1 cs s c) as [[cs' s']|]; [|done]. cbn [res_bind]. apply IH.
Qed.

(** A step depends on the character under the pointer only. *)
Definition shift (p : Z) (j : jump st) : jump st :=
  match j with GoSt n q s => GoSt n (p + q) s | GoOut n q s => GoOut n (p + q) s | Stop w => Stop w end.

Lemma step_shift pre c suf cs s :
  step (pre ++ c :: suf) cs (zlen pre) s = shift (zlen pre) (step [c] cs 0 s).
Proof.
  unfold step. rewrite char_at_mid. change (char_at [c] 0) with c. destruct (goto cs c) as [[n|k]|].
  - destruct (n =? 0); simpl; f_equal; lia.
  - unfold act. rewrite char_at_mid. change (char_at [c] 0) with c. destruct s as [i x].
    unfold go_opt. repeat case_match; simpl; try done; f_equal; lia.
  - simpl. f_equal. lia.
Qed.

Lemma feed_exec suf : forall pre cs s n s' fuel, suf <> [] -> feed cs s suf = Ok (n, s') ->
  (2 * length suf < fuel)%nat ->
  exec step fuel (pre ++ suf) cs (zlen pre) s = Ok (Regs n (zlen (pre ++ suf)) s').
Proof.
  induction suf as [|c suf IH]; intros pre cs s n s' fuel Hne Hf Hfu; [done|]. cbn [feed] in Hf.
  destruct (feed1 cs s c) as [[cs1 s1]|] eqn:E; [|done]. cbn [res_bind] in Hf. unfold feed1 in E.
  pose proof (zlen_nonneg pre). pose proof (zlen_nonneg suf). pose proof (zlen_app pre (c :: suf)).
  pose proof (zlen_cons c suf). cbn [length] in Hfu.
  assert (Hin : (0 <=? zlen pre) && (zlen pre <? zlen (pre ++ c :: suf)) = true)
    by (rewrite andb_true_iff, Z.leb_le, Z.ltb_lt; lia).
  assert (Hnext : forall f, (2 * length suf < f)%nat ->
    (if zlen pre + 1 =? zlen (pre ++ c :: suf) then Ok (Regs cs1 (zlen pre + 1) s1)
     else exec step f (pre ++ c :: suf) cs1 (zlen pre + 1) s1) = Ok (Regs n (zlen (pre ++ c :: suf)) s')).
  { intros f Hf'. destruct suf as [|c' suf'] eqn:Es.
    - cbn [feed] in Hf. injection Hf as <- <-. change (zlen []) with 0 in *. rewrite (proj2 (Z.eqb_eq _ _)) by lia. do 2 f_equal. lia.
    - rewrite (proj2 (Z.eqb_neq _ _)) by (pose proof (zlen_cons c' suf'); pose proof (zlen_nonneg suf'); lia).
      rewrite split_shift. replace (zlen pre + 1) with (zlen (pre ++ [c])) by (rewrite zlen_app; done).
      apply IH; [done|exact Hf|done]. }
  destruct fuel as [|fuel]; [lia|]. cbn [exec]. rewrite Hin, step_shift.
  destruct (step [c] cs 0 s) as [n1 q s2|n1 q s2|w] eqn:E1; cbn [shift]; [|done..].
  destruct (Z.eqb_spec q 0) as [->|Hq0]; [injection E as -> ->; rewrite Z.add_0_r; apply Hnext; lia|].
  destruct (Z.eqb_spec q (-1)) as [->|]; [|done].
  destruct (step [c] n1 0 s2) as [n2 q2 s3|n2 q2 s3|w] eqn:E2; [|done..].
  destruct (Z.eqb_spec q2 0) as [->|]; [|done]. injection E as -> ->.
  destruct (Z.eqb_spec (zlen pre + -1 + 1) (zlen (pre ++ c :: suf))); [lia|].
  replace (zlen pre + -1 + 1) with (zlen pre) by lia. destruct fuel as [|fuel]; [lia|]. cbn [exec].
  rewrite Hin, step_shift, E2. cbn [shift]. rewrite Z.add_0_r. apply Hnext. lia.
Qed.

End Feed.

(** ** The transitions by classes of characters *)

Ltac goto_classes :=
  unfold goto; cbn [cases_1]; unfold is_lws, is_name, is_num, is_digit, rng; f_equal;
  repeat match goal with |- context [?a =? ?b] => destruct (Z.eqb_spec a b); [subst; reflexivity|] end;
  repeat match goal with |- context [?a <=? ?b] => destruct (Z.leb_spec a b) end;
  repeat match goal with |- context [?a <? ?b] => destruct (Z.ltb_spec a b) end;
  cbn [andb orb]; try reflexivity; exfalso; lia.

Lemma iostat_goto_start cs c : cs = 1 \/ cs = 8 ->
  goto cs c = Some (if is_lws c then St 1 else if is_name c then Tr 2 else Tr 0).
Proof. intros [-> | ->]; goto_classes. Qed.
Lemma goto_2 c : goto 2 c = Some (if is_lws c then St 3 else if is_name c then Tr 2 else Tr 0).
Proof. goto_classes. Qed.
Lemma goto_3 c : goto 3 c = Some (if is_lws c then St 4 else if c =? 10 then Tr 0 else St 3).
Proof. goto_classes. Qed.
Lemma goto_4 c : goto 4 c = Some (if is_lws c then St 4 else if c =? 10 then Tr 0 else if is_num c then Tr 5 else St 3).
Proof. goto_classes. Qed.
Lemma goto_5 c : goto 5 c = Some (if is_lws c then St 6 else if c =? 10 then Tr 7 else if is_num c then Tr 8 else St 3).
Proof. goto_classes. Qed.
Lemma goto_6 c : goto 6 c = Some (if is_lws c then St 6 else if c =? 10 then Tr 7 else if is_num c then Tr 5 else St 3).
Proof. goto_classes. Qed.
Lemma goto_7 c : goto 7 c = Some (if c =? 10 then Tr 10 else St 7).
Proof. goto_classes. Qed.

(** ** The last field, one character further *)

Definition starts_lws (q : list Z) : bool := match q with c :: _ => is_lws c | [] => false end.

Lemma num_not_lws c : is_num c = true -> is_lws c = false.
Proof. unfold is_num, is_lws, is_digit, rng. intros. destruct (Z.eqb_spec c 32), (Z.eqb_spec c 9); subst; done. Qed.

Lemma field_drop q : starts_lws q = false -> drop_lws q = q.
Proof. destruct q as [|c q]; simpl; [done|]. by intros ->. Qed.

Lemma last_field_lws c q : is_lws c = true -> last_field (c :: q) = last_field q.
Proof. intros H. unfold last_field. cbn [drop_lws]. by rewrite H. Qed.

Lemma last_field_cons c q : is_lws c = false ->
  last_field (c :: q) = match (field q).2 with
                        | [] => None
                        | _ => if is_num c && forallb is_num (field q).1 then Some (reverse (field q).1 ++ [c]) else None
                        end.
Proof.
  intros H. unfold last_field. cbn [drop_lws]. rewrite H. cbn [field]. rewrite H.
  destruct (field q) as [a [|w b]]; cbn [fst snd forallb]; [done|]. by rewrite reverse_cons.
Qed.

(** The state that the end of a line is in decides what comes of a digit. *)
Lemma last_field_num c q : is_num c = true ->
  last_field (c :: q) =
    if starts_lws q then Some [c]
    else match last_field q with Some u => Some (u ++ [c]) | None => None end.
Proof.
  intros H. rewrite last_field_cons by by apply num_not_lws. rewrite H. cbn [andb].
  destruct q as [|d q]; [done|]. cbn [starts_lws field]. destruct (is_lws d) eqn:E; [done|].
  rewrite last_field_cons by done. cbn [fst snd forallb]. destruct (field q).2; [done|].
  destruct (is_num d && _); [|done]. by rewrite reverse_cons.
Qed.

Lemma last_field_other c q : is_lws c = false -> is_num c = false -> last_field (c :: q) = None.
Proof. intros H1 H2. rewrite last_field_cons by done. rewrite H2. by destruct (field q).2. Qed.

(** ** Lines of statistics, spelt out *)

Lemma forallb_class (f : Z -> bool) l : forallb f l = true <-> Forall (fun c => f c = true) l.
Proof. induction l as [|c l IH]; simpl; [done|]. rewrite andb_true_iff, Forall_cons_iff. tauto. Qed.

Lemma drop_lws_spec q : exists b, q = b ++ drop_lws q /\ Forall (fun c => is_lws c = true) b /\ starts_lws (drop_lws q) = false.
Proof.
  induction q as [|c q IH]; simpl; [by exists []|]. destruct (is_lws c) eqn:E; [|by exists []].
  destruct IH as (b & Hq & Hb & Hs). exists (c :: b). simpl. split; [by f_equal|]. split; [by constructor|done].
Qed.

Lemma field_spec q : q = (field q).1 ++ (field q).2 /\ Forall (fun c => is_lws c = false) (field q).1 /\
  ((field q).2 = [] \/ starts_lws (field q).2 = true).
Proof.
  induction q as [|c q IH]; simpl; [auto|]. destruct (is_lws c) eqn:E; simpl; [auto|].
  destruct IH as (Hq & Hf & Hs). split; [by f_equal|]. split; [by constructor|done].
Qed.

Lemma field_app u v m : Forall (fun c => is_lws c = false) u -> is_lws v = true -> field (u ++ v :: m) = (u, v :: m).
Proof. intros Hu Hv. induction Hu as [|c u Hc _ IH]; simpl; [by rewrite Hv|]. by rewrite Hc, IH. Qed.

Lemma last_field_iff q u : last_field q = Some u <->
  exists b v m, q = b ++ reverse u ++ v :: m /\ u <> [] /\ is_lws v = true /\
    Forall (fun c => is_lws c = true) b /\ Forall (fun c => is_num c = true) u.
Proof.
  unfold last_field. split.
  - destruct (drop_lws_spec q) as (b & Hq & Hb & _). destruct (field_spec (drop_lws q)) as (Hf & _ & Hs).
    destruct (field (drop_lws q)) as [[|c f] [|v m]]; try done. destruct (forallb is_num (c :: f)) eqn:E; [|done].
    intros [= <-]. exists b, v, m. rewrite reverse_involutive. split; [by rewrite Hq at 1; rewrite Hf at 1|].
    split; [intros Hn%(f_equal reverse); by rewrite reverse_involutive in Hn|]. destruct Hs as [|Hs]; [done|].
    split; [done|]. split; [done|]. apply Forall_reverse. by apply forallb_class.
  - intros (b & v & m & -> & Hne & Hv & Hb & Hu).
    assert (Hnl : Forall (fun c => is_lws c = false) (reverse u)).
    { apply Forall_reverse. revert Hu. apply Forall_impl. intros c. apply num_not_lws. }
    assert (Hd : drop_lws (b ++ reverse u ++ v :: m) = reverse u ++ v :: m).
    { induction Hb as [|c b Hc _ IH]; simpl; [|by rewrite Hc]. apply field_drop.
      destruct (reverse u) eqn:E; [|by apply Forall_cons_1 in Hnl as [? _]].
      apply (f_equal reverse) in E. by rewrite reverse_involutive in E. }
    rewrite Hd, field_app by done. destruct (reverse u) as [|c f] eqn:E.
    { apply (f_equal reverse) in E. by rewrite reverse_involutive in E. }
    rewrite <- E, reverse_involutive. replace (forallb is_num (reverse u)) with true; [done|]. symmetry.
    apply forallb_class. by apply Forall_reverse.
Qed.

Lemma name_not_lws c : is_name c = true -> is_lws c = false.
Proof. unfold is_name, is_lws, rng. intros. destruct (Z.eqb_spec c 32), (Z.eqb_spec c 9); subst; done. Qed.

Lemma scan_tail r n q : fold_left lstep r (LTail n q) = LTail n (reverse r ++ q).
Proof. revert q. induction r as [|c r IH]; intros q; simpl; [done|]. rewrite IH, reverse_cons, <- app_assoc. done. Qed.

Lemma scan_name r n : Forall (fun c => is_name c = true) r -> fold_left lstep r (LName n) = LName (n ++ r).
Proof.
  intros Hr. revert n. induction Hr as [|c r Hc _ IH]; intros n; simpl; [by rewrite app_nil_r|].
  rewrite (name_not_lws c Hc), Hc, IH, <- app_assoc. done.
Qed.

Lemma scan_start a : Forall (fun c => is_lws c = true) a -> fold_left lstep a LStart = LStart.
Proof. induction 1 as [|c a Hc _ IH]; simpl; [done|]. by rewrite Hc. Qed.

Lemma scan_spec l : match fold_left lstep l LStart with
  | LStart => Forall (fun c => is_lws c = true) l
  | LName n => exists a, l = a ++ n /\ Forall (fun c => is_lws c = true) a /\ Forall (fun c => is_name c = true) n /\ n <> []
  | LTail n q => exists a w, l = a ++ n ++ w :: reverse q /\ is_lws w = true /\ Forall (fun c => is_lws c = true) a /\
      Forall (fun c => is_name c = true) n /\ n <> []
  | LDead => True
  end.
Proof.
  induction l as [|c l IH] using rev_ind; [constructor|]. rewrite fold_left_app. cbn [fold_left].
  destruct (fold_left lstep l LStart) as [|n|n q|]; simpl.
  - destruct (is_lws c) eqn:E; [apply Forall_app; by repeat constructor|]. destruct (is_name c) eqn:E2; [|done].
    exists l. by repeat constructor.
  - destruct IH as (a & -> & Ha & Hn & Hne). destruct (is_lws c) eqn:E.
    + exists a, c. by rewrite <- app_assoc.
    + destruct (is_name c) eqn:E2; [|done]. exists a. rewrite <- app_assoc. split; [done|]. split; [done|].
      split; [apply Forall_app; by repeat constructor|by destruct n].
  - destruct IH as (a & w & -> & Hw & Ha & Hn & Hne). exists a, w. rewrite reverse_cons. split; [|done].
    by rewrite <- !app_assoc.
  - done.
Qed.

(** A line of statistics: a name, white space, anything, white space, a number. *)
Theorem stat_line_iff l n u : stat_line l = Some (n, u) <->
  exists a w m v b, l = a ++ n ++ [w] ++ m ++ [v] ++ u ++ b /\ n <> [] /\ u <> [] /\
    is_lws w = true /\ is_lws v = true /\ Forall (fun c => is_lws c = true) a /\ Forall (fun c => is_lws c = true) b /\
    Forall (fun c => is_name c = true) n /\ Forall (fun c => is_num c = true) u.
Proof.
  unfold stat_line. split.
  - pose proof (scan_spec l) as Hs. destruct (fold_left lstep l LStart) as [| |n' q|]; try done.
    destruct Hs as (a & w & -> & Hw & Ha & Hn & Hne). destruct (last_field q) as [u'|] eqn:E; [|done]. intros [= <- <-].
    apply last_field_iff in E as (b & v & m & -> & Hu & Hv & Hb & Hnum).
    exists a, w, (reverse m), v, (reverse b). split_and!; try done; [|by apply Forall_reverse].
    rewrite !reverse_app, reverse_cons, reverse_involutive. do 2 f_equal. simpl. by rewrite <- !app_assoc.
  - intros (a & w & m & v & b & -> & Hn & Hu & Hw & Hv & Ha & Hb & Hna & Hnu).
    rewrite fold_left_app, scan_start by done. destruct n as [|c n]; [done|]. apply Forall_cons_1 in Hna as [Hc Hna].
    rewrite !fold_left_app. cbn [fold_left lstep]. rewrite (name_not_lws c Hc), Hc, scan_name by done.
    cbn [fold_left lstep app]. rewrite Hw, scan_tail. cbn [lstep]. rewrite !scan_tail, app_nil_r.
    rewrite (proj2 (last_field_iff _ u)); [done|]. exists (reverse b), v, (reverse m).
    split; [done|]. split_and!; try done; by apply Forall_reverse.
Qed.

(** ** The arrays *)

Definition arrays_ok (i : mog_iostat) : Prop :=
  length (io_dev i) = 72%nat /\ length (io_util i) = 8%nat /\ 0 <= dev_tip i <= 71 /\ 0 <= util_tip i <= 7.

(** An array that holds a text up to its tip, as far as it fits. *)
Definition holds (a : list Z) (tip : Z) (cap : nat) (text : list Z) : Prop :=
  tip = Z.of_nat (Nat.min cap (length text)) /\ take (Z.to_nat tip) a = take cap text.

Lemma holds_nil a cap : holds a 0 cap [].
Proof. split; [by destruct cap|]. by rewrite take_nil. Qed.

Lemma array_set_ok a i c : 0 <= i < zlen a -> array_set a i c = Some (<[Z.to_nat i := c]> a).
Proof. intros. unfold array_set. rewrite (proj2 (andb_true_iff _ _)); [done|]. rewrite Z.leb_le, Z.ltb_lt. lia. Qed.

Lemma holds_push a tip cap text c : holds a tip cap text -> tip < Z.of_nat cap -> (cap < length a)%nat ->
  holds (<[Z.to_nat tip := c]> a) (tip + 1) cap (text ++ [c]).
Proof.
  intros [Ht Htake] Hlt Hl. assert (Hlen : tip = Z.of_nat (length text)) by lia.
  rewrite Hlen in *. rewrite Nat2Z.id in *. split; [rewrite length_app; simpl; lia|].
  replace (Z.to_nat (Z.of_nat (length text) + 1)) with (S (length text)) by lia.
  erewrite take_S_r; [|apply list_lookup_insert_eq; lia]. rewrite take_insert_ge by lia. rewrite Htake.
  rewrite !take_ge; [done|rewrite length_app; simpl; lia|lia].
Qed.

Lemma holds_full a tip cap text c : holds a tip cap text -> Z.of_nat cap <= tip -> holds a tip cap (text ++ [c]).
Proof.
  intros [Ht Htake] Hge. assert (cap <= length text)%nat by lia. split; [rewrite length_app; lia|].
  rewrite Htake, take_app_le by lia. done.
Qed.

(** Cut at its tip it is the text. *)
Lemma holds_string a tip cap text : holds a tip cap text -> (cap < length a)%nat -> Forall (fun c => c <> 0) text ->
  c_string (<[Z.to_nat tip := 0]> a) = take cap text.
Proof.
  intros [Ht Htake] Hl Hnz. rewrite <- Htake. assert (Hlt : (Z.to_nat tip < length a)%nat) by lia.
  assert (Hnz' : Forall (fun c => c <> 0) (take (Z.to_nat tip) a)) by (rewrite Htake; by apply Forall_take).
  rewrite <- (take_drop (Z.to_nat tip) (<[Z.to_nat tip := 0]> a)), take_insert_ge by lia.
  rewrite (drop_S _ 0) by (by apply list_lookup_insert_eq).
  generalize (drop (S (Z.to_nat tip)) (<[Z.to_nat tip := 0]> a)) as r. intros r.
  clear -Hnz'. induction Hnz' as [|c l Hc _ IH]; [done|]. cbn [c_string app]. rewrite (proj2 (Z.eqb_neq _ _)) by done. f_equal. exact IH.
Qed.

Lemma dev_char_holds c i n : arrays_ok i -> holds (io_dev i) (dev_tip i) 71 n ->
  exists i', dev_char c i = Some i' /\ arrays_ok i' /\ holds (io_dev i') (dev_tip i') 71 (n ++ [c]) /\ ready i' = ready i.
Proof.
  intros (H1 & H2 & H3 & H4) Hh. unfold dev_char, sizeof_dev. destruct (Z.ltb_spec (dev_tip i) (72 - 1)).
  - rewrite array_set_ok by (unfold zlen; lia). eexists; split_and!; [done| | |done]; simpl.
    + split_and!; simpl; rewrite ?length_insert; lia.
    + apply holds_push; [done|lia|lia].
  - exists i. split_and!; [done|done| |done]. apply holds_full; [done|lia].
Qed.

Lemma util_char_holds c i u : arrays_ok i -> holds (io_util i) (util_tip i) 7 u ->
  exists i', util_char c i = Some i' /\ arrays_ok i' /\ holds (io_util i') (util_tip i') 7 (u ++ [c]) /\
    ready i' = ready i /\ io_dev i' = io_dev i /\ dev_tip i' = dev_tip i.
Proof.
  intros (H1 & H2 & H3 & H4) Hh. unfold util_char, MOG_IOUTIL_LEN. destruct (Z.ltb_spec (util_tip i) (8 - 1)).
  - rewrite array_set_ok by (unfold zlen; lia). eexists; split_and!; [done| | |done..]; simpl.
    + split_and!; simpl; rewrite ?length_insert; lia.
    + apply holds_push; [done|lia|lia].
  - exists i. split_and!; [done|done| |done..]. apply holds_full; [done|lia].
Qed.

(** ** Lines *)

Definition name_at (n : list Z) (i : mog_iostat) : Prop :=
  holds (io_dev i) (dev_tip i) 71 n /\ Forall (fun c => is_name c = true) n.

Definition number_at (q : list Z) (i : mog_iostat) : Prop :=
  exists u, last_field q = Some u /\ holds (io_util i) (util_tip i) 7 u /\ Forall (fun c => is_num c = true) u.

(** The state behind the name: white space or not, a number or none yet. *)
Definition tail_at (q : list Z) (cs : Z) (i : mog_iostat) : Prop :=
  (starts_lws q = false /\ cs = 3 /\ last_field q = None) \/
  (starts_lws q = true /\ cs = 4 /\ last_field q = None) \/
  (starts_lws q = false /\ cs = 5 /\ number_at q i) \/
  (starts_lws q = true /\ cs = 6 /\ number_at q i).

(** Where the machine is when it has read the part [l] of a line. *)
Definition line_at (l : list Z) (cs : Z) (i : mog_iostat) : Prop :=
  arrays_ok i /\
  match fold_left lstep l LStart with
  | LStart => (cs = 1 \/ cs = 8) /\ dev_tip i = 0
  | LName n => cs = 2 /\ name_at n i
  | LTail n q => name_at n i /\ tail_at q cs i
  | LDead => cs = 7
  end.

Section Lines.
Context {X : Type} (Inv : X -> Prop) `{HL : StatsLaws X Inv}.

Lemma step_tr cs c k (s : mog_iostat * X) : goto cs c = Some (Tr k) -> step [c] cs 0 s = act k [c] 0 s.
Proof. intros Hg. unfold step. change (char_at [c] 0) with c. by rewrite Hg. Qed.

Lemma act_2 c i (x : X) : act 2 [c] 0 (i, x) = go_opt 2 0 (dev_char c i) x.
Proof. reflexivity. Qed.
Lemma act_5 c i (x : X) : act 5 [c] 0 (i, x) = go_opt 5 0 (util_char c (set_util_tip 0 i)) x.
Proof. reflexivity. Qed.
Lemma act_8 c i (x : X) : act 8 [c] 0 (i, x) = go_opt 5 0 (util_char c i) x.
Proof. reflexivity. Qed.

Lemma feed_st cs c n (s : mog_iostat * X) : goto cs c = Some (St n) -> n <> 0 -> feed1 cs s c = Ok (n, s).
Proof.
  intros Hg Hn. unfold feed1, step. change (char_at [c] 0) with c. rewrite Hg.
  by rewrite (proj2 (Z.eqb_neq _ _)) by done.
Qed.

(** A character that ends the hope for statistics. *)
Lemma feed_dead cs c (s : mog_iostat * X) : goto cs c = Some (Tr 0) -> c <> 10 -> feed1 cs s c = Ok (7, s).
Proof.
  intros Hg Hc. unfold feed1. rewrite (step_tr _ _ _ _ Hg). destruct s as [i x]. simpl.
  unfold step. change (char_at [c] 0) with c. rewrite goto_7. by rewrite (proj2 (Z.eqb_neq _ _)) by done.
Qed.

(** The end of a line that is not one of statistics. *)
Lemma feed_ignored cs i x : goto cs 10 = Some (Tr 0) \/ cs = 7 -> Inv x -> arrays_ok i ->
  exists x' i', feed1 cs (i, x) 10 = Ok (1, (i', x')) /\ Inv x' /\ arrays_ok i' /\ dev_tip i' = 0 /\
    (if ready i then stats_broadcast x = Ok x' /\ ready i' = false else x' = x /\ ready i' = false).
Proof.
  intros Hcs Hx (H1 & H2 & H3 & H4). destruct HL as [_ Hb]. destruct (Hb x Hx) as (x' & Hx' & Hi').
  assert (Hact : exists x' i', step [10] 7 0 (i, x) = GoSt 1 0 (i', x') /\ Inv x' /\ arrays_ok i' /\ dev_tip i' = 0 /\
    (if ready i then stats_broadcast x = Ok x' /\ ready i' = false else x' = x /\ ready i' = false)).
  { unfold step. simpl. unfold mog_iostat_commit. rewrite Hx'. destruct (ready i) eqn:Er; simpl.
    - eexists _, _. split; [done|]. split; [done|]. split; [|done]. repeat split; simpl; lia.
    - eexists _, _. split; [done|]. split; [done|]. split; [|done]. repeat split; simpl; lia. }
  destruct Hact as (x2 & i2 & Hs & Hrest). exists x2, i2. split; [|done].
  destruct Hcs as [Hg| ->]; unfold feed1.
  - rewrite (step_tr _ _ _ _ Hg). cbn [act]. cbn [Z.eqb Z.sub Z.add Z.opp]. by rewrite Hs.
  - by rewrite Hs.
Qed.

Lemma line_at_lstep l c s : fold_left lstep (l ++ [c]) s = lstep (fold_left lstep l s) c.
Proof. by rewrite fold_left_app. Qed.

Lemma tail_step q n cs i x c : tail_at q cs i -> name_at n i -> arrays_ok i -> c <> 10 ->
  exists cs' i', feed1 cs (i, x) c = Ok (cs', (i', x)) /\ tail_at (c :: q) cs' i' /\ name_at n i' /\
    arrays_ok i' /\ ready i' = ready i.
Proof.
  intros Ht Hn Ha Hc. assert (E10 : (c =? 10) = false) by by apply Z.eqb_neq.
  assert (Hdead : is_lws c = false -> is_num c = false -> tail_at (c :: q) 3 i).
  { intros Hw Hm. left. simpl. split_and!; [done|done|by apply last_field_other]. }
  destruct (is_lws c) eqn:Hw.
  - (* white space *)
    unfold tail_at, number_at in *. simpl. rewrite !(last_field_lws c q Hw), !Hw.
    destruct Ht as [(Hq & -> & Hl)|[(Hq & -> & Hl)|[(Hq & -> & Hl)|(Hq & -> & Hl)]]].
    all: eexists _, i; split; [apply feed_st; [rewrite ?goto_3, ?goto_4, ?goto_5, ?goto_6, Hw; reflexivity|done]|];
      split_and!; naive_solver.
  - destruct (is_num c) eqn:Hm.
    2:{ destruct Ht as [(Hq & -> & Hl)|[(Hq & -> & Hl)|[(Hq & -> & Hl)|(Hq & -> & Hl)]]].
        all: exists 3, i; split; [apply feed_st;
          [rewrite ?goto_3, ?goto_4, ?goto_5, ?goto_6, Hw, E10, ?Hm; reflexivity|done]|]; split_and!; auto. }
    pose proof (last_field_num c q Hm) as Hlf.
    assert (Hfirst : goto cs c = Some (Tr 5) -> starts_lws q = true -> exists cs' i', feed1 cs (i, x) c = Ok (cs', (i', x)) /\
      tail_at (c :: q) cs' i' /\ name_at n i' /\ arrays_ok i' /\ ready i' = ready i).
    { intros Hg Hq. destruct (util_char_holds c (set_util_tip 0 i) []) as (i' & Hi' & Ha' & Hh' & Hr' & Hd' & Hdt').
      - destruct Ha as (? & ? & ? & ?). split_and!; simpl; lia.
      - apply holds_nil.
      - exists 5, i'. split_and!; [| |by unfold name_at; rewrite Hd', Hdt'|done|done].
        + unfold feed1. rewrite (step_tr _ _ _ _ Hg), act_5. by rewrite Hi'.
        + right; right; left. simpl. split_and!; [done|done|]. exists [c]. rewrite Hlf, Hq. split_and!; [done|done|by repeat constructor]. }
    destruct Ht as [(Hq & -> & Hl)|[(Hq & -> & Hl)|[(Hq & -> & Hl)|(Hq & -> & Hl)]]].
    + exists 3, i. split; [apply feed_st; [rewrite goto_3, Hw, E10; reflexivity|done]|]. split_and!; [|done..].
      left. simpl. split_and!; [done|done|]. by rewrite Hlf, Hq, Hl.
    + apply Hfirst; [|done]. by rewrite goto_4, Hw, E10, Hm.
    + destruct Hl as (u & Hu & Hh & Hall). destruct (util_char_holds c i u Ha Hh) as (i' & Hi' & Ha' & Hh' & Hr' & Hd' & Hdt').
      exists 5, i'. split_and!; [| |by unfold name_at; rewrite Hd', Hdt'|done|done].
      * unfold feed1. assert (Hg : goto 5 c = Some (Tr 8)) by by rewrite goto_5, Hw, E10, Hm.
        rewrite (step_tr _ _ _ _ Hg), act_8. by rewrite Hi'.
      * right; right; left. simpl. split_and!; [done|done|]. exists (u ++ [c]). rewrite Hlf, Hq, Hu.
        split_and!; [done|done|]. apply Forall_app. split; [done|by repeat constructor].
    + apply Hfirst; [|done]. by rewrite goto_6, Hw, E10, Hm.
Qed.

Lemma name_step n cs i x c : goto cs c = Some (Tr 2) -> name_at n i -> arrays_ok i -> is_name c = true ->
  exists i', feed1 cs (i, x) c = Ok (2, (i', x)) /\ name_at (n ++ [c]) i' /\ arrays_ok i' /\ ready i' = ready i.
Proof.
  intros Hg [Hh Hall] Ha Hc. destruct (dev_char_holds c i n Ha Hh) as (i' & Hi' & Ha' & Hh' & Hr').
  exists i'. split_and!; [|split; [done|]|done|done].
  - unfold feed1. rewrite (step_tr _ _ _ _ Hg), act_2. by rewrite Hi'.
  - apply Forall_app. split; [done|by repeat constructor].
Qed.

(** A character inside a line. *)
Lemma char_step l cs i x c : line_at l cs i -> c <> 10 ->
  exists cs' i', feed1 cs (i, x) c = Ok (cs', (i', x)) /\ line_at (l ++ [c]) cs' i' /\ ready i' = ready i.
Proof.
  intros [Ha Hl] Hc. unfold line_at. rewrite line_at_lstep. destruct (fold_left lstep l LStart) as [|n|n q|]; simpl.
  - destruct Hl as [Hcs Ht]. pose proof (iostat_goto_start cs c Hcs) as Hg. destruct (is_lws c) eqn:Hw.
    { exists 1, i. split; [by apply feed_st|]. auto. }
    destruct (is_name c) eqn:Hn.
    + destruct (name_step [] cs i x c Hg) as (i' & Hf & ? & ? & ?); [split; [rewrite Ht; apply holds_nil|done]|done|done|].
      exists 2, i'. auto.
    + exists 7, i. split; [by apply feed_dead|]. auto.
  - destruct Hl as [-> Hn]. pose proof (goto_2 c) as Hg. destruct (is_lws c) eqn:Hw.
    { exists 3, i. split; [by apply feed_st|]. split; [|done]. split; [done|]. split; [done|]. left. done. }
    destruct (is_name c) eqn:Hm.
    + destruct (name_step n 2 i x c Hg Hn Ha Hm) as (i' & Hf & ? & ? & ?). exists 2, i'. auto.
    + exists 7, i. split; [by apply feed_dead|]. auto.
  - destruct Hl as [Hn Ht]. destruct (tail_step q n cs i x c Ht Hn Ha Hc) as (cs' & i' & Hf & ? & ? & ? & ?).
    exists cs', i'. auto.
  - subst cs. exists 7, i. split; [|auto]. apply feed_st; [|done]. rewrite goto_7. by rewrite (proj2 (Z.eqb_neq _ _)).
Qed.

Lemma nonzero_class (f : Z -> bool) l : f 0 = false -> Forall (fun c => f c = true) l -> Forall (fun c => c <> 0) l.
Proof. intros Hf. apply Forall_impl. intros c Hc ->. congruence. Qed.

(** The end of a line of statistics. *)
Lemma stat_done cs n u i x : goto cs 10 = Some (Tr 7) -> name_at n i -> arrays_ok i ->
  holds (io_util i) (util_tip i) 7 u -> Forall (fun c => is_num c = true) u -> Inv x ->
  exists dev util x' i', feed1 cs (i, x) 10 = Ok (8, (i', x')) /\ Inv x' /\ arrays_ok i' /\ dev_tip i' = 0 /\
    ready i' = true /\ c_string dev = take 71 n /\ c_string util = take 7 u /\ stats_update dev util x = Ok x'.
Proof.
  intros Hg [Hn Hna] (H1 & H2 & H3 & H4) Hu Hua Hx. destruct HL as [Hup _].
  destruct (Hup (<[Z.to_nat (dev_tip i) := 0]> (io_dev i)) (<[Z.to_nat (util_tip i) := 0]> (io_util i)) x)
    as (x' & Hx' & Hi'); [by rewrite length_insert|by rewrite length_insert|done|].
  eexists _, _, x', _. split.
  - unfold feed1. rewrite (step_tr _ _ _ _ Hg). cbn [act]. unfold mog_iostat_line_done, sizeof_dev, MOG_IOUTIL_LEN.
    rewrite (proj2 (Z.ltb_lt _ _)) by lia. rewrite array_set_ok by (unfold zlen; lia). cbn [util_tip set_io_dev io_util].
    rewrite (proj2 (Z.ltb_lt _ _)) by lia. rewrite array_set_ok by (unfold zlen; lia). cbn [set_io_util io_dev io_util].
    cbn [io_dev set_io_dev]. rewrite Hx'. reflexivity.
  - split; [done|]. split; [repeat split; simpl; rewrite ?length_insert; lia|]. split; [done|]. split; [done|].
    split; [apply holds_string; [done|lia|by apply (nonzero_class is_name)]|].
    split; [apply holds_string; [done|lia|by apply (nonzero_class is_num)]|done].
Qed.

(** The end of a line does what the line says. *)
Lemma newline_step l cs i x : line_at l cs i -> Inv x ->
  exists cs' i' x', feed1 cs (i, x) 10 = Ok (cs', (i', x')) /\ line_at [] cs' i' /\ Inv x' /\
    line_does l (ready i, x) (ready i', x').
Proof.
  intros [Ha Hl] Hx.
  assert (Hign : (goto cs 10 = Some (Tr 0) \/ cs = 7) -> stat_line l = None ->
    exists cs' i' x', feed1 cs (i, x) 10 = Ok (cs', (i', x')) /\ line_at [] cs' i' /\ Inv x' /\
      line_does l (ready i, x) (ready i', x')).
  { intros Hg Hs. destruct (feed_ignored cs i x Hg Hx Ha) as (x' & i' & Hf & Hi' & Ha' & Ht & Hr).
    exists 1, i', x'. split; [done|]. split; [split; simpl; auto|]. split; [done|].
    destruct (ready i); destruct Hr as [Hr ->]; [by apply ld_report|subst x'; by apply ld_other]. }
  assert (Hstat : forall n q, fold_left lstep l LStart = LTail n q -> goto cs 10 = Some (Tr 7) -> name_at n i -> number_at q i ->
    exists cs' i' x', feed1 cs (i, x) 10 = Ok (cs', (i', x')) /\ line_at [] cs' i' /\ Inv x' /\
      line_does l (ready i, x) (ready i', x')).
  { intros n q Hq Hg Hn (u & Hu & Hh & Hall).
    destruct (stat_done cs n u i x Hg Hn Ha Hh Hall Hx) as (dev & util & x' & i' & Hf & Hi' & Ha' & Ht & Hr & Hd & Hut & Hup).
    exists 8, i', x'. split; [done|]. split; [split; simpl; auto|]. split; [done|]. rewrite Hr.
    eapply ld_stat; [|exact Hd|exact Hut|done]. unfold stat_line. by rewrite Hq, Hu. }
  unfold stat_line in Hign. destruct (fold_left lstep l LStart) as [|n|n q|].
  - apply Hign; [|done]. left. destruct Hl as [Hcs _]. by rewrite (iostat_goto_start cs 10 Hcs).
  - apply Hign; [|done]. left. by destruct Hl as [-> _].
  - destruct Hl as [Hn Ht]. unfold tail_at in Ht.
    destruct Ht as [(_ & -> & Hf)|[(_ & -> & Hf)|[(_ & -> & Hf)|(_ & -> & Hf)]]].
    + apply Hign; [by left|by rewrite Hf].
    + apply Hign; [by left|by rewrite Hf].
    + by apply (Hstat n q).
    + by apply (Hstat n q).
  - apply Hign; [by right|done].
Qed.
End Lines.

(** ** The text that came through the pipe *)

(** The complete lines of a text, and what follows the last newline. *)
Definition split_step (s : list (list Z) * list Z) (c : Z) : list (list Z) * list Z :=
  if c =? 10 then (s.1 ++ [s.2], []) else (s.1, s.2 ++ [c]).
Definition split_lines (t : list Z) : list (list Z) * list Z := fold_left split_step t ([], []).

(** The bytes that a script of the pipe delivers in one step, and what becomes
    of the descriptor then. *)
Fixpoint piped (s : list rd) : list Z * io_next :=
  match s with
  | [] | RErr EAGAIN :: _ => ([], IoWaitRd)
  | RErr EINTR :: s => piped s
  | RErr _ :: _ | RBytes [] :: _ => ([], IoClosed)
  | RBytes bs :: s => (bs ++ (piped s).1, (piped s).2)
  end.

(** The steps of a descriptor, until it is closed. *)
Fixpoint wakeups {X} `{StatsOps X} (ss : list (list rd)) (i : mog_iostat) (x : X) : res (io_next * mog_iostat * X) :=
  match ss with
  | [] => Ok (IoWaitRd, i, x)
  | s :: ss =>
      let* '(n, i, x) := mog_iostat_queue_step s i x in
      match n with IoClosed => Ok (IoClosed, i, x) | IoWaitRd => wakeups ss i x end
  end.

Fixpoint piped_all (ss : list (list rd)) : list Z :=
  match ss with
  | [] => []
  | s :: ss => (piped s).1 ++ match (piped s).2 with IoClosed => [] | IoWaitRd => piped_all ss end
  end.

Section Text.
Context {X : Type} (Inv : X -> Prop) `{HL : StatsLaws X Inv}.

(** The state after the text [t], from [x0]. *)
Definition read_to (t : list Z) (b0 : bool * X) (cs : Z) (i : mog_iostat) (x : X) : Prop :=
  lines_do (split_lines t).1 b0 (ready i, x) /\ line_at (split_lines t).2 cs i /\ Inv x.

Lemma split_snoc t c : split_lines (t ++ [c]) = split_step (split_lines t) c.
Proof. unfold split_lines. by rewrite fold_left_app. Qed.

Lemma feed_reads buf : forall t b0 cs i x, read_to t b0 cs i x ->
  exists cs' i' x', feed cs (i, x) buf = Ok (cs', (i', x')) /\ read_to (t ++ buf) b0 cs' i' x'.
Proof.
  induction buf as [|c buf IH]; intros t b0 cs i x Hr.
  { exists cs, i, x. split; [done|]. by rewrite app_nil_r. }
  cbn [feed]. rewrite (split_shift t c buf). destruct Hr as (Hl & Hp & Hi).
  destruct (decide (c = 10)) as [->|Hc].
  - destruct (newline_step Inv _ _ _ _ Hp Hi) as (cs' & i' & x' & -> & Hp' & Hi' & Hd). cbn [res_bind].
    apply IH. unfold read_to. rewrite split_snoc. unfold split_step. simpl. split; [|done]. by eapply lsd_snoc.
  - destruct (char_step _ _ _ x _ Hp Hc) as (cs' & i' & -> & Hp' & Hrd). cbn [res_bind].
    apply IH. unfold read_to. rewrite split_snoc. unfold split_step. rewrite (proj2 (Z.eqb_neq _ _)) by done.
    simpl. by rewrite Hrd.
Qed.

Lemma line_at_range l cs i : line_at l cs i -> 1 <= cs <= 8.
Proof.
  intros [_ Hl]. destruct (fold_left lstep l LStart); [lia|lia| |lia]. destruct Hl as [_ Ht].
  unfold tail_at in Ht. lia.
Qed.

Lemma line_at_cs l cs i v : line_at l cs i -> line_at l cs (set_io_cs v i).
Proof. done. Qed.

(** Parsing a piece; at the end of a line of statistics it may ask to be reset. *)
Lemma parse_reads t b0 i x buf : buf <> [] -> read_to t b0 (io_cs i) i x -> io_cs i <> 8 ->
  exists ps i' x', mog_iostat_parse i x buf = Ok (ps, i', x') /\ read_to (t ++ buf) b0 (io_cs i') i' x' /\
    ((ps = MOG_PARSER_DONE /\ io_cs i' = 8) \/ (ps = MOG_PARSER_CONTINUE /\ io_cs i' <> 8)).
Proof.
  intros Hb Hr Hcs. destruct (feed_reads buf t b0 (io_cs i) i x Hr) as (cs' & i' & x' & Hf & Hr').
  assert (Hrange : 1 <= cs' <= 8) by (destruct Hr' as (_ & Hp & _); by apply line_at_range in Hp).
  unfold mog_iostat_parse. rewrite (proj2 (Z.eqb_neq _ _)) by done. unfold enter.
  rewrite (proj2 (Z.eqb_neq _ _)) by (destruct buf; [done|]; rewrite zlen_cons; pose proof (zlen_nonneg buf); lia).
  pose proof (feed_exec buf [] (io_cs i) (i, x) cs' (i', x') (iostat_fuel buf) Hb Hf ltac:(unfold iostat_fuel; lia)) as He.
  cbn [app] in He. change (zlen []) with 0 in He. rewrite He.
  cbn [res_bind r_cs r_p r_s app]. unfold iostat_parser_error, iostat_parser_first_final, assert_.
  rewrite (proj2 (Z.eqb_neq _ _)) by lia. rewrite (proj2 (Z.leb_le _ _)) by lia.
  destruct (Z.eqb_spec cs' 8).
  - eexists _, _, _. split; [reflexivity|]. split; [exact Hr'|by left].
  - eexists _, _, _. split; [reflexivity|]. split; [exact Hr'|by right].
Qed.

(** Resetting the parser between lines loses nothing. *)
Lemma reset_reads t b0 i x : read_to t b0 (io_cs i) i x -> io_cs i = 8 ->
  read_to t b0 (io_cs (iostat_reset i)) (iostat_reset i) x.
Proof.
  intros (Hl & [Ha Hp] & Hi) Hcs. split; [done|]. split; [|done]. rewrite Hcs in Hp. split.
  { repeat split; simpl; lia. }
  destruct (fold_left lstep _ LStart); simpl; [auto|lia| |lia]. destruct Hp as [_ Ht]. unfold tail_at in Ht. lia.
Qed.

Lemma loop_reads fuel : forall s t b0 i x, (sock_size s < fuel)%nat -> read_to t b0 (io_cs i) i x -> io_cs i <> 8 ->
  exists i' x', iostat_loop fuel s i x = Ok ((piped s).2, i', x') /\
    read_to (t ++ (piped s).1) b0 (io_cs i') i' x' /\ io_cs i' <> 8.
Proof.
  induction fuel as [|fuel IH]; intros s t b0 i x Hs Hr Hcs; [lia|]. cbn [iostat_loop].
  assert (Hend : forall n : io_next, exists i' x', Ok (n, i, x) = Ok (n, i', x') /\ read_to (t ++ []) b0 (io_cs i') i' x' /\ io_cs i' <> 8).
  { intros n. exists i, x. by rewrite app_nil_r. }
  destruct s as [|[bs|e] s]; cbn [piped].
  - apply Hend.
  - destruct bs as [|b bs]; [apply Hend|]. set (piece := b :: bs) in *.
    destruct (parse_reads t b0 i x (take 1024 piece) ltac:(done) Hr Hcs) as (ps & i1 & x1 & -> & Hr1 & Hps). cbn [res_bind].
    set (s' := match drop 1024 piece with [] => s | _ => _ end).
    assert (Hsz : (sock_size s' < fuel)%nat).
    { unfold s'. cbn [sock_size] in Hs. pose proof (length_drop piece 1024) as Hd.
      destruct (drop 1024 piece) eqn:E; [lia|]. cbn [sock_size]. unfold piece in *. cbn [length] in *. lia. }
    assert (Hdel : (piped s').1 = drop 1024 piece ++ (piped s).1 /\ (piped s').2 = (piped s).2).
    { unfold s'. destruct (drop 1024 piece); done. }
    assert (Hgo : forall i1, read_to (t ++ take 1024 piece) b0 (io_cs i1) i1 x1 -> io_cs i1 <> 8 ->
      exists i' x', iostat_loop fuel s' i1 x1 = Ok ((piped s).2, i', x') /\
      read_to (t ++ piece ++ (piped s).1) b0 (io_cs i') i' x' /\ io_cs i' <> 8).
    { intros i2 Hr2 Hc2. destruct (IH s' _ b0 i2 x1 Hsz Hr2 Hc2) as (i' & x' & -> & Hr' & Hc'). exists i', x'.
      destruct Hdel as [Hd1 Hd2]. rewrite Hd2. split; [done|]. split; [|done]. rewrite Hd1 in Hr'.
      replace (t ++ piece ++ (piped s).1) with ((t ++ take 1024 piece) ++ drop 1024 piece ++ (piped s).1); [done|].
      rewrite <- app_assoc. f_equal. rewrite app_assoc, take_drop. done. }
    destruct Hps as [[-> Hc1]|[-> Hc1]]; [|by apply Hgo]. apply Hgo; [by apply reset_reads|done].
  - cbn [sock_size] in Hs. destruct e; try apply Hend. apply IH; [lia|done|done].
Qed.

Lemma init_reads i x : Inv x -> read_to [] (false, x) 1 (mog_iostat_init i) x.
Proof.
  intros Hx. split; [constructor|]. split; [|done]. split; [|simpl; auto]. repeat split; simpl; lia.
Qed.

Lemma wakeups_reads ss : forall t b0 i x, read_to t b0 (io_cs i) i x -> io_cs i <> 8 ->
  exists n i' x', wakeups ss i x = Ok (n, i', x') /\ read_to (t ++ piped_all ss) b0 (io_cs i') i' x'.
Proof.
  induction ss as [|s ss IH]; intros t b0 i x Hr Hcs; cbn [wakeups piped_all].
  { eexists _, i, x. split; [done|]. by rewrite app_nil_r. }
  destruct (loop_reads (S (sock_size s)) s t b0 i x ltac:(lia) Hr Hcs) as (i1 & x1 & Hl & Hr1 & Hc1).
  unfold mog_iostat_queue_step. rewrite Hl. cbn [res_bind]. destruct (piped s).2.
  - eexists _, i1, x1. split; [done|]. by rewrite app_nil_r.
  - destruct (IH _ b0 i1 x1 Hr1 Hc1) as (n & i' & x' & -> & Hr'). exists n, i', x'. split; [done|]. by rewrite app_assoc.
Qed.

(** The output of iostat is understood however it arrives: for any bytes in
    any pieces, over any number of wake-ups, with interrupts and errors of the
    pipe, every step returns without a failed assertion or an access outside the
    arrays of the parser, and has done exactly what the complete lines say, in
    their order: a line of statistics updates the mounts with its device and its
    last field, and the first other line behind statistics reports them. *)
Theorem iostat_output_meaning (ss : list (list rd)) (i0 : mog_iostat) (x : X) : Inv x ->
  exists n i x', wakeups ss (mog_iostat_init i0) x = Ok (n, i, x') /\ Inv x' /\
    lines_do (split_lines (piped_all ss)).1 (false, x) (ready i, x').
Proof.
  intros Hx. destruct (wakeups_reads ss [] (false, x) (mog_iostat_init i0) x (init_reads i0 x Hx) ltac:(done))
    as (n & i & x' & Hw & Hl & _ & Hi). exists n, i, x'. done.
Qed.
End Text.
