(* ===== verification/SvcDev.v ===== *)
(** Devices of a service and the clients that watch them (svc_dev.c): the scan
    of the docroot, the report of utilizations and its subscribers; with iostat
    and the mounts this is the path from a line of iostat to the clients. *)
From S2P Require Import Prelude Fmt Ragel Http TryWrite HttpResp ChunkParser World MgmtFn Mnt Usage Iostat.
From stdpp Require Import base list numbers gmap fin_maps.
From Stdlib Require Import ZArith Lia.

#[local] Open Scope Z_scope.

(** ** Scanning *)

(** [by_st_dev] and [by_mogdevid]: devices by their id, by system device.  The
    order of the hash tables is that of the maps. *)
Abbreviation devlists := (gmap Z (gmap Z mog_dev)).

(** The device id that the name of a directory entry stands for. *)
Definition scan_devid (d_name : list Z) : option Z :=
  if zlen d_name <=? 3 then None
  else if bool_decide (take 3 d_name <> str "dev") then None
  else
    let '(mog_devid, end_, _) := strtoul (drop 3 d_name) in
    match end_ with
    | _ :: _ => None
    | [] => if 16777215 <? mog_devid then None else Some mog_devid
    end.

(** [svc_devlist]: the devices of [st_dev], from now on in the table. *)
Definition svc_devlist (st_dev : Z) (t : devlists) : gmap Z mog_dev * devlists :=
  match t !! st_dev with
  | Some l => (l, t)
  | None => (∅, <[st_dev := ∅]> t)
  end.

(** A client that watches, with its socket. *)
Abbreviation subscriber := (mog_mgmt * chan)%type.

Record svc_dev := SvcDev {
  sd_mgmt_fd : Z;
  sd_by_st_dev : option devlists;
  sd_subs : list subscriber
}.

Section Scan.
Context {S : Type}.
Variable stat_dev : name -> option Z.
(** [mog_dev_mkusage]: true when it succeeds. *)
Variable cb : option (mog_dev -> MS S bool).

Fixpoint scan_loop (ents : list (list Z)) (t : devlists) (nr : Z) (rc : bool) : MS S (devlists * Z * bool) :=
  match ents with
  | [] => mret (t, nr, rc)
  | ent :: ents =>
      match scan_devid ent with
      | None => scan_loop ents t nr rc
      | Some mog_devid =>
          match mog_dev_new stat_dev mog_devid with
          | None => scan_loop ents t nr rc
          | Some dev =>
              let '(l, t) := svc_devlist (dev_st_dev dev) t in
              ok ← (match cb with Some cb => cb dev | None => mret true end);
              match l !! devid dev with
              | Some _ => scan_loop ents t nr (rc && ok)
              | None => scan_loop ents (<[dev_st_dev dev := <[devid dev := dev]> l]> t) (wrap_u64 (nr + 1)) (rc && ok)
              end
          end
      end
  end.

(** [svc_scandev]; [ents] are the entries of the docroot. *)
Definition svc_scandev (ents : list (list Z)) (svc : svc_dev) (nr : Z) : MS S (svc_dev * Z * bool) :=
  if sd_mgmt_fd svc <? 0 then mret (svc, nr, true)
  else
    r ← scan_loop ents ∅ nr true;
    mret (SvcDev (sd_mgmt_fd svc) (Some r.1.1) (sd_subs svc), r.1.2, r.2).
End Scan.

(** ** Reporting *)

Fixpoint write_dev_stats (devs : list (Z * mog_dev)) (t : iou_table) (out : list Z) : list Z * iou_table :=
  match devs with
  | [] => (out, t)
  | (_, dev) :: devs =>
      let '(util, t) := mog_iou_read (dev_st_dev dev) t in
      write_dev_stats devs t (out ++ fmt_u (devid dev) ++ [9] ++ c_string util ++ [10])
  end.

Fixpoint write_devlist_stats (ls : list (Z * gmap Z mog_dev)) (t : iou_table) (out : list Z) : list Z * iou_table :=
  match ls with
  | [] => (out, t)
  | (_, l) :: ls =>
      let '(out, t) := write_dev_stats (map_to_list l) t out in write_devlist_stats ls t out
  end.

(** [None] when the stream cannot be opened. *)
Definition devstats_stringify (memstream : bool) (svc : svc_dev) (t : iou_table) : res (option (list Z) * iou_table) :=
  match sd_by_st_dev svc with
  | None => Crash AssertFailed
  | Some ls =>
      if memstream then
        let '(out, t) := write_devlist_stats (map_to_list ls) t [] in Ok (Some (out ++ [46; 10]), t)
      else Ok (None, t)
  end.

Definition mog_svc_devstats_subscribe (s : subscriber) (svc : svc_dev) : svc_dev :=
  SvcDev (sd_mgmt_fd svc) (sd_by_st_dev svc) (s :: sd_subs svc).

(** [mog_mgmt_writev] on the socket of a subscriber. *)
Definition sub_writev (iov : list (list Z)) (s : subscriber) : res subscriber :=
  assert! is_wnull (m_wbuf s.1);
  let* '(wb, c) := mog_trywritev iov s.2 in Ok (set_m_wbuf wb s.1, c).

Definition has_rbuf (m : mog_mgmt) : bool := match m_rbuf m with Some _ => true | None => false end.

(** What the loop leaves: the subscribers that stay, those that are pushed to
    the queue until they can be written, and the descriptors that are closed. *)
Record told := Told { stay : list subscriber; pushed : list subscriber; closed : list Z }.

Fixpoint tell_each (buf : list Z) (subs : list subscriber) : res told :=
  match subs with
  | [] => Ok (Told [] [] [])
  | s :: subs =>
      assert! is_wnull (m_wbuf s.1);
      let* s := sub_writev [buf] s in
      match m_wbuf s.1 with
      | WNull => let* t := tell_each buf subs in Ok (Told (s :: stay t) (pushed t) (closed t))
      | WError =>
          assert! negb (has_rbuf s.1);
          let* t := tell_each buf subs in Ok (Told (stay t) (pushed t) (m_fd s.1 :: closed t))
      | WBuf _ _ => let* t := tell_each buf subs in Ok (Told (stay t) (s :: pushed t) (closed t))
      end
  end.

(** ** The whole state *)

Record stats := Stats {
  st_mounts : mounts;
  st_iou : iou_table;
  st_svcs : list svc_dev;
  st_pushed : list subscriber;
  st_closed : list Z
}.

Definition mog_svc_devstats_broadcast (memstream : bool) (svc : svc_dev) (t : iou_table) : res (svc_dev * told * iou_table) :=
  let* '(buf, t) := devstats_stringify memstream svc t in
  match buf with
  | None => Ok (svc, Told (sd_subs svc) [] [], t)
  | Some buf =>
      let* r := tell_each buf (sd_subs svc) in
      Ok (SvcDev (sd_mgmt_fd svc) (sd_by_st_dev svc) (stay r), r, t)
  end.

(** [mog_svc_each (mog_svc_devstats_broadcast, NULL)]. *)
Fixpoint broadcast_each (memstream : bool) (svcs : list svc_dev) (x : stats) : res stats :=
  match svcs with
  | [] => Ok x
  | svc :: svcs =>
      let* '(svc, r, t) := mog_svc_devstats_broadcast memstream svc (st_iou x) in
      broadcast_each memstream svcs
        (Stats (st_mounts x) t (st_svcs x ++ [svc]) (st_pushed x ++ pushed r) (st_closed x ++ closed r))
  end.

#[export] Instance stats_ops (memstream : bool) : StatsOps stats := {
  stats_update dev util x :=
    let* t := mog_mnt_update_util dev util (st_mounts x) (st_iou x) in
    Ok (Stats (st_mounts x) t (st_svcs x) (st_pushed x) (st_closed x));
  stats_broadcast x :=
    broadcast_each memstream (st_svcs x) (Stats (st_mounts x) (st_iou x) [] (st_pushed x) (st_closed x))
}.

(** [devstats_shutdown_i]: every subscriber is closed. *)
Fixpoint shutdown_each (subs : list subscriber) : res (list Z) :=
  match subs with
  | [] => Ok []
  | s :: subs =>
      assert! is_wnull (m_wbuf s.1);
      assert! negb (has_rbuf s.1);
      let* l := shutdown_each subs in Ok (m_fd s.1 :: l)
  end.
Definition devstats_shutdown_i (svc : svc_dev) : res (svc_dev * list Z) :=
  let* l := shutdown_each (sd_subs svc) in Ok (SvcDev (sd_mgmt_fd svc) (sd_by_st_dev svc) [], l).

(** ** What a scan finds *)

Definition devs_at (t : devlists) (st id : Z) : option mog_dev :=
  match t !! st with Some l => l !! id | None => None end.

Lemma dev_new_id stat_dev id dev : mog_dev_new stat_dev id = Some dev -> devid dev = id.
Proof. unfold mog_dev_new. case_match; [|done]. by intros [= <-]. Qed.

(** A scan finds exactly the directories with the name of a device, under the
    device that each is on. *)
Theorem scandev_exact {S : Type} stat_dev ents (h : S) w : forall t nr rc,
  exists t' nr', scan_loop stat_dev None ents t nr rc h w = Ok (t', nr', rc, h, w) /\
  forall st id, devs_at t' st id =
    match devs_at t st id with
    | Some dev => Some dev
    | None => if decide (Exists (fun ent => scan_devid ent = Some id) ents) then
                match mog_dev_new stat_dev id with
                | Some dev => if dev_st_dev dev =? st then Some dev else None
                | None => None
                end
              else None
    end.
Proof.
  induction ents as [|ent ents IH]; intros t nr rc.
  { exists t, nr. split; [done|]. intros st id. rewrite decide_False by inversion 1. by destruct (devs_at t st id). }
  cbn [scan_loop].
  assert (Hskip : forall t1, (forall st id, devs_at t1 st id = match devs_at t st id with
      | Some dev => Some dev
      | None => if decide (scan_devid ent = Some id) then
                  match mog_dev_new stat_dev id with
                  | Some dev => if dev_st_dev dev =? st then Some dev else None
                  | None => None
                  end
                else None
      end) -> forall nr1, exists t' nr', scan_loop stat_dev None ents t1 nr1 rc h w = Ok (t', nr', rc, h, w) /\
      forall st id, devs_at t' st id =
        match devs_at t st id with
        | Some dev => Some dev
        | None => if decide (Exists (fun ent => scan_devid ent = Some id) (ent :: ents)) then
                    match mog_dev_new stat_dev id with
                    | Some dev => if dev_st_dev dev =? st then Some dev else None
                    | None => None
                    end
                  else None
        end).
  { intros t1 Ht1 nr1. destruct (IH t1 nr1 rc) as (t' & nr' & Hr & Ht'). exists t', nr'. split; [done|].
    intros st id. rewrite Ht', Ht1. destruct (devs_at t st id); [done|].
    destruct (decide (scan_devid ent = Some id)) as [He|He].
    - rewrite (decide_True (P := Exists _ (ent :: ents))) by by left. destruct (mog_dev_new stat_dev id) as [dev|]; [|by destruct (decide _)].
      destruct (dev_st_dev dev =? st); [done|by destruct (decide _)].
    - destruct (decide (Exists _ ents)) as [Hx|Hx].
      + by rewrite (decide_True (P := Exists _ (ent :: ents))) by by right.
      + rewrite decide_False; [done|]. intros [?|?]%Exists_cons; done. }
  destruct (scan_devid ent) as [id0|] eqn:Es.
  2:{ apply Hskip. intros st id. rewrite decide_False by done. by destruct (devs_at t st id). }
  destruct (mog_dev_new stat_dev id0) as [dev|] eqn:Ed.
  2:{ apply Hskip. intros st id. destruct (devs_at t st id); [done|]. case_decide; [|done]. simplify_eq. by rewrite Ed. }
  pose proof (dev_new_id _ _ _ Ed) as Hid. unfold svc_devlist, devs_at in *.
  destruct (t !! dev_st_dev dev) as [l|] eqn:El; simpl; rewrite bind_eq; unfold mret, M_ret; cbv beta iota.
  - destruct (l !! devid dev) as [dev'|] eqn:Ek; rewrite andb_true_r; apply Hskip; intros st id.
    + destruct (t !! st) as [l'|] eqn:Est; [destruct (l' !! id) eqn:Eid; [done|]|].
      all: case_decide; [|done]; simplify_eq; rewrite Ed; destruct (Z.eqb_spec (dev_st_dev dev) st); [congruence|done].
    + destruct (decide (dev_st_dev dev = st)) as [<-|Hne].
      * rewrite lookup_insert_eq, El. destruct (decide (devid dev = id)) as [<-|Hne2].
        -- rewrite lookup_insert_eq, Ek, decide_True by congruence. by rewrite Hid, Ed, Z.eqb_refl.
        -- rewrite lookup_insert_ne by done. destruct (l !! id); [done|]. rewrite decide_False; [done|congruence].
      * rewrite lookup_insert_ne by done. destruct (t !! st) as [l'|]; [destruct (l' !! id); [done|]|].
        all: case_decide; [|done]; simplify_eq; rewrite Ed; by rewrite (proj2 (Z.eqb_neq _ _)).
  - rewrite lookup_empty, andb_true_r. apply Hskip. intros st id. destruct (decide (dev_st_dev dev = st)) as [<-|Hne].
    + rewrite lookup_insert_eq, El. destruct (decide (devid dev = id)) as [<-|Hne2].
      * rewrite lookup_insert_eq, decide_True by congruence. by rewrite Hid, Ed, Z.eqb_refl.
      * rewrite lookup_insert_ne, lookup_empty by done. rewrite decide_False; [done|congruence].
    + rewrite !lookup_insert_ne by done. destruct (t !! st) as [l'|]; [destruct (l' !! id); [done|]|].
      all: case_decide; [|done]; simplify_eq; rewrite Ed; by rewrite (proj2 (Z.eqb_neq _ _)).
Qed.

(** ** What watchers are told *)

(** The report of a service: a line per device with its utilization. *)
Definition dev_line (t : iou_table) (dev : mog_dev) : list Z :=
  fmt_u (devid dev) ++ [9] ++ c_string (util_of (dev_st_dev dev) t) ++ [10].
Definition devlist_lines (t : iou_table) (l : gmap Z mog_dev) : list Z :=
  concat (map (fun d => dev_line t d.2) (map_to_list l)).
Definition report (ls : devlists) (t : iou_table) : list Z :=
  concat (map (fun l => devlist_lines t l.2) (map_to_list ls)) ++ [46; 10].

(** A subscriber is told everything and stays, or waits with the rest, or has
    failed and is closed. *)
Inductive told_each (buf : list Z) : list subscriber -> told -> Prop :=
| te_nil : told_each buf [] (Told [] [] [])
| te_stay m c c' subs t : sent c' = sent c ++ buf -> told_each buf subs t ->
    told_each buf ((m, c) :: subs) (Told ((m, c') :: stay t) (pushed t) (closed t))
| te_busy m c c' off b acc subs t : sent c' = sent c ++ acc -> acc ++ pending (WBuf off b) = buf ->
    wbuf_ok (WBuf off b) -> told_each buf subs t ->
    told_each buf ((m, c) :: subs) (Told (stay t) ((set_m_wbuf (WBuf off b) m, c') :: pushed t) (closed t))
| te_error m c subs t : told_each buf subs t ->
    told_each buf ((m, c) :: subs) (Told (stay t) (pushed t) (m_fd m :: closed t)).

Definition sub_ok (s : subscriber) : Prop := m_wbuf s.1 = WNull /\ m_rbuf s.1 = None.

(** Every service has scanned its devices, and its subscribers have nothing
    buffered. *)
Definition svc_ok (svc : svc_dev) : Prop := is_Some (sd_by_st_dev svc) /\ Forall sub_ok (sd_subs svc).
Definition stats_ok (x : stats) : Prop := mounts_ok (st_mounts x) /\ Forall svc_ok (st_svcs x).

Lemma iou_read_util d t : exists t', mog_iou_read d t = (util_of d t, t') /\ forall d', util_of d' t' = util_of d' t.
Proof.
  exists (iou_run t (IouRead d)). assert (Hu : forall d', util_of d' (iou_run t (IouRead d)) = util_of d' t).
  { intros d'. unfold util_of at 1. rewrite iou_run_lookup. simpl. by destruct (decide (d = d')). }
  split; [|done]. specialize (Hu d). revert Hu. unfold util_of at 1. rewrite iou_run_lookup. simpl.
  rewrite decide_True by done. intros _. unfold mog_iou_read. f_equal.
  change (iou_vivify d t) with (iou_run t (IouRead d)). rewrite iou_run_lookup. simpl. by rewrite decide_True.
Qed.

Lemma dev_line_ext t t' dev : (forall d, util_of d t' = util_of d t) -> dev_line t' dev = dev_line t dev.
Proof. intros H. unfold dev_line. by rewrite H. Qed.

Lemma write_dev_stats_ok devs : forall t out, exists t',
  write_dev_stats devs t out = (out ++ concat (map (fun d => dev_line t d.2) devs), t') /\
  forall d, util_of d t' = util_of d t.
Proof.
  induction devs as [|[k dev] devs IH]; intros t out; cbn [write_dev_stats map concat].
  { exists t. by rewrite app_nil_r. }
  destruct (iou_read_util (dev_st_dev dev) t) as (t1 & -> & H1).
  destruct (IH t1 (out ++ fmt_u (devid dev) ++ [9] ++ c_string (util_of (dev_st_dev dev) t) ++ [10])) as (t2 & -> & H2).
  exists t2. split; [|intros d; by rewrite H2]. f_equal. rewrite <- app_assoc. unfold dev_line at 2. simpl.
  do 2 f_equal. f_equal. apply map_ext. intros d. by apply dev_line_ext.
Qed.

Lemma write_devlist_stats_ok ls : forall t out, exists t',
  write_devlist_stats ls t out = (out ++ concat (map (fun l => devlist_lines t l.2) ls), t') /\
  forall d, util_of d t' = util_of d t.
Proof.
  induction ls as [|[k l] ls IH]; intros t out; cbn [write_devlist_stats map concat].
  { exists t. by rewrite app_nil_r. }
  destruct (write_dev_stats_ok (map_to_list l) t out) as (t1 & -> & H1).
  destruct (IH t1 (out ++ concat (map (fun d => dev_line t d.2) (map_to_list l)))) as (t2 & -> & H2).
  exists t2. split; [|intros d; by rewrite H2]. f_equal. rewrite <- app_assoc. unfold devlist_lines at 2. simpl.
  do 2 f_equal. f_equal. apply map_ext. intros [k' l']. unfold devlist_lines. f_equal. apply map_ext. intros d.
  by apply dev_line_ext.
Qed.

Lemma tell_each_ok buf subs : Forall sub_ok subs ->
  exists r, tell_each buf subs = Ok r /\ told_each buf subs r /\ Forall sub_ok (stay r).
Proof.
  induction 1 as [|[m c] subs [Hw Hr] _ (r & IH & IHt & IHs)]; cbn [tell_each].
  { eexists. split; [done|]. split; [constructor|constructor]. }
  simpl in Hw, Hr. unfold sub_writev. cbn [fst snd]. rewrite Hw. cbn [is_wnull]. unfold assert_.
  destruct (trywritev_lossless [buf] c) as (wb & c' & acc & -> & Hsent & Hok & Hall & _). cbn [res_bind fst snd m_wbuf set_m_wbuf].
  cbn [concat] in Hall. rewrite app_nil_r in Hall.
  assert (Hrb : has_rbuf (set_m_wbuf wb m) = false) by (unfold has_rbuf; simpl; by rewrite Hr).
  destruct wb as [| |off b]; rewrite ?Hrb; cbn [negb]; rewrite IH; cbn [res_bind]; (eexists; split; [reflexivity|]).
  - assert (Heq : set_m_wbuf WNull m = m) by (destruct m; simpl in *; by subst). rewrite Heq. split; [|by constructor].
    apply te_stay; [|done]. rewrite Hsent. f_equal. specialize (Hall ltac:(done)). simpl in Hall. by rewrite app_nil_r in Hall.
  - split; [|done]. exact (te_error buf m c subs r IHt).
  - split; [|done]. eapply te_busy; [exact Hsent|by apply Hall|done|done].
Qed.

Lemma svc_broadcast_ok svc t : svc_ok svc ->
  exists ls r t', sd_by_st_dev svc = Some ls /\
    mog_svc_devstats_broadcast true svc t = Ok (SvcDev (sd_mgmt_fd svc) (sd_by_st_dev svc) (stay r), r, t') /\
    told_each (report ls t) (sd_subs svc) r /\ Forall sub_ok (stay r) /\ forall d, util_of d t' = util_of d t.
Proof.
  intros [[ls Hls] Hsubs]. unfold mog_svc_devstats_broadcast, devstats_stringify. rewrite Hls.
  destruct (write_devlist_stats_ok (map_to_list ls) t []) as (t' & -> & Ht'). cbn [res_bind app].
  destruct (tell_each_ok (report ls t) (sd_subs svc) Hsubs) as (r & Hr & Htold & Hst). unfold report in Hr. rewrite Hr.
  exists ls, r, t'. split; [done|]. split; [done|]. done.
Qed.

Lemma report_ext ls t t' : (forall d, util_of d t' = util_of d t) -> report ls t' = report ls t.
Proof.
  intros H. unfold report, devlist_lines. do 2 f_equal. apply map_ext. intros l. f_equal. apply map_ext.
  intros d. by apply dev_line_ext.
Qed.

(** The services after a report. *)
Definition after_report (svc : svc_dev) (r : told) : svc_dev := SvcDev (sd_mgmt_fd svc) (sd_by_st_dev svc) (stay r).

Definition svc_told (t : iou_table) (svc : svc_dev) (r : told) : Prop :=
  exists ls, sd_by_st_dev svc = Some ls /\ told_each (report ls t) (sd_subs svc) r.

Lemma broadcast_each_ok svcs : forall x, mounts_ok (st_mounts x) -> Forall svc_ok (st_svcs x) -> Forall svc_ok svcs ->
  exists rs t', broadcast_each true svcs x =
      Ok (Stats (st_mounts x) t' (st_svcs x ++ zip_with after_report svcs rs)
            (st_pushed x ++ concat (map pushed rs)) (st_closed x ++ concat (map closed rs))) /\
    Forall2 (svc_told (st_iou x)) svcs rs /\ Forall svc_ok (zip_with after_report svcs rs) /\
    forall d, util_of d t' = util_of d (st_iou x).
Proof.
  induction svcs as [|svc svcs IH]; intros x Hm Hx Hs; cbn [broadcast_each].
  { exists [], (st_iou x). simpl. rewrite !app_nil_r. by destruct x. }
  apply Forall_cons_1 in Hs as [Hsvc Hs].
  destruct (svc_broadcast_ok svc (st_iou x) Hsvc) as (ls & r & t1 & Hls & -> & Htold & Hst & Ht1). cbn [res_bind].
  change (SvcDev (sd_mgmt_fd svc) (sd_by_st_dev svc) (stay r)) with (after_report svc r).
  assert (Hok : svc_ok (after_report svc r)) by (split; [by destruct Hsvc|done]).
  destruct (IH (Stats (st_mounts x) t1 (st_svcs x ++ [after_report svc r]) (st_pushed x ++ pushed r) (st_closed x ++ closed r)))
    as (rs & t2 & Hb & Hf & Hso & Ht2); [done|apply Forall_app; by repeat constructor|done|].
  exists (r :: rs), t2. split.
  { rewrite Hb. simpl. by rewrite <- !app_assoc. }
  split.
  { constructor; [by exists ls|]. eapply Forall2_impl; [exact Hf|]. intros s' r' (ls' & Hls' & Ht'). exists ls'.
    split; [done|]. by rewrite <- (report_ext ls' (st_iou x) t1). }
  split; [by constructor|]. intros d. rewrite Ht2. apply Ht1.
Qed.

(** What the parser of iostat relies on holds for this state. *)
#[export] Instance stats_laws : StatsLaws stats stats_ok (H := stats_ops true).
Proof.
  split.
  - intros dev util x _ _ [Hm Hs]. destruct (update_util_lookup dev util (st_mounts x) (st_iou x) Hm) as (t & Ht & _).
    simpl. rewrite Ht. eexists. split; [done|]. done.
  - intros x [Hm Hs]. simpl.
    destruct (broadcast_each_ok (st_svcs x) (Stats (st_mounts x) (st_iou x) [] (st_pushed x) (st_closed x)))
      as (rs & t' & -> & _ & Hok & _); [done|constructor|done|]. eexists. split; [done|]. by split.
Qed.


(** ** From the pipe to the devices *)

(** The utilization that lines leave for a device: that of the last line of
    statistics whose name starts the name of one of its mounts. *)
Fixpoint last_reported (m : mounts) (d : Z) (ls : list (list Z)) (u : list Z) : list Z :=
  match ls with
  | [] => u
  | l :: ls =>
      last_reported m d ls
        match stat_line l with
        | Some (n, u') => if concerned (str "/dev/" ++ take 71 n) m d then take 7 u' else u
        | None => u
        end
  end.

Lemma last_reported_app m d a b u : last_reported m d (a ++ b) u = last_reported m d b (last_reported m d a u).
Proof. revert u. induction a as [|l a IH]; intros u; [done|]. simpl. apply IH. Qed.

Lemma broadcast_keeps x x' : stats_ok x -> stats_broadcast (StatsOps := stats_ops true) x = Ok x' ->
  st_mounts x' = st_mounts x /\ (forall d, util_of d (st_iou x') = util_of d (st_iou x)) /\ stats_ok x'.
Proof.
  intros [Hm Hs]. simpl.
  destruct (broadcast_each_ok (st_svcs x) (Stats (st_mounts x) (st_iou x) [] (st_pushed x) (st_closed x)))
    as (rs & t' & -> & _ & Hok & Ht); [done|constructor|done|]. intros [= <-]. done.
Qed.

Lemma lines_utilization ls s s' : lines_do (H := stats_ops true) ls s s' -> stats_ok s.2 ->
  stats_ok s'.2 /\ st_mounts s'.2 = st_mounts s.2 /\
  forall d, c_string (util_of d (st_iou s'.2)) = last_reported (st_mounts s.2) d ls (c_string (util_of d (st_iou s.2))).
Proof.
  induction 1 as [s|ls l s s1 s2 _ IH Hl]; intros Hs; [done|]. destruct (IH Hs) as (Hs1 & Hm1 & Hu1). clear IH.
  destruct Hl as [b x x' n u dev util Hst Hd Hut Hup|x x' Hst Hb|x Hst]; simpl in *.
  - destruct Hs1 as [Hm Hsv]. destruct (update_util_lookup dev util (st_mounts x) (st_iou x) Hm) as (t & Ht & Hlk).
    rewrite Ht in Hup. injection Hup as <-. split; [done|]. split; [done|]. intros d.
    rewrite last_reported_app. simpl. rewrite Hst, <- Hu1, <- Hm1. unfold util_of at 1. rewrite Hlk, Hd.
    destruct (concerned _ _ d); [by rewrite <- Hut|]. done.
  - destruct (broadcast_keeps x x' Hs1 Hb) as (Hm' & Hu' & Hs'). split; [done|]. split; [congruence|]. intros d.
    rewrite last_reported_app. simpl. rewrite Hst, <- Hu1. by rewrite Hu'.
  - split; [done|]. split; [done|]. intros d. rewrite last_reported_app. simpl. by rewrite Hst.
Qed.

(** C30.  What iostat prints is what is known of the devices: whatever pieces the
    output arrives in, over any number of wake-ups, with interrupts and errors,
    the steps of the descriptor return without a failed assertion, do what the
    complete lines say in their order, and leave for every device the last field
    of the last line of statistics for a disk it is mounted from. *)
Theorem iostat_utilization (ss : list (list rd)) (i0 : mog_iostat) (x : stats) : stats_ok x ->
  exists n i x', wakeups (H := stats_ops true) ss (mog_iostat_init i0) x = Ok (n, i, x') /\ stats_ok x' /\
    lines_do (H := stats_ops true) (split_lines (piped_all ss)).1 (false, x) (ready i, x') /\
    forall d, c_string (util_of d (st_iou x')) =
      last_reported (st_mounts x) d (split_lines (piped_all ss)).1 (c_string (util_of d (st_iou x))).
Proof.
  intros Hx. destruct (iostat_output_meaning stats_ok (H := stats_ops true) ss i0 x Hx) as (n & i & x' & Hw & Hx' & Hl).
  exists n, i, x'. split; [done|]. split; [done|]. split; [done|].
  destruct (lines_utilization _ _ _ Hl Hx) as (_ & _ & Hu). exact Hu.
Qed.

(** ** Samples *)

Definition watcher (fd : Z) (rs : list reply) : subscriber :=
  (MogMgmt fd 0 MOG_PRIO_NONE FIostat 0 0 0 None WNull GC_MD5 (MogSvc true None false true ∅ []), Chan rs []).

Definition sample_svc : svc_dev := SvcDev 5 (Some {[ 1 := {[ 7 := MogDev 1 7 (str "/dev7") ]} ]}) [watcher 9 [Ret 4]; watcher 10 [Ret 100]].

Definition sample_stats : stats := Stats sample_disk ∅ [sample_svc] [] [].

Lemma sample_stats_ok : stats_ok sample_stats.
Proof.
  split.
  - intros d chain H. unfold sample_stats, sample_disk in H. simpl in H.
    apply lookup_singleton_Some in H as [<- <-]. split; [done|by repeat constructor].
  - repeat constructor; by eexists.
Qed.

Definition sample_pipe : list (list rd) :=
  [[RBytes (str "sda  0.1  12"); RErr EINTR; RBytes (str ".50" ++ [10])]; [RBytes ([10] ++ str "sd")]].

Lemma iostat_utilization_witness :
  exists n i x', wakeups (H := stats_ops true) sample_pipe (mog_iostat_init (MogIostat 0 false 0 0 [] [])) sample_stats =
    Ok (n, i, x') /\ c_string (util_of 1 (st_iou x')) = str "12.50".
Proof.
  destruct (iostat_utilization sample_pipe (MogIostat 0 false 0 0 [] []) sample_stats sample_stats_ok)
    as (n & i & x' & Hw & _ & _ & Hu).
  exists n, i, x'. split; [exact Hw|]. rewrite Hu. vm_compute. reflexivity.
Defined.


(** A service without a management listener never scans its devices, and the
    first report of iostat fails an assertion on it. *)
Lemma broadcast_without_mgmt_aborts ents stat_dev cb svc x nr svcs :
  sd_mgmt_fd svc < 0 -> sd_by_st_dev svc = None -> st_svcs x = svc :: svcs ->
  (forall w, svc_scandev (S := unit) stat_dev cb ents svc nr tt w = Ok (svc, nr, true, tt, w)) /\
  stats_broadcast (StatsOps := stats_ops true) x = Crash AssertFailed.
Proof.
  intros Hfd Hn Hs. split.
  - intros w. unfold svc_scandev. by rewrite (proj2 (Z.ltb_lt _ _)) by done.
  - simpl. rewrite Hs. simpl. unfold mog_svc_devstats_broadcast, devstats_stringify. by rewrite Hn.
Qed.
