(* ===== verification/Queue.v ===== *)
(** The queue of clients and the threads that serve it (queue_epoll.c,
    queue_loop.c, queue_step.c, activeq.h), and the number of threads (thrpool.c).
    Threads interleave at their system calls. *)
From S2P Require Import Prelude FdMap.
From stdpp Require Import base list numbers gmap gmultiset fin_maps fin_map_dom fin_sets relations.
From Stdlib Require Import ZArith Lia.

#[local] Open Scope Z_scope.

(** ** epoll *)

Inductive mog_qev := MOG_QEV_RD | MOG_QEV_WR | MOG_QEV_RW.

(** An epoll set: the descriptors that are registered, and those of them that
    are armed.  Every event is registered with EPOLLONESHOT, so an event disarms
    its descriptor. *)
Record epoll := Epoll { registered : gset Z; armed : gmap Z mog_qev }.

Inductive ctl_op := EPOLL_CTL_ADD | EPOLL_CTL_MOD.

(** [epoll_ctl]: EEXIST and ENOENT are errors of the caller; [r] is what else
    may fail. *)
Definition epoll_ctl (op : ctl_op) (fd : Z) (ev : mog_qev) (r : option errno) (k : epoll) : option errno * epoll :=
  match op, decide (fd ∈ registered k), r with
  | EPOLL_CTL_ADD, left _, _ => (Some EEXIST, k)
  | EPOLL_CTL_MOD, right _, _ => (Some ENOENT, k)
  | _, _, Some e => (Some e, k)
  | _, _, None => (None, Epoll ({[fd]} ∪ registered k) (<[fd := ev]> (armed k)))
  end.

Definition epoll_ctl_del (fd : Z) (r : option errno) (k : epoll) : option errno * epoll :=
  match decide (fd ∈ registered k), r with
  | right _, _ => (Some ENOENT, k)
  | left _, Some e => (Some e, k)
  | left _, None => (None, Epoll (registered k ∖ {[fd]}) (delete fd (armed k)))
  end.

(** Closing a descriptor takes it out of the set. *)
Definition epoll_forget (fd : Z) (k : epoll) : epoll := Epoll (registered k ∖ {[fd]}) (delete fd (armed k)).

(** [mog_fd_put] when the kernel has no memory, an assertion otherwise.  The
    result of the calls below is false when the descriptor was closed. *)
Definition epoll_ctl_error (e : errno) (fd : Z) (k : epoll) : res (bool * epoll) :=
  match e with
  | ENOMEM | ENOSPC => Ok (false, epoll_forget fd k)
  | _ => Crash AssertFailed
  end.

Definition idleq_mod (op : ctl_op) (fd : Z) (ev : mog_qev) (r : option errno) (k : epoll) : res (bool * epoll) :=
  match epoll_ctl op fd ev r k with
  | (None, k) => Ok (true, k)
  | (Some e, k) => epoll_ctl_error e fd k
  end.

Definition mog_idleq_add := idleq_mod EPOLL_CTL_ADD.

Definition fake_epoll_ctl_mod (fd : Z) (ev : mog_qev) (r1 r2 : option errno) (k : epoll) : res (bool * epoll) :=
  match epoll_ctl_del fd r1 k with
  | (None, k) => idleq_mod EPOLL_CTL_ADD fd ev r2 k
  | (Some e, k) => epoll_ctl_error e fd k
  end.

(** [buggy] is [epoll_ctl_mod_buggy], found out once at start-up. *)
Definition mog_idleq_push (buggy : bool) (fd : Z) (ev : mog_qev) (r1 r2 : option errno) (k : epoll) : res (bool * epoll) :=
  if buggy then fake_epoll_ctl_mod fd ev r1 r2 k else idleq_mod EPOLL_CTL_MOD fd ev r1 k.

(** activeq.h *)
Definition mog_activeq_push (buggy : bool) (fd : Z) := mog_idleq_push buggy fd MOG_QEV_RW.

(** [mog_idleq_wait] returns an armed descriptor of the kernel's choice. *)
Definition mog_idleq_wait (fd : Z) (k : epoll) : epoll := Epoll (registered k) (delete fd (armed k)).

(** ** Threads *)

(** Where a thread of [mog_queue_loop] is: in [mog_idleq_wait (q, -1)]; about to
    run [mog_queue_step]; in [mog_idleq_wait (q, 0)] of [queue_xchg_maybe] while it
    keeps a client; about to push that client for another one; about to push a
    client in [mog_queue_xchg]. *)
Inductive thread :=
  | TWait
  | TStep (mfd : Z)
  | TPoll (mfd : Z)
  | TSwap (mfd recent_mfd : Z)
  | TPush (mfd : Z) (ev : mog_qev).

(** The clients a thread keeps. *)
Definition keeps (t : thread) : list Z :=
  match t with
  | TWait => []
  | TStep fd | TPoll fd | TPush fd _ => [fd]
  | TSwap fd fd' => [fd; fd']
  end.

(** The queue, its threads, the open clients by type, and the clients that
    MOG_NEXT_IGNORE left to others: watchers of iostat, and clients that wait for
    their turn in an fsck queue. *)
Record pool := Pool {
  kern : epoll;
  threads : gmap nat thread;
  clients : gmap Z mog_fd_type;
  parked : gset Z
}.

(** [mog_queue_step]: which handler runs, and what it may return. *)
Definition mog_queue_step (ty : mog_fd_type) (n : mog_next) : res unit :=
  match ty with
  | MOG_FD_TYPE_MGMT => Ok tt
  | MOG_FD_TYPE_HTTP | MOG_FD_TYPE_HTTPGET =>
      assert! bool_decide (n <> MOG_NEXT_IGNORE); Ok tt
  | _ => Crash AssertFailed
  end.

(** The [switch] of [mog_queue_loop]. *)
Definition after_step (fd : Z) (n : mog_next) : thread :=
  match n with
  | MOG_NEXT_ACTIVE => TPoll fd
  | MOG_NEXT_WAIT_RD => TPush fd MOG_QEV_RD
  | MOG_NEXT_WAIT_WR => TPush fd MOG_QEV_WR
  | MOG_NEXT_IGNORE | MOG_NEXT_CLOSE => TWait
  end.

(** What the handler has done to its descriptor when it returns. *)
Definition step_effect (fd : Z) (n : mog_next) (p : pool) : pool :=
  match n with
  | MOG_NEXT_CLOSE => Pool (epoll_forget fd (kern p)) (threads p) (delete fd (clients p)) (parked p)
  | MOG_NEXT_IGNORE => Pool (kern p) (threads p) (clients p) ({[fd]} ∪ parked p)
  | _ => p
  end.

Definition set_thread (t : nat) (s : thread) (p : pool) : pool :=
  Pool (kern p) (<[t := s]> (threads p)) (clients p) (parked p).

(** The pool after a push, which may have closed the descriptor. *)
Definition set_pushed (fd : Z) (r : bool * epoll) (p : pool) : pool :=
  Pool r.2 (threads p) (if r.1 then clients p else delete fd (clients p)) (parked p).

Definition no_memory (r : option errno) : Prop := r = None \/ r = Some ENOMEM \/ r = Some ENOSPC.

Inductive pool_step (buggy : bool) : pool -> pool -> Prop :=
| ps_accept fd ty r k p : clients p !! fd = None -> is_client ty = true -> no_memory r ->
    mog_idleq_add fd MOG_QEV_RD r (kern p) = Ok k ->
    pool_step buggy p (set_pushed fd k (Pool (kern p) (threads p) (<[fd := ty]> (clients p)) (parked p)))
| ps_wait t fd ev p : threads p !! t = Some TWait -> armed (kern p) !! fd = Some ev ->
    pool_step buggy p (set_thread t (TStep fd) (Pool (mog_idleq_wait fd (kern p)) (threads p) (clients p) (parked p)))
| ps_step t fd ty n p : threads p !! t = Some (TStep fd) -> clients p !! fd = Some ty ->
    mog_queue_step ty n = Ok tt ->
    pool_step buggy p (set_thread t (after_step fd n) (step_effect fd n p))
| ps_push t fd ev r1 r2 k p : threads p !! t = Some (TPush fd ev) -> no_memory r1 -> no_memory r2 ->
    mog_idleq_push buggy fd ev r1 r2 (kern p) = Ok k ->
    pool_step buggy p (set_thread t TWait (set_pushed fd k p))
| ps_poll_none t fd p : threads p !! t = Some (TPoll fd) -> pool_step buggy p (set_thread t (TStep fd) p)
| ps_poll t fd fd' ev p : threads p !! t = Some (TPoll fd) -> armed (kern p) !! fd' = Some ev ->
    pool_step buggy p (set_thread t (TSwap fd fd') (Pool (mog_idleq_wait fd' (kern p)) (threads p) (clients p) (parked p)))
| ps_swap t fd fd' r1 r2 k p : threads p !! t = Some (TSwap fd fd') -> no_memory r1 -> no_memory r2 ->
    mog_activeq_push buggy fd r1 r2 (kern p) = Ok k ->
    pool_step buggy p (set_thread t (TStep fd') (set_pushed fd k p))
| ps_unpark fd ev r1 r2 k p : fd ∈ parked p -> no_memory r1 -> no_memory r2 ->
    mog_idleq_push buggy fd ev r1 r2 (kern p) = Ok k ->
    pool_step buggy p (set_pushed fd k (Pool (kern p) (threads p) (clients p) (parked p ∖ {[fd]})))
| ps_unpark_close fd p : fd ∈ parked p ->
    pool_step buggy p (Pool (epoll_forget fd (kern p)) (threads p) (delete fd (clients p)) (parked p ∖ {[fd]}))
| ps_spawn t p : threads p !! t = None -> pool_step buggy p (set_thread t TWait p)
| ps_cancel t p : threads p !! t = Some TWait -> (* cancellation is enabled there only *)
    pool_step buggy p (Pool (kern p) (delete t (threads p)) (clients p) (parked p)).

Definition pool0 : pool := Pool (Epoll ∅ ∅) ∅ ∅ ∅.

(** ** Every client is in one place *)

(** The keys of a map, the elements of a set and the clients that threads keep,
    as multisets. *)
Definition mkeys {A} (m : gmap Z A) : gmultiset Z := list_to_set_disj (map_to_list m).*1.
Definition melems (s : gset Z) : gmultiset Z := list_to_set_disj (elements s).
Definition mkept (m : gmap nat thread) : gmultiset Z := list_to_set_disj (concat (map (fun x => keeps x.2) (map_to_list m))).

Lemma mkeys_insert {A} (m : gmap Z A) i x : m !! i = None -> mkeys (<[i := x]> m) = {[+ i +]} ⊎ mkeys m.
Proof. intros H. unfold mkeys. rewrite (list_to_set_disj_perm _ _ (fmap_Permutation fst _ _ (map_to_list_insert m i x H))). done. Qed.

Lemma mkeys_delete {A} (m : gmap Z A) i x : m !! i = Some x -> mkeys m = {[+ i +]} ⊎ mkeys (delete i m).
Proof.
  intros H. rewrite <- (insert_delete_id m i x H) at 1. apply mkeys_insert, lookup_delete_eq.
Qed.

Lemma mkeys_elem {A} (m : gmap Z A) i : multiplicity i (mkeys m) = if decide (is_Some (m !! i)) then 1%nat else 0%nat.
Proof.
  destruct (decide (is_Some (m !! i))) as [[x H]|H].
  - rewrite (mkeys_delete m i x H), multiplicity_disj_union, multiplicity_singleton_eq.
    assert (Hz : multiplicity i (mkeys (delete i m)) = 0%nat); [|by rewrite Hz]. apply not_elem_of_multiplicity. unfold mkeys.
    rewrite elem_of_list_to_set_disj. intros ([j y] & -> & Hin)%list_elem_of_fmap.
    apply elem_of_map_to_list in Hin. simpl in Hin. by rewrite lookup_delete_eq in Hin.
  - apply not_elem_of_multiplicity. unfold mkeys. rewrite elem_of_list_to_set_disj.
    intros ([j y] & -> & Hin)%list_elem_of_fmap. apply elem_of_map_to_list in Hin. simpl in *. eauto.
Qed.

Lemma mkeys_update {A} (m : gmap Z A) i x y : m !! i = Some y -> mkeys (<[i := x]> m) = mkeys m.
Proof.
  intros H. rewrite <- insert_delete_eq. rewrite mkeys_insert by apply lookup_delete_eq. symmetry. by eapply mkeys_delete.
Qed.

Lemma melems_insert s x : x ∉ s -> melems ({[x]} ∪ s) = {[+ x +]} ⊎ melems s.
Proof. intros H. unfold melems. by rewrite (list_to_set_disj_perm _ _ (elements_union_singleton s x H)). Qed.

Lemma melems_delete s x : x ∈ s -> melems s = {[+ x +]} ⊎ melems (s ∖ {[x]}).
Proof. intros H. rewrite <- melems_insert by set_solver. f_equal. apply set_eq. intros y. destruct (decide (y = x)); set_solver. Qed.

Lemma melems_elem s x : multiplicity x (melems s) = if decide (x ∈ s) then 1%nat else 0%nat.
Proof.
  destruct (decide (x ∈ s)).
  - rewrite (melems_delete s x), multiplicity_disj_union, multiplicity_singleton_eq by done.
    assert (Hz : multiplicity x (melems (s ∖ {[x]})) = 0%nat); [|by rewrite Hz]. apply not_elem_of_multiplicity. unfold melems.
    rewrite elem_of_list_to_set_disj, elem_of_elements. set_solver.
  - apply not_elem_of_multiplicity. unfold melems. by rewrite elem_of_list_to_set_disj, elem_of_elements.
Qed.

Lemma mkept_insert m t s : m !! t = None -> mkept (<[t := s]> m) = list_to_set_disj (keeps s) ⊎ mkept m.
Proof.
  intros H. unfold mkept. rewrite <- list_to_set_disj_app. apply list_to_set_disj_perm.
  change (keeps s ++ concat (map (fun x => keeps x.2) (map_to_list m)))
    with (concat (map (fun x : nat * thread => keeps x.2) ((t, s) :: map_to_list m))).
  rewrite <- !flat_map_concat_map. by rewrite (map_to_list_insert m t s H).
Qed.

Lemma mkept_delete m t s : m !! t = Some s -> mkept m = list_to_set_disj (keeps s) ⊎ mkept (delete t m).
Proof. intros H. rewrite <- (insert_delete_id m t s H) at 1. apply mkept_insert, lookup_delete_eq. Qed.

Lemma mkept_update m t s : mkept (<[t := s]> m) = list_to_set_disj (keeps s) ⊎ mkept (delete t m).
Proof. rewrite <- insert_delete_eq. apply mkept_insert, lookup_delete_eq. Qed.

Record pool_ok (p : pool) : Prop := {
  po_places : mkeys (armed (kern p)) ⊎ melems (parked p) ⊎ mkept (threads p) = mkeys (clients p);
  po_registered : registered (kern p) = dom (clients p);
  po_types : forall fd ty, clients p !! fd = Some ty -> is_client ty = true
}.

(** Pushing a registered descriptor arms it, or closes it for want of memory. *)
Definition pushed_ok (fd : Z) (ev : mog_qev) (k : epoll) (r : bool * epoll) : Prop :=
  if r.1 then registered r.2 = registered k /\ armed r.2 = <[fd := ev]> (armed k)
  else r.2 = epoll_forget fd k.

Lemma idleq_mod_ok fd ev r k : no_memory r -> fd ∈ registered k ->
  exists x, idleq_mod EPOLL_CTL_MOD fd ev r k = Ok x /\ pushed_ok fd ev k x.
Proof.
  intros Hr Hfd. unfold idleq_mod, epoll_ctl. destruct (decide (fd ∈ registered k)); [|done].
  destruct Hr as [-> |[-> | ->]]; simpl; (eexists; split; [reflexivity|]); [|done|done].
  split; simpl; [set_solver|done].
Qed.

Lemma idleq_add_ok fd ev r k : no_memory r -> fd ∉ registered k ->
  exists x, mog_idleq_add fd ev r k = Ok x /\
    (if x.1 then registered x.2 = {[fd]} ∪ registered k /\ armed x.2 = <[fd := ev]> (armed k) else x.2 = epoll_forget fd k).
Proof.
  intros Hr Hfd. unfold mog_idleq_add, idleq_mod, epoll_ctl. destruct (decide (fd ∈ registered k)); [done|].
  destruct Hr as [-> |[-> | ->]]; simpl; (eexists; split; [reflexivity|]); done.
Qed.

Lemma idleq_push_ok buggy fd ev r1 r2 k : no_memory r1 -> no_memory r2 -> fd ∈ registered k ->
  exists x, mog_idleq_push buggy fd ev r1 r2 k = Ok x /\ pushed_ok fd ev k x.
Proof.
  intros H1 H2 Hfd. unfold mog_idleq_push. destruct buggy; [|by apply idleq_mod_ok].
  unfold fake_epoll_ctl_mod, epoll_ctl_del. destruct (decide (fd ∈ registered k)); [|done].
  destruct H1 as [-> |[-> | ->]]; [|by eexists..].
  destruct (idleq_add_ok fd ev r2 (Epoll (registered k ∖ {[fd]}) (delete fd (armed k))) H2) as (x & Hx & Hok); [set_solver|].
  exists x. split; [exact Hx|]. unfold pushed_ok. destruct x.1; simpl in *.
  - destruct Hok as [-> ->]. split; [|apply insert_delete_eq]. apply set_eq. intros y. destruct (decide (y = fd)); set_solver.
  - rewrite Hok. unfold epoll_forget. simpl. f_equal; [set_solver|by rewrite delete_delete_eq].
Qed.

(** A client that is kept or parked is not armed, and is registered. *)
Lemma places_held p fd : pool_ok p -> (1 <= multiplicity fd (melems (parked p) ⊎ mkept (threads p)))%nat ->
  armed (kern p) !! fd = None /\ is_Some (clients p !! fd) /\ fd ∈ registered (kern p).
Proof.
  intros [Hp Hr _] Hm. apply (f_equal (multiplicity fd)) in Hp. rewrite mkeys_elem in Hp.
  rewrite !multiplicity_disj_union in *. rewrite mkeys_elem in Hp.
  destruct (decide (is_Some (armed (kern p) !! fd))) as [|Ha]; destruct (decide (is_Some (clients p !! fd))); try lia.
  split; [by apply eq_None_not_Some|]. split; [done|]. rewrite Hr. by apply elem_of_dom.
Qed.

Lemma kept_held p t s fd : pool_ok p -> threads p !! t = Some s -> fd ∈ keeps s ->
  armed (kern p) !! fd = None /\ is_Some (clients p !! fd) /\ fd ∈ registered (kern p).
Proof.
  intros Hp Ht Hin. apply places_held; [done|]. rewrite (mkept_delete _ _ _ Ht), !multiplicity_disj_union.
  assert (1 <= multiplicity fd (list_to_set_disj (keeps s)))%nat; [|lia].
  by apply elem_of_multiplicity, elem_of_list_to_set_disj.
Qed.

(** Closing a client that is in no other place. *)
Lemma forget_ok fd k (cs : gmap Z mog_fd_type) rest ty : armed k !! fd = None -> cs !! fd = Some ty ->
  registered k = dom cs -> mkeys (armed k) ⊎ ({[+ fd +]} ⊎ rest) = mkeys cs ->
  mkeys (armed (epoll_forget fd k)) ⊎ rest = mkeys (delete fd cs) /\ registered (epoll_forget fd k) = dom (delete fd cs).
Proof.
  intros Ha Hc Hr Hp. unfold epoll_forget. simpl. rewrite delete_id by done. rewrite (mkeys_delete cs fd ty Hc) in Hp.
  split; [multiset_solver|]. rewrite dom_delete_L, Hr. done.
Qed.

Lemma types_delete (cs : gmap Z mog_fd_type) fd : (forall f ty, cs !! f = Some ty -> is_client ty = true) ->
  forall f ty, delete fd cs !! f = Some ty -> is_client ty = true.
Proof. intros H f ty [_ Hf]%lookup_delete_Some. eauto. Qed.

(** A push of a client from elsewhere. *)
Lemma push_places p fd ev x ths pk rest : pool_ok p -> pushed_ok fd ev (kern p) x ->
  armed (kern p) !! fd = None -> is_Some (clients p !! fd) ->
  melems (parked p) ⊎ mkept (threads p) = {[+ fd +]} ⊎ rest -> melems pk ⊎ mkept ths = rest ->
  pool_ok (Pool x.2 ths (if x.1 then clients p else delete fd (clients p)) pk).
Proof.
  intros [Hp Hr Ht] Hx Ha [ty Hc] Hrest Hnew. unfold pushed_ok in Hx. destruct x as [[] k]; simpl in *.
  - destruct Hx as [Hxr Hxa]. split; simpl; [|congruence|done]. rewrite Hxa, mkeys_insert by done. multiset_solver.
  - subst k. destruct (forget_ok fd (kern p) (clients p) rest ty Ha Hc Hr) as [H1 H2]; [multiset_solver|].
    split; [|done|by apply types_delete]. cbn [kern armed parked threads clients]. rewrite <- H1. multiset_solver.
Qed.

Lemma wait_ok p fd ev ths : pool_ok p -> armed (kern p) !! fd = Some ev ->
  mkept ths = {[+ fd +]} ⊎ mkept (threads p) -> pool_ok (Pool (mog_idleq_wait fd (kern p)) ths (clients p) (parked p)).
Proof.
  intros [Hp Hr Ht] Ha Hk. split; simpl; [|done|done]. rewrite (mkeys_delete _ _ _ Ha) in Hp. rewrite Hk. multiset_solver.
Qed.

Lemma threads_ok p ths : pool_ok p -> mkept ths = mkept (threads p) -> pool_ok (Pool (kern p) ths (clients p) (parked p)).
Proof. intros [Hp Hr Ht] Hk. split; simpl; [|done|done]. by rewrite Hk. Qed.

Lemma accept_ok p fd ty r x : pool_ok p -> clients p !! fd = None -> is_client ty = true -> no_memory r ->
  mog_idleq_add fd MOG_QEV_RD r (kern p) = Ok x ->
  pool_ok (set_pushed fd x (Pool (kern p) (threads p) (<[fd := ty]> (clients p)) (parked p))).
Proof.
  intros [Hp Hr Ht] Hc Hty Hr2 Hadd.
  assert (Hni : fd ∉ registered (kern p)) by (rewrite Hr; by apply not_elem_of_dom).
  destruct (idleq_add_ok fd MOG_QEV_RD r (kern p) Hr2 Hni) as (x' & Hx' & Hok). rewrite Hadd in Hx'. injection Hx' as <-.
  assert (Ha : armed (kern p) !! fd = None).
  { apply (f_equal (multiplicity fd)) in Hp. rewrite !multiplicity_disj_union, !mkeys_elem in Hp. rewrite Hc in Hp.
    destruct (decide (is_Some (armed (kern p) !! fd))) as [|Hn]; [|by apply eq_None_not_Some].
    rewrite (decide_False (P := is_Some None)) in Hp by (by intros [? ?]). lia. }
  unfold set_pushed. destruct x as [[] k]; simpl in *.
  - destruct Hok as [Hk1 Hk2]. split; simpl.
    + rewrite Hk2, !mkeys_insert by done. multiset_solver.
    + rewrite Hk1, dom_insert_L, Hr. done.
    + intros f ty' [[<- <-]|[_ Hf]]%lookup_insert_Some; eauto.
  - subst k. rewrite delete_insert_id by done. split; simpl.
    + by rewrite delete_id.
    + rewrite Hr. set_solver.
    + done.
Qed.

Lemma handler_step_ok p t fd n : pool_ok p -> threads p !! t = Some (TStep fd) ->
  pool_ok (set_thread t (after_step fd n) (step_effect fd n p)).
Proof.
  intros Hok Ht. destruct (kept_held p t _ fd Hok Ht ltac:(set_solver)) as (Ha & [ty Hc] & _).
  pose proof (mkept_delete _ _ _ Ht) as Hk. destruct Hok as [Hp Hr Hty] eqn:Eok. clear Eok.
  destruct n; unfold set_thread; simpl in *.
  2-4: apply threads_ok; [done|]; rewrite mkept_update, Hk; multiset_solver.
  - destruct (forget_ok fd (kern p) (clients p) (melems (parked p) ⊎ mkept (delete t (threads p))) ty Ha Hc Hr) as [H1 H2];
      [multiset_solver|]. split; [|done|by apply types_delete]. cbn [kern armed parked threads clients].
    rewrite <- H1, mkept_update. multiset_solver.
  - split; simpl; [|done|done]. rewrite mkept_update. assert (Hni : fd ∉ parked p).
    { intros Hin. apply (f_equal (multiplicity fd)) in Hp. rewrite Hk, !multiplicity_disj_union, !mkeys_elem, melems_elem in Hp.
      rewrite multiplicity_singleton_eq in Hp. repeat case_decide; done || lia. }
    rewrite melems_insert by done. multiset_solver.
Qed.

Lemma pool_step_ok buggy p p' : pool_step buggy p p' -> pool_ok p -> pool_ok p'.
Proof.
  destruct 1 as [fd ty r k p Hc Hty Hr Hadd|t fd ev p Ht Ha|t fd ty n p Ht Hc _|t fd ev r1 r2 k p Ht H1 H2 Hpush|
    t fd p Ht|t fd fd' ev p Ht Ha|t fd fd' r1 r2 k p Ht H1 H2 Hpush|fd ev r1 r2 k p Hin H1 H2 Hpush|fd p Hin|t p Ht|t p Ht];
    intros Hok.
  - by eapply accept_ok.
  - eapply (wait_ok p fd ev (<[t := TStep fd]> (threads p))); [done|done|].
    rewrite mkept_update, (mkept_delete _ _ _ Ht). simpl. multiset_solver.
  - by apply handler_step_ok.
  - destruct (kept_held p t _ fd Hok Ht ltac:(set_solver)) as (Ha & Hs & Hreg).
    destruct (idleq_push_ok buggy fd ev r1 r2 (kern p) H1 H2 Hreg) as (x & Hx & Hpx). rewrite Hpush in Hx. injection Hx as <-.
    apply (push_places p fd ev k (<[t := TWait]> (threads p)) (parked p) (melems (parked p) ⊎ mkept (delete t (threads p))) Hok Hpx Ha Hs).
    + rewrite (mkept_delete _ _ _ Ht). simpl. multiset_solver.
    + rewrite mkept_update. simpl. multiset_solver.
  - apply (threads_ok p (<[t := TStep fd]> (threads p)) Hok). by rewrite mkept_update, (mkept_delete _ _ _ Ht).
  - eapply (wait_ok p fd' ev (<[t := TSwap fd fd']> (threads p))); [done|done|].
    rewrite mkept_update, (mkept_delete _ _ _ Ht). simpl. multiset_solver.
  - destruct (kept_held p t _ fd Hok Ht ltac:(set_solver)) as (Ha & Hs & Hreg).
    destruct (idleq_push_ok buggy fd MOG_QEV_RW r1 r2 (kern p) H1 H2 Hreg) as (x & Hx & Hpx).
    unfold mog_activeq_push in Hpush. rewrite Hpush in Hx. injection Hx as <-.
    apply (push_places p fd MOG_QEV_RW k (<[t := TStep fd']> (threads p)) (parked p)
      (melems (parked p) ⊎ ({[+ fd' +]} ⊎ mkept (delete t (threads p)))) Hok Hpx Ha Hs).
    + rewrite (mkept_delete _ _ _ Ht). simpl. multiset_solver.
    + rewrite mkept_update. simpl. multiset_solver.
  - destruct (places_held p fd Hok) as (Ha & Hs & Hreg).
    { rewrite multiplicity_disj_union, melems_elem, decide_True by done. lia. }
    destruct (idleq_push_ok buggy fd ev r1 r2 (kern p) H1 H2 Hreg) as (x & Hx & Hpx). rewrite Hpush in Hx. injection Hx as <-.
    apply (push_places p fd ev k (threads p) (parked p ∖ {[fd]}) (melems (parked p ∖ {[fd]}) ⊎ mkept (threads p)) Hok Hpx Ha Hs); [|done].
    rewrite (melems_delete (parked p) fd Hin). multiset_solver.
  - destruct (places_held p fd Hok) as (Ha & [ty Hc] & Hreg).
    { rewrite multiplicity_disj_union, melems_elem, decide_True by done. lia. }
    destruct Hok as [Hp Hr Hty]. rewrite (melems_delete (parked p) fd Hin) in Hp.
    destruct (forget_ok fd (kern p) (clients p) (melems (parked p ∖ {[fd]}) ⊎ mkept (threads p)) ty Ha Hc Hr) as [H1 H2];
      [multiset_solver|]. split; [|done|by apply types_delete]. cbn [kern armed parked threads clients]. rewrite <- H1. multiset_solver.
  - apply (threads_ok p (<[t := TWait]> (threads p)) Hok). rewrite mkept_insert by done. simpl. multiset_solver.
  - apply (threads_ok p (delete t (threads p)) Hok). rewrite (mkept_delete _ _ _ Ht). simpl. multiset_solver.
Qed.

Lemma pool_reach_ok buggy p : rtc (pool_step buggy) pool0 p -> pool_ok p.
Proof.
  assert (H0 : pool_ok pool0) by (split; done). revert H0. generalize pool0 as q. intros q Hq Hr.
  induction Hr as [|x y z Hs _ IH]; [done|]. apply IH. by eapply pool_step_ok.
Qed.

(** C25.  The queue hands out every client to one thread at a time and loses
    none.  Whatever the threads of the pool do and in whatever order, while
    clients come and go, are parked and returned, while threads are started and
    cancelled and the kernel runs out of memory: two threads never keep the same
    client, a client that a thread keeps is neither armed in the queue nor parked,
    every open client is armed, parked or kept, and no use of epoll, and no
    dispatch of a client, fails its assertion. *)
Theorem queue_exclusive buggy p : rtc (pool_step buggy) pool0 p ->
  (forall t t' s s' fd, threads p !! t = Some s -> threads p !! t' = Some s' -> fd ∈ keeps s -> fd ∈ keeps s' -> t = t') /\
  (forall t s fd, threads p !! t = Some s -> fd ∈ keeps s ->
     armed (kern p) !! fd = None /\ fd ∉ parked p /\
     exists ty, clients p !! fd = Some ty /\ mog_queue_step ty MOG_NEXT_ACTIVE = Ok tt /\
       forall ev r1 r2, no_memory r1 -> no_memory r2 -> exists x, mog_idleq_push buggy fd ev r1 r2 (kern p) = Ok x) /\
  (forall fd, is_Some (clients p !! fd) ->
     is_Some (armed (kern p) !! fd) \/ fd ∈ parked p \/ exists t s, threads p !! t = Some s /\ fd ∈ keeps s).
Proof.
  intros Hr. pose proof (pool_reach_ok _ _ Hr) as Hok. pose proof (po_places p Hok) as Hp. split_and!.
  - intros t t' s s' fd Ht Ht' Hin Hin'. destruct (decide (t = t')) as [|Hne]; [done|]. exfalso.
    rewrite (mkept_delete _ _ _ Ht) in Hp. rewrite (mkept_delete (delete t (threads p)) t' s') in Hp by by rewrite lookup_delete_ne.
    apply (f_equal (multiplicity fd)) in Hp. rewrite !multiplicity_disj_union, !mkeys_elem in Hp.
    rewrite <- elem_of_list_to_set_disj, elem_of_multiplicity in Hin.
    rewrite <- elem_of_list_to_set_disj, elem_of_multiplicity in Hin'. destruct (decide (is_Some (clients p !! fd))); lia.
  - intros t s fd Ht Hin. destruct (kept_held p t s fd Hok Ht Hin) as (Ha & [ty Hc] & Hreg). split_and!; [done| |].
    + intros Hpk. rewrite (mkept_delete _ _ _ Ht) in Hp. apply (f_equal (multiplicity fd)) in Hp.
      rewrite !multiplicity_disj_union, !mkeys_elem, melems_elem in Hp. rewrite <- elem_of_list_to_set_disj, elem_of_multiplicity in Hin.
      rewrite (decide_True (P := fd ∈ parked p)) in Hp by done. destruct (decide (is_Some (clients p !! fd))); lia.
    + exists ty. split; [done|]. split; [by pose proof (po_types p Hok _ _ Hc); destruct ty|].
      intros ev r1 r2 H1 H2. destruct (idleq_push_ok buggy fd ev r1 r2 (kern p) H1 H2 Hreg) as (x & Hx & _). eauto.
  - intros fd Hc. apply (f_equal (multiplicity fd)) in Hp. rewrite !multiplicity_disj_union, !mkeys_elem, melems_elem in Hp.
    destruct (decide (is_Some (armed (kern p) !! fd))); [by left|]. destruct (decide (fd ∈ parked p)); [right; by left|].
    right; right. rewrite (decide_True (P := is_Some (clients p !! fd))) in Hp by done.
    assert (Hin : fd ∈ mkept (threads p)) by (apply elem_of_multiplicity; lia).
    unfold mkept in Hin. rewrite elem_of_list_to_set_disj in Hin.
    apply list_elem_of_In, in_concat in Hin as (l & ([t s] & <- & Hin)%in_map_iff & Hl).
    exists t, s. split; [by apply elem_of_map_to_list, list_elem_of_In|by apply list_elem_of_In].
Qed.

(** One thread serves a client, meets another, and swaps them. *)
Lemma queue_exclusive_witness :
  exists p, rtc (pool_step false) pool0 p /\ threads p !! 0%nat = Some (TStep 6) /\
    armed (kern p) !! 6 = None /\ armed (kern p) !! 5 = Some MOG_QEV_RW.
Proof.
  set (p5 := Pool (Epoll ({[ 6 ]} ∪ {[ 5 ]}) {[ 5 := MOG_QEV_RW ]}) {[ 0%nat := TStep 6 ]}
    (<[ 6 := MOG_FD_TYPE_MGMT ]> {[ 5 := MOG_FD_TYPE_HTTP ]}) ∅).
  assert (Hr : rtc (pool_step false) pool0 p5).
  { eapply rtc_l; [apply (ps_spawn false 0%nat pool0); reflexivity|].
    eapply rtc_l; [eapply (ps_accept false 5 MOG_FD_TYPE_HTTP None); [reflexivity|reflexivity|by left|reflexivity]|].
    eapply rtc_l; [eapply (ps_wait false 0%nat 5); reflexivity|].
    eapply rtc_l; [eapply (ps_step false 0%nat 5 MOG_FD_TYPE_HTTP MOG_NEXT_ACTIVE); reflexivity|].
    eapply rtc_l; [eapply (ps_accept false 6 MOG_FD_TYPE_MGMT None); [reflexivity|reflexivity|by left|reflexivity]|].
    eapply rtc_l; [eapply (ps_poll false 0%nat 5 6); reflexivity|].
    eapply rtc_l; [eapply (ps_swap false 0%nat 5 6 None None); [reflexivity|by left|by left|reflexivity]|].
    vm_compute. apply rtc_refl. }
  exists p5. split; [exact Hr|]. split; [reflexivity|]. split; [|reflexivity].
  destruct (queue_exclusive false p5 Hr) as (_ & Hk & _). exact (proj1 (Hk 0%nat (TStep 6) 6 eq_refl ltac:(set_solver))).
Defined.

(** ** The number of threads (thrpool.c) *)

Definition mog_pthread_create_retry (e : errno) : bool :=
  match e with EAGAIN | ENOMEM => true | _ => false end.

Section Thrpool.
(** [pthread_create], by attempt: the thread of that number, or an error; and how
    often [pthread_kill] still finds a cancelled thread. *)
Variable create : nat -> option errno.
Variable lingers : nat -> nat.

(** [tp->threads], [tp->n_threads] of them; [k] counts the attempts. *)
Fixpoint grow (fuel : nat) (k : nat) (size : Z) (tp : list nat) : res (list nat * nat) :=
  match fuel with
  | O => Crash OutOfFuel
  | S fuel' =>
      if size <=? zlen tp then Ok (tp, k)
      else
        match create k with
        | None => grow fuel' (S k) size (tp ++ [k])
        | Some e =>
            if mog_pthread_create_retry e then
              (* thr_create_fail_retry: do not leave the pool without threads *)
              if zlen tp =? 0 then grow fuel' (S k) size tp else Ok (tp, S k)
            else Crash AssertFailed
        end
  end.

(** [poke]: signal until the thread is gone. *)
Fixpoint poke (n : nat) : res unit := match n with O => Ok tt | S n => poke n end.

Fixpoint join_each (tp : list nat) : res unit :=
  match tp with [] => Ok tt | t :: tp => let* _ := poke (lingers t) in join_each tp end.

Definition thrpool_set_size (fuel : nat) (k : nat) (size : Z) (tp : list nat) : res (list nat * nat) :=
  let* '(tp, k) := grow fuel k size tp in
  if size <? zlen tp then
    let* _ := join_each (drop (Z.to_nat size) tp) in Ok (take (Z.to_nat size) tp, k)
  else Ok (tp, k).

Definition mog_thrpool_start (fuel : nat) (n : Z) : res (list nat * nat) :=
  thrpool_set_size fuel 0 (if n =? 0 then 1 else n) [].

Definition mog_thrpool_quit (fuel k : nat) (tp : list nat) : res (list nat * nat) := thrpool_set_size fuel k 0 tp.

(** [mog_thrpool_process_queue]: the requests of [mog_thrpool_set_n_threads] for
    one pool, in the order they were made. *)
Fixpoint mog_thrpool_process_queue (fuel k : nat) (satq : list Z) (tp : list nat) : res (list nat * nat) :=
  match satq with
  | [] => Ok (tp, k)
  | size :: satq => let* '(tp, k) := thrpool_set_size fuel k size tp in mog_thrpool_process_queue fuel k satq tp
  end.

(** Errors of [pthread_create] are those of a system under load, and end. *)
Hypothesis create_errors : forall k e, create k = Some e -> mog_pthread_create_retry e = true.
Hypothesis create_recovers : forall k, exists k', (k <= k')%nat /\ create k' = None.

Lemma join_each_ok tp : join_each tp = Ok tt.
Proof.
  assert (Hp : forall n, poke n = Ok tt) by (induction n; done). induction tp; simpl; [done|]. by rewrite Hp.
Qed.

Definition grown (size : Z) (tp tp' : list nat) : Prop :=
  tp `prefix_of` tp' /\ zlen tp' <= Z.max size (zlen tp) /\ (0 < size -> 0 < zlen tp') /\
  ((forall k, create k = None) -> size <= zlen tp').

(** A pool that has a thread needs no more attempts than threads that are asked
    for. *)
Lemma grow_nonempty fuel : forall k size tp, 0 < zlen tp -> Z.max 0 (size - zlen tp) < Z.of_nat fuel ->
  exists tp' k', grow fuel k size tp = Ok (tp', k') /\ grown size tp tp'.
Proof.
  induction fuel as [|fuel IH]; intros k size tp Ht Hf; [lia|]. cbn [grow].
  destruct (Z.leb_spec size (zlen tp)); [exists tp, k; split; [done|]; repeat split; try done; lia|].
  destruct (create k) as [e|] eqn:E.
  - rewrite (create_errors k e E), (proj2 (Z.eqb_neq _ _)) by lia. exists tp, (S k). split; [done|].
    repeat split; try done; [lia|]. intros Hall. by rewrite Hall in E.
  - destruct (IH (S k) size (tp ++ [k])) as (tp' & k' & Hg & Hp & Hl & Hpos & Hall).
    { rewrite zlen_app. change (zlen [k]) with 1. lia. }
    { rewrite zlen_app. change (zlen [k]) with 1. lia. }
    exists tp', k'. split; [done|]. rewrite zlen_app in Hl. change (zlen [k]) with 1 in Hl.
    split; [by eapply prefix_app_l|]. split; [lia|]. done.
Qed.

(** One without threads tries until one is created. *)
Lemma grow_empty d : forall k size fuel, 0 < size -> create (k + d) = None -> Z.of_nat d + size + 1 < Z.of_nat fuel ->
  exists tp' k', grow fuel k size [] = Ok (tp', k') /\ grown size [] tp'.
Proof.
  induction d as [|d IH]; intros k size fuel Hs Hc Hf; (destruct fuel as [|fuel]; [lia|]); cbn [grow];
    rewrite (proj2 (Z.leb_gt _ _)) by (change (zlen []) with 0; lia); destruct (create k) as [e|] eqn:E.
  - rewrite Nat.add_0_r in Hc. congruence.
  - destruct (grow_nonempty fuel (S k) size [k]) as (tp' & k' & Hg & Hp & Hl & Hpos & Hall);
      [change (zlen [k]) with 1; lia..|]. change (zlen [k]) with 1 in Hl.
    exists tp', k'. split; [done|]. split; [apply prefix_nil|]. change (zlen []) with 0. split; [lia|done].
  - rewrite (create_errors k e E). simpl. apply IH; [done|by replace (S k + d)%nat with (k + S d)%nat by lia|lia].
  - destruct (grow_nonempty fuel (S k) size [k]) as (tp' & k' & Hg & Hp & Hl & Hpos & Hall);
      [change (zlen [k]) with 1; lia..|]. change (zlen [k]) with 1 in Hl.
    exists tp', k'. split; [done|]. split; [apply prefix_nil|]. change (zlen []) with 0. split; [lia|done].
Qed.

End Thrpool.

