(* ===== verification/Accept.v ===== *)
(** Accepting connections (accept.c, accept_loop.c, the functions
    [mog_http_post_accept], [mog_httpget_post_accept] and [mog_mgmt_post_accept]):
    from a listener to the map of descriptors and the queue of the threads. *)
From S2P Require Import Prelude FdMap Queue.
From stdpp Require Import base list numbers gmap fin_maps.
From Stdlib Require Import ZArith Lia.

#[local] Open Scope Z_scope.

(** Errors of accept(2) by their numbers on Linux. *)
Definition ENOTSOCK : errno := EOTHER 88.
Definition EOPNOTSUPP : errno := EOTHER 95.
Definition ECONNABORTED : errno := EOTHER 103.
Definition ENOBUFS : errno := EOTHER 105.

(** What the threads share: the map of descriptors, the queue, the times of the
    last expiry in accept_loop.c and fdmap.c, the errors that were logged, the
    clients that were shut down, and whether the listener blocks. *)
Record server := Server {
  sv_map : fdmap;
  sv_queue : epoll;
  sv_last_log : Z;
  sv_last_expire : Z;
  sv_logged : list errno;
  sv_expired : list Z;
  sv_blocking : bool
}.

Definition set_map v s := Server v (sv_queue s) (sv_last_log s) (sv_last_expire s) (sv_logged s) (sv_expired s) (sv_blocking s).
Definition set_queue v s := Server (sv_map s) v (sv_last_log s) (sv_last_expire s) (sv_logged s) (sv_expired s) (sv_blocking s).

Section Accept.
Variable open_max : Z.
(** The type of the connections of the listener ([post_accept_fn]), and
    [svc->idle_timeout]. *)
Variable ty : mog_fd_type.
Variable idle_timeout : Z.
(** What [getsockopt] and [shutdown] answer, and which descriptors are locked. *)
Variable tcp : Z -> errno + tcp_info.
Variable shut : Z -> bool.
Variable busy : Z -> bool.

(** What the system answers: a connection, with the result of adding it to the
    queue, or an error with the time, whether [fd_lock] is taken, and whether the
    listener can be made blocking. *)
Inductive accept_reply :=
  | Accepted (fd : Z) (r : option errno)
  | Refused (e : errno) (now : Z) (locked : bool) (nonblock : option errno).

(** [mog_http_post_accept] and the like; the state of the connection is set up by
    [mog_http_init] or [mog_mgmt_init]. *)
Definition post_accept (fd : Z) (r : option errno) (s : server) : res server :=
  let* '(mfd, t) := mog_fd_init open_max fd ty (sv_map s) in
  let* '(ok, k) := mog_idleq_add fd MOG_QEV_RD r (sv_queue s) in
  let* t := (if ok : bool then Ok t else mog_fd_put mfd t) in
  Ok (set_queue k (set_map t s)).

(** [do_expire]: an error is logged once per second. *)
Definition do_expire (e : errno) (now : Z) (locked : bool) (s : server) : res server :=
  let log := negb (sv_last_log s =? now) in
  let* '(fds, last) := mog_fdmap_expire tcp shut busy idle_timeout locked now now (sv_last_expire s) (sv_map s) in
  Ok (Server (sv_map s) (sv_queue s) now last (sv_logged s ++ if log then [e] else []) (sv_expired s ++ fds) (sv_blocking s)).

(** [accept_error_check]: false when the thread ends. *)
Definition accept_error_check (e : errno) (now : Z) (locked : bool) (nonblock : option errno) (s : server) : res (bool * server) :=
  if bool_decide (e = ECONNABORTED \/ e = EINTR) then Ok (true, s)
  else if bool_decide (e = EBADF) then Crash AssertFailed
  else if bool_decide (e = ENOTSOCK \/ e = EOPNOTSUPP) then Ok (false, s)
  else if bool_decide (e = EAGAIN) then
    match nonblock with
    | None => Ok (true, Server (sv_map s) (sv_queue s) (sv_last_log s) (sv_last_expire s) (sv_logged s) (sv_expired s) true)
    | Some x =>
        assert! bool_decide (x <> EBADF);
        Ok (true, Server (sv_map s) (sv_queue s) (sv_last_log s) (sv_last_expire s) (sv_logged s ++ [x]) (sv_expired s) (sv_blocking s))
    end
  else if bool_decide (e = EMFILE \/ e = ENFILE \/ e = ENOBUFS \/ e = ENOMEM) then
    let* s := do_expire e now locked s in Ok (true, s)
  else if bool_decide (e = ENOSYS) then Crash Died
  else Ok (true, Server (sv_map s) (sv_queue s) (sv_last_log s) (sv_last_expire s) (sv_logged s ++ [e]) (sv_expired s) (sv_blocking s)).

(** [mog_accept_loop]; a script that ends is a thread that waits. *)
Fixpoint mog_accept_loop (rs : list accept_reply) (s : server) : res (bool * server) :=
  match rs with
  | [] => Ok (true, s)
  | Accepted fd r :: rs => let* s := post_accept fd r s in mog_accept_loop rs s
  | Refused e now locked nb :: rs =>
      let* '(go, s) := accept_error_check e now locked nb s in
      if go : bool then mog_accept_loop rs s else Ok (false, s)
  end.

(** ** Every connection gets its slot and its place in the queue *)

(** Replies that the system gives to correct calls. *)
Definition plausible (r : accept_reply) : Prop :=
  match r with
  | Accepted fd r => 0 <= fd < open_max /\ no_memory r
  | Refused e _ _ nb => e <> EBADF /\ e <> ENOSYS /\ nb <> Some EBADF
  end.

(** The connections that are accepted before an error ends the thread: those that
    are kept, and those the kernel has no memory for. *)
Definition fatal (e : errno) : bool := bool_decide (e = ENOTSOCK \/ e = EOPNOTSUPP).

Fixpoint accepted (rs : list accept_reply) : list (Z * bool) :=
  match rs with
  | [] => []
  | Accepted fd r :: rs => (fd, bool_decide (r = None)) :: accepted rs
  | Refused e _ _ _ :: rs => if fatal e then [] else accepted rs
  end.

Hypothesis open_max_int : open_max <= INT_MAX.
Hypothesis tcp_errors : forall x, tcp x <> inl EINVAL /\ tcp x <> inl EFAULT.
Hypothesis timeout_range : 0 <= idle_timeout < 2 ^ 32 / 1000.

Definition server_ok (s : server) : Prop :=
  fdmap_ok open_max (sv_map s) /\ forall fd ev, armed (sv_queue s) !! fd = Some ev -> fd ∈ registered (sv_queue s).

(** Nothing but the slot and the place of [fd] changes. *)
Definition only_fd (fd : Z) (s s' : server) : Prop :=
  (forall o x, 0 <= o -> o <> fd -> deref (sv_map s) (aref o) = Ok x -> deref (sv_map s') (aref o) = Ok x) /\
  (forall o, o <> fd -> armed (sv_queue s') !! o = armed (sv_queue s) !! o /\
     (o ∈ registered (sv_queue s') <-> o ∈ registered (sv_queue s))).

Lemma post_accept_ok fd r s : server_ok s -> 0 <= fd < open_max -> no_memory r -> fd ∉ registered (sv_queue s) ->
  exists s', post_accept fd r s = Ok s' /\ server_ok s' /\ only_fd fd s s' /\
    (exists x, deref (sv_map s') (aref fd) = Ok x /\ fd_type x = if bool_decide (r = None) then ty else MOG_FD_TYPE_UNUSED) /\
    armed (sv_queue s') !! fd = if bool_decide (r = None) then Some MOG_QEV_RD else None.
Proof.
  intros [Hok Hq] Hfd Hr Hnew. destruct (fd_get_ok open_max fd (sv_map s) Hok Hfd open_max_int) as (t1 & x & He & Hok1 & Hg & Hd & Hx & Hlt).
  unfold post_accept, mog_fd_init. rewrite He. cbn [res_bind]. rewrite Hd. cbn [res_bind]. rewrite Hx, Z.eqb_refl. cbn [assert_ res_bind].
  set (t2 := store (aref fd) (MogFd ty fd (as_prio x)) t1).
  assert (Hok2 : fdmap_ok open_max t2) by by eapply store_ok.
  assert (Hd2 : deref t2 (aref fd) = Ok (MogFd ty fd (as_prio x))) by by eapply store_deref_same.
  assert (Ho2 : forall o y, 0 <= o -> o <> fd -> deref (sv_map s) (aref o) = Ok y -> deref t2 (aref o) = Ok y).
  { intros o y Ho Hne Hy. unfold t2. rewrite store_deref_other by (done || lia). by eapply grown_deref. }
  unfold mog_idleq_add, idleq_mod, epoll_ctl. rewrite decide_False by done.
  destruct Hr as [-> |Hr].
  - cbn [res_bind]. eexists. split; [done|]. rewrite bool_decide_true by done. cbn [sv_map sv_queue set_queue set_map armed registered].
    split; [split; [done|]|split; [split; [done|]|split; [eexists; by rewrite Hd2|by rewrite lookup_insert_eq]]].
    + intros o ev. cbn. destruct (decide (o = fd)) as [-> |Hne]; [set_solver|]. rewrite lookup_insert_ne by done. intros H%Hq. set_solver.
    + intros o Hne. cbn. rewrite lookup_insert_ne by done. set_solver.
  - assert (Hput : exists t3, mog_fd_put (aref fd) t2 = Ok t3 /\ fdmap_ok open_max t3 /\ (exists y, deref t3 (aref fd) = Ok y /\ fd_type y = MOG_FD_TYPE_UNUSED) /\
      forall o, 0 <= o -> o <> fd -> deref t3 (aref o) = deref t2 (aref o)).
    { unfold mog_fd_put. rewrite Hd2. cbn [res_bind mfd_fd]. rewrite (proj2 (Z.leb_le 0 fd)) by lia. cbn [assert_].
      change (max_fd t2) with (max_fd t1). rewrite (proj2 (Z.ltb_lt fd (max_fd t1))), bool_decide_true by (done || lia). cbn [assert_ res_bind].
      eexists. split; [done|]. split; [by eapply store_ok|]. split; [eexists; by erewrite store_deref_same|].
      intros o Ho Hne. apply store_deref_other; (done || lia). }
    destruct Hput as (t3 & Hput & Hok3 & Hty3 & Hoth). exists (set_queue (epoll_forget fd (sv_queue s)) (set_map t3 s)).
    split; [by destruct Hr as [-> | ->]; cbn [res_bind epoll_ctl_error]; rewrite Hput|].
    rewrite bool_decide_false by (by destruct Hr as [-> | ->]). cbn [sv_map sv_queue set_queue set_map].
    split; [split; [done|]|split; [split|split; [done|by cbn; rewrite lookup_delete_eq]]].
    + intros o ev. cbn. intros [Hne H%Hq]%lookup_delete_Some. set_solver.
    + intros o y Ho Hne Hy. rewrite Hoth by done. by apply Ho2.
    + intros o Hne. cbn. rewrite lookup_delete_ne by done. set_solver.
Qed.

(** An error changes neither the map nor the queue. *)
Lemma error_check_ok e now locked nb s : server_ok s -> e <> EBADF -> e <> ENOSYS -> nb <> Some EBADF ->
  exists s', accept_error_check e now locked nb s = Ok (negb (fatal e), s') /\ sv_map s' = sv_map s /\ sv_queue s' = sv_queue s.
Proof.
  intros [Hok _] Hb Hn Hnb. unfold accept_error_check, fatal.
  destruct (decide (e = ECONNABORTED \/ e = EINTR)) as [H|H].
  { rewrite bool_decide_true, bool_decide_false by (done || by destruct H as [-> | ->]; intros []). eauto. }
  rewrite (bool_decide_false (e = ECONNABORTED \/ e = EINTR)), (bool_decide_false (e = EBADF)) by done.
  destruct (decide (e = ENOTSOCK \/ e = EOPNOTSUPP)) as [Hf|Hf]; [rewrite bool_decide_true by done; eauto|].
  rewrite (bool_decide_false (e = ENOTSOCK \/ e = EOPNOTSUPP)) by done. cbn [negb].
  destruct (bool_decide (e = EAGAIN)).
  { destruct nb as [x|]; [|eauto]. rewrite bool_decide_true by congruence. cbn [assert_]. eauto. }
  destruct (bool_decide (e = EMFILE \/ e = ENFILE \/ e = ENOBUFS \/ e = ENOMEM)); [|rewrite bool_decide_false by done; eauto].
  unfold do_expire, mog_fdmap_expire. destruct locked; [cbn [res_bind]; eauto|]. destruct (now =? sv_last_expire s); [cbn [res_bind]; eauto|].
  assert (0 <= max_fd (sv_map s)) as H0 by (destruct Hok as [_ -> _]; unfold FD_PER_HEAP; pose proof (zlen_nonneg (heaps (sv_map s))); lia).
  destruct (Z.leb_spec 3 (max_fd (sv_map s))) as [H3|H3].
  - rewrite (expire_loop_ok tcp shut busy open_max) by (done || lia). cbn [res_bind]. eauto.
  - replace (Z.to_nat (max_fd (sv_map s) - 3)) with 0%nat by lia. cbn [expire_loop res_bind]. eauto.
Qed.

(** However many connections come and whatever errors are met between them, no
    assertion fails and the thread goes on unless its descriptor is no listener;
    every connection is registered with the type of the listener and armed for
    reading, or dropped when the kernel has no memory for it; and no other
    descriptor is touched. *)
Theorem accept_loop_registers rs : forall s, server_ok s -> Forall (plausible) rs -> NoDup (accepted rs).*1 ->
  (forall fd, fd ∈ (accepted rs).*1 -> fd ∉ registered (sv_queue s)) ->
  exists s', mog_accept_loop rs s =
      Ok (negb (existsb (fun r => match r with Refused e _ _ _ => fatal e | Accepted _ _ => false end) rs), s') /\ server_ok s' /\
    (forall fd b, (fd, b) ∈ accepted rs -> type_at (sv_map s') fd = (if b : bool then ty else MOG_FD_TYPE_UNUSED) /\
       armed (sv_queue s') !! fd = if b then Some MOG_QEV_RD else None) /\
    (forall o, o ∉ (accepted rs).*1 -> armed (sv_queue s') !! o = armed (sv_queue s) !! o /\
       forall x, 0 <= o -> deref (sv_map s) (aref o) = Ok x -> deref (sv_map s') (aref o) = Ok x).
Proof.
  induction rs as [|[fd r|e now locked nb] rs IH]; intros s Hs Hp Hnd Hnew.
  - exists s. split; [done|]. split; [done|]. split; [by intros fd b H%elem_of_nil|done].
  - apply Forall_cons_1 in Hp as [[Hfd Hr] Hp]. cbn [accepted fmap list_fmap fst] in *. apply NoDup_cons in Hnd as [Hni Hnd].
    destruct (post_accept_ok fd r s Hs Hfd Hr (Hnew fd ltac:(set_solver))) as (s1 & He1 & Hs1 & [Hm1 Hq1] & (x & Hx & Hty1) & Ha1).
    destruct (IH s1 Hs1 Hp Hnd) as (s' & He & Hs' & Hin & Hout).
    { intros o Ho Hreg. apply (Hnew o); [set_solver|]. apply (Hq1 o); [intros ->; done|done]. }
    cbn [mog_accept_loop existsb orb]. rewrite He1. cbn [res_bind]. exists s'. split; [done|]. split; [done|]. split.
    + intros fd' b [[= -> ->]|H]%elem_of_cons; [|by apply Hin]. destruct (Hout fd Hni) as [Ha Hd]. rewrite Ha. split; [|done].
      unfold type_at. by rewrite (Hd x ltac:(lia) Hx).
    + intros o Ho. apply not_elem_of_cons in Ho as [Hne Ho]. destruct (Hout o Ho) as [Ha Hd]. destruct (Hq1 o Hne) as [Hq _].
      split; [congruence|]. intros y H0 Hy. apply Hd; [done|]. by apply Hm1.
  - apply Forall_cons_1 in Hp as [(Hb & Hn & Hnb) Hp]. cbn [accepted mog_accept_loop existsb] in *.
    destruct (error_check_ok e now locked nb s Hs Hb Hn Hnb) as (s1 & He1 & Hm1 & Hq1). rewrite He1. cbn [res_bind].
    destruct (fatal e); cbn [negb orb].
    + exists s1. unfold server_ok. rewrite Hm1, Hq1. split; [done|]. split; [done|]. split; [by intros fd b H%elem_of_nil|done].
    + destruct (IH s1) as (s' & He & Hs' & Hin & Hout); [unfold server_ok; by rewrite Hm1, Hq1|done|done|by rewrite Hq1|].
      exists s'. split; [done|]. split; [done|]. split; [done|]. by rewrite <- Hm1, <- Hq1.
Qed.
End Accept.
