(* ===== verification/Notify.v ===== *)
(** Notifications of the main thread (notify.c, selfwake.c, selfwake.h): other
    threads ask it to refresh the usage files or to resize a pool, and wake it up
    by a self-pipe or, where epoll can unblock signals while it waits, by a
    signal.  The threads and the main thread interleave at their system calls and
    atomic operations. *)
From S2P Require Import Prelude.
From stdpp Require Import base list numbers gmap fin_maps relations.
From Stdlib Require Import ZArith Lia.

#[local] Open Scope Z_scope.

Inductive mog_notification := MOG_NOTIFY_SIGNAL | MOG_NOTIFY_DEVICE_REFRESH | MOG_NOTIFY_SET_N_THREADS.

#[export] Instance notification_eq_dec : EqDecision mog_notification.
Proof. solve_decision. Defined.

(** [notes], whose values are 0 and 1. *)
Record notes := Notes { note_refresh : bool; note_threads : bool }.

Definition note_of (n : mog_notification) (t : notes) : bool :=
  match n with
  | MOG_NOTIFY_SIGNAL => false
  | MOG_NOTIFY_DEVICE_REFRESH => note_refresh t
  | MOG_NOTIFY_SET_N_THREADS => note_threads t
  end.

Definition note_set (n : mog_notification) (v : bool) (t : notes) : notes :=
  match n with
  | MOG_NOTIFY_SIGNAL => t
  | MOG_NOTIFY_DEVICE_REFRESH => Notes v (note_threads t)
  | MOG_NOTIFY_SET_N_THREADS => Notes (note_refresh t) v
  end.

(** A compare-and-swap, which is atomic. *)
Definition note_xchg (n : mog_notification) (from to : bool) (t : notes) : bool * notes :=
  if Bool.eqb (note_of n t) from then (true, note_set n to t) else (false, t).

(** A request of [mog_thrpool_set_n_threads]: the queue and the size. *)
Abbreviation sat_arg := (Z * Z)%type.

(** Where a call of [mog_notify] is: before the compare-and-swap, or before the
    wake-up. *)
Inductive caller := AtXchg (n : mog_notification) | AtWake (n : mog_notification).

(** Where the main thread goes on after an event: in the loop of
    [mog_notify_wait] that does not sleep, or behind its last wait. *)
Inductive after := ToPoll | ToReturn.

(** Where the main thread is: at the start of [mog_notify_wait]; before a wait
    without a timeout; in [mog_idleq_wait_intr]; in [mog_selfwake_drain]; in
    [mog_iostat_queue_step]; at the first or the second test of [note_run], which
    [note_queue_step] follows by a push ([push]); in [mog_thrpool_process_queue];
    before that push; and behind [mog_notify_wait], where the flags that signals
    set are looked at. *)
Inductive main_pc :=
  | MTop | MPoll | MSleep
  | MDrain (k : after) | MIostat (k : after)
  | MRun (push : bool) (k : after) | MRun2 (push : bool) (k : after) | MProc (push : bool) (k : after)
  | MPush (k : after) | MDone.

Record nstate := NState {
  st_notes : notes;
  pipe : Z; (* bytes in the self-pipe *)
  armed : bool; (* its reader in the queue *)
  urg : bool; (* SIGURG is pending for the process *)
  satq : list sat_arg;
  callers : gmap nat caller;
  main : main_pc;
  do_exit : bool;
  (* not in the code: all requests that were made and that were carried out, and
     whether a refresh was asked for since the last one started *)
  requested : list sat_arg;
  handled : list sat_arg;
  stale : bool
}.

Definition set_notes v s := NState v (pipe s) (armed s) (urg s) (satq s) (callers s) (main s) (do_exit s) (requested s) (handled s) (stale s).
Definition set_pipe v s := NState (st_notes s) v (armed s) (urg s) (satq s) (callers s) (main s) (do_exit s) (requested s) (handled s) (stale s).
Definition set_armed v s := NState (st_notes s) (pipe s) v (urg s) (satq s) (callers s) (main s) (do_exit s) (requested s) (handled s) (stale s).
Definition set_urg v s := NState (st_notes s) (pipe s) (armed s) v (satq s) (callers s) (main s) (do_exit s) (requested s) (handled s) (stale s).
Definition set_satq v s := NState (st_notes s) (pipe s) (armed s) (urg s) v (callers s) (main s) (do_exit s) (requested s) (handled s) (stale s).
Definition set_callers v s := NState (st_notes s) (pipe s) (armed s) (urg s) (satq s) v (main s) (do_exit s) (requested s) (handled s) (stale s).
Definition set_main v s := NState (st_notes s) (pipe s) (armed s) (urg s) (satq s) (callers s) v (do_exit s) (requested s) (handled s) (stale s).
Definition set_do_exit v s := NState (st_notes s) (pipe s) (armed s) (urg s) (satq s) (callers s) (main s) v (requested s) (handled s) (stale s).
Definition set_requested v s := NState (st_notes s) (pipe s) (armed s) (urg s) (satq s) (callers s) (main s) (do_exit s) v (handled s) (stale s).
Definition set_handled v s := NState (st_notes s) (pipe s) (armed s) (urg s) (satq s) (callers s) (main s) (do_exit s) (requested s) v (stale s).
Definition set_stale v s := NState (st_notes s) (pipe s) (armed s) (urg s) (satq s) (callers s) (main s) (do_exit s) (requested s) (handled s) v.

Section Notify.
(** [MOG_SELFPIPE], and the size of a pipe. *)
Variable selfpipe : bool.
Variable pipe_size : Z.

(** A full pipe fails the write with EAGAIN, which is ignored. *)
Definition mog_selfwake_trigger (s : nstate) : nstate :=
  if selfpipe then if pipe s <? pipe_size then set_pipe (pipe s + 1) s else s else s.

Definition mog_selfwake_interrupt (s : nstate) : nstate := if selfpipe then s else set_urg true s.

(** [mog_notify] behind the compare-and-swap. *)
Definition notify_wake (n : mog_notification) (s : nstate) : nstate :=
  match n with
  | MOG_NOTIFY_DEVICE_REFRESH | MOG_NOTIFY_SET_N_THREADS => mog_selfwake_trigger (mog_selfwake_interrupt s)
  | MOG_NOTIFY_SIGNAL => mog_selfwake_trigger s
  end.

(** The self-pipe can be read and is watched. *)
Definition pipe_ready (s : nstate) : bool := selfpipe && armed s && (0 <? pipe s).

Definition resume (k : after) : main_pc := match k with ToPoll => MPoll | ToReturn => MDone end.
Definition behind_run (push : bool) (k : after) : main_pc := if push then MPush k else resume k.

(** [note_run], test by test. *)
Definition note_run1 (push : bool) (k : after) (s : nstate) : nstate :=
  let '(b, t) := note_xchg MOG_NOTIFY_DEVICE_REFRESH true false (st_notes s) in
  set_main (MRun2 push k) (set_notes t (if b then set_stale false s else s)).

Definition note_run2 (push : bool) (k : after) (s : nstate) : nstate :=
  let '(b, t) := note_xchg MOG_NOTIFY_SET_N_THREADS true false (st_notes s) in
  set_main (if b then MProc push k else behind_run push k) (set_notes t s).

(** One turn of [mog_thrpool_process_queue]. *)
Definition process_one (push : bool) (k : after) (s : nstate) : nstate :=
  match satq s with
  | [] => set_main (behind_run push k) s
  | arg :: q => set_handled (handled s ++ [arg]) (set_satq q s)
  end.

(** The steps of the main thread; the push of the reader succeeds. *)
Inductive main_step : nstate -> nstate -> Prop :=
| ms_top (due : bool) s : main s = MTop ->
    main_step s (set_main MPoll (if due then set_stale false s else s))
| ms_poll s : main s = MPoll -> pipe_ready s = true ->
    main_step s (set_main (MDrain ToPoll) (set_armed false s))
| ms_poll_iostat s : main s = MPoll -> main_step s (set_main (MIostat ToPoll) s)
| ms_poll_none s : main s = MPoll -> pipe_ready s = false -> main_step s (set_main MSleep s)
| ms_sleep s : main s = MSleep -> pipe_ready s = true ->
    main_step s (set_main (MDrain ToReturn) (set_armed false s))
| ms_sleep_iostat s : main s = MSleep -> main_step s (set_main (MIostat ToReturn) s)
| ms_sleep_urg s : main s = MSleep -> urg s = true ->
    main_step s (set_main (MRun false ToReturn) (set_urg false s))
| ms_sleep_signal (quit : bool) s : main s = MSleep -> (* worker_wakeup_handler *)
    main_step s (set_main (MRun false ToReturn)
      (notify_wake MOG_NOTIFY_SIGNAL (if quit then set_do_exit true s else s)))
| ms_sleep_timeout (eintr : bool) s : main s = MSleep -> (* errno is what it was before *)
    main_step s (set_main (if eintr then MRun false ToReturn else MDone) s)
| ms_iostat k s : main s = MIostat k -> main_step s (set_main (resume k) s)
| ms_drain k s : main s = MDrain k -> 0 < pipe s ->
    main_step s (set_pipe (pipe s - Z.min 64 (pipe s)) s)
| ms_drained k (eintr : bool) s : main s = MDrain k -> pipe s = 0 \/ eintr = true ->
    main_step s (set_main (MRun true k) s)
| ms_run push k s : main s = MRun push k -> main_step s (note_run1 push k s)
| ms_run2 push k s : main s = MRun2 push k -> main_step s (note_run2 push k s)
| ms_process push k s : main s = MProc push k -> main_step s (process_one push k s)
| ms_push k s : main s = MPush k -> main_step s (set_main (resume k) (set_armed true s))
| ms_done s : main s = MDone -> main_step s (set_main MTop s).

(** The steps of the other threads: they ask for a refresh, for a pool to be
    resized, or for a shutdown ([cmogstored_quit] of a server without a master). *)
Inductive thread_step : nstate -> nstate -> Prop :=
| ts_refresh t s : callers s !! t = None ->
    thread_step s (set_stale true (set_callers (<[t := AtXchg MOG_NOTIFY_DEVICE_REFRESH]> (callers s)) s))
| ts_set_n_threads t arg s : callers s !! t = None ->
    thread_step s (set_requested (requested s ++ [arg]) (set_satq (satq s ++ [arg])
      (set_callers (<[t := AtXchg MOG_NOTIFY_SET_N_THREADS]> (callers s)) s)))
| ts_quit t s : callers s !! t = None ->
    thread_step s (set_do_exit true (set_callers (<[t := AtWake MOG_NOTIFY_SIGNAL]> (callers s)) s))
| ts_xchg t n s : callers s !! t = Some (AtXchg n) ->
    thread_step s (set_notes (note_xchg n false true (st_notes s)).2 (set_callers (<[t := AtWake n]> (callers s)) s))
| ts_wake t n s : callers s !! t = Some (AtWake n) ->
    thread_step s (notify_wake n (set_callers (delete t (callers s)) s)).

Definition notify_step (s s' : nstate) : Prop := main_step s s' \/ thread_step s s'.

Definition nstate0 : nstate := NState (Notes false false) 0 selfpipe false [] ∅ MTop false [] [] false.

(** ** No request is lost *)

(** The main thread tests the note before it sleeps. *)
Definition will_test (n : mog_notification) (m : main_pc) : bool :=
  match m, n with
  | MDrain _, _ | MRun _ _, _ => true
  | MRun2 _ _, MOG_NOTIFY_SET_N_THREADS => true
  | _, _ => false
  end.

Definition processing (m : main_pc) : bool := match m with MProc _ _ => true | _ => false end.

(** The reader of the pipe is out of the queue. *)
Definition reading (m : main_pc) : bool :=
  match m with
  | MDrain _ | MRun true _ | MRun2 true _ | MProc true _ | MPush _ => true
  | _ => false
  end.

(** Something will end the sleep of the main thread. *)
Definition token (s : nstate) : bool := if selfpipe then 0 <? pipe s else urg s.

(** What the note stands for is still to be done. *)
Definition wanted (n : mog_notification) (s : nstate) : Prop :=
  match n with
  | MOG_NOTIFY_SIGNAL => False
  | MOG_NOTIFY_DEVICE_REFRESH => stale s = true
  | MOG_NOTIFY_SET_N_THREADS => satq s <> []
  end.

Record notify_inv (s : nstate) : Prop := {
  ni_order : requested s = handled s ++ satq s;
  ni_noted : forall n, wanted n s -> note_of n (st_notes s) = true \/ (exists t, callers s !! t = Some (AtXchg n)) \/
    (n = MOG_NOTIFY_SET_N_THREADS /\ processing (main s) = true);
  ni_woken : forall n, note_of n (st_notes s) = true ->
    will_test n (main s) = true \/ token s = true \/ exists t, callers s !! t = Some (AtWake n);
  ni_armed : armed s = selfpipe && negb (reading (main s));
  ni_reading : reading (main s) = true -> selfpipe = true;
  ni_pipe : 0 <= pipe s
}.

Hypothesis pipe_room : 0 < pipe_size.

Lemma note_xchg_of n n' from to t : note_of n' (note_xchg n from to t).2 =
  if decide (n = n' /\ n <> MOG_NOTIFY_SIGNAL /\ note_of n t = from) then to else note_of n' t.
Proof. destruct n, n', from, to, t as [[] []]; reflexivity. Qed.

(** A wake-up changes the pipe or the pending signal only. *)
Definition woken_from (s s' : nstate) : Prop :=
  exists p u, s' = set_pipe p (set_urg u s) /\ pipe s <= p /\ (token s = true -> token s' = true).

Lemma wake_token n s : 0 <= pipe s ->
  woken_from s (notify_wake n s) /\ (n <> MOG_NOTIFY_SIGNAL -> token (notify_wake n s) = true).
Proof.
  intros Hp. unfold woken_from, notify_wake, mog_selfwake_trigger, mog_selfwake_interrupt, token.
  destruct s as [nt p a u q cs m e r h st]; simpl in *. destruct selfpipe.
  - assert (Hx : forall x : nstate, x = (if p <? pipe_size then NState nt (p + 1) a u q cs m e r h st else NState nt p a u q cs m e r h st) ->
      (exists p' u', x = NState nt p' a u' q cs m e r h st /\ p <= p' /\ (0 < p -> 0 < p')) /\ 0 < pipe x).
    { intros x ->. destruct (Z.ltb_spec p pipe_size); simpl; (split; [|lia]); eexists _, _; (split; [reflexivity|lia]). }
    destruct (Hx _ eq_refl) as [(p' & u' & He & Hle & Hpos) Hlt].
    split; [|intros _; destruct n; by apply Z.ltb_lt].
    exists p', u'. split; [by destruct n|]. split; [done|]. intros H%Z.ltb_lt. destruct n; by apply Z.ltb_lt.
  - split; [|by destruct n]. exists p, (match n with MOG_NOTIFY_SIGNAL => u | _ => true end).
    split; [by destruct n|]. split; [done|]. by destruct n.
Qed.

(** Another call of [mog_notify] does not lose the others. *)
Lemma caller_kept (cs : gmap nat caller) t c c' : (forall c1, cs !! t = Some c1 -> c' <> c1) ->
  (exists u, cs !! u = Some c') -> exists u, <[t := c]> cs !! u = Some c' /\ delete t cs !! u = Some c'.
Proof.
  intros Hn [u Hu]. exists u. rewrite lookup_insert_ne, lookup_delete_ne; [done|..]; intros ->; by eapply Hn.
Qed.

(** A call that starts. *)
Lemma started_inv t c s s' : notify_inv s -> callers s !! t = None -> callers s' = <[t := c]> (callers s) ->
  st_notes s' = st_notes s -> main s' = main s -> pipe s' = pipe s -> armed s' = armed s -> urg s' = urg s ->
  requested s' = handled s' ++ satq s' -> (forall n, wanted n s' -> wanted n s \/ c = AtXchg n) -> notify_inv s'.
Proof.
  intros [Ho Hn Hw Ha Hrd Hp] Ht Hc Hnt Hm Hpi Har Hu Ho' Hwt.
  assert (Hk : forall c', (exists u, callers s !! u = Some c') -> exists u, callers s' !! u = Some c').
  { intros c' H. rewrite Hc. destruct (caller_kept (callers s) t c c') as (u & Hk & _); [congruence|done|eauto]. }
  split; [done| | |congruence|by rewrite Hm|lia].
  - intros n H. rewrite Hnt, Hm. destruct (Hwt n H) as [H1| ->]; [|right; left; exists t; by rewrite Hc, lookup_insert_eq].
    destruct (Hn n H1) as [?|[?|?]]; eauto.
  - intros n H. rewrite Hnt in H. unfold token. rewrite Hm, Hpi, Hu. destruct (Hw n H) as [?|[?|?]]; eauto.
Qed.

Lemma thread_step_inv s s' : thread_step s s' -> notify_inv s -> notify_inv s'.
Proof.
  intros Hs Hi. pose proof Hi as [Ho Hn Hw Ha Hrd Hp]. destruct Hs as [t s Ht|t arg s Ht|t s Ht|t n s Ht|t n s Ht].
  - eapply started_inv; try done. intros []; simpl; auto.
  - eapply started_inv; try done; simpl; [by rewrite Ho, app_assoc|]. intros []; simpl; auto.
  - eapply started_inv; try done. intros []; simpl; auto.
  - split; simpl; [done| | |done|done|done].
    + intros n' Hwt. rewrite note_xchg_of. case_decide as Hd; [by left|].
      destruct (Hn n' Hwt) as [H|[H|H]]; [by left| |by right; right].
      destruct (decide (n = n')) as [<-|Hne].
      * left. destruct (note_of n (st_notes s)); [done|]. exfalso. apply Hd. by destruct n.
      * right; left. destruct (caller_kept (callers s) t (AtWake n) (AtXchg n')) as (u & Hu & _); [congruence|done|eauto].
    + intros n' Hnt. rewrite note_xchg_of in Hnt.
      destruct (decide (n = n')) as [<-|Hne]; [right; right; exists t; by rewrite lookup_insert_eq|].
      rewrite decide_False in Hnt by naive_solver. destruct (Hw n' Hnt) as [H|[H|H]]; [by left|by right; left|right; right].
      destruct (caller_kept (callers s) t (AtWake n) (AtWake n')) as (u & Hu & _); [congruence|done|eauto].
  - destruct (wake_token n (set_callers (delete t (callers s)) s) Hp) as [(p & u & -> & Hle & Htok) Hset]. simpl in Hle.
    split; simpl; [done| | |done|done|lia].
    + intros n' Hwt. destruct (Hn n' Hwt) as [H|[H|H]]; [by left| |by right; right]. right; left.
      destruct (caller_kept (callers s) t (AtWake n) (AtXchg n')) as (v & _ & Hv); [congruence|done|eauto].
    + intros n' Hnt. destruct (decide (n' = n)) as [-> |Hne]; [right; left; apply Hset; by intros ->|].
      destruct (Hw n' Hnt) as [H|[H|H]]; [by left|right; left; by apply Htok|right; right].
      destruct (caller_kept (callers s) t (AtWake n) (AtWake n')) as (v & _ & Hv); [congruence|done|eauto].
Qed.

(** A step of the main thread: it drops no note without doing what it stands
    for, and gives up a token only where it is going to test the notes. *)
Lemma moved_inv s s' : notify_inv s -> callers s' = callers s -> requested s' = handled s' ++ satq s' ->
  (forall n, wanted n s' -> wanted n s) ->
  (processing (main s) = true -> processing (main s') = true \/ satq s' = []) ->
  (forall n, wanted n s' -> note_of n (st_notes s) = true ->
     note_of n (st_notes s') = true \/ (n = MOG_NOTIFY_SET_N_THREADS /\ processing (main s') = true)) ->
  (forall n, note_of n (st_notes s') = true -> note_of n (st_notes s) = true /\
     (will_test n (main s) = true \/ token s = true -> will_test n (main s') = true \/ token s' = true)) ->
  armed s' = selfpipe && negb (reading (main s')) -> (reading (main s') = true -> selfpipe = true) ->
  0 <= pipe s' -> notify_inv s'.
Proof.
  intros [Ho Hn Hw Ha Hrd Hp] Hc Ho' Hwt Hpr Hdone Htest Har Hrd' Hpi. split; [done| | |done|done|done].
  - intros n H. rewrite Hc. destruct (Hn n (Hwt n H)) as [H1|[H1|[-> H1]]].
    + destruct (Hdone n H H1); auto.
    + auto.
    + destruct (Hpr H1) as [?|He]; [by auto|]. done.
  - intros n H. rewrite Hc. destruct (Htest n H) as [H1 H2]. destruct (Hw n H1) as [?|[?|?]]; [| |by auto]; destruct H2; auto.
Qed.

(** One that only goes on, and may wake itself up. *)
Lemma moved_main m s s1 : notify_inv s -> woken_from s s1 -> processing (main s) = false ->
  (forall n, will_test n (main s) = true -> will_test n m = true) -> reading m = reading (main s) ->
  forall st e, notify_inv (set_main m (set_do_exit e (set_stale (st && stale s) s1))).
Proof.
  intros Hi (p & u & -> & Hp & Htok) Hpr Htest Hrd st e. pose proof Hi as [Ho _ _ Ha Hr Hpi].
  apply (moved_inv s); simpl; rewrite ?Hpr, ?Hrd; try done; [|by auto| |lia].
  - intros []; simpl; try done. by intros [_ ?]%andb_prop.
  - intros n Hn. split; [done|]. intros [?|?]; [left; by apply Htest|right; by apply Htok].
Qed.

Lemma woken_self s : woken_from s s.
Proof. exists (pipe s), (urg s). destruct s. done. Qed.

(** The reader of the pipe is taken from the queue, or put back. *)
Lemma polled_inv k s : notify_inv s -> main s = MPoll \/ main s = MSleep -> pipe_ready s = true ->
  notify_inv (set_main (MDrain k) (set_armed false s)).
Proof.
  intros Hi Hm Hr. pose proof Hi as [Ho _ _ Ha _ Hpi]. unfold pipe_ready in Hr.
  apply (moved_inv s); simpl; try done; [by destruct Hm as [-> | ->]|by auto|by auto|..]; by destruct selfpipe.
Qed.

Lemma run1_inv push k s : notify_inv s -> main s = MRun push k -> notify_inv (note_run1 push k s).
Proof.
  intros Hi Hm. pose proof Hi as [Ho _ _ Ha Hr Hpi]. rewrite Hm in Ha, Hr.
  unfold note_run1, note_xchg. destruct (note_of MOG_NOTIFY_DEVICE_REFRESH (st_notes s)) eqn:E; simpl.
  - apply (moved_inv s); simpl; rewrite ?Hm; try done; intros []; simpl; naive_solver.
  - apply (moved_inv s); simpl; rewrite ?Hm; try done; [by auto|]. intros []; simpl in *; auto; congruence.
Qed.

Lemma behind_run_facts push k : processing (behind_run push k) = false /\ reading (behind_run push k) = push.
Proof. by destruct push, k. Qed.

Lemma run2_inv push k s : notify_inv s -> main s = MRun2 push k -> notify_inv (note_run2 push k s).
Proof.
  intros Hi Hm. pose proof Hi as [Ho _ _ Ha Hr Hpi]. rewrite Hm in Ha, Hr. destruct (behind_run_facts push k) as [Hb1 Hb2].
  unfold note_run2, note_xchg. destruct (note_of MOG_NOTIFY_SET_N_THREADS (st_notes s)) eqn:E; simpl.
  - apply (moved_inv s); simpl; rewrite ?Hm; try done; intros []; simpl; auto.
  - apply (moved_inv s); simpl; rewrite ?Hm, ?Hb2; try done; [by auto| |by destruct push..].
    intros [] Hn; simpl in *; try congruence; (split; [done|]); intros [?|?]; auto; done.
Qed.

Lemma process_inv push k s : notify_inv s -> main s = MProc push k -> notify_inv (process_one push k s).
Proof.
  intros Hi Hm. pose proof Hi as [Ho _ _ Ha Hr Hpi]. rewrite Hm in Ha, Hr. destruct (behind_run_facts push k) as [Hb1 Hb2].
  unfold process_one. destruct (satq s) as [|arg q] eqn:E.
  - apply (moved_inv s); simpl; rewrite ?Hm, ?Hb2; try done; [by rewrite Ho, E|by auto|by auto| |by destruct push..].
    intros n Hn. split; [done|]. intros [?|?]; [by destruct n|by auto].
  - apply (moved_inv s); simpl; rewrite ?Hm; try done; [by rewrite Ho, <- app_assoc| |by auto|by auto].
    intros []; simpl; try done. by rewrite E.
Qed.

Lemma main_step_inv s s' : main_step s s' -> notify_inv s -> notify_inv s'.
Proof.
  intros Hs Hi.
  assert (Hgo : forall m s1 st e, woken_from s s1 -> processing (main s) = false ->
    (forall n, will_test n (main s) = true -> will_test n m = true) -> reading m = reading (main s) ->
    notify_inv (set_main m (set_do_exit e (set_stale (st && stale s) s1)))) by (intros; by apply (moved_main m s s1)).
  assert (Hid : forall m, set_main m s = set_main m (set_do_exit (do_exit s) (set_stale (true && stale s) s))) by by destruct s.
  destruct Hs as [due s Hm|s Hm Hr|s Hm|s Hm Hr|s Hm Hr|s Hm|s Hm Hu|quit s Hm|eintr s Hm|k s Hm|k s Hm Hpos|k eintr s Hm Hz
    |push k s Hm|push k s Hm|push k s Hm|k s Hm|s Hm].
  - replace (set_main MPoll (if due then set_stale false s else s))
      with (set_main MPoll (set_do_exit (do_exit s) (set_stale (negb due && stale s) s))) by by destruct s, due.
    by apply Hgo; rewrite ?Hm; [apply woken_self|..].
  - apply polled_inv; auto.
  - rewrite Hid. by apply Hgo; rewrite ?Hm; [apply woken_self|..].
  - rewrite Hid. by apply Hgo; rewrite ?Hm; [apply woken_self|..].
  - apply polled_inv; auto.
  - rewrite Hid. by apply Hgo; rewrite ?Hm; [apply woken_self|..].
  - pose proof Hi as [Ho _ _ Ha Hrd Hp]. apply (moved_inv s); simpl; rewrite ?Hm; try done; [by auto| |by rewrite Ha, Hm].
    intros n Hn. split; [done|by left].
  - destruct (wake_token MOG_NOTIFY_SIGNAL s (ni_pipe s Hi)) as [Hw _].
    replace (set_main _ _) with (set_main (MRun false ToReturn) (set_do_exit (if quit then true else do_exit s)
      (set_stale (true && stale s) (notify_wake MOG_NOTIFY_SIGNAL s)))).
    { by apply Hgo; rewrite ?Hm. }
    unfold notify_wake, mog_selfwake_trigger. by destruct s, quit, selfpipe; simpl; try destruct (_ <? _).
  - rewrite Hid. by apply Hgo; rewrite ?Hm; [apply woken_self|destruct eintr..].
  - rewrite Hid. by apply Hgo; rewrite ?Hm; [apply woken_self|destruct k..].
  - pose proof Hi as [Ho _ _ Ha Hrd Hp]. apply (moved_inv s); simpl; rewrite ?Hm; try done; [by auto|by auto|by rewrite Ha, Hm| |lia].
    intros _. apply Hrd. by rewrite Hm.
  - rewrite Hid. by apply Hgo; rewrite ?Hm; [apply woken_self|..].
  - by apply run1_inv.
  - by apply run2_inv.
  - by apply process_inv.
  - pose proof Hi as [Ho _ _ Ha Hrd Hp]. rewrite Hm in Hrd. specialize (Hrd eq_refl).
    apply (moved_inv s); simpl; rewrite ?Hm, ?Hrd; try done; [by auto| |by destruct k..].
    intros n Hn. split; [done|]. intros [?|?]; [by destruct n|by auto].
  - rewrite Hid. by apply Hgo; rewrite ?Hm; [apply woken_self|..].
Qed.

Lemma notify_reach_inv s : rtc notify_step nstate0 s -> notify_inv s.
Proof.
  assert (H0 : notify_inv nstate0).
  { split; try done; [by intros []|by intros []|simpl; by rewrite andb_true_r]. }
  revert H0. generalize nstate0 as s0. intros s0 H0 Hr. induction Hr as [|x y z [Hs|Hs] _ IH]; [done|..]; apply IH;
    [by eapply main_step_inv|by eapply thread_step_inv].
Qed.

(** What the main thread does with the notes that are set. *)
Definition all_done (s s' : nstate) (m : main_pc) : Prop :=
  rtc main_step s s' /\ main s' = m /\ satq s' = [] /\ stale s' = false /\ handled s' = handled s ++ satq s.

Lemma process_all push k q : forall s, satq s = q -> main s = MProc push k -> stale s = false ->
  exists s', all_done s s' (behind_run push k).
Proof.
  induction q as [|arg q IH]; intros s Hq Hm Hst; pose proof (ms_process push k s Hm) as Hs; unfold process_one in Hs; rewrite Hq in Hs.
  - eexists. split; [by apply rtc_once|]. split_and!; try done. by rewrite Hq, app_nil_r.
  - destruct (IH (set_handled (handled s ++ [arg]) (set_satq q s))) as (s' & Hr & Hm' & Hq' & Hst' & Hh); [done..|].
    exists s'. split; [by eapply rtc_l|]. split_and!; try done. rewrite Hh, Hq. simpl. by rewrite <- app_assoc.
Qed.

Lemma run_all push k s : main s = MRun push k -> (stale s = true -> note_refresh (st_notes s) = true) ->
  (satq s <> [] -> note_threads (st_notes s) = true) -> exists s', all_done s s' (behind_run push k).
Proof.
  intros Hm Hst Hq. pose proof (ms_run push k s Hm) as Hs1. set (s1 := note_run1 push k s) in Hs1.
  assert (H1 : main s1 = MRun2 push k /\ stale s1 = false /\ satq s1 = satq s /\ handled s1 = handled s /\
    note_threads (st_notes s1) = note_threads (st_notes s)).
  { unfold s1, note_run1, note_xchg. simpl. destruct (note_refresh (st_notes s)) eqn:E; simpl; split_and!; try done.
    destruct (stale s); [|done]. discriminate (Hst eq_refl). }
  clearbody s1. destruct H1 as (Hm1 & Hst1 & Hq1 & Hh1 & Hn1). pose proof (ms_run2 push k s1 Hm1) as Hs2.
  unfold note_run2, note_xchg in Hs2. simpl in Hs2. rewrite Hn1 in Hs2. destruct (note_threads (st_notes s)) eqn:E; simpl in Hs2.
  - match type of Hs2 with main_step _ ?x => destruct (process_all push k (satq s) x Hq1 eq_refl Hst1) as (s' & Hr & Hm' & Hq' & Hst' & Hh) end.
    exists s'. split; [by eapply rtc_l, rtc_l|]. split_and!; try done. by rewrite Hh; simpl; rewrite Hh1, Hq1.
  - assert (satq s = []) as He by (destruct (satq s); [done|]; by discriminate Hq).
    eexists. split; [by eapply rtc_l, rtc_once|]. split_and!; try done; simpl; [by rewrite Hq1|by rewrite He, Hh1, app_nil_r].
Qed.

(** Draining the pipe ends. *)
Lemma drain_all k n : forall s, main s = MDrain k -> 0 <= pipe s -> (Z.to_nat (pipe s) <= n)%nat ->
  rtc main_step s (set_main (MRun true k) (set_pipe 0 s)).
Proof.
  induction n as [|n IH]; intros s Hm Hp Hn; (destruct (decide (pipe s = 0)) as [Hz|Hz]; [|]); try lia.
  - apply rtc_once. replace (set_pipe 0 s) with s by (destruct s; simpl in *; by subst). apply (ms_drained k false); auto.
  - apply rtc_once. replace (set_pipe 0 s) with s by (destruct s; simpl in *; by subst). apply (ms_drained k false); auto.
  - eapply rtc_l; [apply (ms_drain k s Hm); lia|]. set (s1 := set_pipe _ s).
    replace (set_pipe 0 s) with (set_pipe 0 s1) by done. apply IH; [done|simpl; lia..].
Qed.

End Notify.


(** The command "shutdown" of a server without a master does not wake up the main
    thread, which sleeps until its timeout although it was told to exit: where
    signals are used none is sent, and where a pipe is used its byte may be read
    by the loop that does not look at the flag before it sleeps. *)
Theorem shutdown_wakeup_lost selfpipe :
  exists s, rtc (notify_step selfpipe 65536) (nstate0 selfpipe) s /\
    do_exit s = true /\ main s = MSleep /\ callers s = ∅ /\ token selfpipe s = false.
Proof.
  exists (NState (Notes false false) 0 selfpipe false [] ∅ MSleep true [] [] false).
  split; [|by destruct selfpipe].
  eapply rtc_l; [left; apply (ms_top _ _ false); reflexivity|].
  eapply rtc_l; [right; apply (ts_quit _ _ 1%nat); reflexivity|].
  eapply rtc_l; [right; apply (ts_wake _ _ 1%nat MOG_NOTIFY_SIGNAL); reflexivity|].
  destruct selfpipe; [|eapply rtc_l; [left; apply ms_poll_none; reflexivity|]; vm_compute; apply rtc_refl].
  eapply rtc_l; [left; apply ms_poll; reflexivity|].
  eapply rtc_l; [left; apply (ms_drain _ _ ToPoll); reflexivity|].
  eapply rtc_l; [left; apply (ms_drained _ _ ToPoll false); [reflexivity|by left]|].
  eapply rtc_l; [left; apply (ms_run _ _ true ToPoll); reflexivity|].
  eapply rtc_l; [left; apply (ms_run2 _ _ true ToPoll); reflexivity|].
  eapply rtc_l; [left; apply (ms_push _ _ ToPoll); reflexivity|].
  eapply rtc_l; [left; apply ms_poll_none; reflexivity|]. vm_compute. apply rtc_refl.
Qed.

(** ** The timeout of the main thread *)

(** [usage_file_interval] after [mog_notify_init]; [i] is the number in
    MOG_DISK_USAGE_INTERVAL. *)
Definition usage_file_interval (i : option Z) : Z :=
  match i with Some i => if 0 <? i then i else 10 | None => 10 end.

(** The argument of [mog_idleq_wait_intr], an [int]. *)
Definition notify_timeout (need_usage_file : bool) (interval updated_at now : Z) : Z :=
  let timeout := updated_at + interval - now in
  let timeout := if need_usage_file then if 0 <? timeout then timeout * 1000 else 0 else -1 in
  (timeout + 2 ^ 31) mod 2 ^ 32 - 2 ^ 31.

(** The main thread sleeps until the usage files are due, to the millisecond, as
    long as that is less than 24 days away. *)
Lemma notify_timeout_exact i updated_at now :
  let interval := usage_file_interval i in updated_at <= now -> interval <= 2147483 ->
  notify_timeout true interval updated_at now = 1000 * Z.max 0 (updated_at + interval - now) /\
  notify_timeout false interval updated_at now = -1.
Proof.
  intros interval Hn Hi. assert (0 < interval) by (unfold interval, usage_file_interval; destruct i as [i|]; [destruct (Z.ltb_spec 0 i)|]; lia).
  split; [|done]. unfold notify_timeout. destruct (Z.ltb_spec 0 (updated_at + interval - now)); rewrite Z.mod_small; lia.
Qed.

(** An interval of 2147484 seconds or more makes it sleep for ever. *)
Lemma notify_timeout_wraps : notify_timeout true (usage_file_interval (Some 2147484)) 1000 1000 < 0.
Proof. vm_compute. reflexivity. Qed.
