(* ===== verification/PidFile.v ===== *)
(** The pid file (pidfile.c): which server owns it, and how it changes hands when
    a server is upgraded. *)
From S2P Require Import Prelude Fmt Http TryWrite World.
From stdpp Require Import base list numbers gmap.
From Stdlib Require Import ZArith Lia.

#[local] Open Scope Z_scope.

(** The static variables of pidfile.c, and whether [pidfile_cleanup] was handed
    to atexit. *)
Record pid_state := PidState {
  pidfile : option name;
  pidfile_exists : bool;
  old : option name;
  owner : Z;
  at_exit : bool
}.

Definition set_pidfile v s := PidState v (pidfile_exists s) (old s) (owner s) (at_exit s).
Definition set_exists v s := PidState (pidfile s) v (old s) (owner s) (at_exit s).
Definition set_old v s := PidState (pidfile s) (pidfile_exists s) v (owner s) (at_exit s).
Definition set_owner v s := PidState (pidfile s) (pidfile_exists s) (old s) v (at_exit s).
Definition set_at_exit v s := PidState (pidfile s) (pidfile_exists s) (old s) (owner s) v.

Abbreviation PM := (MS pid_state).

(** [sizeof (buf)] in [pidfile_read]. *)
Definition pid_buf_size : Z := 4 * 8 / 3 + 1.

(** [strtol (buf, &end, 10)] on an array: the value and [*end]; [None] when it
    reads behind the array, whose contents it takes for a string. *)
Definition strtol_buf (buf : list Z) : option (Z * Z) :=
  let '(neg, ds) := match skip_space buf with
                    | 45 :: ds => (true, ds)
                    | 43 :: ds => (false, ds)
                    | ds => (false, ds)
                    end in
  match ds with
  | [] => None
  | c :: _ =>
      if is_digit c then
        match digits_prefix 0 ds with
        | (_, []) => None
        | (v, e :: _) => Some (if neg : bool then - v else v, e)
        end
      else Some (0, char_at buf 0)
  end.

(** A conversion to [pid_t], a 32-bit integer. *)
Definition to_pid (z : Z) : Z := (z + 2 ^ 31) mod 2 ^ 32 - 2 ^ 31.

Section PidFile.
(** [getpid], what [kill (pid, 0)] answers, [canonicalize_filename_mode], what is
    in the array of [pidfile_read] before the call, and how many bytes a
    [dprintf] that fails has written. *)
Variable self : Z.
Variable kill0 : Z -> option errno.
Variable canonicalize : name -> option name.
Variable stack : list Z.
Variable cut : nat.

Definition pid_is_running (pid : Z) : bool :=
  if pid <=? 0 then false else negb (bool_decide (kill0 pid = Some ESRCH)).

(** The bytes at the start of a file are replaced. *)
Definition over (text c : list Z) : list Z := text ++ drop (length text) c.

Definition pid_text : list Z := fmt_d self ++ [10].

(** [pid_write] to an open file at its start. *)
Definition pid_write (fd : name) : PM bool :=
  put_world (set_errno None);;
  e ← sys_reply;
  put_world (fun w => set_fs (<[fd := over (match e with Some _ => take cut pid_text | None => pid_text end)
    (default [] (w_fs w !! fd))]> (w_fs w)) w);;
  mret (match e with Some _ => false | None => true end).

(** [pidfile_read] of an open file with the contents [c]. *)
Definition pidfile_read (c : list Z) : PM Z :=
  put_world (set_errno None);;
  e ← sys_reply; (* pread *)
  match e, c with
  | Some _, _ => mret (-1)
  | None, [] => mret 0
  | None, _ =>
      put_world (set_errno None);;
      let buf := take (Z.to_nat pid_buf_size) (over (take (Z.to_nat pid_buf_size) c) stack) in
      match strtol_buf buf with
      | None => crash OutOfBounds
      | Some (tmp, e) => mret (if (e =? 10) && (0 <? tmp) && (tmp <? 2 ^ 63 - 1) then to_pid tmp else -1)
      end
  end.

(** [unlink], whose errors are ignored. *)
Definition unlink_quietly (p : name) : PM unit := w ← get_world; _ ← mog_unlink p; put_world (set_errno (w_err w)).

Definition pidfile_cleanup : PM unit :=
  s ← get_http;
  match pidfile s with
  | None => mret tt
  | Some p =>
      (if self =? owner s then
         match old s with
         | Some o => unlink_quietly o
         | None => if pidfile_exists s then unlink_quietly p else mret tt
         end
       else mret tt);;
      put_http (fun s => set_old None (set_pidfile None s))
  end.

(** [mog_pidfile_open]: the descriptor, by the name it was opened by, or the
    process that runs ([cur], -1 when that is not the reason). *)
Definition mog_pidfile_open (path : name) : PM (Z + name) :=
  fd ← sys_open path false;
  match fd with
  | inl _ => mret (inl (-1))
  | inr c =>
      pid ← pidfile_read c;
      if (0 <? pid) && pid_is_running pid then
        put_world (set_errno (Some EAGAIN));; mret (inl pid)
      else
        s ← get_http;
        assertM (match pidfile s with None => true | Some _ => false end);;
        match canonicalize path with
        | None => mret (inl (-1))
        | Some p => put_http (fun s => set_exists true (set_pidfile (Some p) s));; mret (inr path)
        end
  end.

(** [true]: 0 is returned. *)
Definition mog_pidfile_commit (fd : name) : PM bool :=
  s ← get_http;
  assertM (match pidfile s with None => false | Some _ => true end);;
  ok ← pid_write fd;
  if negb ok then
    w ← get_world;
    (if bool_decide (w_err w = Some ENOSPC) then pidfile_cleanup else mret tt);;
    mret false
  else
    e ← sys_reply; (* close *)
    match e with
    | None | Some EINTR => put_http (fun s => set_at_exit true (set_owner self s));; mret true
    | Some _ => mret false
    end.

Definition mog_pidfile_prepare (path : name) : PM name :=
  fd ← mog_pidfile_open path;
  match fd with
  | inr fd => mret fd
  | inl _ => crash Died
  end.

(** A null pointer is an address [open] refuses. *)
Definition unlink_if_owner_or_unused (path : option name) : PM bool :=
  match path with
  | None => put_world (set_errno (Some EFAULT));; mret false
  | Some path =>
      fd ← open_read path;
      match fd with
      | inl e => mret (bool_decide (e = ENOENT))
      | inr c =>
          pid ← pidfile_read c;
          if (pid =? 0) || (0 <? pid) && ((pid =? self) || negb (pid_is_running pid)) then
            e ← mog_unlink path;
            mret (match e with None | Some ENOENT => true | Some _ => false end)
          else mret false
      end
  end.

Definition oldbin (p : name) : name := p ++ str ".oldbin".

Definition mog_pidfile_upgrade_prepare : PM bool :=
  s ← get_http;
  match pidfile s with
  | None => mret true
  | Some p =>
      assertM (owner s =? self);;
      ok ← unlink_if_owner_or_unused (Some p);
      if negb ok then mret false
      else
        assertM (match old s with None => true | Some _ => false end);;
        put_http (set_old (Some (oldbin p)));;
        fd ← sys_open (oldbin p) false;
        match fd with
        | inl _ => put_http (set_old None);; mret false
        | inr c =>
            pid ← pidfile_read c;
            (if pid_is_running pid then put_http (set_old None)
             else
               ok ← pid_write (oldbin p);
               if ok : bool then mret tt else put_http (set_old None));;
            s ← get_http; mret (match old s with Some _ => true | None => false end)
        end
  end.

Definition upgrade_failed (p : name) : PM bool :=
  fd ← open_read p;
  match fd with
  | inl _ => mret true
  | inr c =>
      pid ← pidfile_read c;
      if negb (pid_is_running pid) then mret true
      else
        s ← get_http;
        assertM (match old s with Some _ => true | None => false end);;
        mret false
  end.

(** [open (pidfile, O_TRUNC|O_CREAT|O_WRONLY)]. *)
Definition open_trunc (p : name) : PM bool :=
  e ← sys_reply;
  match e with
  | Some _ => mret false
  | None => put_world (fun w => set_fs (<[p := []]> (w_fs w)) w);; mret true
  end.

Definition mog_pidfile_upgrade_abort : PM unit :=
  s ← get_http;
  match pidfile s with
  | None => mret tt
  | Some p =>
      assertM (owner s =? self);;
      failed ← upgrade_failed p;
      if negb failed then mret tt
      else
        ok ← open_trunc p;
        if ok : bool then
          put_http (set_exists true);;
          _ ← pid_write p;
          ok ← unlink_if_owner_or_unused (old s);
          if ok : bool then put_http (set_old None) else mret tt
        else put_http (set_exists false)
  end.
End PidFile.

(** ** What a pid file says *)

(** The file [c] names the process [pid]; a server leaves such files, or empty
    ones when the disk was full. *)
Definition names (c : list Z) (pid : Z) : Prop := 0 < pid < 2 ^ 31 /\ exists r, c = fmt_d pid ++ 10 :: r.
Definition pid_contents (c : list Z) : Prop := c = [] \/ exists pid, names c pid.

Lemma fmt_pid pid : 0 < pid < 2 ^ 31 ->
  Forall (fun c => is_digit c = true) (fmt_d pid) /\ dec_value (fmt_d pid) = pid /\ fmt_d pid <> [] /\ (length (fmt_d pid) <= 10)%nat.
Proof.
  intros Hp. unfold fmt_d. destruct (Z.ltb_spec pid 0); [lia|]. pose proof (fmt_u_value pid ltac:(lia)) as Hv. split_and!.
  - apply dec_digits_digits. lia.
  - done.
  - intros E. rewrite E in Hv. change (dec_value []) with 0 in Hv. lia.
  - apply dec_digits_le; [lia|]. change (10 ^ Z.of_nat 10) with 10000000000. lia.
Qed.

Lemma skip_space_digit c l : is_digit c = true -> skip_space (c :: l) = c :: l.
Proof.
  intros Hd. cbn [skip_space]. assert (is_space c = false) as ->; [|done]. unfold is_digit in Hd. apply rng_true in Hd.
  unfold is_space. rewrite (proj2 (Z.eqb_neq c 32)) by lia. apply rng_false. lia.
Qed.

Lemma strtol_pid pid r : 0 < pid < 2 ^ 31 -> strtol_buf (fmt_d pid ++ 10 :: r) = Some (pid, 10).
Proof.
  intros Hp. destruct (fmt_pid pid Hp) as (Hd & Hv & Hne & _). destruct (fmt_d pid) as [|c l] eqn:E; [done|].
  assert (Hc : is_digit c = true) by by apply Forall_cons_1 in Hd as [].
  unfold strtol_buf. rewrite <- app_comm_cons, skip_space_digit by done.
  assert (Hns : c <> 45 /\ c <> 43) by (unfold is_digit in Hc; apply rng_true in Hc; lia).
  replace (match c :: l ++ 10 :: r with 45 :: ds => (true, ds) | 43 :: ds => (false, ds) | ds => (false, ds) end)
    with (false, c :: l ++ 10 :: r).
  2: { destruct Hns. repeat (case_match; try done). }
  rewrite Hc, app_comm_cons, digits_prefix_app by done. fold (dec_value (c :: l)). by rewrite Hv.
Qed.

Lemma to_pid_id pid : 0 < pid < 2 ^ 31 -> to_pid pid = pid.
Proof. intros. unfold to_pid. rewrite Z.mod_small; lia. Qed.

Section Laws.
Variable self : Z.
Variable kill0 : Z -> option errno.
Variable stack : list Z.
Variable cut : nat.
Hypothesis self_range : 0 < self < 2 ^ 31.

(** Whatever was in the array. *)
Lemma read_buf pid r : 0 < pid < 2 ^ 31 ->
  exists r', take (Z.to_nat pid_buf_size) (over (take (Z.to_nat pid_buf_size) (fmt_d pid ++ 10 :: r)) stack) = fmt_d pid ++ 10 :: r'.
Proof.
  intros Hp. destruct (fmt_pid pid Hp) as (_ & _ & _ & Hl). change (Z.to_nat pid_buf_size) with 11%nat.
  assert (Hcut : forall l, exists l', take 11 ((fmt_d pid ++ [10]) ++ l) = (fmt_d pid ++ [10]) ++ l').
  { intros l. rewrite take_app_ge by (rewrite length_app; simpl; lia). eauto. }
  replace (fmt_d pid ++ 10 :: r) with ((fmt_d pid ++ [10]) ++ r) by by rewrite <- app_assoc.
  destruct (Hcut r) as (r1 & ->). unfold over. rewrite <- (app_assoc (fmt_d pid ++ [10]) r1).
  destruct (Hcut (r1 ++ drop (length ((fmt_d pid ++ [10]) ++ r1)) stack)) as (r2 & ->). exists r2. by rewrite <- app_assoc.
Qed.

(** Replies were taken from the script, which has no failures, or no ENOENT,
    when it had none: that a file is missing is what the file system says. *)
Definition honest (w : world) : Prop := Forall (fun r => r <> Fail ENOENT) (w_sys w).
Definition later (w w' : world) : Prop := (w_sys w = [] -> w_sys w' = []) /\ (honest w -> honest w').

Lemma later_trans w w1 w2 : later w w1 -> later w1 w2 -> later w w2.
Proof. unfold later. naive_solver. Qed.

Lemma wp_reply {S} (h : S) w (Q : option errno -> S -> world -> Prop) :
  (forall e w', later w w' -> w_fs w' = w_fs w -> (w_sys w = [] -> e = None) -> (honest w -> e <> Some ENOENT) -> Q e h w') ->
  wp sys_reply h w Q.
Proof.
  intros HQ. unfold wp, sys_reply, later, honest in *.
  destruct (w_sys w) as [|[n|e] rs] eqn:E; eexists _, _, _; (split; [done|]); apply HQ; try done.
  - by rewrite E.
  - split; [done|]. by intros [_ ?]%Forall_cons_1.
  - split; [done|]. by intros [_ ?]%Forall_cons_1.
  - intros [? _]%Forall_cons_1. congruence.
Qed.

Lemma wp_pidfile_read c s w (Q : Z -> pid_state -> world -> Prop) : pid_contents c ->
  (forall z w', later w w' -> w_fs w' = w_fs w -> (w_sys w <> [] /\ z = -1) \/ (c = [] /\ z = 0) \/ names c z -> Q z s w') ->
  wp (pidfile_read stack c) s w Q.
Proof.
  intros Hc HQ. unfold pidfile_read. wp_step. wp_step. wp_step. apply wp_reply. intros e w' Hs Hf He _.
  destruct e as [e|]; [wp_step; apply HQ; [done|done|left; split; [|done]; intros E; by discriminate (He E)]|].
  destruct Hc as [-> |(pid & Hp & r & ->)]; [wp_step; apply HQ; [done|done|by right; left]|].
  destruct (fmt_pid pid Hp) as (_ & _ & Hne & _). destruct (fmt_d pid ++ 10 :: r) as [|x l] eqn:E; [by destruct (fmt_d pid)|].
  wp_step. wp_step. rewrite <- E. destruct (read_buf pid r Hp) as (r' & ->). rewrite strtol_pid by done. cbv iota.
  assert ((10 =? 10) && (0 <? pid) && (pid <? 2 ^ 63 - 1) = true) as -> by (apply andb_true_iff; split; [apply andb_true_iff|]; lia).
  rewrite to_pid_id by done. wp_step. apply HQ; [done|done|]. right; right. split; [done|]. eauto.
Qed.

Lemma wp_pid_write fd s w (Q : bool -> pid_state -> world -> Prop) :
  (forall ok c w', later w w' -> (w_sys w = [] -> ok = true) -> w_fs w' = <[fd := c]> (w_fs w) ->
     (ok = true -> c = over (pid_text self) (default [] (w_fs w !! fd))) -> Q ok s w') ->
  wp (pid_write self cut fd) s w Q.
Proof.
  intros HQ. unfold pid_write. wp_step. wp_step. wp_step. apply wp_reply. intros e w' Hs Hf He _.
  wp_step. wp_step. wp_step. eapply HQ; [exact Hs|by intros H; rewrite (He H)|simpl; by rewrite Hf|]. by destruct e.
Qed.

(** The text of this process at the start of a file. *)
Lemma over_names c : names (over (pid_text self) c) self.
Proof. split; [done|]. unfold over, pid_text. exists (drop (length (fmt_d self ++ [10])) c). by rewrite <- app_assoc. Qed.

(** A file that names another process that runs is not removed. *)
Definition taken (fs : gmap name (list Z)) (p : name) : Prop :=
  exists c pid, fs !! p = Some c /\ names c pid /\ pid <> self /\ pid_is_running kill0 pid = true.

Lemma names_unique c pid pid' : names c pid -> names c pid' -> pid = pid'.
Proof.
  intros [Hp [r ->]] [Hp' [r' E]]. pose proof (strtol_pid pid r Hp) as H1. rewrite E, strtol_pid in H1 by done. congruence.
Qed.

Lemma wp_unlink_if p s w (Q : bool -> pid_state -> world -> Prop) : honest w ->
  (forall c, w_fs w !! p = Some c -> pid_contents c) ->
  (forall ok w', later w w' -> w_fs w' = w_fs w \/ w_fs w' = delete p (w_fs w) ->
     (ok = true -> w_fs w' !! p = None) -> (taken (w_fs w) p -> ok = false /\ w_fs w' = w_fs w) ->
     (w_sys w = [] -> ~ taken (w_fs w) p -> ok = true) -> Q ok s w') ->
  wp (unlink_if_owner_or_unused self kill0 stack (Some p)) s w Q.
Proof.
  intros Hh Hc HQ. unfold unlink_if_owner_or_unused, open_read. wp_step. wp_step. apply wp_reply. intros e w1 H1 Hf1 He Hn.
  wp_step. wp_step. specialize (Hn Hh). destruct e as [e|].
  { wp_step. wp_step. rewrite bool_decide_false by congruence. apply HQ; [done|by left|done|by auto|].
    intros E. by discriminate (He E). }
  rewrite Hf1. destruct (w_fs w !! p) as [c|] eqn:E.
  2: { wp_step. wp_step. wp_step. wp_step. simpl. apply HQ; simpl; rewrite ?Hf1; [done|by left|done| |done].
       intros (c & pid & ? & _). congruence. }
  wp_step. wp_step. apply wp_pidfile_read; [by auto|]. intros z w2 H2 Hf2 Hz.
  pose proof (later_trans _ _ _ H1 H2) as H12. rewrite Hf1 in Hf2.
  destruct ((z =? 0) || (0 <? z) && ((z =? self) || negb (pid_is_running kill0 z))) eqn:Ez.
  - assert (Hnt : ~ taken (w_fs w) p).
    { intros (c' & pid & Hc' & Hnm & Hne & Hrun). rewrite E in Hc'. injection Hc' as <-.
      destruct Hz as [[_ ->]|[[-> ->]|Hz]]; [done| |].
      - destruct Hnm as (? & r & Er). by destruct (fmt_d pid).
      - rewrite (names_unique _ _ _ Hz Hnm) in Ez. destruct Hnm as [? _].
        rewrite (proj2 (Z.eqb_neq pid 0)), (proj2 (Z.eqb_neq pid self)), Hrun, andb_false_r in Ez by lia. done. }
    unfold mog_unlink. wp_step. wp_step. apply wp_reply. intros e w3 H3 Hf3 He3 Hn3. wp_step. wp_step.
    assert (honest w2) as Hh2 by by apply H12. specialize (Hn3 Hh2). rewrite Hf2 in Hf3.
    pose proof (later_trans _ _ _ H12 H3) as H13. rewrite Hf3, E. destruct e as [e|].
    + wp_step. wp_step. apply HQ; [done|by left| |done|]; [by destruct e|].
      intros Ew. assert (w_sys w2 = []) as Ew2 by by apply H12. by discriminate (He3 Ew2).
    + wp_step. wp_step. wp_step. wp_step. apply HQ; simpl; rewrite ?Hf3; [done|by right|by rewrite lookup_delete_eq|done|done].
  - wp_step. apply HQ; [done|by left|done|done|]. intros Ew Hnt. exfalso.
    destruct Hz as [[Hne _]|[[-> ->]|Hz]]; [by apply Hne, H1|done|]. apply Hnt. exists c, z. destruct (Hz) as [Hz0 _].
    rewrite (proj2 (Z.eqb_neq z 0)), (proj2 (Z.ltb_lt 0 z)) in Ez by lia. simpl in Ez.
    apply orb_false_iff in Ez as [Ez1 Ez2]. apply Z.eqb_neq in Ez1. by destruct (pid_is_running kill0 z).
Qed.

Lemma oldbin_ne (p : name) : oldbin p <> p.
Proof. intros E. apply (f_equal length) in E. unfold oldbin in E. rewrite length_app in E. simpl in E. lia. Qed.

(** Opening or creating a file. *)
Lemma wp_open_create p s w (Q : errno + list Z -> pid_state -> world -> Prop) :
  (forall e w', later w w' -> w_fs w' = w_fs w -> w_sys w <> [] -> Q (inl e) s w') ->
  (forall c w', later w w' -> w_fs w' = <[p := c]> (w_fs w) -> w_fs w !! p = Some c \/ (w_fs w !! p = None /\ c = []) -> Q (inr c) s w') ->
  wp (sys_open p false) s w Q.
Proof.
  intros Hl Hr. unfold sys_open. wp_step. apply wp_reply. intros e w1 H1 Hf He _. wp_step. wp_step.
  destruct e as [e|]; [wp_step; apply Hl; [done|done|]; intros E; by discriminate (He E)|]. rewrite Hf.
  destruct (w_fs w !! p) as [c|] eqn:E; wp_step.
  - apply Hr; [done| |by left]. by rewrite insert_id, Hf.
  - wp_step. wp_step. apply Hr; simpl; rewrite ?Hf; [done|done|by right].
Qed.

(** The files of a server that runs, in the file system [fs]. *)
Definition contents_ok (fs : gmap name (list Z)) (p : name) : Prop := forall c, fs !! p = Some c -> pid_contents c.
Definition in_use (fs : gmap name (list Z)) (p : name) : Prop :=
  exists c pid, fs !! p = Some c /\ names c pid /\ pid_is_running kill0 pid = true.
Definition same_but (p : name) (fs fs' : gmap name (list Z)) : Prop :=
  forall q, q <> p -> q <> oldbin p -> fs' !! q = fs !! q.

(** What [mog_pidfile_upgrade_prepare] leaves. *)
Record handed_over (p : name) (s : pid_state) (w : world) (ok : bool) (s' : pid_state) (w' : world) : Prop := {
  ho_frame : same_but p (w_fs w) (w_fs w');
  ho_taken : taken (w_fs w) p -> ok = false /\ w_fs w' = w_fs w;
  ho_state : s' = if ok then set_old (Some (oldbin p)) s else s;
  ho_files : ok = true -> w_fs w' !! p = None /\ exists c, w_fs w' !! oldbin p = Some c /\ names c self;
  ho_in_use : w_sys w = [] -> in_use (w_fs w) (oldbin p) -> ok = false /\ w_fs w' !! oldbin p = w_fs w !! oldbin p;
  ho_ok : w_sys w = [] -> ~ taken (w_fs w) p -> ~ in_use (w_fs w) (oldbin p) -> ok = true
}.

(** The second half, when the pid file is gone. *)
Lemma wp_write_oldbin p s w w1 (Q : bool -> pid_state -> world -> Prop) :
  old s = None -> contents_ok (w_fs w) (oldbin p) -> later w w1 -> ~ taken (w_fs w) p ->
  w_fs w1 = w_fs w \/ w_fs w1 = delete p (w_fs w) -> w_fs w1 !! p = None ->
  (forall ok s' w', handed_over p s w ok s' w' -> Q ok s' w') ->
  wp (fd ← sys_open (oldbin p) false;
      match fd with
      | inl _ => put_http (set_old None);; mret false
      | inr c =>
          pid ← pidfile_read stack c;
          (if pid_is_running kill0 pid then put_http (set_old None)
           else ok ← pid_write self cut (oldbin p); if ok : bool then mret tt else put_http (set_old None));;
          s ← get_http; mret (match old s with Some _ => true | None => false end)
      end) (set_old (Some (oldbin p)) s) w1 Q.
Proof.
  intros Hold Hc H01 Hnt Hf1 Hp1 HQ. pose proof (oldbin_ne p) as Hne.
  assert (Hself : set_old None (set_old (Some (oldbin p)) s) = s) by (destruct s; simpl in *; by subst).
  assert (Hob : w_fs w1 !! oldbin p = w_fs w !! oldbin p) by (destruct Hf1 as [-> | ->]; [done|by rewrite lookup_delete_ne]).
  assert (Hfr : forall fs c, fs = <[oldbin p := c]> (w_fs w1) -> same_but p (w_fs w) fs).
  { intros fs c -> q Hq1 Hq2. rewrite lookup_insert_ne by done. destruct Hf1 as [-> | ->]; [done|by rewrite lookup_delete_ne]. }
  wp_step. apply wp_open_create.
  - intros e w2 H2 Hf2 Hns. wp_step. wp_step. wp_step. apply HQ. rewrite Hself.
    assert (w_sys w <> []) by (intros Ew; apply Hns; by apply H01).
    split; try done. intros q Hq1 Hq2. rewrite Hf2. destruct Hf1 as [-> | ->]; [done|by rewrite lookup_delete_ne].
  - intros c w2 H2 Hf2 Hcc. rewrite Hob in Hcc. pose proof (later_trans _ _ _ H01 H2) as H02.
    assert (Hpc : pid_contents c) by (destruct Hcc as [?|[_ ->]]; [by apply Hc|by left]).
    wp_step. apply wp_pidfile_read; [done|]. intros z w3 H3 Hf3 Hz. rewrite Hf2 in Hf3. wp_step.
    assert (Hlk : w_fs w3 !! oldbin p = Some c) by by rewrite Hf3, lookup_insert_eq.
    destruct (pid_is_running kill0 z) eqn:Ez.
    + assert (Hnm : names c z) by (destruct Hz as [[_ ->]|[[_ ->]|?]]; done).
      wp_step. wp_step. wp_step. wp_step. apply HQ. rewrite Hself, Hold. split; try done.
      * by eapply Hfr.
      * intros _ _. split; [done|]. rewrite Hlk. destruct Hcc as [?|[_ ->]]; [done|].
        destruct Hnm as (? & r & Er). by destruct (fmt_d z).
      * intros _ _ Hno. exfalso. apply Hno. exists c, z. destruct Hcc as [?|[_ ->]]; [done|].
        destruct Hnm as (? & r & Er). by destruct (fmt_d z).
    + wp_step. apply wp_pid_write. intros ok c' w4 H4 Hok Hf4 Hc'. rewrite Hf3, insert_insert_eq in Hf4.
      assert (Huse : w_sys w = [] -> in_use (w_fs w) (oldbin p) -> False).
      { intros Ew (c0 & pid & Hc0 & Hnm & Hrun). assert (c0 = c) as -> by (destruct Hcc as [Hcc|[Hcc _]]; congruence).
        destruct Hz as [[Hns _]|[[-> ->]|Hz]]; [apply Hns; by apply H02| |].
        - destruct Hnm as (? & r & Er). by destruct (fmt_d pid).
        - rewrite (names_unique _ _ _ Hz Hnm) in Ez. congruence. }
      destruct ok; do 4 wp_step; apply HQ; rewrite ?Hself, ?Hold; cbn [old set_old].
      * split; try done; [by eapply Hfr| |by intros Ew Hu; destruct (Huse Ew Hu)].
        intros _. split; [by rewrite Hf4, lookup_insert_ne|]. exists c'. split; [by rewrite Hf4, lookup_insert_eq|].
        rewrite (Hc' eq_refl). apply over_names.
      * split; try done; [by eapply Hfr|by intros Ew Hu; destruct (Huse Ew Hu)|].
        intros Ew _ _. assert (w_sys w3 = []) as Ew3 by (apply H3; by apply H02). by discriminate (Hok Ew3).
Qed.

Lemma wp_upgrade_prepare p s w : honest w -> pidfile s = Some p -> owner s = self -> old s = None ->
  contents_ok (w_fs w) p -> contents_ok (w_fs w) (oldbin p) ->
  wp (mog_pidfile_upgrade_prepare self kill0 stack cut) s w (handed_over p s w).
Proof.
  intros Hh Hp Ho Hold Hc Hc'. unfold mog_pidfile_upgrade_prepare. wp_step. wp_step. rewrite Hp. wp_step. wp_step; [by rewrite Ho, Z.eqb_refl|].
  wp_step. apply wp_unlink_if; [done|done|]. intros ok w1 H1 Hf1 Hgone Htk Hok. destruct ok; cbn [negb].
  - assert (Hnt : ~ taken (w_fs w) p) by (intros H; by destruct (Htk H)).
    wp_step. wp_step; [by rewrite Hold|]. wp_step. wp_step. eapply wp_write_oldbin; eauto.
  - wp_step. split; try done.
    + intros q Hq _. destruct Hf1 as [-> | ->]; [done|by rewrite lookup_delete_ne].
    + intros Ew Hu. split; [done|]. pose proof (oldbin_ne p). destruct Hf1 as [-> | ->]; [done|by rewrite lookup_delete_ne].
    + intros Ew Hnt. by discriminate (Hok Ew Hnt).
Qed.

(** What is in the pid file when an upgrade is given up: nothing, or what a
    process left that does not run any more. *)
Definition left_behind (fs : gmap name (list Z)) (p : name) : Prop := contents_ok fs p /\ ~ in_use fs p.

Lemma wp_upgrade_failed p s w (Q : bool -> pid_state -> world -> Prop) : w_sys w = [] -> left_behind (w_fs w) p ->
  (forall w', w_sys w' = [] -> w_fs w' = w_fs w -> Q true s w') -> wp (upgrade_failed kill0 stack p) s w Q.
Proof.
  intros Ew [Hc Hu] HQ. unfold upgrade_failed, open_read. wp_step. wp_step. apply wp_reply. intros e w1 [H1 _] Hf He _.
  rewrite (He Ew). wp_step. wp_step. rewrite Hf. destruct (w_fs w !! p) as [c|] eqn:E; wp_step.
  - wp_step. apply wp_pidfile_read; [by apply Hc|]. intros z w2 [H2 _] Hf2 Hz. rewrite Hf in Hf2.
    assert (Hr : pid_is_running kill0 z = false).
    { destruct Hz as [[_ ->]|[[_ ->]|Hz]]; [done|done|]. destruct (pid_is_running kill0 z) eqn:Ez; [|done]. exfalso. apply Hu. by exists c, z. }
    rewrite Hr. cbn [negb]. wp_step. by apply HQ; auto.
  - wp_step. wp_step. wp_step. apply HQ; simpl; auto.
Qed.

Lemma wp_upgrade_abort p s w c : w_sys w = [] -> pidfile s = Some p -> owner s = self -> old s = Some (oldbin p) ->
  left_behind (w_fs w) p -> w_fs w !! oldbin p = Some c -> names c self ->
  wp (mog_pidfile_upgrade_abort self kill0 stack cut) s w (fun _ s' w' =>
    s' = set_old None (set_exists true s) /\ w_fs w' !! p = Some (pid_text self) /\ w_fs w' !! oldbin p = None /\
    same_but p (w_fs w) (w_fs w')).
Proof.
  intros Ew Hp Ho Hold Hl Hob Hnm. pose proof (oldbin_ne p) as Hne. unfold mog_pidfile_upgrade_abort.
  wp_step. wp_step. rewrite Hp, Hold. wp_step. wp_step; [by rewrite Ho, Z.eqb_refl|].
  wp_step. apply wp_upgrade_failed; [done|done|]. intros w1 E1 Hf1. cbn [negb].
  wp_step. unfold open_trunc. wp_step. apply wp_reply. intros e w2 [H2 _] Hf2 He2 _. rewrite (He2 E1).
  wp_step. wp_step. wp_step. wp_step. wp_step. wp_step. apply wp_pid_write. intros ok c' w3 [H3 _] Hok Hf3 Hc'.
  simpl in *. specialize (H2 E1). specialize (Hok H2). specialize (Hc' Hok).
  rewrite lookup_insert_eq in Hc'. simpl in Hc'. unfold over in Hc'. rewrite drop_nil, app_nil_r in Hc'.
  rewrite Hf2, Hf1, insert_insert_eq, Hc' in Hf3. specialize (H3 H2).
  assert (Hob3 : w_fs w3 !! oldbin p = Some c) by by rewrite Hf3, lookup_insert_ne.
  wp_step. apply wp_unlink_if; [by unfold honest; rewrite H3|intros c1; rewrite Hob3; intros [= <-]; right; by exists self|].
  intros ok' w4 _ Hf4 Hgone _ Hok'. assert (ok' = true) as ->.
  { apply Hok'; [done|]. intros (c1 & pid & Hc1 & Hn1 & Hne1 & _). rewrite Hob3 in Hc1. injection Hc1 as <-.
    by apply Hne1, (names_unique c). }
  wp_step. specialize (Hgone eq_refl). split; [done|].
  assert (Hsame : forall q, q <> oldbin p -> w_fs w4 !! q = w_fs w3 !! q)
    by (intros q Hq; destruct Hf4 as [-> | ->]; [done|by rewrite lookup_delete_ne]).
  split; [rewrite Hsame, Hf3 by congruence; by rewrite lookup_insert_eq|]. split; [done|].
  intros q Hq1 Hq2. by rewrite Hsame, Hf3, lookup_insert_ne.
Qed.

(** C32.  A pid file changes hands without harm.  Before a server starts its
    successor it gives up the pid file and names itself in the file .oldbin;
    whatever system calls fail, no other file changes, a pid file that names
    another process that runs is left as it is, success means that the pid file is
    gone and that .oldbin names this process, and failure leaves the state as it
    was; a .oldbin of a process that runs makes it fail, and nothing else does
    when no call fails.  If the successor dies, whatever it has left in the pid
    file, giving up the upgrade restores the pid file of this process and removes
    .oldbin. *)
Theorem pidfile_changes_hands p s w : honest w -> pidfile s = Some p -> owner s = self -> old s = None ->
  contents_ok (w_fs w) p -> contents_ok (w_fs w) (oldbin p) ->
  wp (mog_pidfile_upgrade_prepare self kill0 stack cut) s w (fun ok s1 w1 => handed_over p s w ok s1 w1 /\
    (ok = true -> forall w2, w_sys w2 = [] -> left_behind (w_fs w2) p ->
       (forall q, q <> p -> w_fs w2 !! q = w_fs w1 !! q) ->
       wp (mog_pidfile_upgrade_abort self kill0 stack cut) s1 w2 (fun _ s3 w3 =>
         s3 = set_exists true s /\ w_fs w3 !! p = Some (pid_text self) /\ w_fs w3 !! oldbin p = None /\
         same_but p (w_fs w) (w_fs w3)))).
Proof.
  intros Hh Hp Ho Hold Hc Hc'. eapply wp_mono; [by apply wp_upgrade_prepare|]. intros ok s1 w1 Hho. split; [done|].
  intros -> w2 Ew Hl Hsame. destruct Hho as [Hfr _ -> Hfiles _ _]. destruct (Hfiles eq_refl) as (_ & c & Hob & Hnm).
  eapply wp_mono; [apply (wp_upgrade_abort p _ w2 c)|]; try done; [by rewrite Hsame; [|apply oldbin_ne]|].
  intros _ s3 w3 (-> & H1 & H2 & H3). split; [destruct s; simpl in *; by subst|]. split; [done|]. split; [done|].
  intros q Hq1 Hq2. rewrite H3, Hsame by done. by apply Hfr.
Qed.

(** ** Start *)

Variable canonicalize : name -> option name.

(** A server does not start when its pid file names a process that runs;
    otherwise it starts, and then the file names it. *)
Theorem pidfile_started path s w : w_sys w = [] -> canonicalize path = Some path -> pidfile s = None ->
  contents_ok (w_fs w) path ->
  (in_use (w_fs w) path -> mog_pidfile_prepare kill0 canonicalize stack path s w = Crash Died) /\
  (~ in_use (w_fs w) path ->
   wp (fd ← mog_pidfile_prepare kill0 canonicalize stack path; mog_pidfile_commit self cut fd) s w (fun ok s' w' =>
     ok = true /\ s' = PidState (Some path) true (old s) self true /\
     exists c, w_fs w' = <[path := c]> (w_fs w) /\ names c self)).
Proof.
  intros Ew Hcan Hpf Hc.
  set (Q := fun (r : Z + name) (s' : pid_state) (w' : world) => w_sys w' = [] /\
    match r with
    | inl _ => in_use (w_fs w) path
    | inr fd => ~ in_use (w_fs w) path /\ fd = path /\ s' = set_exists true (set_pidfile (Some path) s) /\
        exists c, w_fs w' = <[path := c]> (w_fs w)
    end).
  assert (Hopen : wp (mog_pidfile_open kill0 canonicalize stack path) s w Q).
  { unfold mog_pidfile_open. wp_step. apply wp_open_create; [done|]. intros c w1 [H1 _] Hf1 Hcc. specialize (H1 Ew).
    assert (Hpc : pid_contents c) by (destruct Hcc as [?|[_ ->]]; [by apply Hc|by left]).
    wp_step. apply wp_pidfile_read; [done|]. intros z w2 [H2 _] Hf2 Hz. specialize (H2 H1).
    destruct ((0 <? z) && pid_is_running kill0 z) eqn:Ez.
    - apply andb_true_iff in Ez as [Hz0 Hrun]. apply Z.ltb_lt in Hz0. wp_step. wp_step. wp_step. split; [done|].
      destruct Hz as [[_ ->]|[[_ ->]|Hz]]; [lia|lia|]. exists c, z. destruct Hcc as [?|[_ ->]]; [done|].
      destruct Hz as (? & r & Er). by destruct (fmt_d z).
    - wp_step. wp_step. wp_step. wp_step; [by rewrite Hpf|]. rewrite Hcan. wp_step. wp_step. wp_step. split; [done|].
      split; [|split; [done|split; [done|exists c; by rewrite Hf2]]].
      intros (c' & pid & Hl & Hnm & Hrun). assert (c' = c) as -> by (destruct Hcc as [?|[? _]]; congruence).
      assert (z = pid) as ->.
      { destruct Hz as [[? _]|[[-> _]|Hz]]; [done| |by eapply names_unique].
        destruct Hnm as (? & r & Er). by destruct (fmt_d pid). }
      rewrite Hrun, (proj2 (Z.ltb_lt 0 pid)) in Ez; [done|]. destruct Hnm as [? _]. lia. }
  destruct Hopen as (r & s1 & w1 & Hr & Ew1 & HQ).
  assert (Hprep : mog_pidfile_prepare kill0 canonicalize stack path s w =
    match r with inr fd => Ok (fd, s1, w1) | inl _ => Crash Died end).
  { unfold mog_pidfile_prepare, mbind, M_bind. rewrite Hr. by destruct r. }
  destruct r as [cur|fd]; [split; [done|]; by intros []|]. destruct HQ as (Hnu & -> & -> & c & Hf1).
  split; [done|]. intros _. apply wp_bind. exists path, (set_exists true (set_pidfile (Some path) s)), w1. split; [done|].
  unfold mog_pidfile_commit. wp_step. wp_step. wp_step. wp_step; [done|]. wp_step. apply wp_pid_write.
  intros ok c' w2 [H2 _] Hok Hf2 Hc'. rewrite (Hok Ew1). cbn [negb]. wp_step. apply wp_reply. intros e w3 _ Hf3 He _.
  rewrite (He (H2 Ew1)). wp_step. wp_step. wp_step. split; [done|]. split; [by destruct s|].
  exists c'. split; [by rewrite Hf3, Hf2, Hf1, insert_insert_eq|]. rewrite (Hc' (Hok Ew1)). apply over_names.
Qed.
End Laws.

(** ** Samples and defects *)

Definition only_runs (l : list Z) (pid : Z) : option errno := if bool_decide (pid ∈ l) then None else Some ESRCH.
Definition pid_world (fs : gmap name (list Z)) : world := World fs [] [] [] [] (Chan [] []) None false.
Definition pid_owner : pid_state := PidState (Some (str "/pid")) true None 42 true.

Lemma pidfile_changes_hands_witness :
  exists s1 w1, mog_pidfile_upgrade_prepare 42 (only_runs [42]) [] 0 pid_owner (pid_world {[ str "/pid" := pid_text 42 ]}) = Ok (true, s1, w1) /\
    w_fs w1 !! str "/pid" = None /\ exists c, w_fs w1 !! str "/pid.oldbin" = Some c /\ names c 42.
Proof.
  assert (Hnm : names (pid_text 42) 42) by (split; [lia|exists []; reflexivity]).
  destruct (pidfile_changes_hands 42 (only_runs [42]) [] 0 ltac:(lia) (str "/pid") pid_owner (pid_world {[ str "/pid" := pid_text 42 ]}))
    as (ok & s1 & w1 & He & Hho & _).
  - unfold honest. constructor.
  - reflexivity.
  - reflexivity.
  - reflexivity.
  - intros c Hc. vm_compute in Hc. injection Hc as <-. right. exists 42. exact Hnm.
  - intros c Hc. vm_compute in Hc. discriminate.
  - assert (ok = true) as ->.
    { apply (ho_ok _ _ _ _ _ _ _ _ Hho); [reflexivity| |].
      - intros (c & pid & Hc & Hn & Hne & _). vm_compute in Hc. injection Hc as <-. apply Hne. eapply names_unique; [exact Hn|exact Hnm].
      - intros (c & pid & Hc & _). vm_compute in Hc. discriminate. }
    exists s1, w1. split; [exact He|]. exact (ho_files _ _ _ _ _ _ _ _ Hho eq_refl).
Defined.

(** When the successor cannot be started ([mog_upgrade_spawn] returns because
    fork fails, or its memory stream) nobody gives up the upgrade: the next one
    fails the assertion on [old], and the server aborts. *)
Theorem second_upgrade_aborts :
  (_ ← mog_pidfile_upgrade_prepare 42 (only_runs [42]) [] 0; mog_pidfile_upgrade_prepare 42 (only_runs [42]) [] 0)
    pid_owner (pid_world {[ str "/pid" := pid_text 42 ]}) = Crash AssertFailed.
Proof. vm_compute. reflexivity. Qed.

(** An upgrade that is refused because .oldbin names a process that runs has
    removed the pid file already. *)
Theorem refused_upgrade_loses_pidfile :
  exists w', mog_pidfile_upgrade_prepare 42 (only_runs [7; 42]) [] 0 pid_owner
      (pid_world {[ str "/pid" := pid_text 42; str "/pid.oldbin" := pid_text 7 ]}) = Ok (false, pid_owner, w') /\
    w_fs w' !! str "/pid" = None.
Proof. eexists. split; vm_compute; reflexivity. Qed.

(** [pidfile_read] takes what was read for a string: a file without a newline is
    completed by what was in the array, or read beyond its end. *)
Theorem pidfile_read_unterminated :
  (exists w', pidfile_read (str "xx3" ++ [10; 0; 0; 0; 0; 0; 0; 0]) (str "12") pid_owner (pid_world ∅) = Ok (123, pid_owner, w')) /\
  (exists w', pidfile_read (str "xx4" ++ [10; 0; 0; 0; 0; 0; 0; 0]) (str "12") pid_owner (pid_world ∅) = Ok (124, pid_owner, w')) /\
  pidfile_read (str "xxxxxxxxxxx") (str "12345678901") pid_owner (pid_world ∅) = Crash OutOfBounds.
Proof. split; [|split]; [eexists; vm_compute; reflexivity..|vm_compute; reflexivity]. Qed.
