(* ===== verification/Shutdown.v ===== *)
(** The end of a worker (exit.c, fdmap.c, and the loop of a shutdown in
    queue_loop.c): the listeners are closed, all clients are moved to the queue of
    the main thread, and that thread serves them until the last one is closed. *)
From S2P Require Import Prelude FdMap Queue HttpQueue Upgrade.
From stdpp Require Import base list numbers gmap fin_maps fin_map_dom relations.
From Stdlib Require Import ZArith Lia.

#[local] Open Scope Z_scope.

(** ** Listeners *)

Section Acceptors.
Variable open_max : Z.

(** [acceptor_quit], apart from stopping the threads ([mog_thrpool_quit]): the
    listener is released, and its number forgotten. *)
Definition acceptor_quit (fd : Z) (t : fdmap) : res (Z * fdmap) :=
  if 0 <=? fd then
    let* '(mfd, t) := mog_fd_get open_max fd t in
    let* t := mog_fd_put mfd t in
    Ok (-1, t)
  else Ok (fd, t).

Definition svc_quit_accept_i (svc : svc_fds) (t : fdmap) : res (svc_fds * fdmap) :=
  let* '(m, t) := acceptor_quit (mgmt_fd svc) t in
  let* '(h, t) := acceptor_quit (http_fd svc) t in
  let* '(g, t) := acceptor_quit (httpget_fd svc) t in
  Ok (SvcFds m h g, t).

Fixpoint svc_each_quit (svcs : list svc_fds) (t : fdmap) : res (list svc_fds * fdmap) :=
  match svcs with
  | [] => Ok ([], t)
  | svc :: svcs =>
      let* '(svc, t) := svc_quit_accept_i svc t in
      let* '(svcs, t) := svc_each_quit svcs t in
      Ok (svc :: svcs, t)
  end.

(** Listeners are known to the map. *)
Definition fds_of (svc : svc_fds) : list Z := [mgmt_fd svc; http_fd svc; httpget_fd svc].

Lemma acceptor_quit_ok fd t : fdmap_ok open_max t -> fd < max_fd t ->
  exists t', acceptor_quit fd t = Ok (if 0 <=? fd then -1 else fd, t') /\ fdmap_ok open_max t' /\ max_fd t' = max_fd t /\
    forall o, 0 <= o -> type_at t' o = if o =? fd then MOG_FD_TYPE_UNUSED else type_at t o.
Proof.
  intros Hok Hlt. unfold acceptor_quit. destruct (Z.leb_spec 0 fd) as [H0|Hneg].
  2: { exists t. split_and!; try done. intros o Ho. by rewrite (proj2 (Z.eqb_neq o fd)) by lia. }
  unfold mog_fd_get. rewrite (proj2 (Z.leb_le 0 fd)), (proj2 (Z.ltb_lt fd (max_fd t))) by lia. cbn [assert_ res_bind].
  destruct (deref_ok t fd) as (s & Hs & Hfd); [apply Hok|destruct Hok; lia|].
  unfold mog_fd_put. rewrite Hs. cbn [res_bind]. rewrite Hfd, (proj2 (Z.leb_le 0 fd)), (proj2 (Z.ltb_lt fd (max_fd t))), bool_decide_true by (done || lia).
  cbn [assert_ res_bind]. eexists. split; [done|]. split; [by eapply store_ok|]. split; [done|]. intros o Ho.
  unfold type_at. destruct (Z.eqb_spec o fd) as [-> |Hne]; [by erewrite store_deref_same|]. by rewrite store_deref_other by lia.
Qed.

(** A shutdown closes the listeners and touches no other descriptor. *)
Lemma svc_each_quit_ok svcs : forall t, fdmap_ok open_max t -> Forall (fun fd => fd < max_fd t) (concat (map fds_of svcs)) ->
  exists svcs' t', svc_each_quit svcs t = Ok (svcs', t') /\ fdmap_ok open_max t' /\ max_fd t' = max_fd t /\
    Forall (fun fd => fd < 0) (concat (map fds_of svcs')) /\
    forall o, 0 <= o -> type_at t' o = if bool_decide (o ∈ concat (map fds_of svcs)) then MOG_FD_TYPE_UNUSED else type_at t o.
Proof.
  induction svcs as [|svc svcs IH]; intros t Hok Hall; [by exists [], t|]. cbn [map concat fds_of app] in Hall.
  apply Forall_cons_1 in Hall as [Hm Hall]. apply Forall_cons_1 in Hall as [Hh Hall]. apply Forall_cons_1 in Hall as [Hg Hall].
  cbn [svc_each_quit]. unfold svc_quit_accept_i.
  destruct (acceptor_quit_ok (mgmt_fd svc) t Hok Hm) as (t1 & -> & Hok1 & Hx1 & Ht1). cbn [res_bind].
  destruct (acceptor_quit_ok (http_fd svc) t1 Hok1 ltac:(lia)) as (t2 & -> & Hok2 & Hx2 & Ht2). cbn [res_bind].
  destruct (acceptor_quit_ok (httpget_fd svc) t2 Hok2 ltac:(lia)) as (t3 & -> & Hok3 & Hx3 & Ht3). cbn [res_bind].
  destruct (IH t3 Hok3) as (svcs' & t' & -> & Hok' & Hx' & Hneg & Ht'); [rewrite Hx3, Hx2, Hx1; done|]. cbn [res_bind].
  eexists _, t'. split; [done|]. split; [done|]. split; [lia|]. split.
  - cbn [map concat fds_of app mgmt_fd http_fd httpget_fd].
    constructor; [destruct (Z.leb_spec 0 (mgmt_fd svc)); lia|]. constructor; [destruct (Z.leb_spec 0 (http_fd svc)); lia|].
    constructor; [destruct (Z.leb_spec 0 (httpget_fd svc)); lia|]. done.
  - intros o Ho. rewrite Ht', Ht3, Ht2, Ht1 by done. cbn [map concat fds_of app].
    destruct (Z.eqb_spec o (mgmt_fd svc)), (Z.eqb_spec o (http_fd svc)), (Z.eqb_spec o (httpget_fd svc));
      repeat case_bool_decide; try done; exfalso; set_solver.
Qed.
End Acceptors.

(** ** The queue of the shutdown *)

(** The queue of the main thread with the types of the descriptors in it,
    [mog_nr_active_at_quit], and how many clients were dropped because the kernel
    had no memory (not in the code). *)
Record quit_state := QuitState { q_kern : epoll; q_types : gmap Z mog_fd_type; q_nr : Z; q_lost : Z }.

(** The result of adding or pushing a client. *)
Definition quit_pushed (fd : Z) (r : bool * epoll) (s : quit_state) : quit_state :=
  if r.1 then QuitState r.2 (q_types s) (q_nr s) (q_lost s)
  else QuitState r.2 (delete fd (q_types s)) (q_nr s) (q_lost s + 1).

(** [mog_activeq_add] of the clients that [mog_fdmap_requeue] finds, in turn. *)
Fixpoint requeue_add (ty : Z -> mog_fd_type) (q : list Z) (rs : list (option errno)) (s : quit_state) : res quit_state :=
  match q with
  | [] => Ok s
  | fd :: q =>
      let r := match rs with r :: _ => r | [] => None end in
      let* x := mog_idleq_add fd MOG_QEV_RW r (q_kern s) in
      requeue_add ty q (tail rs)
        (quit_pushed fd x (QuitState (q_kern s) (<[fd := ty fd]> (q_types s)) (q_nr s) (q_lost s)))
  end.

(** [mog_fdmap_requeue (queue)]: [k] and [types] are what is in the queue. *)
Definition quit_start (t : fdmap) (rs : list (option errno)) (k : epoll) (types : gmap Z mog_fd_type) : res quit_state :=
  let* '(q, nr, t') := mog_fdmap_requeue t in
  requeue_add (type_at t) q rs (QuitState k types nr 0).

Section QuitLoop.
Variable buggy : bool.

(** [queue_quit_step]; [a] is what the step of the client does ([mog_http_quit_step],
    [mog_mgmt_quit_step]). *)
Definition queue_quit_step (fd : Z) (a : quit_action) (r1 r2 : option errno) (s : quit_state) : res quit_state :=
  let push ev := let* x := mog_idleq_push buggy fd ev r1 r2 (q_kern s) in Ok (quit_pushed fd x s) in
  match q_types s !! fd with
  | Some (MOG_FD_TYPE_MGMT | MOG_FD_TYPE_HTTP | MOG_FD_TYPE_HTTPGET) =>
      match a with
      | QuitClosed => Ok (QuitState (epoll_forget fd (q_kern s)) (delete fd (q_types s)) (wrap_u64 (q_nr s - 1)) (q_lost s))
      | QuitWaitRd => push MOG_QEV_RD
      | QuitWaitWr => push MOG_QEV_WR
      | QuitActive => push MOG_QEV_RW
      end
  | Some (MOG_FD_TYPE_FILE | MOG_FD_TYPE_QUEUE | MOG_FD_TYPE_SVC) => Crash AssertFailed
  | _ => Ok s
  end.

(** The condition of [mog_queue_quit_loop] with its assertion. *)
Definition quit_goes_on (s : quit_state) : res bool :=
  if q_nr s =? 0 then Ok false else assert! q_nr s <=? INT_MAX; Ok true.

(** A turn of the loop: a wait that was interrupted, or an event. *)
Inductive quit_step : quit_state -> quit_state -> Prop :=
| qs_none s : quit_goes_on s = Ok true -> quit_step s s
| qs_event fd ev a r1 r2 s s' : quit_goes_on s = Ok true -> armed (q_kern s) !! fd = Some ev ->
    no_memory r1 -> no_memory r2 ->
    queue_quit_step fd a r1 r2 (QuitState (mog_idleq_wait fd (q_kern s)) (q_types s) (q_nr s) (q_lost s)) = Ok s' ->
    quit_step s s'.

(** ** The loop ends when the last client is closed *)

Definition open_clients (types : gmap Z mog_fd_type) : gmap Z mog_fd_type := filter (fun x => is_client x.2 = true) types.
Definition nr_clients (types : gmap Z mog_fd_type) : Z := Z.of_nat (size (open_clients types)).

Lemma nr_delete types fd ty : types !! fd = Some ty -> is_client ty = true ->
  nr_clients types = nr_clients (delete fd types) + 1.
Proof.
  intros Hl Hc. unfold nr_clients, open_clients. rewrite map_filter_delete.
  assert (Hf : filter (fun x => is_client x.2 = true) types !! fd = Some ty) by by apply map_lookup_filter_Some.
  rewrite (map_size_delete_Some fd (filter (fun x => is_client x.2 = true) types)) by eauto.
  assert (size (filter (fun x => is_client x.2 = true) types) <> 0%nat); [|lia].
  intros E%map_size_empty_iff. by rewrite E in Hf.
Qed.

Lemma nr_insert types fd ty : types !! fd = None -> is_client ty = true ->
  nr_clients (<[fd := ty]> types) = nr_clients types + 1.
Proof.
  intros Hl Hc. rewrite (nr_delete _ fd ty) by by rewrite ?lookup_insert_eq. by rewrite delete_insert_id.
Qed.

Record quit_inv (s : quit_state) : Prop := {
  qi_types : forall fd ty, q_types s !! fd = Some ty -> is_client ty = true \/ ty = MOG_FD_TYPE_SELFWAKE \/ ty = MOG_FD_TYPE_IOSTAT;
  qi_registered : registered (q_kern s) = dom (q_types s);
  qi_armed : forall fd ty, q_types s !! fd = Some ty -> is_client ty = true -> is_Some (armed (q_kern s) !! fd);
  qi_known : forall fd ev, armed (q_kern s) !! fd = Some ev -> is_Some (q_types s !! fd);
  qi_lost : 0 <= q_lost s
}.

Definition counted (s : quit_state) : Z := nr_clients (q_types s) + q_lost s.

(** A client that was taken from the queue is put back, or dropped. *)
Lemma pushed_inv fd ty ev x k s : quit_inv s -> q_types s !! fd = Some ty -> is_client ty = true ->
  registered k = registered (q_kern s) -> delete fd (armed k) = delete fd (armed (q_kern s)) -> pushed_ok fd ev k x ->
  quit_inv (quit_pushed fd x s) /\ counted (quit_pushed fd x s) = counted s.
Proof.
  intros [Ht Hr Ha Hk Hl] Hty Hc Hreg Harm Hx. unfold pushed_ok, quit_pushed, counted in *.
  assert (Hother : forall fd', fd' <> fd -> armed k !! fd' = armed (q_kern s) !! fd').
  { intros fd' Hne. rewrite <- (lookup_delete_ne (armed k) fd), Harm by done. by apply lookup_delete_ne. }
  destruct x as [[] k']; cbn [fst snd] in *.
  - destruct Hx as [Hx1 Hx2]. split; [|done]. split; simpl; [done|congruence| | |done].
    + intros fd' ty' H1 H2. rewrite Hx2. destruct (decide (fd' = fd)) as [-> |Hne]; [by rewrite lookup_insert_eq|].
      rewrite lookup_insert_ne, Hother by done. by eapply Ha.
    + intros fd' ev'. rewrite Hx2. destruct (decide (fd' = fd)) as [-> |Hne]; [eauto|].
      rewrite lookup_insert_ne, Hother by done. apply Hk.
  - subst k'. split.
    + split; cbn [q_types q_kern q_lost epoll_forget registered armed]; [|by rewrite Hreg, Hr, dom_delete_L| | |lia].
      * intros fd' ty' [_ H]%lookup_delete_Some. by eapply Ht.
      * intros fd' ty' [Hne H]%lookup_delete_Some H2. rewrite lookup_delete_ne, Hother by done. by eapply Ha.
      * intros fd' ev'. rewrite lookup_delete_Some. intros [Hne H]. rewrite Hother in H by done. rewrite lookup_delete_ne by done. by eapply Hk.
    + cbn [q_types q_lost]. rewrite (nr_delete (q_types s) fd ty Hty Hc). lia.
Qed.

(** One that is closed. *)
Lemma closed_inv fd ty s k : quit_inv s -> q_types s !! fd = Some ty -> is_client ty = true ->
  registered k = registered (q_kern s) -> delete fd (armed k) = delete fd (armed (q_kern s)) ->
  let s' := QuitState (epoll_forget fd k) (delete fd (q_types s)) (wrap_u64 (q_nr s - 1)) (q_lost s) in
  quit_inv s' /\ counted s' = counted s - 1.
Proof.
  intros Hi Hty Hc Hreg Harm s'. destruct (pushed_inv fd ty MOG_QEV_RD (false, epoll_forget fd k) k s Hi Hty Hc Hreg Harm eq_refl) as [Hi' Hn].
  unfold quit_pushed, counted in *. simpl in *. split; [|lia]. destruct Hi' as [H1 H2 H3 H4 _]. split; simpl; try done. by destruct Hi.
Qed.

Lemma counted_nonneg s : quit_inv s -> 0 <= counted s.
Proof. intros Hi. pose proof (qi_lost s Hi). unfold counted, nr_clients. lia. Qed.

(** The counter is that of the open clients and the lost ones, and bounded. *)
Definition quit_ok (s : quit_state) : Prop := quit_inv s /\ q_nr s = counted s /\ q_nr s <= INT_MAX.

Lemma quit_event_ok fd ev a r1 r2 s : quit_ok s -> armed (q_kern s) !! fd = Some ev -> no_memory r1 -> no_memory r2 ->
  exists s', queue_quit_step fd a r1 r2 (QuitState (mog_idleq_wait fd (q_kern s)) (q_types s) (q_nr s) (q_lost s)) = Ok s' /\ quit_ok s'.
Proof.
  intros (Hi & Hn & Hmax) Harm H1 H2. destruct (qi_known s Hi fd ev Harm) as [ty Hty]. unfold queue_quit_step. cbn [q_types q_kern q_nr q_lost].
  assert (Hd : delete fd (armed (mog_idleq_wait fd (q_kern s))) = delete fd (armed (q_kern s))) by apply delete_delete_eq.
  destruct (qi_types s Hi fd ty Hty) as [Hc|Hnc].
  - assert (Hreg : fd ∈ registered (mog_idleq_wait fd (q_kern s))) by (simpl; rewrite (qi_registered s Hi); by eapply elem_of_dom_2).
    assert (Hpush : forall ev', exists s', (let* x := mog_idleq_push buggy fd ev' r1 r2 (mog_idleq_wait fd (q_kern s)) in
        Ok (quit_pushed fd x (QuitState (mog_idleq_wait fd (q_kern s)) (q_types s) (q_nr s) (q_lost s)))) = Ok s' /\ quit_ok s').
    { intros ev'. destruct (idleq_push_ok buggy fd ev' r1 r2 _ H1 H2 Hreg) as (x & Hx & Hpo). rewrite Hx. cbn [res_bind].
      destruct (pushed_inv fd ty ev' x (mog_idleq_wait fd (q_kern s)) s Hi Hty Hc eq_refl Hd Hpo) as [Hi' Hc']. eexists. split; [done|].
      replace (quit_pushed fd x (QuitState _ _ _ _)) with (quit_pushed fd x s) by by unfold quit_pushed; destruct x as [[] ?].
      split; [done|]. rewrite Hc'. unfold quit_pushed. destruct x as [[] ?]; simpl; done. }
    assert (Hclose : exists s', Ok (QuitState (epoll_forget fd (mog_idleq_wait fd (q_kern s))) (delete fd (q_types s))
        (wrap_u64 (q_nr s - 1)) (q_lost s)) = Ok s' /\ quit_ok s').
    { eexists. split; [done|]. destruct (closed_inv fd ty s (mog_idleq_wait fd (q_kern s)) Hi Hty Hc eq_refl Hd) as [Hi' Hc']. split; [done|].
      pose proof (counted_nonneg _ Hi'). rewrite Hc' in *. cbn [q_nr]. unfold wrap_u64, INT_MAX in *. rewrite Z.mod_small by lia. lia. }
    rewrite Hty. by destruct ty, a.
  - eexists. rewrite Hty. split; [by destruct Hnc as [-> | ->]|]. split; [|done].
    destruct Hi as [Ht Hr Ha Hk Hl]. split; simpl; try done.
    + intros fd' ty' H3 H4. rewrite lookup_delete_ne; [by eapply Ha|]. intros ->. rewrite Hty in H3. injection H3 as <-.
      by destruct Hnc as [-> | ->].
    + intros fd' ev' [_ H3]%lookup_delete_Some. by eapply Hk.
Qed.

Lemma quit_reach_ok s s' : rtc quit_step s s' -> quit_ok s -> quit_ok s'.
Proof.
  induction 1 as [|x y z Hs _ IH]; [done|]. intros Hx. apply IH. destruct Hs as [s Hg|fd ev a r1 r2 s s' Hg Ha H1 H2 Hs]; [done|].
  destruct (quit_event_ok fd ev a r1 r2 s Hx Ha H1 H2) as (s2 & He & Hok). rewrite Hs in He. by injection He as ->.
Qed.

(** A client that is added is armed, or dropped. *)
Lemma added_inv fd ty r s : quit_inv s -> q_types s !! fd = None -> is_client ty = true -> no_memory r ->
  exists x, mog_idleq_add fd MOG_QEV_RW r (q_kern s) = Ok x /\
    let s' := quit_pushed fd x (QuitState (q_kern s) (<[fd := ty]> (q_types s)) (q_nr s) (q_lost s)) in
    quit_inv s' /\ counted s' = counted s + 1 /\ q_nr s' = q_nr s /\ (r = None -> q_lost s' = q_lost s).
Proof.
  intros Hi Hn Hc Hr. assert (Hnreg : fd ∉ registered (q_kern s)) by (rewrite (qi_registered s Hi); by apply not_elem_of_dom).
  destruct (idleq_add_ok fd MOG_QEV_RW r (q_kern s) Hr Hnreg) as (x & Hx & Hxo). exists x. split; [done|].
  set (k1 := Epoll ({[fd]} ∪ registered (q_kern s)) (<[fd := MOG_QEV_RW]> (armed (q_kern s)))).
  set (s1 := QuitState k1 (<[fd := ty]> (q_types s)) (q_nr s) (q_lost s)).
  assert (Hi1 : quit_inv s1).
  { destruct Hi as [Ht Hreg Ha Hk Hl]. split; simpl; [|by rewrite Hreg, dom_insert_L| | |done].
    - intros fd' ty'. rewrite lookup_insert_Some. intros [[_ <-]|[_ H]]; [by left|by eapply Ht].
    - intros fd' ty'. rewrite lookup_insert_Some. intros [[-> _]|[Hne H]] H2; [by rewrite lookup_insert_eq|].
      rewrite lookup_insert_ne by done. by eapply Ha.
    - intros fd' ev'. rewrite lookup_insert_Some. intros [[-> _]|[Hne H]]; [by rewrite lookup_insert_eq|].
      rewrite lookup_insert_ne by done. by eapply Hk. }
  assert (Hcount : counted s1 = counted s + 1) by (unfold counted; cbn [q_types q_lost s1]; rewrite nr_insert by done; lia).
  destruct x as [[] k']; cbn [fst snd] in *.
  - destruct Hxo as [Hx1 Hx2]. assert (k' = k1) as -> by (destruct k'; simpl in *; by subst). done.
  - assert (Hf : epoll_forget fd (q_kern s) = epoll_forget fd k1).
    { unfold epoll_forget, k1. cbn [registered armed]. f_equal; [set_solver|by rewrite delete_insert_eq]. }
    subst k'. rewrite Hf. destruct (pushed_inv fd ty MOG_QEV_RD (false, epoll_forget fd k1) k1 s1 Hi1) as [H1 H2]; try done.
    { cbn [q_types s1]. by rewrite lookup_insert_eq. }
    split; [exact H1|]. split; [etransitivity; [exact H2|exact Hcount]|]. split; [done|]. intros ->. exfalso.
    unfold mog_idleq_add, idleq_mod, epoll_ctl in Hx. by rewrite decide_False in Hx.
Qed.

Lemma requeue_add_ok ty q : forall rs s, quit_inv s -> NoDup q -> Forall no_memory rs ->
  (forall fd, fd ∈ q -> is_client (ty fd) = true /\ q_types s !! fd = None) ->
  exists s', requeue_add ty q rs s = Ok s' /\ quit_inv s' /\ q_nr s' = q_nr s /\ counted s' = counted s + zlen q /\
    (rs = [] -> q_lost s' = q_lost s).
Proof.
  induction q as [|fd q IH]; intros rs s Hi Hnd Hrs Hq; cbn [requeue_add].
  { exists s. split; [done|]. split; [done|]. split; [done|]. rewrite zlen_nil. split; [lia|done]. }
  apply NoDup_cons in Hnd as [Hni Hnd]. destruct (Hq fd ltac:(set_solver)) as [Hc Hn].
  set (r := match rs with r :: _ => r | [] => None end).
  assert (Hr : no_memory r) by (unfold r; destruct rs; [by left|by apply Forall_cons_1 in Hrs as []]).
  destruct (added_inv fd (ty fd) r s Hi Hn Hc Hr) as (x & Hx & Hi1 & Hc1 & Hn1 & Hl1). rewrite Hx. cbn [res_bind].
  destruct (IH (tail rs) _ Hi1 Hnd) as (s' & He & Hi' & Hnr & Hct & Hls).
  { destruct rs; [done|]. by apply Forall_cons_1 in Hrs as []. }
  { intros fd' Hin. destruct (Hq fd' ltac:(set_solver)) as [? Hnone]. split; [done|]. assert (fd' <> fd) by (intros ->; done).
    unfold quit_pushed. destruct x as [[] ?]; cbn [fst snd q_types]; rewrite ?lookup_delete_ne, lookup_insert_ne by done; done. }
  exists s'. split; [exact He|]. split; [done|]. split; [congruence|]. rewrite zlen_cons. split; [lia|].
  intros ->. simpl in *. rewrite Hls by done. by apply Hl1.
Qed.
End QuitLoop.

(** The queue of the main thread before: it watches the self-pipe and iostat. *)
Record main_queue (t : fdmap) (k : epoll) (types : gmap Z mog_fd_type) : Prop := {
  mq_registered : registered k = dom types;
  mq_types : forall fd ty, types !! fd = Some ty -> type_at t fd = ty /\ (ty = MOG_FD_TYPE_SELFWAKE \/ ty = MOG_FD_TYPE_IOSTAT);
  mq_known : forall fd ev, armed k !! fd = Some ev -> is_Some (types !! fd)
}.

(** The loop, with the number of clients it starts with. *)
Lemma quit_loop_runs buggy open_max t rs k types : fdmap_ok open_max t -> max_fd t <= INT_MAX -> Forall no_memory rs ->
  main_queue t k types ->
  exists s0, quit_start t rs k types = Ok s0 /\ (rs = [] -> q_lost s0 = 0) /\ q_nr s0 = zlen (FdMap.clients t (Z.to_nat (max_fd t))) /\
  forall s, rtc (quit_step buggy) s0 s ->
    q_nr s = nr_clients (q_types s) + q_lost s /\ (exists b, quit_goes_on s = Ok b) /\
    (forall fd ty, q_types s !! fd = Some ty -> is_client ty = true -> is_Some (armed (q_kern s) !! fd)) /\
    (forall fd ev a r1 r2, armed (q_kern s) !! fd = Some ev -> no_memory r1 -> no_memory r2 -> exists s',
       queue_quit_step buggy fd a r1 r2 (QuitState (mog_idleq_wait fd (q_kern s)) (q_types s) (q_nr s) (q_lost s)) = Ok s') /\
    (q_lost s = 0 -> (quit_goes_on s = Ok false <-> open_clients (q_types s) = ∅)).
Proof.
  intros Hok Hmax Hrs [Hreg Hty Hkn].
  assert (0 <= max_fd t) as H0 by (destruct Hok as [_ -> _]; unfold FD_PER_HEAP; pose proof (zlen_nonneg (heaps t)); lia).
  destruct (requeue_loop_ok open_max (Z.to_nat (max_fd t)) 0 t Hok) as (t' & He & _); [lia|lia|unfold INT_MAX in Hmax; lia|].
  set (q := FdMap.clients t (Z.to_nat (max_fd t))) in *. rewrite Z.add_0_l in He.
  assert (Hnone : open_clients types = ∅).
  { apply map_empty. intros fd. apply map_lookup_filter_None. right. intros ty Hl. destruct (Hty fd ty Hl) as [_ [-> | ->]]; done. }
  assert (Hi : quit_inv (QuitState k types (zlen q) 0)).
  { split; simpl; try done; [intros fd ty Hl; right; by eapply Hty|].
    intros fd ty Hl Hc. by destruct (Hty fd ty Hl) as [_ [-> | ->]]. }
  destruct (requeue_add_ok (type_at t) q rs _ Hi) as (s0 & Hs0 & Hi0 & Hnr & Hct & Hl0); [apply clients_NoDup|done| |].
  { intros fd Hin. apply list_elem_of_In, clients_spec in Hin as [_ Hc]. split; [done|]. cbn [q_types].
    destruct (types !! fd) as [ty|] eqn:E; [|done]. destruct (Hty fd ty E) as [Ht [-> | ->]]; by rewrite Ht in Hc. }
  exists s0. unfold quit_start, mog_fdmap_requeue. rewrite He. cbn [res_bind]. split; [exact Hs0|]. split; [exact Hl0|]. split; [exact Hnr|].
  assert (Hok0 : quit_ok s0).
  { split; [done|]. cbn [q_nr q_types q_lost] in *. unfold counted in Hct at 2. cbn [q_types q_lost] in Hct.
    unfold nr_clients in Hct. rewrite Hnone, map_size_empty in Hct. pose proof (clients_le t (Z.to_nat (max_fd t))). fold q in H. lia. }
  intros s Hr. destruct (quit_reach_ok buggy s0 s Hr Hok0) as (His & Hn & Hm).
  assert (Hg : quit_goes_on s = Ok (negb (q_nr s =? 0))).
  { unfold quit_goes_on. destruct (q_nr s =? 0); [done|]. by rewrite (proj2 (Z.leb_le (q_nr s) INT_MAX)). }
  split_and!; [done|eauto|by apply His| |].
  - intros fd ev a r1 r2 Ha H1 H2. destruct (quit_event_ok buggy fd ev a r1 r2 s (conj His (conj Hn Hm)) Ha H1 H2) as (s' & ? & _). eauto.
  - intros Hlost. rewrite Hg. unfold counted, nr_clients in Hn. rewrite Hlost in Hn. rewrite <- map_size_empty_iff.
    destruct (Z.eqb_spec (q_nr s) 0); cbn [negb]; split; intros; (done || lia || congruence || (f_equal; lia)).
Qed.

(** The loop of a shutdown ends when the last client is closed, and not
    before.  After all clients were moved to the queue of the main thread, and
    whatever their steps do and in whatever order events come, every open client
    is armed in the queue, so that the loop does not wait for nothing;
    [mog_nr_active_at_quit] counts the open clients and those that were dropped
    because the kernel had no memory; its assertion and those of the dispatch hold;
    and if none was dropped the loop ends exactly when no client is left. *)
Theorem quit_loop_exact buggy open_max t rs k types : fdmap_ok open_max t -> max_fd t <= INT_MAX -> Forall no_memory rs ->
  main_queue t k types ->
  exists s0, quit_start t rs k types = Ok s0 /\ (rs = [] -> q_lost s0 = 0) /\
  forall s, rtc (quit_step buggy) s0 s ->
    q_nr s = nr_clients (q_types s) + q_lost s /\ (exists b, quit_goes_on s = Ok b) /\
    (forall fd ty, q_types s !! fd = Some ty -> is_client ty = true -> is_Some (armed (q_kern s) !! fd)) /\
    (forall fd ev a r1 r2, armed (q_kern s) !! fd = Some ev -> no_memory r1 -> no_memory r2 -> exists s',
       queue_quit_step buggy fd a r1 r2 (QuitState (mog_idleq_wait fd (q_kern s)) (q_types s) (q_nr s) (q_lost s)) = Ok s') /\
    (q_lost s = 0 -> (quit_goes_on s = Ok false <-> open_clients (q_types s) = ∅)).
Proof.
  intros Hok Hmax Hrs Hq. destruct (quit_loop_runs buggy open_max t rs k types Hok Hmax Hrs Hq) as (s0 & H0 & H1 & _ & H2). eauto.
Qed.

(** Two clients, with nothing else in the queue: both are served to their end. *)
Lemma quit_loop_exact_witness :
  exists s0 s, quit_start fdmap1 [] (Epoll ∅ ∅) ∅ = Ok s0 /\ q_nr s0 = 2 /\ rtc (quit_step false) s0 s /\
    open_clients (q_types s) = ∅ /\ quit_goes_on s = Ok false.
Proof.
  destruct (quit_loop_exact false 256 fdmap1 [] (Epoll ∅ ∅) ∅ fdmap1_ok ltac:(vm_compute; congruence) ltac:(constructor)) as (s0 & Hs0 & _ & H).
  { split; [done| |]; intros ? ? Hl; cbn [armed] in Hl; by rewrite lookup_empty in Hl. }
  vm_compute in Hs0. injection Hs0 as <-. eexists _, (QuitState (Epoll ∅ ∅) ∅ 0 0).
  split; [reflexivity|]. split; [reflexivity|].
  match goal with |- rtc _ ?x ?y /\ _ => assert (Hr : rtc (quit_step false) x y) end.
  { eapply rtc_l; [eapply (qs_event false 9 MOG_QEV_RW QuitActive None None); [reflexivity|reflexivity|by left|by left|reflexivity]|].
    eapply rtc_l; [eapply (qs_event false 5 MOG_QEV_RW QuitClosed None None); [reflexivity|reflexivity|by left|by left|reflexivity]|].
    eapply rtc_l; [eapply (qs_event false 9 MOG_QEV_RW QuitClosed None None); [reflexivity|reflexivity|by left|by left|reflexivity]|].
    vm_compute. apply rtc_refl. }
  split; [exact Hr|]. destruct (H _ Hr) as (_ & _ & _ & _ & He). split; [reflexivity|]. apply He; reflexivity.
Defined.

(** A client that is dropped because the kernel has no memory is still counted:
    the loop waits for ever, with nobody in the queue. *)
Theorem quit_loop_stuck :
  exists s0 s, quit_start fdmap1 [] (Epoll ∅ ∅) ∅ = Ok s0 /\ rtc (quit_step false) s0 s /\
    q_types s = ∅ /\ armed (q_kern s) = ∅ /\ quit_goes_on s = Ok true.
Proof.
  eexists _, (QuitState (Epoll ∅ ∅) ∅ 1 1). split; [vm_compute; reflexivity|]. split; [|done].
  eapply rtc_l; [eapply (qs_event false 9 MOG_QEV_RW QuitActive (Some ENOMEM) None); [reflexivity|reflexivity|by right; left|by left|reflexivity]|].
  eapply rtc_l; [eapply (qs_event false 5 MOG_QEV_RW QuitClosed None None); [reflexivity|reflexivity|by left|by left|reflexivity]|].
  vm_compute. apply rtc_refl.
Qed.
