(* ===== verification/HashSize.v ===== *)
(** Sizes of hash tables (lib/hash.c, first part): the primes that are used as
    numbers of buckets, and the single precision arithmetic of the tuning
    parameters. *)
From S2P Require Import Prelude.
From stdpp Require Import base list numbers.
From Stdlib Require Import ZArith Znumtheory Lia SpecFloat.

#[local] Open Scope Z_scope.

Definition SIZE_MAX : Z := 2 ^ 64 - 1.

(** ** Loops with a bound that is never reached *)

(** At most [n] turns of a loop; [inr] leaves it.  The bound is a binary number,
    so that a loop that is left early costs its turns only. *)
Fixpoint iter_until {A B} (f : A -> A + B) (n : positive) (x : A) : A + B :=
  match n with
  | xH => f x
  | xO n => match iter_until f n x with inl y => iter_until f n y | r => r end
  | xI n =>
      match f x with
      | inl y => match iter_until f n y with inl z => iter_until f n z | r => r end
      | r => r
      end
  end.

(** A loop whose measure decreases and starts below the bound ends, in what its
    invariant says. *)
Lemma iter_until_ends {A B} (f : A -> A + B) (P : A -> Prop) (Q : B -> Prop) (m : A -> Z) :
  (forall x, P x -> match f x with inl y => P y /\ 0 <= m y < m x | inr b => Q b end) ->
  forall n x, P x -> 0 <= m x ->
  match iter_until f n x with inl y => P y /\ 0 <= m y <= m x - Zpos n | inr b => Q b end.
Proof.
  intros Hf. induction n as [n IH|n IH|]; intros x Hx H0; cbn [iter_until].
  - pose proof (Hf x Hx) as H1. destruct (f x) as [y|b]; [|done]. destruct H1 as [Hy Hm].
    pose proof (IH y Hy ltac:(lia)) as H2. destruct (iter_until f n y) as [z|b]; [|done]. destruct H2 as [Hz Hmz].
    pose proof (IH z Hz ltac:(lia)) as H3. destruct (iter_until f n z) as [u|b]; [|done]. destruct H3. split; [done|lia].
  - pose proof (IH x Hx H0) as H2. destruct (iter_until f n x) as [z|b]; [|done]. destruct H2 as [Hz Hmz].
    pose proof (IH z Hz ltac:(lia)) as H3. destruct (iter_until f n z) as [u|b]; [|done]. destruct H3. split; [done|lia].
  - pose proof (Hf x Hx) as H1. destruct (f x) as [y|b]; [|done]. destruct H1. split; [done|lia].
Qed.

Lemma iter_until_result {A B} (f : A -> A + B) (P : A -> Prop) (Q : B -> Prop) (m : A -> Z) n x :
  (forall x, P x -> match f x with inl y => P y /\ 0 <= m y < m x | inr b => Q b end) ->
  P x -> 0 <= m x < Zpos n -> exists b, iter_until f n x = inr b /\ Q b.
Proof.
  intros Hf Hx Hm. pose proof (iter_until_ends f P Q m Hf n x Hx ltac:(lia)) as H.
  destruct (iter_until f n x) as [y|b]; [lia|eauto].
Qed.

(** ** Primes *)

(** The loop of [is_prime], on [divisor] and [square]; [size_t] wraps around. *)
Definition prime_turn (candidate : Z) (x : Z * Z) : (Z * Z) + Z :=
  let '(divisor, square) := x in
  if (square <? candidate) && negb (candidate mod divisor =? 0) then
    inl (wrap_u64 (wrap_u64 (divisor + 1) + 1), wrap_u64 (square + wrap_u64 (4 * wrap_u64 (divisor + 1))))
  else inr divisor.

Definition loop_bound : positive := (2 ^ 64)%positive.

Definition is_prime (candidate : Z) : res bool :=
  match iter_until (prime_turn candidate) loop_bound (3, 9) with
  | inr divisor => Ok (negb (candidate mod divisor =? 0))
  | inl _ => Crash OutOfFuel
  end.

(** The loop of [next_prime]. *)
Definition next_turn (candidate : Z) : Z + res Z :=
  if candidate =? SIZE_MAX then inr (Ok candidate)
  else
    match is_prime candidate with
    | Ok true => inr (Ok candidate)
    | Ok false => inl (candidate + 2)
    | Crash w => inr (Crash w)
    end.

Definition next_prime (candidate : Z) : res Z :=
  let candidate := if candidate <? 10 then 10 else candidate in
  let candidate := Z.lor candidate 1 in
  match iter_until next_turn loop_bound candidate with
  | inr r => r
  | inl _ => Crash OutOfFuel
  end.

(** ** Single precision *)

(** [float] is the binary32 format, with every operation rounded to it. *)
Abbreviation float32 := spec_float.
Definition f_mul : float32 -> float32 -> float32 := SFmul 24 128.
Definition f_div : float32 -> float32 -> float32 := SFdiv 24 128.
Definition f_add : float32 -> float32 -> float32 := SFadd 24 128.
Definition f_sub : float32 -> float32 -> float32 := SFsub 24 128.
(** A [size_t] converted to [float], to the nearest. *)
Definition f_of_size (z : Z) : float32 := binary_normalize 24 128 z 0 false.
(** The [float] nearest to a quotient, as the compiler reads a constant. *)
Definition f_const (num den : Z) : float32 := f_div (f_of_size num) (f_of_size den).
(** A [float] converted to [size_t], towards zero; undefined out of the range. *)
Definition f_to_size (f : float32) : res Z :=
  match f with
  | S754_zero _ => Ok 0
  | S754_finite s m e =>
      let z := if 0 <=? e then Z.pos m * 2 ^ e else Z.pos m / 2 ^ (- e) in
      let z := if s then - z else z in
      if (0 <=? z) && (z <=? SIZE_MAX) then Ok z else Crash OutOfBounds
  | _ => Crash OutOfBounds
  end.

Record Hash_tuning := HashTuning {
  shrink_threshold : float32;
  shrink_factor : float32;
  growth_threshold : float32;
  growth_factor : float32;
  is_n_buckets : bool
}.

Definition default_tuning : Hash_tuning := HashTuning (f_of_size 0) (f_of_size 1) (f_const 8 10) (f_const 1414 1000) false.

(** [table->tuning]: [None] is the address of [default_tuning]. *)
Definition tuning_of (t : option Hash_tuning) : Hash_tuning := default default_tuning t.

(** [hash_reset_tuning]: what is stored. *)
Definition hash_reset_tuning : Hash_tuning := default_tuning.

(** [check_tuning]: the result and the field of the table. *)
Definition check_tuning (t : option Hash_tuning) : bool * option Hash_tuning :=
  match t with
  | None => (true, None)
  | Some u =>
      let epsilon := f_const 1 10 in
      let one := f_of_size 1 in
      if SFltb epsilon (growth_threshold u) && SFltb (growth_threshold u) (f_sub one epsilon)
         && SFltb (f_add one epsilon) (growth_factor u) && SFleb (f_of_size 0) (shrink_threshold u)
         && SFltb (f_add (shrink_threshold u) epsilon) (shrink_factor u) && SFleb (shrink_factor u) one
         && SFltb (f_add (shrink_threshold u) epsilon) (growth_threshold u)
      then (true, t) else (false, None)
  end.

(** [xalloc_oversized (n, s)] of lib/xalloc-oversized.h, for pointers of 8 bytes. *)
Definition xalloc_oversized (n s : Z) : bool := SIZE_MAX / s <? n.

(** [compute_bucket_size]: 0 when there is no such size. *)
Definition compute_bucket_size (candidate : Z) (u : Hash_tuning) : res Z :=
  let new_candidate := f_div (f_of_size candidate) (growth_threshold u) in
  if negb (is_n_buckets u) && SFleb (f_of_size SIZE_MAX) new_candidate then Ok 0
  else
    let* c := if is_n_buckets u then Ok candidate else f_to_size new_candidate in
    let* c := next_prime c in
    Ok (if xalloc_oversized c 8 then 0 else c).

Example default_tuning_bits :
  growth_threshold default_tuning = S754_finite false 13421773 (-24) /\
  growth_factor default_tuning = S754_finite false 11861492 (-23).
Proof. vm_compute. split; reflexivity. Qed.

Example bucket_sizes : map (fun n => compute_bucket_size n default_tuning) [3; 7; 100] = [Ok 11; Ok 11; Ok 127].
Proof. vm_compute. reflexivity. Qed.

(** ** The loops end *)

Lemma lor_1 c : 0 <= c -> Z.lor c 1 = c + 1 - c mod 2.
Proof.
  intros Hc. pose proof (Z.add_lor_land c 1) as H.
  assert (Z.land c 1 = c mod 2) by (change 1 with (Z.ones 1); by rewrite Z.land_ones). lia.
Qed.

Lemma is_prime_total c : 3 <= c <= SIZE_MAX -> c mod 2 = 1 -> exists b, is_prime c = Ok b.
Proof.
  intros Hc Hodd. unfold is_prime.
  destruct (iter_until_result (prime_turn c) (fun x => 3 <= x.1 <= c /\ x.1 mod 2 = 1) (fun _ => True) (fun x => c - x.1) loop_bound (3, 9))
    as (d & -> & _); [|split; [simpl; lia|done]|unfold loop_bound, SIZE_MAX in *; simpl; lia|eauto].
  intros [d sq] [Hd Hdo]. simpl in *. destruct (sq <? c); simpl; [|done]. destruct (Z.eqb_spec (c mod d) 0) as [|Hm]; simpl; [done|].
  assert (d <> c) by (intros ->; rewrite Z.mod_same in Hm; lia).
  assert (d + 2 <= c) by (pose proof (Z.div_mod c 2); pose proof (Z.div_mod d 2); lia).
  assert (wrap_u64 (wrap_u64 (d + 1) + 1) = d + 2) as ->.
  { unfold SIZE_MAX in *. unfold wrap_u64. rewrite (Z.mod_small (d + 1)) by lia. rewrite Z.mod_small by lia. lia. }
  replace (d + 2) with (d + 1 * 2) at 3 by lia. rewrite Z_mod_plus_full. lia.
Qed.

(** The largest candidate for which [square] does not wrap around. *)
Definition prime_max : Z := (2 ^ 32 - 1) * (2 ^ 32 - 1).

Definition no_divisor (c d : Z) : Prop := forall x, 1 < x < d -> ~ (x | c).

Lemma no_divisor_prime c d : 1 < c -> c <= d * d -> 1 < d -> no_divisor c d -> ~ (d | c) -> prime c.
Proof.
  intros Hc Hsq Hd Hno Hnd. apply prime_alt. split; [done|]. intros n Hn [k Hk].
  assert (1 < k < c) by nia. destruct (Z.le_gt_cases n k).
  - destruct (Z.eq_dec n d) as [-> |]; [apply Hnd; by exists k|]. apply (Hno n); [nia|]. by exists k.
  - destruct (Z.eq_dec k d) as [-> |]; [apply Hnd; exists n; lia|]. apply (Hno k); [nia|]. exists n. lia.
Qed.

(** [is_prime] decides primality of the odd numbers it is called for. *)
Lemma is_prime_exact c : 11 <= c <= prime_max -> c mod 2 = 1 -> exists b, is_prime c = Ok b /\ (b = true <-> prime c).
Proof.
  intros Hc Hodd. unfold is_prime.
  set (P := fun x : Z * Z => 3 <= x.1 < c /\ x.1 mod 2 = 1 /\ x.2 = x.1 * x.1 /\ no_divisor c x.1).
  set (Q := fun d => 3 <= d < c /\ ((d | c) \/ (~ (d | c) /\ c <= d * d /\ no_divisor c d))).
  destruct (iter_until_result (prime_turn c) P Q (fun x => c - x.1) loop_bound (3, 9)) as (d & -> & [Hd HQ]).
  - intros [d sq] (Hd & Hdo & Hsq & Hno). simpl in *. subst sq. destruct (Z.eqb_spec (c mod d) 0) as [Hm|Hm].
    { rewrite andb_false_r. split; [done|]. left. by apply Z.mod_divide; [lia|]. }
    assert (Hnd : ~ (d | c)) by (intros Hdv; apply Hm; by apply Z.mod_divide; [lia|]).
    destruct (Z.ltb_spec (d * d) c); simpl; [|split; [done|]; right; done].
    assert (d + 2 < c) by nia.
    assert (d < 2 ^ 32 - 1) by (unfold prime_max in Hc; nia).
    assert (wrap_u64 (wrap_u64 (d + 1) + 1) = d + 2) as ->.
    { unfold wrap_u64. rewrite (Z.mod_small (d + 1)) by lia. rewrite Z.mod_small by lia. lia. }
    split; [|lia]. unfold P. simpl. split; [lia|]. split; [replace (d + 2) with (d + 1 * 2) by lia; by rewrite Z_mod_plus_full|]. split.
    + unfold wrap_u64. rewrite (Z.mod_small (d + 1)) by lia. rewrite (Z.mod_small (4 * (d + 1))) by lia.
      assert ((d + 2) * (d + 2) <= prime_max); [|rewrite Z.mod_small; [lia|]; unfold prime_max in *; lia].
      assert (d + 2 <= 2 ^ 32 - 1) by (pose proof (Z.div_mod d 2); lia). unfold prime_max. nia.
    + intros x Hx [k Hk]. destruct (Z.lt_trichotomy x d) as [Hlt|[-> |Hgt]]; [apply (Hno x); [lia|by exists k]|apply Hnd; by exists k|].
      assert (x = d + 1) by lia. subst x. assert (Heven : c mod 2 = 0); [|lia].
      rewrite Hk, Z.mul_mod, (Z.add_mod d 1), Hdo by lia. change ((1 + 1 mod 2) mod 2) with 0. by rewrite Z.mul_0_r.
  - unfold P. simpl. split; [lia|]. split; [done|]. split; [done|]. intros x Hx [k Hk]. assert (x = 2) by lia. subst x.
    rewrite Hk, Z.mod_mul in Hodd; lia.
  - unfold loop_bound, prime_max in *. simpl. lia.
  - eexists. split; [done|]. destruct HQ as [Hdv|(Hnd & Hsq & Hno)].
    + rewrite (proj2 (Z.mod_divide c d ltac:(lia)) Hdv). split; [done|]. intros Hp. destruct (prime_divisors c Hp d Hdv) as [?|[?|[?|?]]]; lia.
    + rewrite (proj2 (Z.eqb_neq (c mod d) 0)) by (intros H; apply Hnd; by apply Z.mod_divide; [lia|]).
      split; [|done]. intros _. apply (no_divisor_prime c d); try done; lia.
Qed.

Lemma even_not_prime p : 2 < p -> p mod 2 = 0 -> ~ prime p.
Proof.
  intros Hp He Hpr. destruct (prime_divisors p Hpr 2) as [?|[?|[?|?]]]; try lia. apply Z.mod_divide; lia.
Qed.

(** The numbers the loop of [next_prime] has passed over are not prime. *)
Definition passed_over (s c : Z) : Prop := forall p, s <= p < c -> p <= prime_max -> ~ prime p.

Lemma next_turn_spec s c :
  11 <= s -> s <= c <= SIZE_MAX -> c mod 2 = 1 -> passed_over s c ->
  match next_turn c with
  | inl d => s <= d <= SIZE_MAX /\ d mod 2 = 1 /\ passed_over s d /\ 0 <= SIZE_MAX - d < SIZE_MAX - c
  | inr r => r = Ok c /\ (c <= prime_max -> prime c)
  end.
Proof.
  intros Hs Hc Hodd Hno. unfold next_turn. destruct (Z.eqb_spec c SIZE_MAX) as [He|He].
  { split; [done|]. subst c. intros H. exfalso. revert H. unfold SIZE_MAX, prime_max. lia. }
  destruct (is_prime_total c ltac:(lia) Hodd) as [b Hb]. rewrite Hb.
  assert (Hex : c <= prime_max -> (b = true <-> prime c)).
  { intros Hm. destruct (is_prime_exact c ltac:(lia) Hodd) as (b' & Hb' & H). congruence. }
  destruct b; [split; [done|]; intros Hm; by apply Hex|].
  assert (Hm2 : (c + 2) mod 2 = 1) by (replace (c + 2) with (c + 1 * 2) by lia; by rewrite Z_mod_plus_full).
  assert (c + 2 <= SIZE_MAX) by (unfold SIZE_MAX in *; pose proof (Z.div_mod c 2); lia).
  split; [lia|]. split; [done|]. split; [|lia]. intros p Hp Hpm Hpr.
  destruct (decide (p < c)); [apply (Hno p); [lia|done|done]|]. destruct (decide (p = c)) as [-> |].
  - by apply (Hex Hpm) in Hpr.
  - revert Hpr. apply even_not_prime; [lia|]. replace p with (c + 1) by lia. by rewrite Z.add_mod, Hodd by lia.
Qed.

Lemma next_prime_spec n :
  0 <= n <= SIZE_MAX ->
  exists r, next_prime n = Ok r /\ n `max` 11 <= r <= SIZE_MAX /\ r mod 2 = 1 /\
    passed_over (n `max` 11) r /\ (r <= prime_max -> prime r).
Proof.
  intros Hn. unfold next_prime. set (a := if n <? 10 then 10 else n).
  assert (Ha : 10 <= a <= SIZE_MAX /\ n `max` 11 <= a + 1 /\ a <= n `max` 10) by (subst a; unfold SIZE_MAX in *; destruct (Z.ltb_spec n 10); lia).
  assert (Hb : Z.lor a 1 = a + 1 - a mod 2) by (apply lor_1; lia).
  set (b := Z.lor a 1) in *. pose proof (Z.mod_pos_bound a 2 ltac:(lia)) as Hmod.
  assert (Hbo : b mod 2 = 1).
  { rewrite Hb. replace (a + 1 - a mod 2) with (1 + (a / 2) * 2) by (pose proof (Z.div_mod a 2); lia). by rewrite Z_mod_plus_full. }
  assert (Hbm : b <= SIZE_MAX).
  { unfold SIZE_MAX in *. pose proof (Z.div_mod a 2). lia. }
  set (s := n `max` 11).
  assert (Hs : s <= b) by (subst s; destruct (decide (a mod 2 = 0)); [lia|]; assert (a <> 10) by (intros E; rewrite E in *; done); subst a; destruct (Z.ltb_spec n 10); lia).
  destruct (iter_until_result next_turn (fun c => s <= c <= SIZE_MAX /\ c mod 2 = 1 /\ passed_over s c)
    (fun r => exists c, r = Ok c /\ s <= c <= SIZE_MAX /\ c mod 2 = 1 /\ passed_over s c /\ (c <= prime_max -> prime c))
    (fun c => SIZE_MAX - c) loop_bound b) as (r & -> & Hr).
  - intros c (Hc & Hodd & Hno). pose proof (next_turn_spec s c ltac:(lia) Hc Hodd Hno) as H.
    destruct (next_turn c) as [d|r]; [naive_solver|]. destruct H as [-> H]. eauto 10.
  - split; [lia|]. split; [done|]. intros p Hp _ Hpr. revert Hpr. apply even_not_prime; [lia|].
    assert (p = a /\ a mod 2 = 0) as [-> ->]; [|done].
    destruct (decide (a mod 2 = 0)); [|exfalso; subst s a; destruct (Z.ltb_spec n 10); lia].
    subst s a. destruct (Z.ltb_spec n 10); lia.
  - unfold loop_bound, SIZE_MAX in *. lia.
  - destruct Hr as (c & -> & ?). eauto.
Qed.

(** ** Rounding keeps the sign and the width of the mantissa *)

(** What the operations give for operands that are not negative. *)
Definition f_pos (f : float32) : Prop :=
  match f with
  | S754_zero s | S754_infinity s => s = false
  | S754_finite s m _ => s = false /\ Z.pos m < 2 ^ 24
  | S754_nan => False
  end.

Lemma digits2_bound m : Z.pos m < 2 ^ Z.pos (digits2_pos m).
Proof. induction m as [m IH|m IH|]; cbn [digits2_pos]; rewrite ?Pos2Z.inj_succ, ?Z.pow_succ_r by lia; lia. Qed.

Lemma shr_1_m r : 0 <= shr_m r -> shr_m (shr_1 r) = shr_m r / 2.
Proof. destruct r as [[|[p|p|]|p] ? ?]; simpl; intros; rewrite <- ?Z.div2_div; try done; lia. Qed.

Lemma iter_shr_1_m n r : 0 <= shr_m r -> shr_m (iter_pos shr_1 n r) = shr_m r / 2 ^ Z.pos n.
Proof.
  assert (Hpos : forall (a : Z) k, 0 <= a -> 0 <= a / 2 ^ Z.pos k) by (intros; apply Z.div_pos; lia).
  revert r. induction n as [n IH|n IH|]; intros r Hr; cbn [iter_pos].
  - pose proof (shr_1_m r Hr) as H1. assert (0 <= shr_m (shr_1 r)) by (rewrite H1; apply Z.div_pos; lia).
    rewrite IH by (rewrite IH by done; by apply Hpos). rewrite IH by done. rewrite H1, !Z.div_div by lia.
    f_equal. rewrite (Pos2Z.inj_xI n), Z.pow_add_r, Z.mul_comm, Z.pow_mul_r by lia. change (2 ^ 1) with 2.
    replace (2 * Z.pos n) with (Z.pos n + Z.pos n) by lia. rewrite <- Z.pow_mul_r by lia. replace (2 * Z.pos n) with (Z.pos n + Z.pos n) by lia.
    rewrite Z.pow_add_r by lia. lia.
  - rewrite IH by (rewrite IH by done; by apply Hpos). rewrite IH by done. rewrite Z.div_div by lia.
    f_equal. rewrite (Pos2Z.inj_xO n). replace (2 * Z.pos n) with (Z.pos n + Z.pos n) by lia. by rewrite Z.pow_add_r by lia.
  - by apply shr_1_m.
Qed.

Lemma shr_fexp_m m e l : 0 <= m -> 0 <= shr_m (shr_fexp 24 128 m e l).1 < 2 ^ 24.
Proof.
  intros Hm. unfold shr_fexp. set (n := fexp 24 128 (Zdigits2 m + e) - e).
  assert (Hr : shr_m (shr_record_of_loc m l) = m) by (by destruct l as [|[]]).
  assert (Hn : Zdigits2 m - 24 <= n) by (subst n; unfold fexp; lia).
  assert (Hd : m < 2 ^ Z.max (Zdigits2 m) 0) by (destruct m as [|m|m]; [done|apply digits2_bound|lia]).
  destruct n as [|n|n]; simpl; rewrite ?iter_shr_1_m, Hr by lia.
  1,3: split; [done|]; eapply Z.lt_le_trans; [done|]; apply Z.pow_le_mono_r; lia.
  split; [apply Z.div_pos; lia|]. apply Z.div_lt_upper_bound; [lia|]. rewrite <- Z.pow_add_r by lia.
  eapply Z.lt_le_trans; [done|]. apply Z.pow_le_mono_r; lia.
Qed.

Lemma binary_round_aux_pos m e l : 0 <= m -> f_pos (binary_round_aux 24 128 false m e l).
Proof.
  intros Hm. unfold binary_round_aux. pose proof (shr_fexp_m m e l Hm) as H1. destruct (shr_fexp 24 128 m e l) as [r1 e1]. simpl in H1.
  set (m1 := round_nearest_even (shr_m r1) (loc_of_shr_record r1)).
  assert (Hm1 : 0 <= m1) by (subst m1; unfold round_nearest_even; repeat case_match; lia).
  pose proof (shr_fexp_m m1 e1 loc_Exact Hm1) as H2. destruct (shr_fexp 24 128 m1 e1 loc_Exact) as [r2 e2]. simpl in H2.
  destruct (shr_m r2) as [|p|p]; [done| |lia]. destruct (e2 <=? 128 - 24); [split; [done|lia]|done].
Qed.

Lemma f_of_size_pos z : 0 <= z -> f_pos (f_of_size z).
Proof.
  intros Hz. unfold f_of_size, binary_normalize. destruct z as [|z|z]; [done| |lia].
  unfold binary_round. destruct (shl_align _ _ _) as [m e]. by apply binary_round_aux_pos.
Qed.

Lemma f_mul_pos x m e : f_pos x -> f_pos (f_mul x (S754_finite false m e)).
Proof. destruct x as [s|s| |s mx ex]; simpl; try done. - by intros ->. - by intros ->. - intros [-> _]. by apply binary_round_aux_pos. Qed.

Lemma f_div_pos x m e : f_pos x -> f_pos (f_div x (S754_finite false m e)).
Proof.
  destruct x as [s|s| |s mx ex]; simpl; try done. - by intros ->. - by intros ->.
  - intros [-> _]. unfold f_div, SFdiv. destruct (SFdiv_core_binary 24 128 (Z.pos mx) ex (Z.pos m) e) as [[q e'] l] eqn:E.
    apply binary_round_aux_pos. unfold SFdiv_core_binary in E.
    match type of E with context [Z.div_eucl ?a ?b] => assert (Ha : 0 <= a); [|pose proof (Z.div_mod a b) as Hdm; pose proof (Z.div_pos a b Ha) as Hq; unfold Z.div in Hq; destruct (Z.div_eucl a b) as [q0 r0]] end.
    + destruct (_ - _); [lia| |lia]. rewrite Z.shiftl_mul_pow2 by lia. lia.
    + injection E as -> _ _. lia.
Qed.

(** A [float] below [SIZE_MAX] is a [size_t]. *)
Lemma f_to_size_ok x : f_pos x -> SFleb (f_of_size SIZE_MAX) x = false -> exists z, f_to_size x = Ok z /\ 0 <= z <= SIZE_MAX.
Proof.
  assert (f_of_size SIZE_MAX = S754_finite false (2 ^ 23) 41) as -> by (by vm_compute).
  destruct x as [s|s| |s m e]; simpl; [intros _ _; exists 0; done|by intros ->|done|].
  intros [-> Hm] Hle.
  assert (He : e < 41 \/ e = 41 /\ Z.pos m < 2 ^ 23).
  { unfold SFleb, SFcompare in Hle. destruct (Z.compare_spec 41 e) as [<- |?|?]; [right|done|by left].
    split; [done|]. change (Pos.compare_cont Eq (2 ^ 23) m) with ((2 ^ 23) ?= m)%positive in Hle.
    destruct (Pos.compare_spec (2 ^ 23) m); done. }
  set (z := if 0 <=? e then _ else _). assert (Hz : 0 <= z <= SIZE_MAX).
  { subst z. unfold SIZE_MAX. destruct (Z.leb_spec 0 e).
    - split; [lia|]. destruct He as [He|[-> He]]; [|lia].
      assert (2 ^ e <= 2 ^ 40) by (apply Z.pow_le_mono_r; lia). nia.
    - split; [apply Z.div_pos; lia|]. assert (Z.pos m / 2 ^ (- e) <= Z.pos m) by (apply Z.div_le_upper_bound; nia). lia. }
  exists z. rewrite (proj2 (Z.leb_le 0 z)), (proj2 (Z.leb_le z SIZE_MAX)) by lia. done.
Qed.

Lemma compute_bucket_size_spec c : 0 <= c -> exists n, compute_bucket_size c default_tuning = Ok n /\ (n = 0 \/ 11 <= n).
Proof.
  intros Hc. unfold compute_bucket_size. rewrite (proj1 default_tuning_bits). simpl negb. rewrite andb_true_l.
  set (x := f_div _ _). assert (Hx : f_pos x) by (apply f_div_pos, f_of_size_pos, Hc).
  destruct (SFleb (f_of_size SIZE_MAX) x) eqn:E; [eauto|]. simpl is_n_buckets. cbv iota.
  destruct (f_to_size_ok x Hx E) as (z & -> & Hz). simpl. destruct (next_prime_spec z Hz) as (r & -> & Hr & _). simpl.
  destruct (xalloc_oversized r 8); eexists; (split; [done|]); lia.
Qed.
