(* ===== verification/Hash.v ===== *)
(** Hash tables (lib/hash.c): the chained table in which the services, the
    configurations, the processes, the devices and the inherited listeners are
    kept.  Every function is modelled; [malloc] and [calloc] may fail. *)
From S2P Require Import Prelude HashSize.
From stdpp Require Import base list numbers.
From Stdlib Require Import ZArith Lia SpecFloat.

#[local] Open Scope Z_scope.

(** The functions a table is created with: [D] stands for the pointers to the
    user's data, of which the hasher and the comparator read the fields. *)
Class HashFns (D : Type) := {
  hasher : D -> Z -> Z;
  comparator : D -> D -> bool
}.

(** [struct hash_table].  A bucket is the list of the data of its head and of
    its overflow entries: [[]] has [data == NULL] in the head.  [n_buckets] and
    [bucket_limit] are the length of [bucket].  The entries of the free list have
    no data: only their number matters. *)
Record Hash_table (D : Type) := HashTable {
  bucket : list (list D);
  n_buckets_used : Z;
  n_entries : Z;
  tuning : option Hash_tuning;
  data_freer : bool;
  free_entry_list : nat
}.
Arguments HashTable {D}.
Arguments bucket {D}.
Arguments n_buckets_used {D}.
Arguments n_entries {D}.
Arguments tuning {D}.
Arguments data_freer {D}.
Arguments free_entry_list {D}.

(** The answers of the next allocations; those after them succeed. *)
Abbreviation mem := (list bool).
Definition malloc (m : mem) : bool * mem := match m with [] => (true, []) | b :: m => (b, m) end.

Section ops.
Context {D : Type} `{!EqDecision D} `{!HashFns D}.

Abbreviation table := (Hash_table D).

Definition set_bucket (t : table) (i : nat) (b : list D) : table :=
  HashTable (<[i := b]> (bucket t)) (n_buckets_used t) (n_entries t) (tuning t) (data_freer t) (free_entry_list t).
Definition set_used (t : table) (n : Z) : table :=
  HashTable (bucket t) n (n_entries t) (tuning t) (data_freer t) (free_entry_list t).
Definition set_entries (t : table) (n : Z) : table :=
  HashTable (bucket t) (n_buckets_used t) n (tuning t) (data_freer t) (free_entry_list t).
Definition set_tuning (t : table) (u : option Hash_tuning) : table :=
  HashTable (bucket t) (n_buckets_used t) (n_entries t) u (data_freer t) (free_entry_list t).
Definition set_free (t : table) (n : nat) : table :=
  HashTable (bucket t) (n_buckets_used t) (n_entries t) (tuning t) (data_freer t) n.

(** ** Information and lookup *)

Definition hash_get_n_buckets (t : table) : Z := zlen (bucket t).
Definition hash_get_n_buckets_used (t : table) : Z := n_buckets_used t.
Definition hash_get_n_entries (t : table) : Z := n_entries t.

Definition hash_get_max_bucket_length (t : table) : Z :=
  foldl (fun mx b => match b with [] => mx | _ :: over => if mx <? 1 + zlen over then 1 + zlen over else mx end) 0 (bucket t).

Definition hash_table_ok (t : table) : bool :=
  let '(used, n) :=
    foldl (fun '(used, n) b => match b with [] => (used, n) | _ :: over => (used + 1, n + 1 + zlen over) end) (0, 0) (bucket t) in
  (used =? n_buckets_used t) && (n =? n_entries t).

(** The index of the bucket; [abort] when the hasher misbehaves. *)
Definition safe_hasher (t : table) (key : D) : res nat :=
  let n := hasher key (hash_get_n_buckets t) in
  if (0 <=? n) && (n <? hash_get_n_buckets t) then Ok (Z.to_nat n) else Crash AssertFailed.

Definition bucket_at (t : table) (i : nat) : list D := default [] (bucket t !! i).

(** [entry == data || comparator (entry, data)] *)
Definition same (entry data : D) : bool := bool_decide (entry = data) || comparator entry data.

(** The loop over the entries of a bucket in [hash_lookup]. *)
Fixpoint chain_find (entry : D) (b : list D) : option D :=
  match b with
  | [] => None
  | d :: b => if same entry d then Some d else chain_find entry b
  end.

Definition hash_lookup (t : table) (entry : D) : res (option D) :=
  let* i := safe_hasher t entry in
  Ok (chain_find entry (bucket_at t i)).

(** ** Walking *)

(** The head of the first bucket in use. *)
Fixpoint first_head (bs : list (list D)) : option D :=
  match bs with
  | [] => None
  | [] :: bs => first_head bs
  | (d :: _) :: _ => Some d
  end.

Definition hash_get_first (t : table) : res (option D) :=
  if n_entries t =? 0 then Ok None
  else match first_head (bucket t) with Some d => Ok (Some d) | None => Crash AssertFailed end.

(** The entry behind [entry] in the same bucket, by pointer. *)
Fixpoint chain_next (entry : D) (b : list D) : option D :=
  match b with
  | d :: ((d' :: _) as b) => if bool_decide (d = entry) then Some d' else chain_next entry b
  | _ => None
  end.

Definition hash_get_next (t : table) (entry : D) : res (option D) :=
  let* i := safe_hasher t entry in
  Ok match chain_next entry (bucket_at t i) with
     | Some d => Some d
     | None => first_head (drop (S i) (bucket t))
     end.

(** The two loops of [hash_get_entries]: the buffer is returned with whether it
    was full. *)
Fixpoint chain_entries (b : list D) (buffer_size : nat) : list D * bool * nat :=
  match b with
  | [] => ([], false, buffer_size)
  | d :: b =>
      match buffer_size with
      | O => ([], true, O)
      | S n => let '(l, full, n) := chain_entries b n in (d :: l, full, n)
      end
  end.

Fixpoint get_entries (bs : list (list D)) (buffer_size : nat) : list D :=
  match bs with
  | [] => []
  | b :: bs => let '(l, full, n) := chain_entries b buffer_size in if full then l else l ++ get_entries bs n
  end.

Definition hash_get_entries (t : table) (buffer_size : nat) : list D * Z :=
  let l := get_entries (bucket t) buffer_size in (l, zlen l).

Section processor.
Context {S : Type} (processor : D -> S -> bool * S).

(** The two loops of [hash_do_for_each]; the flag says that the processor has
    interrupted the walk. *)
Fixpoint chain_for_each (b : list D) (counter : Z) (s : S) : bool * Z * S :=
  match b with
  | [] => (false, counter, s)
  | d :: b => let '(go, s) := processor d s in if go then chain_for_each b (counter + 1) s else (true, counter, s)
  end.

Fixpoint for_each (bs : list (list D)) (counter : Z) (s : S) : Z * S :=
  match bs with
  | [] => (counter, s)
  | b :: bs =>
      let '(stop, counter, s) := chain_for_each b counter s in
      if stop then (counter, s) else for_each bs counter s
  end.

Definition hash_do_for_each (t : table) (s : S) : Z * S := for_each (bucket t) 0 s.

End processor.

(** ** Allocation and clean-up *)

Definition calloc_buckets (n : Z) : list (list D) := replicate (Z.to_nat n) [].

Definition hash_initialize (candidate : Z) (u : option Hash_tuning) (freer : bool) (m : mem) : res (option table * mem) :=
  let '(ok, m) := malloc m in
  if negb ok then Ok (None, m)
  else
    let '(valid, u) := check_tuning u in
    if negb valid then Ok (None, m)
    else
      let* n := compute_bucket_size candidate (tuning_of u) in
      if n =? 0 then Ok (None, m)
      else
        let '(ok, m) := malloc m in
        if negb ok then Ok (None, m) else Ok (Some (HashTable (calloc_buckets n) 0 0 u freer 0), m).

(** The data given to [data_freer], in its order, and the table. *)
Fixpoint clear_buckets (freer : bool) (bs : list (list D)) (free : nat) : list D * list (list D) * nat :=
  match bs with
  | [] => ([], [], free)
  | b :: bs =>
      let '(l, bs, free) := clear_buckets freer bs (free + pred (length b)) in
      match b with
      | [] => (l, [] :: bs, free)
      | h :: over => ((if freer then over ++ h :: l else l), [] :: bs, free)
      end
  end.

Definition hash_clear (t : table) : list D * table :=
  let '(l, bs, free) := clear_buckets (data_freer t) (bucket t) (free_entry_list t) in
  (l, HashTable bs 0 0 (tuning t) (data_freer t) free).

(** The data given to [data_freer], and the number of entries freed. *)
Definition hash_free (t : table) : list D * nat :=
  (if data_freer t && negb (n_entries t =? 0) then mjoin (bucket t) else [],
   (sum_list_with (fun b => pred (length b)) (bucket t) + free_entry_list t)%nat).

(** ** Insertion and deletion *)

Definition allocate_entry (t : table) (m : mem) : bool * table * mem :=
  match free_entry_list t with
  | S n => (true, set_free t n, m)
  | O => let '(ok, m) := malloc m in (ok, t, m)
  end.

Definition free_entry (t : table) : table := set_free t (S (free_entry_list t)).

(** The scan of the overflow: the entry found, and the chain without it. *)
Fixpoint chain_unlink (entry : D) (over : list D) : option (D * list D) :=
  match over with
  | [] => None
  | d :: over =>
      if same entry d then Some (d, over)
      else match chain_unlink entry over with Some (x, rest) => Some (x, d :: rest) | None => None end
  end.

(** The data found, [*bucket_head] and the table. *)
Definition hash_find_entry (t : table) (entry : D) (delete : bool) : res (option D * nat * table) :=
  let* i := safe_hasher t entry in
  match bucket_at t i with
  | [] => Ok (None, i, t)
  | h :: over =>
      if same entry h then
        Ok (Some h, i,
            if delete then
              match over with
              | next :: rest => free_entry (set_bucket t i (next :: rest))
              | [] => set_bucket t i []
              end
            else t)
      else
        match chain_unlink entry over with
        | Some (d, rest) => Ok (Some d, i, if delete then free_entry (set_bucket t i (h :: rest)) else t)
        | None => Ok (None, i, t)
        end
  end.

(** An overflow entry moved to [dst]: relinked behind the head of its bucket, or
    its data put into an empty head and the entry freed. *)
Definition move_overflow (dst : table) (data : D) : res table :=
  let* i := safe_hasher dst data in
  match bucket_at dst i with
  | h :: over => Ok (set_bucket dst i (h :: data :: over))
  | [] => Ok (free_entry (set_used (set_bucket dst i [data]) (n_buckets_used dst + 1)))
  end.

Fixpoint move_overflows (dst : table) (over : list D) : res table :=
  match over with
  | [] => Ok dst
  | data :: over => let* dst := move_overflow dst data in move_overflows dst over
  end.

(** A bucket head moved to [dst]; [false] when there is no entry for it. *)
Definition move_head (dst : table) (data : D) (m : mem) : res (bool * table * mem) :=
  let* i := safe_hasher dst data in
  match bucket_at dst i with
  | h :: over =>
      let '(ok, dst, m) := allocate_entry dst m in
      Ok (ok, if ok then set_bucket dst i (h :: data :: over) else dst, m)
  | [] => Ok (true, set_used (set_bucket dst i [data]) (n_buckets_used dst + 1), m)
  end.

(** The loop of [transfer_entries] over the buckets of the source, with its
    [n_buckets_used]. *)
Fixpoint transfer_buckets (dst : table) (bs : list (list D)) (used : Z) (safe : bool) (m : mem)
  : res (bool * table * (list (list D) * Z) * mem) :=
  match bs with
  | [] => Ok (true, dst, ([], used), m)
  | [] :: bs =>
      let* '(ok, dst, (bs, used), m) := transfer_buckets dst bs used safe m in
      Ok (ok, dst, ([] :: bs, used), m)
  | (h :: over) :: bs =>
      let* dst := move_overflows dst over in
      if safe then
        let* '(ok, dst, (bs, used), m) := transfer_buckets dst bs used safe m in
        Ok (ok, dst, ([h] :: bs, used), m)
      else
        let* '(ok, dst, m) := move_head dst h m in
        if ok then
          let* '(ok, dst, (bs, used), m) := transfer_buckets dst bs (used - 1) safe m in
          Ok (ok, dst, ([] :: bs, used), m)
        else Ok (false, dst, ([h] :: bs, used), m)
  end.

(** The result, the two tables, and the allocations left. *)
Definition transfer_entries (dst src : table) (safe : bool) (m : mem) : res (bool * table * table * mem) :=
  let* '(ok, dst, (bs, used), m) := transfer_buckets dst (bucket src) (n_buckets_used src) safe m in
  Ok (ok, dst, HashTable bs used (n_entries src) (tuning src) (data_freer src) (free_entry_list src), m).

Definition hash_rehash (t : table) (candidate : Z) (m : mem) : res (bool * table * mem) :=
  let* new_size := compute_bucket_size candidate (tuning_of (tuning t)) in
  if new_size =? 0 then Ok (false, t, m)
  else if new_size =? hash_get_n_buckets t then Ok (true, t, m)
  else
    let '(ok, m) := malloc m in
    if negb ok then Ok (false, t, m)
    else
      let new_table := HashTable (calloc_buckets new_size) 0 0 (tuning t) (data_freer t) (free_entry_list t) in
      let* '(ok, new_table, t, m) := transfer_entries new_table t false m in
      if ok then
        Ok (true, HashTable (bucket new_table) (n_buckets_used new_table) (n_entries t) (tuning t) (data_freer t)
                    (free_entry_list new_table), m)
      else
        let t := set_free t (free_entry_list new_table) in
        let* '(ok, t, new_table, m) := transfer_entries t new_table true m in
        if negb ok then Crash AssertFailed
        else
          let* '(ok, t, new_table, m) := transfer_entries t new_table false m in
          if negb ok then Crash AssertFailed else Ok (false, t, m).

(** [table->n_buckets_used > table->tuning->growth_threshold * table->n_buckets] *)
Definition over_threshold (t : table) : bool :=
  SFltb (f_mul (growth_threshold (tuning_of (tuning t))) (f_of_size (hash_get_n_buckets t))) (f_of_size (n_buckets_used t)).

(** ENTRY, which is not matched, put into its bucket. *)
Definition add_entry (t : table) (i : nat) (entry : D) (m : mem) : Z * table * mem :=
  match bucket_at t i with
  | h :: over =>
      let '(ok, t, m) := allocate_entry t m in
      if ok then (1, set_entries (set_bucket t i (h :: entry :: over)) (n_entries t + 1), m) else (-1, t, m)
  | [] => (1, set_used (set_entries (set_bucket t i [entry]) (n_entries t + 1)) (n_buckets_used t + 1), m)
  end.

(** The result, the matching entry, the table and the allocations left; [None]
    is a NULL entry. *)
Definition hash_insert_if_absent (t : table) (e : option D) (m : mem) : res (Z * option D * table * mem) :=
  match e with
  | None => Crash AssertFailed
  | Some entry =>
      let* '(data, i, t) := hash_find_entry t entry false in
      match data with
      | Some d => Ok (0, Some d, t, m)
      | None =>
          let add t i m := let '(r, t, m) := add_entry t i entry m in Ok (r, None, t, m) in
          if over_threshold t then
            let t := set_tuning t (check_tuning (tuning t)).2 in
            if over_threshold t then
              let u := tuning_of (tuning t) in
              let grown := f_mul (f_of_size (hash_get_n_buckets t)) (growth_factor u) in
              let candidate := if is_n_buckets u then grown else f_mul grown (growth_threshold u) in
              if SFleb (f_of_size SIZE_MAX) candidate then Ok (-1, None, t, m)
              else
                let* candidate := f_to_size candidate in
                let* '(ok, t, m) := hash_rehash t candidate m in
                if negb ok then Ok (-1, None, t, m)
                else
                  let* '(data, i, t) := hash_find_entry t entry false in
                  match data with Some _ => Crash AssertFailed | None => add t i m end
            else add t i m
          else add t i m
      end
  end.

(** [hash_insert0], the deprecated name. *)
Definition hash_insert0 (t : table) (e : option D) (m : mem) : res (Z * option D * table * mem) := hash_insert_if_absent t e m.

Definition hash_insert (t : table) (entry : D) (m : mem) : res (option D * table * mem) :=
  let* '(err, matched_ent, t, m) := hash_insert_if_absent t (Some entry) m in
  Ok (if err =? -1 then None else if err =? 0 then matched_ent else Some entry, t, m).

(** [table->n_buckets_used < table->tuning->shrink_threshold * table->n_buckets] *)
Definition under_threshold (t : table) : bool :=
  SFltb (f_of_size (n_buckets_used t)) (f_mul (shrink_threshold (tuning_of (tuning t))) (f_of_size (hash_get_n_buckets t))).

Definition hash_delete (t : table) (entry : D) (m : mem) : res (option D * table * mem) :=
  let* '(data, i, t) := hash_find_entry t entry true in
  match data with
  | None => Ok (None, t, m)
  | Some _ =>
      let t := set_entries t (n_entries t - 1) in
      match bucket_at t i with
      | _ :: _ => Ok (data, t, m)
      | [] =>
          let t := set_used t (n_buckets_used t - 1) in
          if under_threshold t then
            let t := set_tuning t (check_tuning (tuning t)).2 in
            if under_threshold t then
              let u := tuning_of (tuning t) in
              let shrunk := f_mul (f_of_size (hash_get_n_buckets t)) (shrink_factor u) in
              let* candidate := f_to_size (if is_n_buckets u then shrunk else f_mul shrunk (growth_threshold u)) in
              let* '(ok, t, m) := hash_rehash t candidate m in
              Ok (data, if ok then t else set_free t 0, m)
            else Ok (data, t, m)
          else Ok (data, t, m)
      end
  end.

End ops.

(** ** Hash functions of the library *)

(** [hash_string]; the characters are those in front of the NUL. *)
Definition hash_string (s : list Z) (n_buckets : Z) : Z :=
  foldl (fun value ch => wrap_u64 (wrap_u64 (value * 31) + ch mod 256) mod n_buckets) 0 s.

(** [raw_hasher] and [raw_comparator], on the value of the pointer. *)
Definition rotr_sz (x n : Z) : Z := Z.lor (Z.shiftr x n) (wrap_u64 (Z.shiftl x (64 - n))).
Definition raw_hasher (data n : Z) : Z := rotr_sz data 3 mod n.
Definition raw_comparator (a b : Z) : bool := a =? b.
