(* ===== verification/HashInv.v ===== *)
(** Invariant of the hash tables of lib/hash.c, and the moves of entries between
    tables: what a transfer keeps, and why the undo of a failed [hash_rehash]
    always has the entries it needs. *)
From S2P Require Import Prelude HashSize Hash.
From stdpp Require Import base list numbers gmap.
From Stdlib Require Import ZArith Lia SpecFloat.

#[local] Open Scope Z_scope.

(** What hash.c asks of a hasher: an index below the number of buckets. *)
Class HashRange (D : Type) `{!HashFns D} : Prop :=
  hasher_range : forall (d : D) n, 0 < n -> 0 <= hasher d n < n.

(** ** Chains *)
Section chains.
Context {D : Type}.
Implicit Types (bs : list (list D)) (b : list D).

(** The overflow entries of some buckets, and the buckets in use. *)
Definition overflow bs : nat := sum_list_with (fun b => pred (length b)) bs.
Definition in_use bs : nat := sum_list_with (fun b => match b with [] => 0%nat | _ => 1%nat end) bs.

Lemma in_use_overflow bs : (in_use bs + overflow bs = length (mjoin bs))%nat.
Proof. induction bs as [|b bs IH]; [done|]. unfold in_use, overflow in *. simpl. rewrite length_app. destruct b; simpl; lia. Qed.

Lemma sum_insert (f : list D -> nat) bs i b b' :
  bs !! i = Some b -> (sum_list_with f (<[i := b']> bs) + f b = sum_list_with f bs + f b')%nat.
Proof.
  revert i. induction bs as [|a bs IH]; intros [|i] Hi; simpl in *; [done|done| |].
  - injection Hi as ->. lia.
  - pose proof (IH i Hi). lia.
Qed.

Lemma join_insert bs i b b' d : bs !! i = Some b -> b' ≡ₚ d :: b -> mjoin (<[i := b']> bs) ≡ₚ d :: mjoin bs.
Proof.
  intros Hi Hp. revert i Hi. induction bs as [|a bs IH]; intros [|i] Hi; simpl in *; [done|done| |].
  - injection Hi as ->. by rewrite Hp.
  - rewrite (IH i Hi). by rewrite Permutation_middle.
Qed.

Lemma join_lookup bs d : d ∈ mjoin bs <-> exists i b, bs !! i = Some b /\ d ∈ b.
Proof.
  rewrite list_elem_of_join. split.
  - intros (b & Hd & Hb). apply list_elem_of_lookup in Hb as [i Hi]. eauto.
  - intros (i & b & Hi & Hd). exists b. split; [done|]. by eapply list_elem_of_lookup_2.
Qed.

Lemma calloc_facts n : overflow (@calloc_buckets D n) = 0%nat /\ in_use (@calloc_buckets D n) = 0%nat /\ mjoin (@calloc_buckets D n) = [].
Proof. unfold calloc_buckets, overflow, in_use. induction (Z.to_nat n) as [|k IH]; simpl; [done|]. naive_solver. Qed.

Lemma in_use_empty bs : mjoin bs = [] -> in_use bs = 0%nat /\ overflow bs = 0%nat.
Proof. intros H. pose proof (in_use_overflow bs) as Hs. rewrite H in Hs. simpl in Hs. lia. Qed.

(** The number of overflow entries that data need in a table where [g] gives the
    bucket: it grows with the data, in whatever order they come. *)
Definition needed (g : D -> nat) (l : list D) : nat := (length l - size (list_to_set (g <$> l) : gset nat))%nat.

Lemma slots_cons (g : D -> nat) d l :
  size (list_to_set (g <$> d :: l) : gset nat) =
  ((if decide (g d ∈ g <$> l) then 0 else 1) + size (list_to_set (g <$> l) : gset nat))%nat.
Proof.
  rewrite fmap_cons, list_to_set_cons. case_decide as Hd.
  - rewrite subseteq_union_1_L; [done|]. intros x ->%elem_of_singleton. by apply elem_of_list_to_set.
  - rewrite size_union, size_singleton; [done|]. intros x ->%elem_of_singleton Hx%elem_of_list_to_set. done.
Qed.

Lemma slots_le (g : D -> nat) l : (size (list_to_set (g <$> l) : gset nat) <= length l)%nat.
Proof. induction l as [|d l IH]; [done|]. rewrite slots_cons. cbn [length]. case_decide; lia. Qed.

Lemma needed_cons (g : D -> nat) d l : needed g (d :: l) = (needed g l + if decide (g d ∈ g <$> l) then 1 else 0)%nat.
Proof. unfold needed. rewrite slots_cons. cbn [length]. pose proof (slots_le g l). case_decide; lia. Qed.

#[export] Instance needed_perm (g : D -> nat) : Proper ((≡ₚ) ==> (=)) (needed g).
Proof. intros l l' Hp. unfold needed. rewrite (Permutation_length Hp). do 2 f_equal. apply list_to_set_perm_L. by rewrite Hp. Qed.

Lemma needed_app (g : D -> nat) k l : (needed g l <= needed g (k ++ l))%nat.
Proof. induction k as [|d k IH]; [done|]. simpl. rewrite needed_cons. lia. Qed.

(** In a table whose data are in their buckets, these are the entries in use. *)
Lemma slots_in_use (g : D -> nat) bs k :
  (forall i b d, bs !! i = Some b -> d ∈ b -> g d = (k + i)%nat) ->
  size (list_to_set (g <$> mjoin bs) : gset nat) = in_use bs.
Proof.
  revert k. induction bs as [|b bs IH]; intros k Hg; [done|].
  assert (IHb : size (list_to_set (g <$> mjoin bs) : gset nat) = in_use bs).
  { apply (IH (S k)). intros i b' d Hi Hd. rewrite (Hg (S i) b' d); [lia|done|done]. }
  assert (Hb : forall d, d ∈ b -> g d = k) by (intros d Hd; rewrite (Hg 0%nat b d); [lia|done|done]).
  assert (Hk : k ∉ g <$> mjoin bs).
  { intros (d & -> & (i & b' & Hi & Hd)%join_lookup)%list_elem_of_fmap. pose proof (Hg (S i) b' d Hi Hd). lia. }
  change (mjoin (b :: bs)) with (b ++ mjoin bs).
  change (in_use (b :: bs)) with (match b with [] => 0%nat | _ => 1%nat end + in_use bs)%nat.
  rewrite <- IHb. clear IHb IH Hg. induction b as [|d b IHb]; [done|]. cbn [app].
  rewrite slots_cons, IHb by (intros; apply Hb; by right). rewrite (Hb d) by left. rewrite fmap_app. case_decide as Hin.
  - apply elem_of_app in Hin as [Hin|Hin]; [|done]. destruct b; [by apply elem_of_nil in Hin|done].
  - destruct b as [|d' b]; [done|]. exfalso. apply Hin, elem_of_app. left. cbn [fmap list_fmap]. rewrite (Hb d') by (right; left). left.
Qed.
End chains.

(** ** The invariant *)
Section inv.
Context {D : Type} `{!EqDecision D} `{!HashFns D} `{!HashRange D}.
Implicit Types (t dst src : Hash_table D) (d : D) (bs : list (list D)).

Definition entries t : list D := mjoin (bucket t).

Definition placed bs : Prop := forall i b d, bs !! i = Some b -> d ∈ b -> hasher d (zlen bs) = Z.of_nat i.

(** What holds of both tables of a transfer. *)
Record chained t : Prop := Chained {
  chained_some : (0 < length (bucket t))%nat;
  chained_placed : placed (bucket t);
  chained_used : n_buckets_used t = Z.of_nat (in_use (bucket t))
}.

(** What holds between operations; the tables of cmogstored have the default
    tuning. *)
Record table_inv t : Prop := TableInv {
  inv_chained : chained t;
  inv_entries : n_entries t = zlen (entries t);
  inv_tuning : tuning t = None
}.

(** The bucket of [d] in a table of [n] buckets. *)
Definition slot (n : nat) (d : D) : nat := Z.to_nat (hasher d (Z.of_nat n)).

(** What a move leaves alone. *)
Definition same_frame t t' : Prop :=
  length (bucket t') = length (bucket t) /\ n_entries t' = n_entries t /\ tuning t' = tuning t /\ data_freer t' = data_freer t.

Lemma safe_hasher_slot t d : (0 < length (bucket t))%nat -> safe_hasher t d = Ok (slot (length (bucket t)) d).
Proof.
  intros Hn. unfold safe_hasher, slot, hash_get_n_buckets, zlen. pose proof (hasher_range d (Z.of_nat (length (bucket t))) ltac:(lia)).
  rewrite (proj2 (Z.leb_le _ _)), (proj2 (Z.ltb_lt _ _)) by lia. done.
Qed.

Lemma slot_lt n d : (0 < n)%nat -> (slot n d < n)%nat.
Proof. intros Hn. unfold slot. pose proof (hasher_range d (Z.of_nat n) ltac:(lia)). lia. Qed.

Lemma bucket_at_lookup t d : (0 < length (bucket t))%nat ->
  bucket t !! slot (length (bucket t)) d = Some (bucket_at t (slot (length (bucket t)) d)).
Proof.
  intros Hn. unfold bucket_at. destruct (lookup_lt_is_Some_2 (bucket t) (slot (length (bucket t)) d) (slot_lt _ _ Hn)) as [b ->]. done.
Qed.

Lemma placed_slot bs i b d : placed bs -> bs !! i = Some b -> d ∈ b -> slot (length bs) d = i.
Proof. intros Hp Hi Hd. unfold slot. pose proof (Hp i b d Hi Hd) as H. unfold zlen in H. lia. Qed.

Lemma placed_insert bs i b b' :
  placed bs -> bs !! i = Some b -> (forall d, d ∈ b' -> d ∈ b \/ hasher d (zlen bs) = Z.of_nat i) -> placed (<[i := b']> bs).
Proof.
  intros Hp Hi Hb j c d Hj Hd. unfold zlen in *. rewrite length_insert. destruct (decide (j = i)) as [-> |Hne].
  - rewrite list_lookup_insert_eq in Hj by (by eapply lookup_lt_Some). injection Hj as <-.
    destruct (Hb d Hd) as [Hd'|?]; [|done]. by eapply (Hp i b).
  - rewrite list_lookup_insert_ne in Hj by done. by eapply (Hp j c).
Qed.

Lemma overflow_needed t : chained t -> overflow (bucket t) = needed (slot (length (bucket t))) (entries t).
Proof.
  intros [_ Hp _]. unfold needed, entries.
  rewrite (slots_in_use (slot (length (bucket t))) (bucket t) 0) by (intros i b d Hi Hd; by eapply placed_slot).
  pose proof (in_use_overflow (bucket t)). lia.
Qed.

(** One datum put into its bucket, by whatever way. *)
Lemma put_chained t d b' u :
  chained t -> let i := slot (length (bucket t)) d in
  b' ≡ₚ d :: bucket_at t i ->
  n_buckets_used u = n_buckets_used t + match bucket_at t i with [] => 1 | _ => 0 end ->
  bucket u = <[i := b']> (bucket t) ->
  chained u /\ entries u ≡ₚ d :: entries t /\ length (bucket u) = length (bucket t) /\
  overflow (bucket u) = (overflow (bucket t) + match bucket_at t i with [] => 0 | _ => 1 end)%nat.
Proof.
  intros [Hn Hp Hu] i Hb Hused Hbk. pose proof (bucket_at_lookup t d Hn) as Hi. fold i in Hi.
  pose proof (Permutation_length Hb) as Hlen. simpl in Hlen.
  pose proof (sum_insert (fun b => pred (length b)) _ _ _ b' Hi) as Ho.
  pose proof (sum_insert (fun b => match b with [] => 0%nat | _ => 1%nat end) _ _ _ b' Hi) as Hc.
  split; [split|split; [|split]].
  - by rewrite Hbk, length_insert.
  - rewrite Hbk. eapply placed_insert; [done|done|]. intros x Hx. rewrite Hb in Hx. apply elem_of_cons in Hx as [-> |Hx]; [right|by left].
    subst i. unfold slot, zlen. pose proof (hasher_range d (Z.of_nat (length (bucket t))) ltac:(lia)). lia.
  - rewrite Hused, Hu, Hbk. unfold in_use. destruct (bucket_at t i), b'; simpl in *; lia.
  - unfold entries. rewrite Hbk. by eapply join_insert.
  - by rewrite Hbk, length_insert.
  - rewrite Hbk. unfold overflow. destruct (bucket_at t i), b'; simpl in *; lia.
Qed.

Lemma move_overflow_spec t d :
  chained t -> exists t', move_overflow t d = Ok t' /\ chained t' /\ same_frame t t' /\ entries t' ≡ₚ d :: entries t /\
    (overflow (bucket t') + free_entry_list t' = S (overflow (bucket t) + free_entry_list t))%nat.
Proof.
  intros Hc. pose proof (chained_some t Hc) as Hn. unfold move_overflow. rewrite safe_hasher_slot by done. cbn [res_bind].
  set (i := slot (length (bucket t)) d). destruct (bucket_at t i) as [|h over] eqn:E; eexists; (split; [done|]).
  - destruct (put_chained t d [d] (free_entry (set_used (set_bucket t i [d]) (n_buckets_used t + 1))) Hc)
      as (H1 & H2 & H3 & H4); fold i; rewrite ?E; try done.
    split; [done|]. split; [done|]. split; [done|]. fold i in H4. rewrite E in H4. rewrite H4. simpl. lia.
  - destruct (put_chained t d (h :: d :: over) (set_bucket t i (h :: d :: over)) Hc)
      as (H1 & H2 & H3 & H4); fold i; rewrite ?E; try done; [apply perm_swap|simpl; lia|].
    split; [done|]. split; [done|]. split; [done|]. fold i in H4. rewrite E in H4. rewrite H4. simpl. lia.
Qed.

Lemma same_frame_trans t u v : same_frame t u -> same_frame u v -> same_frame t v.
Proof. intros (H1 & H2 & H3 & H4) (H5 & H6 & H7 & H8). unfold same_frame. repeat split; congruence. Qed.

Lemma move_overflows_spec over : forall t,
  chained t -> exists t', move_overflows t over = Ok t' /\ chained t' /\ same_frame t t' /\ entries t' ≡ₚ over ++ entries t /\
    (overflow (bucket t') + free_entry_list t' = overflow (bucket t) + free_entry_list t + length over)%nat.
Proof.
  induction over as [|d over IH]; intros t Hc; cbn [move_overflows].
  { exists t. repeat split; try done; try apply Hc; simpl; lia. }
  destruct (move_overflow_spec t d Hc) as (u & -> & Hu & Hf & Hp & Ho). cbn [res_bind].
  destruct (IH u Hu) as (v & -> & Hv & Hf' & Hp' & Ho'). exists v. split; [done|]. split; [done|].
  split; [by eapply same_frame_trans|]. split; [rewrite Hp', Hp; by rewrite <- Permutation_middle|simpl; lia].
Qed.

Lemma set_free_chained t n : chained t -> chained (set_free t n).
Proof. by intros [? ? ?]. Qed.

(** A head finds room, or its bucket is taken and there is no entry left. *)
Lemma move_head_spec t d m :
  chained t -> exists ok t' m', move_head t d m = Ok (ok, t', m') /\ chained t' /\ same_frame t t' /\
    entries t' ≡ₚ (if ok then [d] else []) ++ entries t /\
    (overflow (bucket t) + free_entry_list t <= overflow (bucket t') + free_entry_list t')%nat /\
    (ok = false -> t' = t /\ free_entry_list t = 0%nat /\ needed (slot (length (bucket t))) (d :: entries t) = S (overflow (bucket t))).
Proof.
  intros Hc. pose proof (chained_some t Hc) as Hn. unfold move_head. rewrite safe_hasher_slot by done. cbn [res_bind].
  set (i := slot (length (bucket t)) d). destruct (bucket_at t i) as [|h over] eqn:E.
  - eexists _, _, _. split; [done|].
    destruct (put_chained t d [d] (set_used (set_bucket t i [d]) (n_buckets_used t + 1)) Hc)
      as (H1 & H2 & H3 & H4); fold i; rewrite ?E; try done.
    split; [done|]. split; [done|]. split; [done|]. split; [|done]. fold i in H4. rewrite E in H4. rewrite H4. simpl. lia.
  - assert (Hput : forall n, (free_entry_list t <= S n)%nat ->
      let t' := set_bucket (set_free t n) i (h :: d :: over) in
      chained t' /\ same_frame t t' /\ entries t' ≡ₚ [d] ++ entries t /\
      (overflow (bucket t) + free_entry_list t <= overflow (bucket t') + free_entry_list t')%nat).
    { intros n Hle t'. destruct (put_chained t d (h :: d :: over) t' Hc) as (H1 & H2 & H3 & H4); fold i; rewrite ?E; try done; [apply perm_swap|simpl; lia|].
      split; [done|]. split; [done|]. split; [done|]. fold i in H4. rewrite E in H4. rewrite H4. simpl. lia. }
    unfold allocate_entry. destruct (free_entry_list t) as [|n] eqn:Ef.
    + destruct (malloc m) as [[] m']; eexists _, _, _; (split; [done|]).
      * assert (Ht : set_free t 0 = t) by (destruct t; simpl in *; by subst). pose proof (Hput 0%nat ltac:(lia)) as H. rewrite Ht in H. naive_solver.
      * split; [done|]. split; [done|]. split; [done|]. split; [lia|]. intros _. split; [done|]. split; [done|].
        rewrite needed_cons, <- overflow_needed by done. rewrite decide_True; [lia|].
        apply list_elem_of_fmap. exists h. pose proof (bucket_at_lookup t d Hn) as Hi. fold i in Hi. rewrite E in Hi. split.
        -- symmetry. eapply placed_slot; [apply Hc|exact Hi|left].
        -- apply join_lookup. exists i, (h :: over). split; [done|left].
    + eexists _, _, _; (split; [done|]). destruct (Hput n ltac:(lia)) as (H1 & H2 & H3 & H4). naive_solver.
Qed.

(** ** Transfers *)

(** What a transfer keeps: the data, and at least the entry structures. *)
Record transferred dst bs used dst' bs' used' : Prop := Transferred {
  tr_chained : chained dst';
  tr_frame : same_frame dst dst';
  tr_data : entries dst' ++ mjoin bs' ≡ₚ entries dst ++ mjoin bs;
  tr_sub : Forall2 sublist bs' bs;
  tr_used : used' - Z.of_nat (in_use bs') = used - Z.of_nat (in_use bs);
  tr_structs : (overflow (bucket dst) + overflow bs + free_entry_list dst <=
                overflow (bucket dst') + overflow bs' + free_entry_list dst')%nat
}.

Lemma in_use_cons (b : list D) bs : in_use (b :: bs) = (match b with [] => 0%nat | _ => 1%nat end + in_use bs)%nat.
Proof. done. Qed.
Lemma overflow_cons (b : list D) bs : overflow (b :: bs) = (pred (length b) + overflow bs)%nat.
Proof. done. Qed.

(** One bucket [b] of the source, of which [b'] stays behind, in front of the
    transfer of the others. *)
Lemma transferred_cons dst b bs used dst1 b' used1 dst' bs' used' :
  same_frame dst dst1 -> entries dst1 ++ b' ≡ₚ b ++ entries dst -> sublist b' b ->
  used1 - Z.of_nat (in_use [b']) = used - Z.of_nat (in_use [b]) ->
  (overflow (bucket dst) + free_entry_list dst + pred (length b) <= overflow (bucket dst1) + free_entry_list dst1 + pred (length b'))%nat ->
  transferred dst1 bs used1 dst' bs' used' ->
  transferred dst (b :: bs) used dst' (b' :: bs') used'.
Proof.
  intros Hf Hp Hs Hu Hst [H1 H2 H3 H4 H5 H6]. split.
  - done.
  - by eapply same_frame_trans.
  - change (mjoin (b' :: bs')) with (b' ++ mjoin bs'). change (mjoin (b :: bs)) with (b ++ mjoin bs).
    rewrite (Permutation_app_swap_app (entries dst')), H3, (Permutation_app_swap_app b'), app_assoc.
    rewrite Hp, <- app_assoc. by rewrite (Permutation_app_swap_app b).
  - by constructor.
  - rewrite !in_use_cons in *. change (in_use (@nil (list D))) with 0%nat in Hu. lia.
  - rewrite !overflow_cons. lia.
Qed.

Lemma transferred_refl dst bs used : chained dst -> transferred dst bs used dst bs used.
Proof. intros Hc. by split. Qed.

(** Every transfer ends, without [abort]. *)
Lemma transfer_buckets_spec safe bs : forall dst used m, chained dst ->
  exists ok dst' bs' used' m',
    transfer_buckets dst bs used safe m = Ok (ok, dst', (bs', used'), m') /\ transferred dst bs used dst' bs' used' /\
    (safe = true -> ok = true /\ overflow bs' = 0%nat) /\ (safe = false -> ok = true -> mjoin bs' = []).
Proof.
  induction bs as [|[|h over] bs IH]; intros dst used m Hc; cbn [transfer_buckets].
  - exists true, dst, [], used, m. split; [done|]. split; [by apply transferred_refl|done].
  - destruct (IH dst used m Hc) as (ok & dst' & bs' & used' & m' & -> & Ht & Hs & Hn). cbn [res_bind].
    eexists _, _, _, _, _. split; [done|]. split; [|done].
    apply (transferred_cons dst [] bs used dst [] used); try done. by rewrite app_nil_r.
  - destruct (move_overflows_spec over dst Hc) as (d1 & -> & H1 & Hf1 & Hp1 & Ho1). cbn [res_bind]. destruct safe.
    + destruct (IH d1 used m H1) as (ok & dst' & bs' & used' & m' & -> & Ht & Hs & Hn). cbn [res_bind].
      eexists _, _, _, _, _. split; [done|]. split; [|done].
      apply (transferred_cons dst (h :: over) bs used d1 [h] used); try done; [|by apply sublist_skip, sublist_nil_l|simpl; lia].
      rewrite Hp1, Permutation_app_comm. done.
    + destruct (move_head_spec d1 h m H1) as (ok & d2 & m2 & -> & H2 & Hf2 & Hp2 & Ho2 & _). cbn [res_bind].
      assert (Hf : same_frame dst d2) by (by eapply same_frame_trans). destruct ok.
      * destruct (IH d2 (used - 1) m2 H2) as (ok & dst' & bs' & used' & m' & -> & Ht & Hs & Hn). cbn [res_bind].
        eexists _, _, _, _, _. split; [done|]. split; [|done].
        apply (transferred_cons dst (h :: over) bs used d2 [] (used - 1)); try done; [|by apply sublist_nil_l|cbn; lia|simpl; lia].
        rewrite app_nil_r, Hp2, Hp1. done.
      * eexists _, _, _, _, _. split; [done|]. split; [|done].
        apply (transferred_cons dst (h :: over) bs used d2 [h] used); try done; [|by apply sublist_skip, sublist_nil_l|simpl; lia].
        simpl in Hp2. rewrite Hp2, Hp1, Permutation_app_comm. done.
Qed.

(** A transfer of heads succeeds when there are as many structures as the data of
    both tables need in the destination. *)
Lemma transfer_enough bs : forall dst used m,
  chained dst -> overflow bs = 0%nat ->
  (needed (slot (length (bucket dst))) (entries dst ++ mjoin bs) <= overflow (bucket dst) + free_entry_list dst)%nat ->
  exists dst' x m', transfer_buckets dst bs used false m = Ok (true, dst', x, m').
Proof.
  induction bs as [|[|h over] bs IH]; intros dst used m Hc Ho Hn; cbn [transfer_buckets].
  - eauto.
  - destruct (IH dst used m Hc Ho Hn) as (dst' & [bs' used'] & m' & ->). cbn. eauto.
  - rewrite overflow_cons in Ho. destruct over; [|simpl in Ho; lia]. cbn [move_overflows res_bind].
    change (mjoin ([h] :: bs)) with (h :: mjoin bs) in Hn. rewrite <- Permutation_middle in Hn.
    destruct (move_head_spec dst h m Hc) as (ok & d2 & m2 & -> & H2 & (Hl & _) & Hp2 & Ho2 & Hfail). cbn [res_bind]. destruct ok.
    + destruct (IH d2 (used - 1) m2 H2) as (dst' & [bs' used'] & m' & ->); [simpl in Ho; lia| |cbn; eauto].
      rewrite Hl, Hp2. simpl. lia.
    + destruct (Hfail eq_refl) as (_ & Hfr & Hne). exfalso.
      pose proof (needed_app (slot (length (bucket dst))) (mjoin bs) (h :: entries dst)) as Hle.
      rewrite Permutation_app_comm in Hle. simpl in Hle. lia.
Qed.

Lemma placed_sub bs bs' : placed bs -> Forall2 sublist bs' bs -> placed bs'.
Proof.
  intros Hp Hs i b' d Hi Hd. unfold zlen. rewrite (Forall2_length _ _ _ Hs).
  destruct (Forall2_lookup_l _ _ _ _ _ Hs Hi) as (b & Hb & Hsub). eapply (Hp i b); [done|].
  by eapply elem_of_sublist.
Qed.

Lemma transfer_entries_spec dst src safe m : chained dst -> chained src ->
  exists ok dst' src' m',
    transfer_entries dst src safe m = Ok (ok, dst', src', m') /\
    transferred dst (bucket src) (n_buckets_used src) dst' (bucket src') (n_buckets_used src') /\
    chained src' /\ same_frame src src' /\
    (safe = true -> ok = true /\ overflow (bucket src') = 0%nat) /\ (safe = false -> ok = true -> entries src' = []).
Proof.
  intros Hd Hs. unfold transfer_entries.
  destruct (transfer_buckets_spec safe (bucket src) dst (n_buckets_used src) m Hd) as (ok & dst' & bs' & used' & m' & -> & Ht & H1 & H2).
  cbn [res_bind]. eexists _, _, _, _. split; [done|]. cbn [bucket n_buckets_used]. split; [done|]. destruct Hs as [Hn Hp Hu].
  pose proof (Forall2_length _ _ _ (tr_sub _ _ _ _ _ _ Ht)) as Hl. split; [split|split; [|done]].
  - simpl. lia.
  - eapply placed_sub; [exact Hp|apply Ht].
  - pose proof (tr_used _ _ _ _ _ _ Ht). simpl. lia.
  - repeat split; try done.
Qed.

Lemma calloc_chained n u f k : 0 < n -> chained (HashTable (@calloc_buckets D n) 0 0 u f k).
Proof.
  intros Hn. destruct (calloc_facts (D := D) n) as (_ & Hu & He). split; cbn [bucket n_buckets_used].
  - unfold calloc_buckets. rewrite length_replicate. lia.
  - intros i b d Hi Hd. exfalso. assert (d ∈ mjoin (@calloc_buckets D n)) as H by (apply join_lookup; eauto). rewrite He in H. by apply elem_of_nil in H.
  - by rewrite Hu.
Qed.

(** The undo of [hash_rehash] does not abort: [t] was taken apart into [t1] and
    the new table. *)
Lemma undo_spec t t1 new m : chained t1 -> chained new -> chained t -> same_frame t t1 ->
  entries new ++ entries t1 ≡ₚ entries t ->
  (overflow (bucket t) + free_entry_list t <= overflow (bucket new) + overflow (bucket t1) + free_entry_list new)%nat ->
  exists t2 new2 m2 t3 new3 m3,
    transfer_entries (set_free t1 (free_entry_list new)) new true m = Ok (true, t2, new2, m2) /\
    transfer_entries t2 new2 false m2 = Ok (true, t3, new3, m3) /\
    chained t3 /\ same_frame t t3 /\ entries t3 ≡ₚ entries t.
Proof.
  intros H1 Hnew Ht (Hl1 & Hf1) Hp Hst.
  destruct (transfer_entries_spec (set_free t1 (free_entry_list new)) new true m (set_free_chained _ _ H1) Hnew)
    as (ok2 & t2 & new2 & m2 & E2 & [C2 [L2 F2] P2 _ _ S2] & Cn2 & Fn2 & Hs2 & _).
  destruct (Hs2 eq_refl) as [-> Ho2]. cbn [bucket free_entry_list set_free] in *.
  destruct (transfer_entries_spec t2 new2 false m2 C2 Cn2)
    as (ok3 & t3 & new3 & m3 & E3 & [C3 [L3 F3] P3 _ _ _] & _ & _ & _ & Hs3).
  assert (Hall : entries t2 ++ entries new2 ≡ₚ entries t).
  { unfold entries in *. rewrite P2, Permutation_app_comm. done. }
  assert (ok3 = true) as ->.
  { destruct (transfer_enough (bucket new2) t2 (n_buckets_used new2) m2 C2 Ho2) as (? & x & ? & E).
    - fold (entries new2). rewrite Hall, L2, Hl1, <- (overflow_needed t Ht). lia.
    - unfold transfer_entries in E3. rewrite E in E3. destruct x. simpl in E3. congruence. }
  exists t2, new2, m2, t3, new3, m3. split; [done|]. split; [done|]. split; [done|]. split.
  - unfold same_frame in *. cbn [set_free n_entries tuning data_freer] in *. destruct F3 as (? & ? & ?), F2 as (? & ? & ?), Hf1 as (? & ? & ?).
    repeat split; congruence.
  - rewrite <- Hall, <- P3. fold (entries new3). rewrite (Hs3 eq_refl eq_refl). by rewrite app_nil_r.
Qed.

(** [hash_rehash] never aborts, whatever the allocations answer; the data stay. *)
Lemma hash_rehash_spec t candidate n m : table_inv t -> compute_bucket_size candidate (tuning_of (tuning t)) = Ok n -> n = 0 \/ 0 < n ->
  exists ok t' m', hash_rehash t candidate m = Ok (ok, t', m') /\ table_inv t' /\ entries t' ≡ₚ entries t /\
    data_freer t' = data_freer t /\ (if ok then zlen (bucket t') = n else zlen (bucket t') = zlen (bucket t)).
Proof.
  intros [Hc He Ht] Hsz Hn. unfold hash_rehash. rewrite Hsz. cbn [res_bind].
  destruct (Z.eqb_spec n 0) as [|Hn0]; [by exists false, t, m|]. unfold hash_get_n_buckets.
  destruct (Z.eqb_spec n (zlen (bucket t))) as [|Hne]; [by exists true, t, m|].
  destruct (malloc m) as [[] m1]; cbn [negb]; [|by exists false, t, m1].
  set (new0 := HashTable (calloc_buckets n) 0 0 (tuning t) (data_freer t) (free_entry_list t)).
  assert (Hnew0 : chained new0) by (apply calloc_chained; lia).
  destruct (calloc_facts (D := D) n) as (Ho0 & _ & He0).
  destruct (transfer_entries_spec new0 t false m1 Hnew0 Hc)
    as (ok & new & t1 & m2 & -> & [C1 [L1 F1] P1 _ _ S1] & Ct1 & Ft1 & _ & Hs1). cbn [res_bind].
  cbn [new0 bucket free_entry_list] in S1, L1. rewrite Ho0 in S1.
  assert (Hp1 : entries new ++ entries t1 ≡ₚ entries t).
  { unfold entries in P1 at 2. cbn [new0 bucket] in P1. rewrite He0 in P1. exact P1. }
  destruct ok.
  - eexists true, _, _. split; [done|]. rewrite (Hs1 eq_refl eq_refl), app_nil_r in Hp1. destruct Ft1 as (_ & Hn1 & Ht1 & Hf1).
    assert (Hz : zlen (bucket new) = n) by (unfold zlen; rewrite L1; unfold calloc_buckets; rewrite length_replicate; lia).
    split; [split; [by destruct C1|simpl|simpl; congruence]|done].
    rewrite Hn1, He. unfold zlen. f_equal. symmetry. exact (Permutation_length Hp1).
  - destruct (undo_spec t t1 new m2) as (t2 & new2 & m3 & t3 & new3 & m4 & E2 & E3 & C3 & (L3 & N3 & T3 & F3) & P3); try done.
    rewrite E2. cbn [res_bind negb]. rewrite E3. cbn [res_bind negb]. exists false, t3, m4. split; [done|].
    split; [split; [done| |congruence]|]; [|unfold zlen; rewrite L3; done].
    rewrite N3, He. unfold zlen. by rewrite (Permutation_length P3).
Qed.
End inv.
