(* ===== verification/HashMap.v ===== *)
(** Hash tables as finite maps: the operations of lib/hash.c, run in any order
    and with any allocation failing, do what the operations of a map from keys do. *)
From S2P Require Import Prelude HashSize Hash HashInv.
From stdpp Require Import base list numbers gmap.
From Stdlib Require Import ZArith Lia SpecFloat.

#[local] Open Scope Z_scope.

(** What the comparator and the hasher of a table have to do with each other: both
    depend on the data through a key. *)
Class HashKey (D K : Type) `{!HashFns D} `{!EqDecision K} (key : D -> K) : Prop := {
  hasher_key : forall d e n, key d = key e -> hasher d n = hasher e n;
  comparator_key : forall d e, comparator d e = bool_decide (key d = key e)
}.

Section map.
Context {D K : Type} `{!EqDecision D} `{!HashFns D} `{!HashRange D} `{Countable K} (key : D -> K) `{!HashKey D K key}.
Implicit Types (t : Hash_table D) (d e : D).

(** The map a table stands for. *)
Definition map_of (l : list D) : gmap K D := list_to_map ((fun d => (key d, d)) <$> l).
Definition contents t : gmap K D := map_of (entries t).

(** The invariant of the tables in use: no two data have the same key. *)
Record hash_inv t : Prop := HashInv {
  inv_table : table_inv t;
  inv_keys : NoDup (key <$> entries t)
}.

Lemma pair_keys (l : list D) : ((fun d => (key d, d)) <$> l).*1 = key <$> l.
Proof. by rewrite <- list_fmap_compose. Qed.

Lemma map_of_perm (l l' : list D) : NoDup (key <$> l) -> l ≡ₚ l' -> map_of l = map_of l'.
Proof. intros Hn Hp. apply list_to_map_proper; [by rewrite pair_keys|by apply fmap_Permutation]. Qed.

Lemma map_of_lookup (l : list D) k d : NoDup (key <$> l) -> map_of l !! k = Some d <-> d ∈ l /\ key d = k.
Proof.
  intros Hn. unfold map_of. rewrite <- elem_of_list_to_map by (by rewrite pair_keys). rewrite list_elem_of_fmap. naive_solver.
Qed.

Lemma map_of_cons d (l : list D) : map_of (d :: l) = <[key d := d]> (map_of l).
Proof. done. Qed.

Lemma map_of_delete d (l : list D) : NoDup (key <$> d :: l) -> map_of l = delete (key d) (map_of (d :: l)).
Proof.
  intros Hn. rewrite map_of_cons, delete_insert_id; [done|].
  apply eq_None_not_Some. intros [x [Hx Hk]%map_of_lookup]; apply NoDup_cons in Hn as [Hd Hl]; [|done]. apply Hd. rewrite <- Hk. by apply list_elem_of_fmap_2.
Qed.

Lemma same_key e d : same e d = bool_decide (key e = key d).
Proof. unfold same. rewrite comparator_key. repeat case_bool_decide; naive_solver. Qed.

Lemma slot_key n d e : key d = key e -> slot n d = slot n e.
Proof. intros Hk. unfold slot. by rewrite (hasher_key d e _ Hk). Qed.

Lemma chain_unlink_spec e (b : list D) :
  match chain_unlink e b with
  | Some (d, rest) => key d = key e /\ b ≡ₚ d :: rest /\ chain_find e b = Some d
  | None => (forall d, d ∈ b -> key d <> key e) /\ chain_find e b = None
  end.
Proof.
  induction b as [|d b IH]; simpl; [split; [by intros d ?%elem_of_nil|done]|]. rewrite same_key. case_bool_decide as Hk; [done|].
  destruct (chain_unlink e b) as [[x rest]|].
  - destruct IH as (H1 & H2 & H3). split; [done|]. split; [|done]. rewrite H2. apply perm_swap.
  - destruct IH as (H1 & H2). split; [|done]. intros x [-> |Hx]%elem_of_cons; [congruence|by apply H1].
Qed.

(** The data with a key are in one bucket. *)
Lemma contents_bucket t e d :
  hash_inv t -> contents t !! key e = Some d <-> d ∈ bucket_at t (slot (length (bucket t)) e) /\ key d = key e.
Proof.
  intros [[[Hn Hp Hu] _ _] Hk]. unfold contents. rewrite map_of_lookup by done. pose proof (bucket_at_lookup t e Hn) as Hb. split.
  - intros [(i & b & Hi & Hd)%join_lookup Hke]. split; [|done].
    assert (slot (length (bucket t)) e = i) as Hs by (rewrite <- (slot_key _ _ _ Hke); by eapply placed_slot).
    rewrite Hs in Hb. rewrite Hs. congruence.
  - intros [Hd Hke]. split; [|done]. apply join_lookup. eauto.
Qed.

Lemma chain_find_contents t e : hash_inv t -> chain_find e (bucket_at t (slot (length (bucket t)) e)) = contents t !! key e.
Proof.
  intros Hi. pose proof (chain_unlink_spec e (bucket_at t (slot (length (bucket t)) e))) as Hc.
  destruct (chain_unlink _ _) as [[d rest]|].
  - destruct Hc as (Hk & Hp & ->). symmetry. apply contents_bucket; [done|]. rewrite Hp. split; [left|done].
  - destruct Hc as (Hk & ->). symmetry. apply eq_None_not_Some. intros [d [Hd Hke]%contents_bucket]; [|done]. by apply (Hk d).
Qed.

(** ** Lookup *)

Lemma hash_lookup_spec t e : hash_inv t -> hash_lookup t e = Ok (contents t !! key e).
Proof.
  intros Hi. unfold hash_lookup. rewrite safe_hasher_slot by (apply Hi). cbn [res_bind]. by rewrite chain_find_contents.
Qed.

Lemma hash_find_entry_false t e : hash_inv t -> hash_find_entry t e false = Ok (contents t !! key e, slot (length (bucket t)) e, t).
Proof.
  intros Hi. unfold hash_find_entry. rewrite safe_hasher_slot by (apply Hi). cbn [res_bind].
  rewrite <- chain_find_contents by done. destruct (bucket_at _ _) as [|h over]; [done|]. simpl. destruct (same e h); [done|].
  pose proof (chain_unlink_spec e over) as Hc. destruct (chain_unlink e over) as [[d rest]|]; [destruct Hc as (_ & _ & ->)|destruct Hc as (_ & ->)]; done.
Qed.

(** ** Insertion *)

Lemma perm_contents t t' : hash_inv t -> table_inv t' -> entries t' ≡ₚ entries t -> hash_inv t' /\ contents t' = contents t.
Proof.
  intros [_ Hk] Ht' Hp. split; [split; [done|by rewrite Hp]|]. apply map_of_perm; [by rewrite Hp|done].
Qed.

Lemma grown_contents t t' e :
  hash_inv t -> table_inv t' -> entries t' ≡ₚ e :: entries t -> contents t !! key e = None ->
  hash_inv t' /\ contents t' = <[key e := e]> (contents t).
Proof.
  intros [_ Hk] Ht' Hp Hne.
  assert (Hnd : NoDup (key <$> e :: entries t)).
  { rewrite fmap_cons. apply NoDup_cons. split; [|done]. intros (d & He & Hd)%list_elem_of_fmap.
    assert (contents t !! key e = Some d) as Hs by (by apply map_of_lookup). congruence. }
  assert (Hnd' : NoDup (key <$> entries t')) by (by rewrite Hp).
  split; [by split|]. unfold contents. by rewrite (map_of_perm _ _ Hnd' Hp).
Qed.

Lemma malloc_fails m m' : malloc m = (false, m') -> false ∈ m.
Proof. destruct m as [|b m]; simpl; [done|]. intros [= -> ->]. left. Qed.

(** ENTRY goes into its bucket, or there was no memory for the overflow entry. *)
Lemma add_entry_spec t e m :
  hash_inv t -> contents t !! key e = None ->
  exists r t' m', add_entry t (slot (length (bucket t)) e) e m = (r, t', m') /\ hash_inv t' /\ data_freer t' = data_freer t /\
    (r = 1 /\ contents t' = <[key e := e]> (contents t) \/ r = -1 /\ contents t' = contents t /\ false ∈ m).
Proof.
  intros Hi Hne. pose proof Hi as [[Hc He Ht] Hk]. unfold add_entry. set (i := slot (length (bucket t)) e).
  assert (Hput : forall b' u, b' ≡ₚ e :: bucket_at t i ->
    n_buckets_used u = n_buckets_used t + match bucket_at t i with [] => 1 | _ => 0 end ->
    bucket u = <[i := b']> (bucket t) -> n_entries u = n_entries t + 1 -> tuning u = tuning t ->
    hash_inv u /\ contents u = <[key e := e]> (contents t)).
  { intros b' u H1 H2 H3 H4 H5. destruct (put_chained t e b' u Hc H1 H2 H3) as (C & P & _ & _).
    apply (grown_contents t); [done| |done|done]. split; [done| |congruence]. rewrite H4, He. unfold zlen. rewrite (Permutation_length P). simpl. lia. }
  destruct (bucket_at t i) as [|h over] eqn:E.
  - eexists _, _, _. split; [done|]. edestruct Hput as [H1 H2]; [reflexivity|..|split; [exact H1|]]; try done. split; [done|]. by left.
  - unfold allocate_entry. destruct (free_entry_list t) as [|n].
    + destruct (malloc m) as [[] m'] eqn:Em; eexists _, _, _; (split; [done|]).
      * edestruct Hput as [H1 H2]; [apply (perm_swap e h over)|..|split; [exact H1|]]; try done; [simpl; lia|]. split; [done|]. by left.
      * split; [done|]. split; [done|]. right. split; [done|]. split; [done|]. by eapply malloc_fails.
    + eexists _, _, _; (split; [done|]). edestruct Hput as [H1 H2]; [apply (perm_swap e h over)|..|split; [exact H1|]]; try done; [simpl; lia|].
      split; [done|]. by left.
Qed.

Lemma set_tuning_none t : tuning t = None -> set_tuning t (check_tuning (tuning t)).2 = t.
Proof. intros Ht. rewrite Ht. simpl. destruct t; simpl in *. by subst. Qed.

(** [hash_insert_if_absent]: 0 with the matching entry, 1 when the entry is in
    the table, -1 when memory or the size of the table does not allow it. *)
Lemma hash_insert_if_absent_spec t e m :
  hash_inv t -> exists r x t' m', hash_insert_if_absent t (Some e) m = Ok (r, x, t', m') /\ hash_inv t' /\ data_freer t' = data_freer t /\
    match contents t !! key e with
    | Some d => r = 0 /\ x = Some d /\ t' = t
    | None => x = None /\ (r = 1 /\ contents t' = <[key e := e]> (contents t) \/
                           r = -1 /\ contents t' = contents t /\ (false ∈ m \/ over_threshold t = true))
    end.
Proof.
  intros Hi. unfold hash_insert_if_absent. rewrite hash_find_entry_false by done. cbn [res_bind].
  destruct (contents t !! key e) as [d|] eqn:Hl; [by eexists _, _, _, _|].
  assert (Ht : tuning t = None) by apply Hi. rewrite set_tuning_none by done.
  pose proof (add_entry_spec t e m Hi Hl) as Hadd.
  destruct (over_threshold t) eqn:Eo; cycle 1.
  { destruct Hadd as (r & t' & m' & -> & ? & ? & Hr). eexists _, _, _, _. split; [done|]. naive_solver. }
  rewrite Ht. cbn [tuning_of]. change (tuning_of None) with default_tuning. change (is_n_buckets default_tuning) with false. cbv iota zeta.
  rewrite (proj1 default_tuning_bits), (proj2 default_tuning_bits). set (c := f_mul _ (S754_finite false 13421773 (-24))).
  assert (Hc : f_pos c) by (apply f_mul_pos, f_mul_pos, f_of_size_pos; unfold hash_get_n_buckets, zlen; lia).
  destruct (SFleb (f_of_size SIZE_MAX) c) eqn:Ec. { eexists _, _, _, _. split; [done|]. naive_solver. }
  destruct (f_to_size_ok c Hc Ec) as (z & -> & Hz). cbn [res_bind].
  destruct (compute_bucket_size_spec z ltac:(lia)) as (n & Hsz & Hn).
  destruct (hash_rehash_spec t z n m) as (ok & t1 & m1 & -> & Ht1 & Hp & Hf & _); [apply Hi|by rewrite Ht|lia|]. cbn [res_bind].
  destruct (perm_contents t t1 Hi Ht1 Hp) as [Hi1 Hc1]. destruct ok; cbn [negb]; [|eexists _, _, _, _; (split; [done|]); naive_solver].
  rewrite hash_find_entry_false, Hc1, Hl by done. cbn [res_bind].
  destruct (add_entry_spec t1 e m1 Hi1) as (r & t' & m' & -> & ? & ? & Hr); [by rewrite Hc1|]. rewrite Hc1 in Hr.
  eexists _, _, _, _. split; [done|]. naive_solver.
Qed.

Lemma hash_insert_spec t e m :
  hash_inv t -> exists x t' m', hash_insert t e m = Ok (x, t', m') /\ hash_inv t' /\ data_freer t' = data_freer t /\
    match contents t !! key e with
    | Some d => x = Some d /\ t' = t
    | None => x = Some e /\ contents t' = <[key e := e]> (contents t) \/
              x = None /\ contents t' = contents t /\ (false ∈ m \/ over_threshold t = true)
    end.
Proof.
  intros Hi. unfold hash_insert. destruct (hash_insert_if_absent_spec t e m Hi) as (r & x & t' & m' & -> & Hi' & Hf & Hr). cbn [res_bind].
  eexists _, _, _. split; [done|]. split; [done|]. split; [done|].
  destruct (contents t !! key e); [by destruct Hr as (-> & -> & ->)|]. destruct Hr as (-> & [[-> ?]|(-> & ? & ?)]); [left|right]; done.
Qed.

(** ** Deletion *)

(** A datum taken out of its bucket. *)
Lemma take_bucket t i d b' u :
  placed (bucket t) -> (i < length (bucket t))%nat -> bucket_at t i ≡ₚ d :: b' -> bucket u = <[i := b']> (bucket t) ->
  length (bucket u) = length (bucket t) /\ placed (bucket u) /\ entries t ≡ₚ d :: entries u /\
  in_use (bucket t) = (in_use (bucket u) + match b' with [] => 1 | _ => 0 end)%nat /\ bucket_at u i = b'.
Proof.
  intros Hp Hlt Hb Hu. unfold bucket_at in Hb. destruct (lookup_lt_is_Some_2 _ _ Hlt) as [b Hi]. rewrite Hi in Hb. simpl in Hb.
  assert (Hi' : bucket u !! i = Some b') by (rewrite Hu; by apply list_lookup_insert_eq).
  split; [by rewrite Hu, length_insert|]. split; [|split; [|split]].
  - rewrite Hu. eapply placed_insert; [done|done|]. intros x Hx. left. rewrite Hb. by right.
  - unfold entries. rewrite <- (join_insert (bucket u) i b' b d Hi' Hb). by rewrite Hu, list_insert_insert_eq, list_insert_id.
  - pose proof (sum_insert (fun b => match b with [] => 0%nat | _ => 1%nat end) _ _ _ b' Hi) as Hc. rewrite Hu. unfold in_use.
    apply Permutation_length in Hb. destruct b, b'; simpl in *; lia.
  - unfold bucket_at. by rewrite Hi'.
Qed.

Lemma hash_find_entry_true t e :
  hash_inv t -> let i := slot (length (bucket t)) e in
  match contents t !! key e with
  | None => hash_find_entry t e true = Ok (None, i, t)
  | Some d => exists b' u, hash_find_entry t e true = Ok (Some d, i, u) /\ bucket_at t i ≡ₚ d :: b' /\ bucket u = <[i := b']> (bucket t) /\
      n_buckets_used u = n_buckets_used t /\ n_entries u = n_entries t /\ tuning u = tuning t /\ data_freer u = data_freer t
  end.
Proof.
  intros Hi i. rewrite <- chain_find_contents by done. unfold hash_find_entry. rewrite safe_hasher_slot by (apply Hi). cbn [res_bind]. fold i.
  destruct (bucket_at t i) as [|h over]; [done|]. simpl. destruct (same e h).
  { destruct over as [|next rest]; eexists _, _; (split; [done|]); done. }
  pose proof (chain_unlink_spec e over) as Hc. destruct (chain_unlink e over) as [[d rest]|].
  - destruct Hc as (_ & Hp & ->). exists (h :: rest). eexists. split; [done|]. split; [rewrite Hp; apply perm_swap|done].
  - by destruct Hc as (_ & ->).
Qed.

(** With the default tuning no table shrinks. *)
Lemma under_threshold_default t : tuning t = None -> 0 <= n_buckets_used t -> under_threshold t = false.
Proof.
  intros Ht Hu. unfold under_threshold. rewrite Ht. change (shrink_threshold (tuning_of None)) with (S754_zero false).
  pose proof (f_of_size_pos (n_buckets_used t) Hu) as H1.
  pose proof (f_of_size_pos (hash_get_n_buckets t) ltac:(unfold hash_get_n_buckets, zlen; lia)) as H2.
  destruct (f_of_size (n_buckets_used t)) as [|[]| |[]], (f_of_size (hash_get_n_buckets t)) as [|[]| |[]]; simpl in *; try done; by destruct H1.
Qed.

Lemma hash_delete_spec t e m :
  hash_inv t -> exists t', hash_delete t e m = Ok (contents t !! key e, t', m) /\ hash_inv t' /\ data_freer t' = data_freer t /\
    contents t' = delete (key e) (contents t).
Proof.
  intros Hi. unfold hash_delete. pose proof (hash_find_entry_true t e Hi) as Hf. cbv zeta in Hf.
  destruct (contents t !! key e) as [d|] eqn:Hl; cycle 1.
  { rewrite Hf. cbn [res_bind]. exists t. split; [done|]. split; [done|]. split; [done|]. by rewrite delete_id. }
  destruct Hf as (b' & u & -> & Hb & Hu & Hn & He & Ht & Hfr). cbn [res_bind]. set (i := slot (length (bucket t)) e) in *.
  pose proof Hi as [[[Hs Hp Hus] Hen Htu] Hk].
  destruct (take_bucket t i d b' u Hp (slot_lt _ _ Hs) Hb Hu) as (Hlen & Hpu & Hperm & Hin & Hat).
  assert (key d = key e) as Hke by (apply contents_bucket in Hl; tauto).
  assert (Hdone : forall v, bucket v = bucket u -> n_buckets_used v = Z.of_nat (in_use (bucket u)) -> n_entries v = n_entries t - 1 ->
    tuning v = None -> hash_inv v /\ contents v = delete (key e) (contents t)).
  { intros v H1 H2 H3 H4. assert (Hev : entries v = entries u) by (unfold entries; by rewrite H1).
    assert (NoDup (key <$> d :: entries v)) as Hnd by (rewrite Hev, <- Hperm; done). split.
    - split; [split; [split|..]|]; rewrite ?H1; try done; [by rewrite Hlen| |by apply NoDup_cons in Hnd as [_ ?]].
      rewrite H3, Hen, Hev. unfold zlen. rewrite (Permutation_length Hperm). simpl. lia.
    - unfold contents. rewrite (map_of_delete d) by done. rewrite Hke. f_equal. apply map_of_perm; [done|by rewrite Hev]. }
  change (bucket_at (set_entries u (n_entries u - 1)) i) with (bucket_at u i). rewrite Hat. destruct b' as [|h rest].
  - rewrite under_threshold_default; [|simpl; congruence|simpl; lia]. eexists. split; [done|].
    edestruct Hdone as [H1 H2]; [..|split; [exact H1|]]; simpl; [done|lia|lia|congruence|done].
  - eexists. split; [done|]. edestruct Hdone as [H1 H2]; [..|split; [exact H1|]]; simpl; [done|lia|lia|congruence|done].
Qed.

(** ** Clearing *)

Lemma clear_buckets_spec freer (bs : list (list D)) : forall free l bs' free',
  clear_buckets freer bs free = (l, bs', free') ->
  bs' = replicate (length bs) [] /\ l ≡ₚ (if freer then mjoin bs else []) /\ (free' = free + overflow bs)%nat.
Proof.
  induction bs as [|b bs IH]; intros free l bs' free'; cbn [clear_buckets].
  { intros [= <- <- <-]. destruct freer; (split; [done|]; split; [done|]; unfold overflow; simpl; lia). }
  destruct (clear_buckets freer bs _) as [[l1 bs1] free1] eqn:E. destruct (IH _ _ _ _ E) as (-> & Hl & ->).
  rewrite overflow_cons. destruct b as [|h over]; intros [= <- <- <-]; (split; [done|]); simpl; (split; [|lia]); [done|].
  destruct freer; [|done]. rewrite Hl. by rewrite <- Permutation_middle.
Qed.

Lemma empty_inv n freer k : 0 < n ->
  let t := HashTable (@calloc_buckets D n) 0 0 None freer k in hash_inv t /\ contents t = ∅.
Proof.
  intros Hn t. destruct (calloc_facts (D := D) n) as (_ & _ & He).
  split; [split; [split; [by apply calloc_chained| |done]|]|]; unfold contents, entries; cbn [t bucket n_entries]; rewrite He; try done.
  by apply NoDup_nil_2.
Qed.

Lemma hash_clear_spec t l t' :
  hash_inv t -> hash_clear t = (l, t') ->
  hash_inv t' /\ contents t' = ∅ /\ data_freer t' = data_freer t /\ l ≡ₚ (if data_freer t then entries t else []).
Proof.
  intros Hi. unfold hash_clear. destruct (clear_buckets _ _ _) as [[l1 bs1] free1] eqn:E.
  destruct (clear_buckets_spec _ _ _ _ _ _ E) as (-> & Hl & _). intros [= <- <-].
  assert (Hc : calloc_buckets (zlen (bucket t)) = replicate (length (bucket t)) ([] : list D)) by (unfold calloc_buckets, zlen; by rewrite Nat2Z.id).
  pose proof Hi as [[[Hn _ _] _ Ht] _]. rewrite <- Hc, Ht.
  destruct (empty_inv (zlen (bucket t)) (data_freer t) free1) as [H1 H2]; [unfold zlen; lia|]. done.
Qed.

Lemma hash_initialize_spec c freer m :
  0 <= c -> exists o m', hash_initialize c None freer m = Ok (o, m') /\
    match o with Some t => hash_inv t /\ contents t = ∅ /\ data_freer t = freer | None => True end.
Proof.
  intros Hc. unfold hash_initialize. destruct (malloc m) as [[] m1]; [|by eexists None, _]. cbn [negb check_tuning].
  destruct (compute_bucket_size_spec c Hc) as (n & Hn & Hn'). change (tuning_of None) with default_tuning. rewrite Hn. cbn [res_bind].
  destruct (Z.eqb_spec n 0); [by eexists None, _|]. destruct (malloc m1) as [[] m2]; [|by eexists None, _]. cbn [negb].
  eexists (Some _), _. split; [done|]. destruct (empty_inv n freer 0) as [H1 H2]; [lia|]. done.
Qed.

(** ** Walking *)

Lemma hash_table_ok_spec t : table_inv t -> hash_table_ok t = true.
Proof.
  intros [[_ _ Hu] He _]. unfold hash_table_ok.
  assert (Hf : forall bs u n, foldl (fun '(used, n) (b : list D) => match b with [] => (used, n) | _ :: over => (used + 1, n + 1 + zlen over) end) (u, n) bs
    = (u + Z.of_nat (in_use bs), n + zlen (mjoin bs))).
  { induction bs as [|b bs IH]; intros u n; cbn [foldl]; [f_equal; unfold zlen, in_use; simpl; lia|].
    destruct b as [|h over]; rewrite IH, in_use_cons; [done|]. f_equal; [lia|]. unfold zlen. simpl. rewrite length_app. lia. }
  rewrite Hf. simpl. rewrite Hu, He. unfold entries. by rewrite !Z.eqb_refl.
Qed.

Lemma entries_contents t : hash_inv t -> (map_to_list (contents t)).*2 ≡ₚ entries t.
Proof.
  intros [_ Hk]. unfold contents, map_of. rewrite map_to_list_to_map by (by rewrite pair_keys). rewrite <- list_fmap_compose.
  by rewrite list_fmap_id.
Qed.

Lemma n_entries_size t : hash_inv t -> hash_get_n_entries t = Z.of_nat (size (contents t)).
Proof.
  intros Hi. unfold hash_get_n_entries. rewrite (inv_entries t) by apply Hi. unfold zlen. f_equal.
  rewrite <- (Permutation_length (entries_contents t Hi)), length_fmap. by rewrite length_map_to_list.
Qed.

(** The nested loops are one walk over the entries. *)
Lemma chain_for_each_app {S} (f : D -> S -> bool * S) (l k : list D) : forall c s,
  chain_for_each f (l ++ k) c s =
  let '(stop, c, s) := chain_for_each f l c s in if stop then (stop, c, s) else chain_for_each f k c s.
Proof. induction l as [|d l IH]; intros c s; simpl; [done|]. destruct (f d s) as [[] s']; [apply IH|done]. Qed.

Lemma hash_do_for_each_walk {S} (f : D -> S -> bool * S) t s :
  hash_do_for_each f t s = let '(_, c, s) := chain_for_each f (entries t) 0 s in (c, s).
Proof.
  unfold hash_do_for_each, entries. generalize 0. revert s. induction (bucket t) as [|b bs IH]; intros s c; [done|]. cbn [for_each].
  change (mjoin (b :: bs)) with (b ++ mjoin bs). rewrite chain_for_each_app. destruct (chain_for_each f b c s) as [[[] c1] s1]; [done|apply IH].
Qed.

(** A processor that never interrupts sees every entry once. *)
Lemma for_each_all {S} (g : D -> S -> S) (l : list D) : forall c s,
  chain_for_each (fun d s => (true, g d s)) l c s = (false, c + zlen l, foldl (fun s d => g d s) s l).
Proof. induction l as [|d l IH]; intros c s; simpl; [f_equal; f_equal; unfold zlen; simpl; lia|]. rewrite IH. f_equal. f_equal. unfold zlen. simpl. lia. Qed.

Lemma hash_get_entries_take t n : (hash_get_entries t n).1 = take n (entries t).
Proof.
  assert (Hc : forall (b : list D) n l full k, chain_entries b n = (l, full, k) ->
    l = take n b /\ (full = true -> (n < length b)%nat) /\ (full = false -> (length b <= n)%nat /\ k = (n - length b)%nat)).
  { clear t n. induction b as [|d b IH]; intros n l full k; simpl; [intros [= <- <- <-]; rewrite take_nil; split; [done|]; split; [done|lia]|].
    destruct n as [|n]; [intros [= <- <- <-]; split; [done|]; split; [lia|done]|].
    destruct (chain_entries b n) as [[l1 f1] k1] eqn:E. destruct (IH _ _ _ _ E) as (-> & H1 & H2). intros [= <- <- <-]. simpl.
    split; [done|]. split; intros Hx; [specialize (H1 Hx)|specialize (H2 Hx)]; lia. }
  unfold hash_get_entries, entries. simpl. revert n. induction (bucket t) as [|b bs IH]; intros n; simpl; [by rewrite take_nil|].
  destruct (chain_entries b n) as [[l full] k] eqn:E. destruct (Hc _ _ _ _ _ E) as (-> & H1 & H2). destruct full.
  - specialize (H1 eq_refl). by rewrite take_app_le by lia.
  - destruct (H2 eq_refl) as [H3 ->]. rewrite IH, take_app_ge by lia. by rewrite take_ge by lia.
Qed.

Lemma first_head_join (bs : list (list D)) : first_head bs = head (mjoin bs).
Proof. induction bs as [|[|d b] bs IH]; simpl; done. Qed.

Lemma hash_get_first_spec t : hash_inv t -> hash_get_first t = Ok (head (entries t)).
Proof.
  intros Hi. unfold hash_get_first. rewrite (inv_entries t), first_head_join by apply Hi. fold (entries t).
  unfold zlen. destruct (entries t); done.
Qed.

Lemma chain_next_middle d (b1 b2 : list D) : d ∉ b1 -> chain_next d (b1 ++ d :: b2) = head b2.
Proof.
  induction b1 as [|x b1 IH]; intros Hd; simpl.
  - destruct b2; [done|]. by rewrite bool_decide_eq_true_2.
  - apply not_elem_of_cons in Hd as [Hx Hd]. specialize (IH Hd). destruct (b1 ++ d :: b2) as [|y l] eqn:E; [by destruct b1|].
    rewrite bool_decide_eq_false_2 by congruence. done.
Qed.

Lemma nodup_split d (l1 l2 k1 k2 : list D) : d ∉ l1 -> d ∉ k1 -> l1 ++ d :: l2 = k1 ++ d :: k2 -> l1 = k1 /\ l2 = k2.
Proof.
  revert k1. induction l1 as [|x l1 IH]; intros [|y k1] Hl Hk He; simpl in *; injection He; intros.
  - by subst. - subst. exfalso. apply Hk. left. - subst. exfalso. apply Hl. left.
  - subst. apply not_elem_of_cons in Hl as [_ Hl], Hk as [_ Hk]. by destruct (IH k1 Hl Hk H0) as [-> ->].
Qed.

(** [hash_get_next] goes through the entries in the order of [hash_do_for_each]. *)
Lemma hash_get_next_spec t l1 d l2 : hash_inv t -> entries t = l1 ++ d :: l2 -> hash_get_next t d = Ok (head l2).
Proof.
  intros Hi He. pose proof Hi as [[[Hn Hp _] _ _] Hk]. assert (Hnd : NoDup (entries t)) by (by eapply NoDup_fmap_1).
  unfold hash_get_next. rewrite safe_hasher_slot by done. cbn [res_bind]. set (i := slot (length (bucket t)) d).
  pose proof (bucket_at_lookup t d Hn) as Hb. fold i in Hb. set (b := bucket_at t i) in *.
  assert (Hsplit : entries t = mjoin (take i (bucket t)) ++ b ++ mjoin (drop (S i) (bucket t))).
  { unfold entries. rewrite <- (take_drop_middle _ _ _ Hb) at 1. by rewrite join_app. }
  assert (Hd : d ∈ b).
  { apply (proj1 (contents_bucket t d d Hi)). apply map_of_lookup; [done|]. split; [rewrite He; set_solver|done]. }
  apply list_elem_of_split in Hd as (b1 & b2 & Hd). rewrite Hd in Hsplit |- *.
  assert (d ∉ mjoin (take i (bucket t)) ++ b1) as Hn1.
  { rewrite Hsplit, <- (app_assoc b1), (app_assoc (mjoin _)) in Hnd. apply NoDup_app in Hnd as (_ & Hx & _). intros Hin. apply (Hx d Hin). simpl. left. }
  assert (d ∉ l1) as Hn2. { rewrite He in Hnd. apply NoDup_app in Hnd as (_ & Hx & _). intros Hin. apply (Hx d Hin). left. }
  rewrite chain_next_middle by (intros ?; apply Hn1; set_solver).
  destruct (nodup_split d l1 l2 (mjoin (take i (bucket t)) ++ b1) (b2 ++ mjoin (drop (S i) (bucket t)))) as [_ ->]; [done|done| |].
  - rewrite <- He, Hsplit. by rewrite <- !app_assoc.
  - rewrite first_head_join. by destruct b2.
Qed.
End map.
