(* ===== verification/HashRefine.v ===== *)
(** The contract of lib/hash.c: a program of table operations, with any
    allocations failing, is a run of the operations of a finite map. *)
From S2P Require Import Prelude HashSize Hash HashInv HashMap.
From stdpp Require Import base list numbers gmap.
From Stdlib Require Import ZArith Znumtheory Lia SpecFloat.

#[local] Open Scope Z_scope.

(** The operations that read or change a table. *)
Inductive hash_op (D : Type) :=
  | OpLookup (e : D)
  | OpInsert (e : D)
  | OpInsertIfAbsent (e : D)
  | OpDelete (e : D)
  | OpRehash (candidate : Z)
  | OpClear
  | OpCount.
Arguments OpLookup {D}.
Arguments OpInsert {D}.
Arguments OpInsertIfAbsent {D}.
Arguments OpDelete {D}.
Arguments OpRehash {D}.
Arguments OpClear {D}.
Arguments OpCount {D}.

(** What they return. *)
Inductive hash_out (D : Type) :=
  | OutData (d : option D)
  | OutCode (r : Z) (matched_ent : option D)
  | OutBool (b : bool)
  | OutFreed (l : list D)
  | OutCount (n : Z).
Arguments OutData {D}.
Arguments OutCode {D}.
Arguments OutBool {D}.
Arguments OutFreed {D}.
Arguments OutCount {D}.

Section run.
Context {D : Type} `{!EqDecision D} `{!HashFns D}.

Definition run_op (t : Hash_table D) (o : hash_op D) (m : mem) : res (hash_out D * Hash_table D * mem) :=
  match o with
  | OpLookup e => let* x := hash_lookup t e in Ok (OutData x, t, m)
  | OpInsert e => let* '(x, t, m) := hash_insert t e m in Ok (OutData x, t, m)
  | OpInsertIfAbsent e => let* '(r, x, t, m) := hash_insert_if_absent t (Some e) m in Ok (OutCode r x, t, m)
  | OpDelete e => let* '(x, t, m) := hash_delete t e m in Ok (OutData x, t, m)
  | OpRehash c => let* '(b, t, m) := hash_rehash t c m in Ok (OutBool b, t, m)
  | OpClear => let '(l, t) := hash_clear t in Ok (OutFreed l, t, m)
  | OpCount => Ok (OutCount (hash_get_n_entries t), t, m)
  end.

Fixpoint run_ops (t : Hash_table D) (os : list (hash_op D)) (m : mem) : res (list (hash_out D) * Hash_table D * mem) :=
  match os with
  | [] => Ok ([], t, m)
  | o :: os =>
      let* '(x, t, m) := run_op t o m in
      let* '(xs, t, m) := run_ops t os m in
      Ok (x :: xs, t, m)
  end.

(** A run that may be short of memory: at some insertion an allocation that is
    still to come fails, or the table has reached the threshold at which it has to grow. *)
Fixpoint ever_short (t : Hash_table D) (os : list (hash_op D)) (m : mem) : bool :=
  match os with
  | [] => false
  | o :: os =>
      match o with OpInsert _ | OpInsertIfAbsent _ => bool_decide (false ∈ m) || over_threshold t | _ => false end
      || match run_op t o m with Ok (_, t, m) => ever_short t os m | Crash _ => false end
  end.

(** [size_t] arguments. *)
Definition op_ok (o : hash_op D) : Prop := match o with OpRehash c => 0 <= c | _ => True end.
End run.

Section refine.
Context {D K : Type} `{!EqDecision D} `{!HashFns D} `{!HashRange D} `{Countable K} (key : D -> K) `{!HashKey D K key}.

(** The steps of a finite map; [freer] tells whether the table has a
    [data_freer], and [short] whether an insertion of a new key may fail. *)
Inductive map_step (freer short : bool) : gmap K D -> hash_op D -> hash_out D -> gmap K D -> Prop :=
  | step_lookup M e : map_step freer short M (OpLookup e) (OutData (M !! key e)) M
  | step_insert_new M e : M !! key e = None -> map_step freer short M (OpInsert e) (OutData (Some e)) (<[key e := e]> M)
  | step_insert_old M e d : M !! key e = Some d -> map_step freer short M (OpInsert e) (OutData (Some d)) M
  | step_insert_fail M e : short = true -> M !! key e = None -> map_step freer short M (OpInsert e) (OutData None) M
  | step_absent_new M e : M !! key e = None -> map_step freer short M (OpInsertIfAbsent e) (OutCode 1 None) (<[key e := e]> M)
  | step_absent_old M e d : M !! key e = Some d -> map_step freer short M (OpInsertIfAbsent e) (OutCode 0 (Some d)) M
  | step_absent_fail M e : short = true -> M !! key e = None -> map_step freer short M (OpInsertIfAbsent e) (OutCode (-1) None) M
  | step_delete M e : map_step freer short M (OpDelete e) (OutData (M !! key e)) (delete (key e) M)
  | step_rehash M c b : map_step freer short M (OpRehash c) (OutBool b) M
  | step_clear M l : l ≡ₚ (if freer then (map_to_list M).*2 else []) -> map_step freer short M OpClear (OutFreed l) ∅
  | step_count M : map_step freer short M OpCount (OutCount (Z.of_nat (size M))) M.

Inductive map_steps (freer short : bool) : gmap K D -> list (hash_op D) -> list (hash_out D) -> gmap K D -> Prop :=
  | steps_nil M : map_steps freer short M [] [] M
  | steps_cons M o x M' os xs M'' :
      map_step freer short M o x M' -> map_steps freer short M' os xs M'' -> map_steps freer short M (o :: os) (x :: xs) M''.

Hint Constructors map_step map_steps : core.

(** The simulation, for one operation. *)
Lemma run_op_sim t o m : hash_inv key t -> op_ok o ->
  exists x t' m', run_op t o m = Ok (x, t', m') /\ hash_inv key t' /\ data_freer t' = data_freer t /\
    map_step (data_freer t) (ever_short t [o] m) (contents key t) o x (contents key t').
Proof.
  assert (Hs : forall b, false ∈ m \/ over_threshold t = true -> bool_decide (false ∈ m) || over_threshold t || b = true).
  { intros b [?| ->]; [by rewrite bool_decide_eq_true_2|by rewrite orb_true_r]. }
  intros Hi Ho. destruct o as [e|e|e|e|c| |]; simpl in Ho; unfold ever_short; cbn [run_op].
  - rewrite (hash_lookup_spec key) by done. eexists _, _, _. eauto.
  - destruct (hash_insert_spec key t e m Hi) as (x & t' & m' & -> & Hi' & Hf & Hr). eexists _, _, _. do 3 (split; [done|]).
    destruct (contents key t !! key e) eqn:E; [destruct Hr as (-> & ->); eauto|]. destruct Hr as [[-> ->]|(-> & -> & ?)]; eauto.
  - destruct (hash_insert_if_absent_spec key t e m Hi) as (r & x & t' & m' & -> & Hi' & Hf & Hr). eexists _, _, _. do 3 (split; [done|]).
    destruct (contents key t !! key e) eqn:E; [destruct Hr as (-> & -> & ->); eauto|]. destruct Hr as (-> & [[-> ->]|(-> & -> & ?)]); eauto.
  - destruct (hash_delete_spec key t e m Hi) as (t' & -> & Hi' & Hf & Hc). eexists _, _, _. do 3 (split; [done|]). rewrite Hc. eauto.
  - destruct (compute_bucket_size_spec c Ho) as (n & Hn & Hn').
    destruct (hash_rehash_spec t c n m) as (ok & t' & m' & -> & Ht' & Hp & Hf & _); [apply Hi|by rewrite (inv_tuning t) by apply Hi|lia|].
    destruct (perm_contents key t t' Hi Ht' Hp) as [Hi' Hc]. eexists _, _, _. do 3 (split; [done|]). rewrite Hc. eauto.
  - destruct (hash_clear t) as [l t'] eqn:E. destruct (hash_clear_spec key t l t' Hi E) as (Hi' & Hc & Hf & Hl). eexists _, _, _. do 3 (split; [done|]).
    rewrite Hc. constructor. rewrite Hl. destruct (data_freer t); [|done]. by rewrite (entries_contents key).
  - rewrite (n_entries_size key) by done. eexists _, _, _. eauto.
Qed.

Lemma map_step_short freer b b' M o x M' : (b = true -> b' = true) -> map_step freer b M o x M' -> map_step freer b' M o x M'.
Proof. intros Hb Hs. destruct Hs; eauto. Qed.

Lemma map_steps_short freer b b' M os xs M' : (b = true -> b' = true) -> map_steps freer b M os xs M' -> map_steps freer b' M os xs M'.
Proof. intros Hb Hs. induction Hs; [done|]. econstructor; [by eapply map_step_short|done]. Qed.

Lemma run_ops_sim os : forall t m, hash_inv key t -> Forall op_ok os ->
  exists xs t' m', run_ops t os m = Ok (xs, t', m') /\ hash_inv key t' /\
    map_steps (data_freer t) (ever_short t os m) (contents key t) os xs (contents key t').
Proof.
  induction os as [|o os IH]; intros t m Hi Hos; cbn [run_ops]; [eexists _, _, _; eauto|].
  apply Forall_cons_1 in Hos as [Ho Hos]. destruct (run_op_sim t o m Hi Ho) as (x & t1 & m1 & E & Hi1 & Hf & Hs).
  destruct (IH t1 m1 Hi1 Hos) as (xs & t2 & m2 & E2 & Hi2 & Hss). rewrite Hf in Hss.
  exists (x :: xs), t2, m2. rewrite E. cbn [res_bind]. rewrite E2. split; [done|]. split; [done|]. econstructor.
  - eapply map_step_short; [|exact Hs]. unfold ever_short at 1. fold (ever_short t (o :: os) m). cbn [ever_short]. rewrite E, orb_false_r. by intros ->.
  - eapply map_steps_short; [|exact Hss]. intros Hb. cbn [ever_short]. by rewrite E, Hb, orb_true_r.
Qed.

Lemma run_ops_inv t os m xs t' m' : hash_inv key t -> Forall op_ok os -> run_ops t os m = Ok (xs, t', m') -> hash_inv key t'.
Proof. intros Hi Hos E. destruct (run_ops_sim os t m Hi Hos) as (? & ? & ? & E' & Hi' & _). rewrite E in E'. by injection E' as -> -> ->. Qed.


(** C34.  Every operation keeps the representation of a table: each datum is in the
    bucket its hash names, no key is there twice, the counters are those of the
    buckets (so that [hash_table_ok] accepts the table), and they are in their ranges. *)
Theorem hash_representation t o m :
  hash_inv key t -> op_ok o ->
  exists x t' m', run_op t o m = Ok (x, t', m') /\ hash_inv key t' /\ hash_table_ok t' = true /\
    hash_get_n_entries t' = Z.of_nat (size (contents key t')) /\ 0 <= hash_get_n_buckets_used t' <= hash_get_n_buckets t'.
Proof.
  intros Hi Ho. destruct (run_op_sim t o m Hi Ho) as (x & t' & m' & -> & Hi' & _). eexists _, _, _. split; [done|]. split; [done|].
  split; [by apply hash_table_ok_spec, Hi'|]. split; [by apply n_entries_size|].
  unfold hash_get_n_buckets_used. rewrite (chained_used t') by apply Hi'. split; [lia|]. unfold hash_get_n_buckets, zlen, in_use.
  induction (bucket t') as [|b bs IH]; simpl; [done|]. destruct b; lia.
Qed.

(** C35.  [hash_rehash] has no fatal error: whatever the allocations answer it
    returns, without the [abort] behind a failed undo; after a failure the table has its
    old number of buckets, and in both cases the same data. *)
Theorem hash_rehash_error t candidate m :
  hash_inv key t -> 0 <= candidate ->
  exists ok t' m', hash_rehash t candidate m = Ok (ok, t', m') /\ hash_inv key t' /\ contents key t' = contents key t /\
    (ok = false -> hash_get_n_buckets t' = hash_get_n_buckets t).
Proof.
  intros Hi Hc. destruct (compute_bucket_size_spec candidate Hc) as (n & Hn & Hn').
  destruct (hash_rehash_spec t candidate n m) as (ok & t' & m' & -> & Ht' & Hp & _ & Hb); [apply Hi|by rewrite (inv_tuning t) by apply Hi|lia|].
  destruct (perm_contents key t t' Hi Ht' Hp) as [Hi' Hk]. eexists _, _, _. split; [done|]. split; [done|]. split; [done|]. by intros ->.
Qed.
End refine.

(** C36.  [next_prime] ends for every [size_t], and gives the least prime that is
    neither below the candidate nor below 11, as long as squares of divisors fit in a [size_t]. *)
Theorem next_prime_least n :
  0 <= n <= SIZE_MAX ->
  exists r, next_prime n = Ok r /\ n `max` 11 <= r <= SIZE_MAX /\
    (r <= prime_max -> prime r /\ forall p, n `max` 11 <= p < r -> ~ prime p).
Proof.
  intros Hn. destruct (next_prime_spec n Hn) as (r & -> & Hr & _ & Hno & Hp). exists r. split; [done|]. split; [done|].
  intros Hm. split; [by apply Hp|]. intros p Hpr. apply Hno; lia.
Qed.

(** ** Tables of raw pointers *)

(** A table made with a NULL hasher and a NULL comparator. *)
#[export] Instance raw_fns : HashFns Z := {| hasher := raw_hasher; comparator := raw_comparator |}.

#[export] Instance raw_range : HashRange Z.
Proof. intros d n Hn. simpl. unfold raw_hasher. apply Z.mod_pos_bound. lia. Qed.

#[export] Instance raw_key : HashKey Z Z id.
Proof.
  split; [intros d e n Hk; unfold id in Hk; by subst|]. intros d e. simpl. unfold raw_comparator. destruct (Z.eqb_spec d e); case_bool_decide; simpl in *; done.
Qed.

(** Three pointers that have buckets of their own among 11 and share one among 13. *)
Definition three : list (hash_op Z) := [OpInsert 0; OpInsert 104; OpInsert 208].
Definition empty11 : Hash_table Z := HashTable (calloc_buckets 11) 0 0 None true 0.
Definition table11 : Hash_table Z := HashTable [[0]; []; [104]; []; [208]; []; []; []; []; []; []] 3 3 None true 0.

Example three_inserted : run_ops empty11 three [] = Ok ([OutData (Some 0); OutData (Some 104); OutData (Some 208)], table11, []).
Proof. vm_compute. reflexivity. Qed.

Lemma table11_inv : hash_inv id table11.
Proof. refine (run_ops_inv id empty11 three [] _ _ _ _ _ three_inserted); [by apply empty_inv|by repeat constructor]. Qed.

(** The transfer of the second one fails: the table is put together again. *)
Example rehash_undone : hash_rehash table11 10 [true; false] = Ok (false, table11, []).
Proof. vm_compute. reflexivity. Qed.

Example rehash_done : hash_rehash table11 10 [true; true; true] =
  Ok (true, HashTable ([0; 208; 104] :: replicate 12 []) 1 3 None true 0, []).
Proof. vm_compute. reflexivity. Qed.


Lemma hash_representation_witness :
  exists x t' m', run_op table11 (OpDelete 104) [] = Ok (x, t', m') /\ hash_inv id t' /\ hash_table_ok t' = true /\
    hash_get_n_entries t' = Z.of_nat (size (contents id t')) /\ 0 <= hash_get_n_buckets_used t' <= hash_get_n_buckets t'.
Proof. apply (hash_representation id table11 (OpDelete 104) []); [exact table11_inv|done]. Defined.

Lemma hash_rehash_error_witness :
  exists ok t' m', hash_rehash table11 10 [true; false] = Ok (ok, t', m') /\ hash_inv id t' /\ contents id t' = contents id table11 /\
    (ok = false -> hash_get_n_buckets t' = hash_get_n_buckets table11).
Proof. apply (hash_rehash_error id table11 10 [true; false]); [exact table11_inv|lia]. Defined.

Lemma next_prime_least_witness :
  exists r, next_prime 125 = Ok r /\ 125 `max` 11 <= r <= SIZE_MAX /\
    (r <= prime_max -> prime r /\ forall p, 125 `max` 11 <= p < r -> ~ prime p).
Proof. apply (next_prime_least 125). unfold SIZE_MAX. lia. Defined.
