(* ===== verification/HashUse.v ===== *)
(** The hash tables of cmogstored: the hash functions of its tables satisfy what
    lib/hash.c asks of them, and the table of child processes (process.c), as it is
    kept by lib/hash.c, is the map of Master.v. *)
From S2P Require Import Prelude HashSize Hash HashInv HashMap Master.
From stdpp Require Import base list numbers gmap.
From Stdlib Require Import ZArith Lia.

#[local] Open Scope Z_scope.

(** ** Hash functions and comparators of the tables, on the fields they read *)

(** What a user of lib/hash.c promises: the hash of a key is a bucket, and the
    comparator compares keys. *)
Class KeyHash {K : Type} `{!EqDecision K} (hash : K -> Z -> Z) (cmp : K -> K -> bool) : Prop := {
  hash_range : forall k n, 0 < n -> 0 <= hash k n < n;
  cmp_key : forall a b, cmp a b = bool_decide (a = b)
}.

(** [strcmp (a, b) == 0], on the characters in front of the NUL. *)
Definition strcmp_eq (a b : list Z) : bool := bool_decide (a = b).

(** Services by docroot (svc.c). *)
Definition svc_hash (docroot : list Z) (tablesize : Z) : Z := hash_string docroot tablesize.
Definition svc_cmp (a b : list Z) : bool := strcmp_eq a b.
(** Configurations by file name (cfg.c). *)
Definition cfg_hash (configfile : list Z) (tablesize : Z) : Z := hash_string configfile tablesize.
Definition cfg_cmp (a b : list Z) : bool := strcmp_eq a b.
(** Utilizations, mounts, digest queues and lists of devices by [st_dev]. *)
Definition iou_hash (st_dev tablesize : Z) : Z := wrap_u64 st_dev mod tablesize.
Definition iou_cmp (a b : Z) : bool := a =? b.
Definition me_hash (me_dev tablesize : Z) : Z := wrap_u64 me_dev mod tablesize.
Definition me_cmp (a b : Z) : bool := a =? b.
Definition fq_hash (st_dev tablesize : Z) : Z := wrap_u64 st_dev mod tablesize.
Definition fq_cmp (a b : Z) : bool := a =? b.
Definition devlist_hash (st_dev tablesize : Z) : Z := wrap_u64 st_dev mod tablesize.
Definition devlist_cmp (a b : Z) : bool := a =? b.
(** Devices by their number (svc_dev.c), an unsigned of 32 bits. *)
Definition devid_hash (devid tablesize : Z) : Z := wrap_u32 devid mod tablesize.
Definition devid_cmp (a b : Z) : bool := a =? b.
(** Children by [pid_t] (process.c), which is converted to [size_t]. *)
Definition process_hash (pid tablesize : Z) : Z := wrap_u64 pid mod tablesize.
Definition process_cmp (a b : Z) : bool := a =? b.
(** Inherited listeners by the bytes of their address (inherit.c). *)
Definition listener_hash (addr : list Z) (tablesize : Z) : Z :=
  foldl (fun value byte => wrap_u64 (wrap_u64 (value * 31) + byte) mod tablesize) 0 addr.
Definition listener_cmp (a b : list Z) : bool := (zlen a =? zlen b) && bool_decide (a = b).

Lemma foldl_mod_range {A} (f : Z -> A -> Z) n l : 0 < n -> 0 <= foldl (fun v x => f v x mod n) 0 l < n.
Proof.
  intros Hn. assert (H : forall v, 0 <= v < n -> 0 <= foldl (fun v x => f v x mod n) v l < n); [|apply H; lia].
  induction l as [|x l IH]; intros v Hv; simpl; [done|]. apply IH, Z.mod_pos_bound, Hn.
Qed.

Lemma eqb_decide a b : (a =? b) = bool_decide (a = b).
Proof. destruct (Z.eqb_spec a b); by case_bool_decide. Qed.

#[export] Instance svc_key_hash : KeyHash svc_hash svc_cmp.
Proof. split; [intros; by apply (foldl_mod_range (fun v ch => wrap_u64 (wrap_u64 (v * 31) + ch mod 256)))|done]. Qed.
#[export] Instance cfg_key_hash : KeyHash cfg_hash cfg_cmp.
Proof. split; [intros; by apply (foldl_mod_range (fun v ch => wrap_u64 (wrap_u64 (v * 31) + ch mod 256)))|done]. Qed.
#[export] Instance listener_key_hash : KeyHash listener_hash listener_cmp.
Proof.
  split; [intros; by apply (foldl_mod_range (fun v b => wrap_u64 (wrap_u64 (v * 31) + b)))|].
  intros a b. unfold listener_cmp. case_bool_decide; subst; [by rewrite Z.eqb_refl|apply andb_false_r].
Qed.
#[export] Instance iou_key_hash : KeyHash iou_hash iou_cmp.
Proof. split; [intros; by apply Z.mod_pos_bound|apply eqb_decide]. Qed.
#[export] Instance me_key_hash : KeyHash me_hash me_cmp.
Proof. split; [intros; by apply Z.mod_pos_bound|apply eqb_decide]. Qed.
#[export] Instance fq_key_hash : KeyHash fq_hash fq_cmp.
Proof. split; [intros; by apply Z.mod_pos_bound|apply eqb_decide]. Qed.
#[export] Instance devlist_key_hash : KeyHash devlist_hash devlist_cmp.
Proof. split; [intros; by apply Z.mod_pos_bound|apply eqb_decide]. Qed.
#[export] Instance devid_key_hash : KeyHash devid_hash devid_cmp.
Proof. split; [intros; by apply Z.mod_pos_bound|apply eqb_decide]. Qed.
#[export] Instance process_key_hash : KeyHash process_hash process_cmp.
Proof. split; [intros; by apply Z.mod_pos_bound|apply eqb_decide]. Qed.

(** Data with a key field are data of a table. *)
Section keyed.
Context {D K : Type} `{!EqDecision K} (hash : K -> Z -> Z) (cmp : K -> K -> bool) `{!KeyHash hash cmp} (field : D -> K).

Definition keyed_fns : HashFns D := {| hasher d n := hash (field d) n; comparator a b := cmp (field a) (field b) |}.

Lemma keyed_range : @HashRange D keyed_fns.
Proof. intros d n Hn. exact (hash_range (field d) n Hn). Qed.

Lemma keyed_key : @HashKey D K keyed_fns _ field.
Proof. split; simpl; [intros d e n Hk; by rewrite Hk|intros d e; exact (cmp_key (field d) (field e))]. Qed.
End keyed.

(** ** The table of child processes (process.c) *)

Record mog_process := MogProcess { pid : Z; id : Z }.

#[export] Instance mog_process_eq_dec : EqDecision mog_process.
Proof. solve_decision. Defined.

#[export] Instance process_fns : HashFns mog_process := keyed_fns process_hash process_cmp pid.
#[export] Instance process_range : HashRange mog_process := keyed_range process_hash process_cmp pid.
#[export] Instance process_key : HashKey mog_process Z pid := keyed_key process_hash process_cmp pid.

Abbreviation proc_table := (Hash_table mog_process).

(** [mog_process_init]; [mog_oom] ends the program. *)
Definition process_init (nr : Z) (m : mem) : res (proc_table * mem) :=
  let* '(o, m) := hash_initialize (if nr <? 3 then 3 else nr) None true m in
  match o with Some t => Ok (t, m) | None => Crash Died end.

(** [mog_process_register] *)
Definition process_register (pid id : Z) (t : proc_table) (m : mem) : res (proc_table * mem) :=
  let '(ok, m) := malloc m in
  if negb ok then Crash Died
  else
    assert! negb (id =? MOG_PROC_UNKNOWN);
    let* '(r, t, m) := hash_insert t (MogProcess pid id) m in
    match r with None => Crash Died | Some _ => Ok (t, m) end.

(** [mog_process_reaped] *)
Definition process_reaped (pid : Z) (t : proc_table) (m : mem) : res (Z * proc_table * mem) :=
  let* '(r, t, m) := hash_delete t (MogProcess pid MOG_PROC_UNKNOWN) m in
  Ok (match r with Some r => id r | None => MOG_PROC_UNKNOWN end, t, m).

(** [kill_worker], with [count] of the [struct worker_kill]. *)
Definition kill_worker (p : mog_process) (wk : res Z) : bool * res Z :=
  if id p =? MOG_PROC_UNKNOWN then (false, Crash AssertFailed)
  else if negb (mog_process_is_worker (id p)) then (true, wk)
  else (true, let* count := wk in Ok (wrap_u32 (count + 1))).

(** [mog_kill_each_worker] *)
Definition process_kill_each (t : proc_table) : res Z := (hash_do_for_each kill_worker t (Ok 0)).2.

(** [mog_process_reset] *)
Definition process_reset (t : proc_table) : proc_table := (hash_clear t).2.

(** The map of Master.v. *)
Definition procs_of (t : proc_table) : processes := id <$> contents pid t.

Lemma kill_each_perm ps ps' : ps ≡ₚ ps' -> forall c, kill_each ps c = kill_each ps' c.
Proof.
  induction 1 as [|[p i] ps ps' _ IH|[p i] [q j] ps|ps1 ps2 ps3 _ IH1 _ IH2]; intros c; simpl; [done| | |by rewrite IH1].
  - by rewrite IH.
  - unfold assert_. destruct (i =? MOG_PROC_UNKNOWN), (j =? MOG_PROC_UNKNOWN), (mog_process_is_worker i), (mog_process_is_worker j); done.
Qed.

Lemma kill_worker_walk l : forall n c,
  (chain_for_each kill_worker l n (Ok c)).2 = kill_each ((fun p => (pid p, id p)) <$> l) c.
Proof.
  induction l as [|p l IH]; intros n c; simpl; [done|]. unfold kill_worker at 1, assert_.
  destruct (id p =? MOG_PROC_UNKNOWN); simpl; [done|]. destruct (mog_process_is_worker (id p)); simpl; apply IH.
Qed.

Lemma process_kill_each_spec t : hash_inv pid t -> process_kill_each t = mog_kill_each_worker (procs_of t).
Proof.
  intros Hi. unfold process_kill_each, mog_kill_each_worker. rewrite hash_do_for_each_walk.
  transitivity (chain_for_each kill_worker (entries t) 0 (Ok 0)).2; [by destruct (chain_for_each _ _ _ _) as [[? ?] ?]|].
  rewrite kill_worker_walk. apply kill_each_perm. unfold procs_of. rewrite map_to_list_fmap. unfold contents, map_of.
  rewrite map_to_list_to_map by (rewrite pair_keys; apply Hi). by rewrite <- list_fmap_compose.
Qed.

Lemma procs_lookup t p : procs_of t !! p = id <$> contents pid t !! p.
Proof. apply lookup_fmap. Qed.

Inductive process_op :=
  | PRegister (pid id : Z)
  | PReaped (pid : Z)
  | PKillEach
  | PReset.

(** An operation of process.c on its table, and on the map of Master.v. *)
Definition process_step (t : proc_table) (o : process_op) (m : mem) : res (Z * proc_table * mem) :=
  match o with
  | PRegister p i => let* '(t, m) := process_register p i t m in Ok (0, t, m)
  | PReaped p => process_reaped p t m
  | PKillEach => let* n := process_kill_each t in Ok (n, t, m)
  | PReset => Ok (0, process_reset t, m)
  end.

Definition procs_step (M : processes) (o : process_op) : res (Z * processes) :=
  match o with
  | PRegister p i => let* M := mog_process_register p i M in Ok (0, M)
  | PReaped p => Ok (mog_process_reaped p M)
  | PKillEach => let* n := mog_kill_each_worker M in Ok (n, M)
  | PReset => Ok (0, mog_process_reset M)
  end.

(** Memory that may be short: see [hash_insert_if_absent_spec]. *)
Definition short (t : proc_table) (m : mem) : Prop := false ∈ m \/ over_threshold t = true.

Lemma process_register_sim p i t m : hash_inv pid t ->
  match mog_process_register p i (procs_of t), process_register p i t m with
  | Ok M', Ok (t', _) => hash_inv pid t' /\ procs_of t' = M'
  | Ok _, Crash w => w = Died /\ short t m
  | Crash w, Crash w' => w' = w \/ w' = Died /\ short t m
  | Crash _, Ok _ => False
  end.
Proof.
  intros Hi. unfold mog_process_register, process_register, assert_. destruct (malloc m) as [ok m1] eqn:Em.
  assert (Hs : ok = false -> short t m) by (intros ->; left; by eapply malloc_fails).
  assert (Hs1 : false ∈ m1 -> false ∈ m) by (destruct m; simpl in Em; injection Em as <- <-; [done|by right]).
  destruct ok; cbn [negb]; [|specialize (Hs eq_refl); destruct (negb _); auto]. destruct (i =? MOG_PROC_UNKNOWN); cbn [negb]; [by left|].
  destruct (hash_insert_spec pid t (MogProcess p i) m1 Hi) as (r & t' & m' & -> & Hi' & _ & Hr). cbn [res_bind]. rewrite procs_lookup.
  change (pid (MogProcess p i)) with p in Hr. destruct (contents pid t !! p) as [d|]; simpl.
  - by destruct Hr as (-> & ->).
  - destruct Hr as [[-> Hc]|(-> & _ & Hshort)].
    + split; [done|]. unfold procs_of. by rewrite Hc, fmap_insert.
    + split; [done|]. destruct Hshort; [left; auto|by right].
Qed.

Lemma process_reaped_sim p t m : hash_inv pid t -> exists t',
  process_reaped p t m = Ok ((mog_process_reaped p (procs_of t)).1, t', m) /\ hash_inv pid t' /\
  procs_of t' = (mog_process_reaped p (procs_of t)).2.
Proof.
  intros Hi. unfold process_reaped, mog_process_reaped.
  destruct (hash_delete_spec pid t (MogProcess p MOG_PROC_UNKNOWN) m Hi) as (t' & -> & Hi' & _ & Hc). cbn [res_bind].
  change (pid (MogProcess p MOG_PROC_UNKNOWN)) with p in *. exists t'. rewrite procs_lookup.
  assert (Hp : procs_of t' = delete p (procs_of t)) by (unfold procs_of; by rewrite Hc, fmap_delete).
  pose proof (procs_lookup t p) as Hl. destruct (contents pid t !! p) as [d|]; simpl in *; (split; [done|]); (split; [done|]); [done|].
  by rewrite Hp, delete_id.
Qed.


(** A table with the children 7 (a worker) and 18 (iostat), whose buckets collide. *)
Definition table_7_18 : proc_table :=
  HashTable [[]; []; []; []; []; []; []; [MogProcess 7 0; MogProcess 18 MOG_PROC_IOSTAT]; []; []; []] 1 2 None true 0.

Example table_7_18_made :
  (let* '(t, m) := process_init 3 [] in
   let* '(t, m) := process_register 7 0 t m in
   process_register 18 MOG_PROC_IOSTAT t m) = Ok (table_7_18, []).
Proof. vm_compute. reflexivity. Qed.

Example table_7_18_kill : process_kill_each table_7_18 = Ok 1.
Proof. vm_compute. reflexivity. Qed.

Lemma table_7_18_inv : hash_inv pid table_7_18.
Proof.
  destruct (empty_inv (D := mog_process) pid 11 true 0 ltac:(lia)) as [H0 _].
  destruct (hash_insert_spec pid _ (MogProcess 7 0) [] H0) as (r1 & t1 & m1 & E1 & H1 & _). vm_compute in E1. injection E1 as <- <- <-.
  destruct (hash_insert_spec pid _ (MogProcess 18 MOG_PROC_IOSTAT) [] H1) as (r2 & t2 & m2 & E2 & H2 & _). vm_compute in E2. injection E2 as <- <- <-.
  exact H2.
Qed.

