(* ===== verification/Alloc.v ===== *)
(** Read buffers in memory (alloc.c): every thread has one, clients take it along
    when they have to wait, and buffers are grown and freed.  Here they are objects
    with an address in a heap: HttpQueue.v and Mgmt.v, which handle them by value,
    rely on nobody else using or freeing the buffer of a client. *)
From S2P Require Import Prelude Http TryWrite HttpResp World HttpParser HttpGet HttpPut HttpQueue.
From stdpp Require Import base list numbers gmap fin_maps fin_map_dom.
From Stdlib Require Import ZArith Lia.

#[local] Open Scope Z_scope.

(** ** The heap *)

(** Who has a pointer to a buffer: [tls_rbuf] of a thread, or [rbuf] of a client
    ([http->rbuf], [mgmt->rbuf]). *)
Abbreviation holder := (nat + Z)%type.
Abbreviation Tls := (@inl nat Z).
Abbreviation Client := (@inr nat Z).

(** The buffers that are allocated, by address, and the pointers that are not NULL. *)
Record store := Store { bufs : gmap Z rbuf; ptrs : gmap holder Z }.

Definition set_ptr (h : holder) (p : option Z) (s : store) : store :=
  Store (bufs s) (match p with Some a => <[h := a]> (ptrs s) | None => delete h (ptrs s) end).

Section Heap.
(** The address [malloc] gives, from those in use. *)
Variable malloc : gset Z -> Z.

Definition allocate (b : rbuf) (s : store) : Z * store :=
  let a := malloc (dom (bufs s)) in (a, Store (<[a := b]> (bufs s)) (ptrs s)).

(** [free]: of NULL, or of something that is allocated. *)
Definition free (p : option Z) (s : store) : res store :=
  match p with
  | None => Ok s
  | Some a => match bufs s !! a with Some _ => Ok (Store (delete a (bufs s)) (ptrs s)) | None => Crash OutOfBounds end
  end.

(** A dereference. *)
Definition load (a : Z) (s : store) : res rbuf :=
  match bufs s !! a with Some b => Ok b | None => Crash OutOfBounds end.

(** [rsize] bytes written to a buffer. *)
Definition store_data (a : Z) (data : list Z) (s : store) : res store :=
  let* b := load a s in
  if zlen data <=? rcapa b then Ok (Store (<[a := Rbuf (rcapa b) data]> (bufs s)) (ptrs s)) else Crash OutOfBounds.

Definition rbuf_new (size : Z) (s : store) : res (Z * store) :=
  assert! 0 <? size; Ok (allocate (Rbuf size []) s).

Definition rbuf_replace (th : nat) (p : option Z) (size : Z) (s : store) : res (Z * store) :=
  let* s := free p s in
  let* '(a, s) := rbuf_new size s in
  Ok (a, set_ptr (Tls th) (Some a) s).

Definition mog_rbuf_get (th : nat) (size : Z) (s : store) : res (Z * store) :=
  match ptrs s !! Tls th with
  | Some a =>
      let* b := load a s in
      if size <=? rcapa b then Ok (a, s) else rbuf_replace th (Some a) size s
  | None => rbuf_replace th None size s
  end.

Definition mog_rbuf_detach (th : nat) (a : Z) (s : store) : Z * store :=
  (a, if bool_decide (ptrs s !! Tls th = Some a) then set_ptr (Tls th) None s else s).

Definition mog_rbuf_free (th : nat) (p : option Z) (s : store) : res store :=
  assert! match p with None => true | Some a => bool_decide (ptrs s !! Tls th <> Some a) end;
  free p s.

Definition rbuf_free_and_null (th : nat) (h : holder) (s : store) : res store :=
  let* s := mog_rbuf_free th (ptrs s !! h) s in
  Ok (set_ptr h None s).

(** [mog_rbuf_grow (cur)]. *)
Definition rbuf_grow (th : nat) (cur : Z) (s : store) : res (option Z * store) :=
  let* b := load cur s in
  let rsize := zlen (rdata b) in
  let new_size := rsize + 500 in
  let in_tls := bool_decide (ptrs s !! Tls th = Some cur) in
  if rsize =? MOG_RBUF_MAX_SIZE then
    assert! negb in_tls;
    let* s := free (Some cur) s in
    Ok (None, s)
  else
    assert! rsize <? MOG_RBUF_MAX_SIZE;
    let new_size := if MOG_RBUF_MAX_SIZE <? new_size then MOG_RBUF_MAX_SIZE else new_size in
    if rcapa b <? new_size then
      if rcapa b =? MOG_RBUF_BASE_SIZE then
        let* '(ret, s) := rbuf_new new_size s in
        let* s := store_data ret (rdata b) s in
        let* s := if negb in_tls then mog_rbuf_free th (Some cur) s else Ok s in
        Ok (Some ret, s)
      else
        assert! negb in_tls;
        let* s := free (Some cur) s in
        let '(ret, s) := allocate (Rbuf new_size (rdata b)) s in
        Ok (Some ret, s)
    else let '(ret, s) := mog_rbuf_detach th cur s in Ok (Some ret, s).

(** [mog_alloc_quit], when a thread ends. *)
Definition mog_alloc_quit (th : nat) (s : store) : res store :=
  let p := ptrs s !! Tls th in
  mog_rbuf_free th p (set_ptr (Tls th) None s).

(** ** What the handlers do with them *)

(** The buffer of a step: that of the client, or that of the thread. *)
Definition rbuf_of_step (th : nat) (c : Z) (s : store) : res (Z * store) :=
  match ptrs s !! Client c with
  | Some a => Ok (a, s)
  | None => mog_rbuf_get th MOG_RBUF_BASE_SIZE s
  end.

(** Nothing more to read: the [data] in the buffer are stashed. *)
Definition step_wait (th : nat) (c : Z) (data : list Z) (s : store) : res store :=
  let* '(a, s) := rbuf_of_step th c s in
  if 0 <? zlen data then
    let s := match ptrs s !! Client c with
             | Some _ => s
             | None => let '(a, s) := mog_rbuf_detach th a s in set_ptr (Client c) (Some a) s
             end in
    store_data a data s
  else Ok s.

(** The request is longer than the buffer, which is full of [data]. *)
Definition step_grow (th : nat) (c : Z) (data : list Z) (s : store) : res store :=
  let* '(a, s) := rbuf_of_step th c s in
  let* s := store_data a data s in
  let* '(ret, s) := rbuf_grow th a s in
  Ok (set_ptr (Client c) ret s).

(** The [rest] behind a request is kept: where it is, or in a new buffer of [size]
    bytes ([http_defer_rbuf], [mgmt_defer_rbuf], [stash_advance_rbuf]). *)
Definition step_defer (th : nat) (c : Z) (size : Z) (rest : list Z) (s : store) : res store :=
  let* '(a, s) := rbuf_of_step th c s in
  if zlen rest =? 0 then rbuf_free_and_null th (Client c) s
  else
    match ptrs s !! Client c with
    | Some old => store_data old rest s
    | None =>
        let* '(a, s) := rbuf_new size s in
        let s := set_ptr (Client c) (Some a) s in
        store_data a rest s
    end.

(** The client is closed, and its [struct mog_fd] with the pointer given back. *)
Definition step_close (th : nat) (c : Z) (s : store) : res store :=
  let* s := mog_rbuf_free th (ptrs s !! Client c) s in
  Ok (set_ptr (Client c) None s).

(** What a thread does to the buffer of a client whose step it runs, or at its end. *)
Inductive rbuf_use :=
  | UseWait (data : list Z)
  | UseGrow (data : list Z)
  | UseDefer (size : Z) (rest : list Z)
  | UseClose
  | UseQuit.

Definition rbuf_use_step (th : nat) (c : Z) (u : rbuf_use) (s : store) : res store :=
  match u with
  | UseWait data => step_wait th c data s
  | UseGrow data => step_grow th c data s
  | UseDefer size rest => step_defer th c size rest s
  | UseClose => step_close th c s
  | UseQuit => mog_alloc_quit th s
  end.
End Heap.

(** ** Ownership *)

(** What a buffer may be; that of a thread has the usual size. *)
Definition good (h : holder) (b : rbuf) : Prop :=
  0 < rcapa b <= MOG_RBUF_MAX_SIZE /\ zlen (rdata b) <= rcapa b /\
  match h with inl _ => rcapa b = MOG_RBUF_BASE_SIZE | inr _ => True end.

(** Every buffer that is allocated has exactly one holder, and holders hold what
    is allocated: nothing leaks, nothing is shared, nothing dangles. *)
Record store_inv (s : store) : Prop := StoreInv {
  si_live : forall h a, ptrs s !! h = Some a -> exists b, bufs s !! a = Some b /\ good h b;
  si_held : forall a b, bufs s !! a = Some b -> exists h, ptrs s !! h = Some a;
  si_one : forall h h' a, ptrs s !! h = Some a -> ptrs s !! h' = Some a -> h = h'
}.

(** The buffer of a holder by value. *)
Definition value_of (h : holder) (s : store) : option rbuf := ptrs s !! h ≫= fun a => bufs s !! a.

Lemma value_of_ptr s h a : ptrs s !! h = Some a -> value_of h s = bufs s !! a.
Proof. intros H. unfold value_of. by rewrite H. Qed.

Lemma value_of_none s h : ptrs s !! h = None -> value_of h s = None.
Proof. intros H. unfold value_of. by rewrite H. Qed.

(** A buffer is written. *)
Lemma inv_write s h a data : store_inv s -> ptrs s !! h = Some a ->
  (exists b, bufs s !! a = Some b /\ zlen data <= rcapa b) ->
  exists b s', value_of h s = Some b /\ store_data a data s = Ok s' /\ ptrs s' = ptrs s /\ dom (bufs s') = dom (bufs s) /\ store_inv s' /\
    forall h0, value_of h0 s' = if decide (h0 = h) then Some (Rbuf (rcapa b) data) else value_of h0 s.
Proof.
  intros [Hl Hh H1] Hp (b & Hb & Hd). exists b. eexists. split; [by rewrite (value_of_ptr _ _ _ Hp)|].
  unfold store_data, load. rewrite Hb. cbn [res_bind]. rewrite (proj2 (Z.leb_le _ _)) by done. split; [done|]. split; [done|].
  split; [cbn [bufs]; rewrite dom_insert_L; assert (a ∈ dom (bufs s)) by (by eapply elem_of_dom_2); set_solver|]. split; [split|].
  - intros h0 a0 H0. cbn [ptrs bufs] in *. destruct (Hl h0 a0 H0) as (b0 & Hb0 & Hg). destruct (decide (a0 = a)) as [-> |Hne].
    + rewrite lookup_insert_eq. eexists. split; [done|]. assert (b0 = b) as -> by congruence. destruct Hg as (? & ? & ?). done.
    + rewrite lookup_insert_ne by done. eauto.
  - intros a0 b0 H0. cbn [ptrs bufs] in *. apply lookup_insert_Some in H0 as [[<- _]|[_ H0]]; eauto.
  - done.
  - intros h0. unfold value_of. cbn [ptrs bufs]. destruct (decide (h0 = h)) as [-> |Hne]; [rewrite Hp; simpl; by rewrite lookup_insert_eq|].
    destruct (ptrs s !! h0) as [a0|] eqn:E; [|done]. simpl. rewrite lookup_insert_ne; [done|]. intros ->. by apply Hne, (H1 h0 h a0).
Qed.

(** A holder loses its buffer. *)
Lemma inv_drop s h a : store_inv s -> ptrs s !! h = Some a ->
  let s' := Store (delete a (bufs s)) (delete h (ptrs s)) in
  store_inv s' /\ forall h0, value_of h0 s' = if decide (h0 = h) then None else value_of h0 s.
Proof.
  intros [Hl Hh H1] Hp s'. split; [split|].
  - intros h0 a0 H0. cbn [s' ptrs bufs] in *. apply lookup_delete_Some in H0 as [Hne H0]. destruct (Hl h0 a0 H0) as (b0 & Hb0 & Hg).
    exists b0. split; [|done]. apply lookup_delete_Some. split; [|done]. intros ->. by apply Hne, (H1 h h0 a0).
  - intros a0 b0 H0. cbn [s' ptrs bufs] in *. apply lookup_delete_Some in H0 as [Hne H0]. destruct (Hh a0 b0 H0) as [h0 Hh0].
    exists h0. apply lookup_delete_Some. split; [|done]. intros ->. congruence.
  - intros h0 h1 a0 H0 H2. cbn [s' ptrs] in *. apply lookup_delete_Some in H0 as [_ H0], H2 as [_ H2]. by eapply H1.
  - intros h0. unfold value_of. cbn [s' ptrs bufs]. destruct (decide (h0 = h)) as [-> |Hne]; [by rewrite lookup_delete_eq|].
    rewrite lookup_delete_ne by done. destruct (ptrs s !! h0) as [a0|] eqn:E; [|done]. simpl. apply lookup_delete_ne. intros ->. by apply Hne, (H1 h0 h a0).
Qed.

(** A buffer changes hands. *)
Lemma inv_move s h h' a b : store_inv s -> ptrs s !! h = Some a -> bufs s !! a = Some b -> ptrs s !! h' = None -> good h' b ->
  let s' := Store (bufs s) (<[h' := a]> (delete h (ptrs s))) in
  store_inv s' /\ forall h0, value_of h0 s' = if decide (h0 = h') then Some b else if decide (h0 = h) then None else value_of h0 s.
Proof.
  intros [Hl Hh H1] Hp Hb Hn Hg s'. assert (h <> h') by congruence. split; [split|].
  - intros h0 a0 H0. cbn [s' ptrs bufs] in *. apply lookup_insert_Some in H0 as [[<- <-]|[Hne H0]]; [eauto|].
    apply lookup_delete_Some in H0 as [_ H0]. eauto.
  - intros a0 b0 H0. cbn [s' ptrs bufs] in *. destruct (Hh a0 b0 H0) as [h0 Hh0]. destruct (decide (h0 = h)) as [-> |Hne].
    + exists h'. assert (a0 = a) as -> by congruence. apply lookup_insert_eq.
    + exists h0. rewrite lookup_insert_ne by congruence. by rewrite lookup_delete_ne.
  - intros h0 h1 a0 H0 H2. cbn [s' ptrs] in *. apply lookup_insert_Some in H0 as [[<- <-]|[_ [Hx H0]%lookup_delete_Some]];
      apply lookup_insert_Some in H2 as [[<- E]|[_ [Hy H2]%lookup_delete_Some]]; try done.
    + exfalso. by apply Hy, (H1 h h1 a).
    + subst. exfalso. by apply Hx, (H1 h h0 a0).
    + by eapply H1.
  - intros h0. unfold value_of. cbn [s' ptrs bufs]. destruct (decide (h0 = h')) as [-> |Hne]; [by rewrite lookup_insert_eq|].
    rewrite lookup_insert_ne by done. destruct (decide (h0 = h)) as [-> |Hne']; [by rewrite lookup_delete_eq|by rewrite lookup_delete_ne].
Qed.

(** A holder gets a buffer at an address that is not in use. *)
Lemma inv_put s h a b : store_inv s -> bufs s !! a = None -> ptrs s !! h = None -> good h b ->
  let s' := Store (<[a := b]> (bufs s)) (<[h := a]> (ptrs s)) in
  store_inv s' /\ forall h0, value_of h0 s' = if decide (h0 = h) then Some b else value_of h0 s.
Proof.
  intros [Hl Hh H1] Ha Hn Hg s'.
  assert (Hfr : forall h0 a0, ptrs s !! h0 = Some a0 -> a0 <> a) by (intros h0 a0 H0 ->; destruct (Hl h0 a H0) as (? & ? & _); congruence).
  split; [split|].
  - intros h0 a0 H0. cbn [s' ptrs bufs] in *. apply lookup_insert_Some in H0 as [[<- <-]|[Hne H0]]; [rewrite lookup_insert_eq; eauto|].
    pose proof (Hfr h0 a0 H0). rewrite lookup_insert_ne by done. eauto.
  - intros a0 b0 H0. cbn [s' ptrs bufs] in *. apply lookup_insert_Some in H0 as [[<- _]|[Hne H0]]; [exists h; apply lookup_insert_eq|].
    destruct (Hh a0 b0 H0) as [h0 Hh0]. exists h0. rewrite lookup_insert_ne; [done|congruence].
  - intros h0 h1 a0 H0 H2. cbn [s' ptrs] in *. apply lookup_insert_Some in H0 as [[<- <-]|[_ H0]];
      apply lookup_insert_Some in H2 as [[<- E]|[_ H2]]; try done.
    + by apply Hfr in H2.
    + subst. by apply Hfr in H0.
    + by eapply H1.
  - intros h0. unfold value_of. cbn [s' ptrs bufs]. destruct (decide (h0 = h)) as [-> |Hne]; [rewrite lookup_insert_eq; simpl; by rewrite lookup_insert_eq|].
    rewrite lookup_insert_ne by done. destruct (ptrs s !! h0) as [a0|] eqn:E; [|done]. simpl. rewrite lookup_insert_ne; [done|]. intros <-. by eapply Hfr.
Qed.

(** ** The same by value, as the handlers of HttpQueue.v and Mgmt.v do it *)

Definition capa_of (v : option rbuf) : Z := match v with Some b => rcapa b | None => MOG_RBUF_BASE_SIZE end.

Definition use_by_value (u : rbuf_use) (v : option rbuf) : res (option rbuf) :=
  match u with
  | UseWait data => Ok (if 0 <? zlen data then Some (Rbuf (capa_of v) data) else v)
  | UseGrow data => mog_rbuf_grow (match v with None => true | Some _ => false end) (Rbuf (capa_of v) data)
  | UseDefer size rest =>
      if zlen rest =? 0 then Ok None
      else match v with Some old => Ok (Some (Rbuf (rcapa old) rest)) | None => let* r := mog_rbuf_new size rest in Ok (Some r) end
  | UseClose => Ok None
  | UseQuit => Ok v
  end.

(** Bytes fit in the buffer they were read into or are moved to. *)
Definition use_ok (u : rbuf_use) (v : option rbuf) : Prop :=
  match u with
  | UseWait data | UseGrow data => zlen data <= capa_of v
  | UseDefer size rest =>
      zlen rest <= match v with Some old => rcapa old | None => size end /\ 0 < size <= MOG_RBUF_MAX_SIZE
  | UseClose | UseQuit => True
  end.

Section Safe.
Variable malloc : gset Z -> Z.
(** An address that is not in use. *)
Hypothesis malloc_fresh : forall used, malloc used ∉ used.

(** A holder gets a new buffer. *)
Lemma inv_new s h b : store_inv s -> ptrs s !! h = None -> good h b ->
  let a := malloc (dom (bufs s)) in
  let s' := Store (<[a := b]> (bufs s)) (<[h := a]> (ptrs s)) in
  store_inv s' /\ forall h0, value_of h0 s' = if decide (h0 = h) then Some b else value_of h0 s.
Proof. intros Hi Hn Hg. apply inv_put; try done. apply not_elem_of_dom, malloc_fresh. Qed.

(** Nobody but the thread and its client is touched. *)
Definition frame (th : nat) (c : Z) (s s' : store) : Prop :=
  forall h, h <> Tls th -> h <> Client c -> value_of h s' = value_of h s.

Lemma base_good th data : zlen data <= MOG_RBUF_BASE_SIZE -> good (Tls th) (Rbuf MOG_RBUF_BASE_SIZE data).
Proof. intros Hd. unfold good. simpl. split; [done|]. split; done. Qed.

Lemma rbuf_get_ok th s : store_inv s ->
  exists a b s', mog_rbuf_get malloc th MOG_RBUF_BASE_SIZE s = Ok (a, s') /\ store_inv s' /\ ptrs s' !! Tls th = Some a /\
    bufs s' !! a = Some b /\ rcapa b = MOG_RBUF_BASE_SIZE /\
    forall h, h <> Tls th -> ptrs s' !! h = ptrs s !! h /\ value_of h s' = value_of h s.
Proof.
  intros Hi. unfold mog_rbuf_get. destruct (ptrs s !! Tls th) as [a|] eqn:E.
  - destruct (si_live s Hi _ _ E) as (b & Hb & Hg). unfold load. rewrite Hb. cbn [res_bind]. destruct Hg as (_ & _ & Hc).
    rewrite Hc, Z.leb_refl. exists a, b, s. done.
  - unfold rbuf_replace. cbn [free res_bind]. unfold rbuf_new, allocate. cbn [assert_]. change (0 <? MOG_RBUF_BASE_SIZE) with true. cbn [assert_ res_bind].
    destruct (inv_new s (Tls th) (Rbuf MOG_RBUF_BASE_SIZE []) Hi E) as [Hi' Hv]; [by apply base_good|].
    eexists _, _, _. split; [done|]. unfold set_ptr. cbn [ptrs bufs]. split; [exact Hi'|]. split; [apply lookup_insert_eq|]. split; [apply lookup_insert_eq|].
    split; [done|]. intros h Hh. split; [by apply lookup_insert_ne|]. rewrite <- (decide_False (P := h = Tls th) (Some (Rbuf MOG_RBUF_BASE_SIZE [])) (value_of h s) Hh).
    apply Hv.
Qed.

(** The buffer of a step, and who holds it. *)
Lemma rbuf_of_step_ok th c s : store_inv s ->
  exists a b s', rbuf_of_step malloc th c s = Ok (a, s') /\ store_inv s' /\ bufs s' !! a = Some b /\ rcapa b = capa_of (value_of (Client c) s) /\
    ptrs s' !! (match value_of (Client c) s with Some _ => Client c | None => Tls th end) = Some a /\
    ptrs s' !! Client c = ptrs s !! Client c /\ value_of (Client c) s' = value_of (Client c) s /\ frame th c s s'.
Proof.
  intros Hi. unfold rbuf_of_step. destruct (ptrs s !! Client c) as [a|] eqn:E.
  - destruct (si_live s Hi _ _ E) as (b & Hb & Hg). rewrite (value_of_ptr _ _ _ E), Hb. exists a, b, s. split; [done|]. split; [done|]. split; [done|].
    split; [done|]. split; [done|]. split; [done|]. split; [by rewrite (value_of_ptr _ _ _ E)|]. by intros h _ _.
  - destruct (rbuf_get_ok th s Hi) as (a & b & s' & -> & Hi' & Hp & Hb & Hc & Hf). rewrite (value_of_none _ _ E).
    destruct (Hf (Client c)) as [Hf1 Hf2]; [done|]. exists a, b, s'. split; [done|]. split; [done|]. split; [done|]. split; [done|]. split; [done|].
    split; [congruence|]. split; [rewrite Hf2; by apply value_of_none|]. intros h Hh _. by apply Hf.
Qed.

Lemma frame_trans th c s1 s2 s3 : frame th c s1 s2 -> frame th c s2 s3 -> frame th c s1 s3.
Proof. intros H1 H2 h Ht Hc. rewrite H2, H1 by done. done. Qed.

Lemma client_ptr s c : store_inv s -> ptrs s !! Client c = None <-> value_of (Client c) s = None.
Proof.
  intros Hi. unfold value_of. destruct (ptrs s !! Client c) as [a|] eqn:E; [|done]. simpl.
  destruct (si_live s Hi _ _ E) as (b & -> & _). done.
Qed.

(** What a step does to a client's buffer, as the theorem below says it. *)
Definition used_well (th : nat) (c : Z) (u : rbuf_use) (s : store) (r : res store) : Prop :=
  exists s' v', r = Ok s' /\ use_by_value u (value_of (Client c) s) = Ok v' /\ value_of (Client c) s' = v' /\ store_inv s' /\ frame th c s s'.

Lemma use_wait_ok th c data s : store_inv s -> use_ok (UseWait data) (value_of (Client c) s) ->
  used_well th c (UseWait data) s (rbuf_use_step malloc th c (UseWait data) s).
Proof.
  intros Hi Hok. cbn [rbuf_use_step]. unfold step_wait. destruct (rbuf_of_step_ok th c s Hi) as (a & b & s1 & -> & Hi1 & Hb & Hc & Hp & Hcp & Hv & Hf). cbn [res_bind].
  unfold used_well, use_by_value. simpl in Hok. destruct (Z.ltb_spec 0 (zlen data)) as [Hd|Hd]; [|eexists _, _; done].
  rewrite Hcp. destruct (value_of (Client c) s) as [v|] eqn:Ev.
  - rewrite <- Hcp, Hp. destruct (inv_write s1 (Client c) a data Hi1 Hp) as (b' & s2 & Hv' & -> & _ & _ & Hi2 & Hw); [exists b; split; [done|by rewrite Hc]|].
    eexists _, _. split; [done|]. split; [done|]. rewrite Hw, decide_True by done. rewrite Hv in Hv'. injection Hv' as <-. split; [done|]. split; [done|].
    intros h H1 H2. rewrite Hw, decide_False by done. by apply Hf.
  - rewrite (proj2 (client_ptr s c Hi) Ev). unfold mog_rbuf_detach. rewrite bool_decide_eq_true_2 by done. unfold set_ptr. cbn [ptrs bufs].
    assert (Hg : good (Client c) b) by (destruct (si_live s1 Hi1 _ _ Hp) as (b' & Hb' & ? & ? & _); assert (b' = b) as -> by congruence; done).
    destruct (inv_move s1 (Tls th) (Client c) a b Hi1 Hp Hb) as [Hi2 Hm]; [rewrite Hcp; by apply client_ptr|done|].
    destruct (inv_write _ (Client c) a data Hi2 (lookup_insert_eq _ _ _)) as (b' & s3 & Hv' & -> & _ & _ & Hi3 & Hw); [exists b; split; [done|by rewrite Hc]|].
    eexists _, _. split; [done|]. split; [done|]. rewrite Hw, decide_True by done. rewrite Hm, decide_True in Hv' by done. injection Hv' as <-.
    split; [by rewrite Hc|]. split; [done|]. intros h H1 H2. rewrite Hw, Hm, !decide_False by done. by apply Hf.
Qed.

Definition grown_size (rsize : Z) : Z := if MOG_RBUF_MAX_SIZE <? rsize + 500 then MOG_RBUF_MAX_SIZE else rsize + 500.

Lemma grown_size_good c data : zlen data < MOG_RBUF_MAX_SIZE -> good (Client c) (Rbuf (grown_size (zlen data)) data).
Proof.
  intros Hd. pose proof (zlen_nonneg data). unfold good, grown_size. cbn [rcapa rdata]. unfold MOG_RBUF_MAX_SIZE, UINT16_MAX in *. destruct (Z.ltb_spec 65535 (zlen data + 500)); lia.
Qed.

(** A buffer that was just allocated is filled. *)
Lemma store_new a size data (B : gmap Z rbuf) P : zlen data <= size ->
  store_data a data (Store (<[a := Rbuf size []]> B) P) = Ok (Store (<[a := Rbuf size data]> B) P).
Proof.
  intros Hg. unfold store_data, load. cbn [bufs ptrs]. rewrite lookup_insert_eq. cbn [res_bind rcapa].
  rewrite (proj2 (Z.leb_le _ _)) by done. by rewrite insert_insert_eq.
Qed.

(** The buffer of the client is grown: the pointer that was freed is replaced. *)
Lemma grow_owned th c s a b : store_inv s -> ptrs s !! Client c = Some a -> bufs s !! a = Some b ->
  exists p s' v', rbuf_grow malloc th a s = Ok (p, s') /\ mog_rbuf_grow false b = Ok v' /\
    let s'' := set_ptr (Client c) p s' in value_of (Client c) s'' = v' /\ store_inv s'' /\ frame th c s s''.
Proof.
  intros Hi Hp Hb. pose proof Hi as [Hl Hh H1]. destruct (Hl _ _ Hp) as (b' & Hb' & Hg). assert (b' = b) as -> by congruence.
  assert (Htls : ptrs s !! Tls th <> Some a) by (intros Ht; by pose proof (H1 _ _ _ Hp Ht)).
  destruct (inv_drop s (Client c) a Hi Hp) as [Hid Hd]. unfold rbuf_grow, load. rewrite Hb. cbn [res_bind].
  rewrite (bool_decide_eq_false_2 _ Htls). unfold mog_rbuf_grow. cbn [negb assert_]. unfold free at 1. rewrite Hb.
  destruct (Z.eqb_spec (zlen (rdata b)) MOG_RBUF_MAX_SIZE) as [Hm|Hm].
  { cbn [res_bind]. eexists _, _, _. split; [done|]. split; [done|]. cbv zeta. unfold set_ptr. cbn [bufs ptrs]. rewrite Hd, decide_True by done.
    split; [done|]. split; [done|]. intros h _ Hc. by rewrite Hd, decide_False. }
  destruct Hg as (Hg1 & Hg2 & _). rewrite (proj2 (Z.ltb_lt (zlen (rdata b)) MOG_RBUF_MAX_SIZE)) by lia. cbn [assert_]. fold (grown_size (zlen (rdata b))).
  assert (Hgood : good (Client c) (Rbuf (grown_size (zlen (rdata b))) (rdata b))) by (apply grown_size_good; lia).
  assert (Hput : forall a', delete a (bufs s) !! a' = None ->
    let s'' := Store (<[a' := Rbuf (grown_size (zlen (rdata b))) (rdata b)]> (delete a (bufs s))) (<[Client c := a']> (ptrs s)) in
    value_of (Client c) s'' = Some (Rbuf (grown_size (zlen (rdata b))) (rdata b)) /\ store_inv s'' /\ frame th c s s'').
  { intros a' Ha'. destruct (inv_put _ (Client c) a' _ Hid Ha' (lookup_delete_eq _ _) Hgood) as [Hi2 H2]. cbn [ptrs bufs] in *.
    rewrite insert_delete_eq in *. cbv zeta. split; [by rewrite H2, decide_True|]. split; [done|]. intros h _ Hc. by rewrite H2, Hd, !decide_False. }
  destruct (rcapa b <? grown_size (zlen (rdata b))).
  - destruct (Z.eqb_spec (rcapa b) MOG_RBUF_BASE_SIZE).
    + unfold rbuf_new, mog_rbuf_new. rewrite (proj2 (Z.ltb_lt 0 (grown_size _))) by (destruct Hgood; simpl in *; lia). cbn [assert_ res_bind].
      unfold allocate. set (a' := malloc (dom (bufs s))). assert (Ha' : bufs s !! a' = None) by (apply not_elem_of_dom, malloc_fresh).
      assert (a <> a') by congruence. rewrite store_new by (destruct Hgood as (_ & ? & _); done). cbn [res_bind].
      unfold mog_rbuf_free. cbn [ptrs]. rewrite (bool_decide_eq_true_2 (_ <> _)) by done. cbn [assert_]. unfold free. cbn [bufs ptrs].
      rewrite lookup_insert_ne, Hb by done. cbn [res_bind]. eexists _, _, _. split; [done|]. split; [done|]. unfold set_ptr. cbn [bufs ptrs].
      rewrite delete_insert_ne by done. apply Hput. by rewrite lookup_delete_ne.
    + unfold free. rewrite Hb. cbn [res_bind]. unfold allocate. eexists _, _, _. split; [done|]. split; [done|]. unfold set_ptr. cbn [bufs ptrs]. apply Hput. apply not_elem_of_dom, malloc_fresh.
  - unfold mog_rbuf_detach. rewrite bool_decide_eq_false_2 by done. eexists _, _, _. split; [done|]. split; [done|]. unfold set_ptr. cbn [bufs ptrs].
    rewrite insert_id by done.
    replace (Store (bufs s) (ptrs s)) with s by (by destruct s). split; [by rewrite (value_of_ptr _ _ _ Hp)|]. split; [done|]. by intros h _ _.
Qed.

(** The buffer of the thread is too small: the client gets a larger one. *)
Lemma grow_tls th c s a b : store_inv s -> ptrs s !! Client c = None -> ptrs s !! Tls th = Some a -> bufs s !! a = Some b ->
  exists p s' v', rbuf_grow malloc th a s = Ok (p, s') /\ mog_rbuf_grow true b = Ok v' /\
    let s'' := set_ptr (Client c) p s' in value_of (Client c) s'' = v' /\ store_inv s'' /\ frame th c s s''.
Proof.
  intros Hi Hp Ht Hb. destruct (si_live s Hi _ _ Ht) as (b' & Hb' & Hg). assert (b' = b) as -> by congruence. destruct Hg as (_ & Hg2 & Hg3).
  pose proof (zlen_nonneg (rdata b)). rewrite Hg3 in Hg2.
  assert (MOG_RBUF_BASE_SIZE = 496 /\ MOG_RBUF_MAX_SIZE = 65535) as [Hbase Hmax] by done.
  unfold rbuf_grow, load. rewrite Hb. cbn [res_bind]. rewrite (bool_decide_eq_true_2 _ Ht). unfold mog_rbuf_grow. cbn [negb].
  rewrite (proj2 (Z.eqb_neq (zlen (rdata b)) MOG_RBUF_MAX_SIZE)), (proj2 (Z.ltb_lt (zlen (rdata b)) MOG_RBUF_MAX_SIZE)) by lia. cbn [assert_].
  fold (grown_size (zlen (rdata b))).
  assert (Hgood : good (Client c) (Rbuf (grown_size (zlen (rdata b))) (rdata b))) by (apply grown_size_good; lia).
  assert (Hsz : rcapa b < grown_size (zlen (rdata b))) by (unfold grown_size; case_match; lia).
  rewrite (proj2 (Z.ltb_lt _ _) Hsz), Hg3, Z.eqb_refl. unfold rbuf_new, mog_rbuf_new. rewrite (proj2 (Z.ltb_lt 0 (grown_size _))) by lia.
  cbn [assert_ res_bind]. unfold allocate. rewrite store_new by (destruct Hgood as (_ & ? & _); done). cbn [res_bind].
  eexists _, _, _. split; [done|]. split; [done|]. unfold set_ptr. cbn [bufs ptrs]. cbv zeta.
  destruct (inv_new s (Client c) _ Hi Hp Hgood) as [Hi2 H2]. split; [by rewrite H2, decide_True|]. split; [done|]. intros h _ Hc. by rewrite H2, decide_False.
Qed.

Lemma use_grow_ok th c data s : store_inv s -> use_ok (UseGrow data) (value_of (Client c) s) ->
  used_well th c (UseGrow data) s (rbuf_use_step malloc th c (UseGrow data) s).
Proof.
  intros Hi Hok. cbn [rbuf_use_step]. unfold step_grow. destruct (rbuf_of_step_ok th c s Hi) as (a & b & s1 & -> & Hi1 & Hb & Hc & Hp & Hcp & Hv & Hf). cbn [res_bind].
  unfold used_well, use_by_value. simpl in Hok. set (h := match value_of (Client c) s with Some _ => Client c | None => Tls th end) in Hp.
  destruct (inv_write s1 h a data Hi1 Hp) as (b' & s2 & Hv' & -> & Hptr & _ & Hi2 & Hw); [exists b; split; [done|by rewrite Hc]|]. cbn [res_bind].
  assert (b' = b) as -> by (rewrite (value_of_ptr _ _ _ Hp) in Hv'; congruence).
  assert (Hb2 : bufs s2 !! a = Some (Rbuf (rcapa b) data)).
  { rewrite <- (value_of_ptr s2 h a) by (by rewrite Hptr). by rewrite Hw, decide_True. }
  rewrite <- Hc. assert (Hf2 : frame th c s s2).
  { intros h0 H1 H2. rewrite Hw, decide_False; [by apply Hf|]. subst h. destruct (value_of (Client c) s); done. }
  destruct (value_of (Client c) s) as [v|] eqn:Ev; subst h.
  - destruct (grow_owned th c s2 a _ Hi2 ltac:(by rewrite Hptr) Hb2) as (p & s3 & v' & -> & Hval & H1 & H2 & H3). cbn [res_bind].
    eexists _, _. split; [done|]. split; [done|]. split; [done|]. split; [done|]. by eapply frame_trans.
  - destruct (grow_tls th c s2 a (Rbuf (rcapa b) data) Hi2) as (p & s3 & v' & -> & Hval & H1 & H2 & H3); [|by rewrite Hptr|done|].
    + rewrite Hptr, Hcp. by apply client_ptr.
    + cbn [res_bind]. eexists _, _. split; [done|]. split; [done|]. split; [done|]. split; [done|]. by eapply frame_trans.
Qed.

(** A client gives its buffer up. *)
Lemma free_client th c s : store_inv s -> exists s', mog_rbuf_free th (ptrs s !! Client c) s = Ok s' /\
  let s'' := set_ptr (Client c) None s' in value_of (Client c) s'' = None /\ store_inv s'' /\ frame th c s s''.
Proof.
  intros Hi. unfold mog_rbuf_free. destruct (ptrs s !! Client c) as [a|] eqn:E.
  - destruct (si_live s Hi _ _ E) as (b & Hb & _). rewrite bool_decide_eq_true_2 by (intros Ht; by pose proof (si_one s Hi _ _ _ E Ht)).
    cbn [assert_]. unfold free. rewrite Hb. eexists. split; [done|]. unfold set_ptr. cbn [bufs ptrs].
    destruct (inv_drop s (Client c) a Hi E) as [Hi' Hd]. cbv zeta. split; [by rewrite Hd, decide_True|]. split; [done|]. intros h _ Hc. by rewrite Hd, decide_False.
  - cbn [assert_ free]. eexists. split; [done|]. unfold set_ptr. cbv zeta. rewrite delete_id by done. replace (Store (bufs s) (ptrs s)) with s by (by destruct s).
    split; [by apply value_of_none|]. split; [done|]. by intros h _ _.
Qed.

Lemma use_defer_ok th c size rest s : store_inv s -> use_ok (UseDefer size rest) (value_of (Client c) s) ->
  used_well th c (UseDefer size rest) s (rbuf_use_step malloc th c (UseDefer size rest) s).
Proof.
  intros Hi Hok. cbn [rbuf_use_step]. unfold step_defer. destruct (rbuf_of_step_ok th c s Hi) as (a & b & s1 & -> & Hi1 & Hb & Hc & Hp & Hcp & Hv & Hf). cbn [res_bind].
  unfold used_well, use_by_value. destruct Hok as [Hr Hs]. destruct (Z.eqb_spec (zlen rest) 0) as [Hz|Hz].
  { unfold rbuf_free_and_null. destruct (free_client th c s1 Hi1) as (s2 & -> & H1 & H2 & H3). cbn [res_bind]. eexists _, _. split; [done|]. split; [done|].
    split; [done|]. split; [done|]. by eapply frame_trans. }
  destruct (value_of (Client c) s) as [v|] eqn:Ev.
  - rewrite Hp. destruct (inv_write s1 (Client c) a rest Hi1 Hp) as (b' & s2 & Hv' & -> & _ & _ & Hi2 & Hw); [exists b; split; [done|by rewrite Hc]|].
    assert (b' = v) as -> by congruence. eexists _, _. split; [done|]. split; [done|]. split; [by rewrite Hw, decide_True|]. split; [done|].
    intros h H1 H2. rewrite Hw, decide_False by done. by apply Hf.
  - rewrite Hcp. rewrite (proj2 (client_ptr s c Hi) Ev). unfold rbuf_new, mog_rbuf_new, allocate. rewrite (proj2 (Z.ltb_lt 0 size)) by lia.
    cbn [assert_ res_bind]. unfold set_ptr. cbn [bufs ptrs]. rewrite store_new by done. eexists _, _. split; [done|]. split; [done|].
    destruct (inv_new s1 (Client c) (Rbuf size rest) Hi1) as [Hi2 H2]; [rewrite Hcp; by apply client_ptr|unfold good; simpl; lia|].
    split; [by rewrite H2, decide_True|]. split; [done|]. intros h H3 H4. rewrite H2, decide_False by done. by apply Hf.
Qed.

Lemma use_quit_ok th c s : store_inv s -> used_well th c UseQuit s (rbuf_use_step malloc th c UseQuit s).
Proof.
  intros Hi. cbn [rbuf_use_step]. unfold mog_alloc_quit, mog_rbuf_free, used_well, use_by_value. destruct (ptrs s !! Tls th) as [a|] eqn:E.
  - destruct (si_live s Hi _ _ E) as (b & Hb & _). unfold set_ptr. cbn [ptrs]. rewrite bool_decide_eq_true_2 by (by rewrite lookup_delete_eq). cbn [assert_].
    unfold free. cbn [bufs ptrs]. rewrite Hb. destruct (inv_drop s (Tls th) a Hi E) as [Hi' Hd]. eexists _, _. split; [done|]. split; [done|].
    split; [by rewrite Hd, decide_False|]. split; [done|]. intros h Hh _. by rewrite Hd, decide_False.
  - cbn [assert_ free]. unfold set_ptr. rewrite delete_id by done. replace (Store (bufs s) (ptrs s)) with s by (by destruct s).
    eexists _, _. split; [done|]. split; [done|]. split; [done|]. split; [done|]. by intros h _ _.
Qed.

(** C39.  Whatever threads and clients do with read buffers, one step after the other:
    no assertion of alloc.c fails, nothing is freed twice, used after it was freed, shared
    or lost; the buffer of a client is what the handlers that work by value say, and
    nobody but the thread and the client of the step is touched. *)
Theorem rbuf_ownership th c u s :
  store_inv s -> use_ok u (value_of (Client c) s) ->
  exists s' v', rbuf_use_step malloc th c u s = Ok s' /\ use_by_value u (value_of (Client c) s) = Ok v' /\
    value_of (Client c) s' = v' /\ store_inv s' /\ frame th c s s'.
Proof.
  intros Hi Hok. destruct u as [data|data|size rest| |].
  - by apply use_wait_ok.
  - by apply use_grow_ok.
  - by apply use_defer_ok.
  - cbn [rbuf_use_step]. unfold step_close. destruct (free_client th c s Hi) as (s2 & -> & H1 & H2 & H3). cbn [res_bind]. eauto 10.
  - by apply use_quit_ok.
Qed.
End Safe.

(** Two threads and two clients, one of which has taken a buffer along. *)
Definition store0 : store :=
  Store (<[10 := Rbuf MOG_RBUF_BASE_SIZE [71]]> (<[20 := Rbuf MOG_RBUF_BASE_SIZE []]> ∅)) (<[Client 5 := 10]> (<[Tls 1%nat := 20]> ∅)).

Lemma store0_inv : store_inv store0.
Proof.
  split; unfold store0; cbn [bufs ptrs].
  - intros h a [[<- <-]|[_ [[<- <-]|[_ []%lookup_empty_Some]]%lookup_insert_Some]]%lookup_insert_Some; vm_compute; eexists; (split; [reflexivity|done]).
  - intros a b [[<- _]|[_ [[<- _]|[_ []%lookup_empty_Some]]%lookup_insert_Some]]%lookup_insert_Some; [exists (Client 5)|exists (Tls 1%nat)]; done.
  - intros h h' a [[<- <-]|[_ [[<- <-]|[_ []%lookup_empty_Some]]%lookup_insert_Some]]%lookup_insert_Some
      [[<- E]|[_ [[<- E]|[_ []%lookup_empty_Some]]%lookup_insert_Some]]%lookup_insert_Some; done.
Qed.

Lemma rbuf_ownership_witness :
  exists s' v', rbuf_use_step fresh 1%nat 5 (UseGrow (replicate 496 65)) store0 = Ok s' /\
    use_by_value (UseGrow (replicate 496 65)) (value_of (Client 5) store0) = Ok v' /\
    value_of (Client 5) s' = v' /\ store_inv s' /\ frame 1%nat 5 store0 s'.
Proof. apply (rbuf_ownership fresh (fun used => is_fresh used) 1%nat 5 (UseGrow (replicate 496 65)) store0); [exact store0_inv|vm_compute; done]. Defined.
