(* ===== verification/EpollDetect.v ===== *)
(** Old kernels (queue_epoll.c): the release of the kernel decides whether
    EPOLL_CTL_MOD is replaced by a removal and an addition ([fake_epoll_ctl_mod] of
    Queue.v). *)
From S2P Require Import Prelude Fmt.
From stdpp Require Import base list numbers.
From Stdlib Require Import ZArith Lia.

#[local] Open Scope Z_scope.

(** A [%u] of [sscanf]: [None] when there is no number. *)
Definition scan_u (s : list Z) : option (Z * list Z) :=
  let '(v, rest, _) := strtoul s in
  if bool_decide (length rest < length s)%nat then Some (wrap_u32 v, rest) else None.

(** [sscanf (s, "%u.%u...")] with [n] conversions: those that succeed. *)
Fixpoint scan_dotted (n : nat) (s : list Z) : list Z :=
  match n with
  | O => []
  | S n =>
      match scan_u s with
      | None => []
      | Some (v, rest) => v :: match rest with 46 :: rest => scan_dotted n rest | _ => [] end
      end
  end.

(** [epoll_ctl_mod_buggy], from the number of processors and [uname]. *)
Definition epoll_ctl_mod_buggy_detect (nproc : Z) (sysname release : list Z) : bool :=
  if nproc =? 1 then false
  else if negb (bool_decide (sysname = str "Linux")) then false
  else
    match scan_dotted 3 release with
    | [version; patchlevel; sublevel] =>
        if negb (version =? 3) then version <=? 2
        else if 8 <=? patchlevel then false
        else if patchlevel =? 0 then sublevel <? 59
        else if patchlevel =? 2 then sublevel <? 37
        else if patchlevel =? 4 then sublevel <? 26
        else if patchlevel =? 5 then
          if sublevel =? 7 then
            match scan_dotted 4 release with [_; _; _; extra] => extra <? 3 | _ => false end
          else true
        else if patchlevel =? 7 then sublevel <? 3
        else true
    | _ => true
    end.

(** ** Which kernels are taken for fixed *)

(** The first fixed sublevel of the stable series of Linux 3, [None] for those that
    were never fixed. *)
Definition first_fixed (patchlevel : Z) : option Z :=
  match patchlevel with
  | 0 => Some 59
  | 2 => Some 37
  | 4 => Some 26
  | 7 => Some 3
  | _ => if 8 <=? patchlevel then Some 0 else None
  end.

(** Linux 3.5.7 has a fourth number. *)
Definition kernel_fixed (a b c : Z) (extra : option Z) : Prop :=
  4 <= a \/
  a = 3 /\ (if (b =? 5) && (c =? 7) then match extra with Some e => 3 <= e | None => True end
            else match first_fixed b with Some m => m <= c | None => False end).

(** The fourth number of a release, if it is there. *)
Definition extra_of (rest : list Z) : option Z :=
  match rest with 46 :: rest => fst <$> scan_u rest | _ => None end.

Definition no_digit (rest : list Z) : Prop := match rest with c :: _ => is_digit c = false | [] => True end.

Lemma scan_u_fmt n rest : 0 <= n < 2 ^ 32 -> no_digit rest -> scan_u (fmt_d n ++ rest) = Some (n, rest).
Proof.
  intros Hn Hr. unfold scan_u. rewrite strtoul_fmt by (done || lia). unfold wrap_u32. rewrite Z.mod_small by lia.
  rewrite bool_decide_eq_true_2; [done|]. rewrite length_app. unfold fmt_d. destruct (Z.ltb_spec n 0); [lia|].
  unfold fmt_u. cbn [dec_digits]. destruct (n <? 10); [simpl; lia|]. rewrite length_app. simpl. lia.
Qed.

Definition release_of (a b c : Z) (rest : list Z) : list Z := fmt_d a ++ 46 :: fmt_d b ++ 46 :: fmt_d c ++ rest.

Lemma scan_release n a b c rest : 0 <= a < 2 ^ 32 -> 0 <= b < 2 ^ 32 -> 0 <= c < 2 ^ 32 -> no_digit rest ->
  scan_dotted (S (S (S n))) (release_of a b c rest) =
  [a; b; c] ++ match n, extra_of rest with S _, Some _ => scan_dotted n (tail rest) | _, _ => [] end.
Proof.
  intros Ha Hb Hc Hr. unfold release_of. cbn [scan_dotted]. rewrite scan_u_fmt by done. cbn [scan_dotted]. rewrite scan_u_fmt by done.
  cbn [scan_dotted]. rewrite scan_u_fmt by done. cbn [app]. do 3 f_equal. unfold extra_of.
  destruct rest as [|x rest]; [by destruct n|]. destruct (decide (x = 46)) as [-> |Hx].
  - destruct n; [done|]. cbn [scan_dotted tail]. destruct (scan_u rest) as [[v r]|]; done.
  - assert (forall A (p q : A), match x with 46 => p | _ => q end = q) as Hm.
    { intros A p q. destruct x as [|x|x]; try done. do 6 (destruct x as [x|x|]; try done). }
    rewrite !Hm. by destruct n.
Qed.

(** A release that says which kernel it is decides by that. *)
Lemma epoll_detect_exact nproc a b c rest :
  nproc <> 1 -> 0 <= a < 2 ^ 32 -> 0 <= b < 2 ^ 32 -> 0 <= c < 2 ^ 32 -> no_digit rest ->
  epoll_ctl_mod_buggy_detect nproc (str "Linux") (release_of a b c rest) = false <-> kernel_fixed a b c (extra_of rest).
Proof.
  intros Hn Ha Hb Hc Hr. unfold epoll_ctl_mod_buggy_detect. rewrite (proj2 (Z.eqb_neq nproc 1)) by done. cbn [negb]. rewrite bool_decide_eq_true_2 by done.
  cbn [negb]. rewrite (scan_release 0), (scan_release 1) by done. cbn [app]. unfold kernel_fixed.
  destruct (Z.eqb_spec a 3) as [-> |Ha3]; cbn [negb].
  2: { destruct (Z.leb_spec a 2); [|split; [lia|done]]. split; [done|]. lia. }
  destruct (Z.leb_spec 8 b) as [Hb8|Hb8].
  { rewrite (proj2 (Z.eqb_neq b 5)) by lia. cbn [andb]. split; [|done]. intros _. right. split; [done|]. unfold first_fixed.
    rewrite (proj2 (Z.leb_le 8 b)) by lia. destruct b as [|b|b]; [lia| |lia]. do 4 (destruct b as [b|b|]; try lia). }
  assert (b = 0 \/ b = 1 \/ b = 2 \/ b = 3 \/ b = 4 \/ b = 5 \/ b = 6 \/ b = 7) as Hcase by lia.
  destruct Hcase as [-> |[-> |[-> |[-> |[-> |[-> |[-> | ->]]]]]]]; cbn [Z.eqb Pos.eqb andb first_fixed Z.leb Z.compare Pos.compare Pos.compare_cont].
  1,2,3,4,5,7,8: try (rewrite Z.ltb_ge); split; intros H; try done; try (right; split; [done|lia]); try lia.
  destruct (Z.eqb_spec c 7) as [-> |Hc7]; [|split; [done|]; intros [?|[_ []]]; lia].
  destruct (extra_of rest) as [e|] eqn:Ee; [|split; [|done]; intros _; right; done].
  destruct rest as [|x rest]; [done|]. unfold extra_of in Ee. cbn [tail scan_dotted].
  destruct (decide (x = 46)) as [-> |Hx].
  - destruct (scan_u rest) as [[v r]|]; [|done]. simpl in Ee. injection Ee as ->.
    assert ((match r with 46 :: _ => @nil Z | _ => [] end) = []) as -> by (destruct r as [|y r]; [done|]; destruct y as [|y|y]; try done; repeat (destruct y as [y|y|]; try done)).
    rewrite Z.ltb_ge. split; [intros; right; split; [done|lia]|]. intros [?|[_ ?]]; lia.
  - exfalso. destruct x as [|x|x]; try done. do 6 (destruct x as [x|x|]; try done).
Qed.

(** Linux 3.5.7, which is older than the first fixed 3.5.7.3, has no fourth number
    and is taken for fixed. *)
Example linux_3_5_7_taken_for_fixed :
  epoll_ctl_mod_buggy_detect 2 (str "Linux") (str "3.5.7") = false /\
  epoll_ctl_mod_buggy_detect 2 (str "Linux") (str "3.5.7.2") = true /\
  epoll_ctl_mod_buggy_detect 2 (str "Linux") (str "3.5.6") = true.
Proof. vm_compute. done. Qed.
