(* ===== verification/BindListen.v ===== *)
(** Listening sockets (bind_listen.c): the descriptor of an address is inherited
    from the process before an upgrade, or a socket is made for the first address that
    can be bound. *)
From S2P Require Import Prelude Fmt Upgrade.
From stdpp Require Import base list numbers gmap.
From Stdlib Require Import ZArith Lia.

#[local] Open Scope Z_scope.

(** The answers of the system for one address: the descriptor of [socket], and
    which of the other calls succeed. *)
Record attempt := Attempt {
  at_socket : option Z;
  at_cloexec : bool;
  at_reuseaddr : bool;
  at_keepalive : bool;
  at_nodelay : bool;
  at_nopush : bool;
  at_bind : bool;
  at_listen : bool
}.

(** The descriptors of the process, and the addresses of those that listen. *)
Record sockets := Sockets { open_fds : gset Z; listening : gmap Z (list Z) }.

Section BindListen.
(** [MOG_TCP_NOPUSH] is not 0. *)
Variable have_nopush : bool.

Definition tcp_nopush_prepare (a : attempt) : bool := if negb have_nopush then true else at_nopush a.

(** True stands for 0. *)
Definition set_tcp_opts (a : attempt) (accept_filter : option (list Z)) : bool :=
  if negb (at_reuseaddr a) then false
  else if negb (at_keepalive a) then false
  else if negb (at_nodelay a) then false
  else
    match accept_filter with
    | Some f => if bool_decide (f = str "httpready") then tcp_nopush_prepare a else true
    | None => true
    end.

(** The loop over [r]: the addresses with what happens to them. *)
Fixpoint bind_loop (accept_filter : option (list Z)) (rs : list (list Z * attempt)) (s : sockets) : Z * sockets :=
  match rs with
  | [] => (-1, s)
  | (addr, a) :: rs =>
      match at_socket a with
      | None => bind_loop accept_filter rs s
      | Some fd =>
          let s := Sockets ({[fd]} ∪ open_fds s) (listening s) in
          if at_cloexec a && set_tcp_opts a accept_filter && at_bind a && at_listen a
          then (fd, Sockets (open_fds s) (<[fd := addr]> (listening s)))
          else bind_loop accept_filter rs (Sockets (open_fds s ∖ {[fd]}) (delete fd (listening s)))
      end
  end.

(** [mog_bind_listen]; [t] are the listeners that were inherited.  [r] is not NULL. *)
Definition mog_bind_listen (rs : list (list Z * attempt)) (accept_filter : option (list Z)) (t : option listeners) (s : sockets)
  : res (Z * option listeners * sockets) :=
  match rs with
  | [] => Crash OutOfBounds
  | (addr, _) :: _ =>
      let '(fd, t) := mog_inherit_get addr t in
      if 0 <=? fd then Ok (fd, t, s)
      else let '(fd, s) := bind_loop accept_filter rs s in Ok (fd, t, s)
  end.

(** The descriptor of an address for which every call succeeds. *)
Definition usable (accept_filter : option (list Z)) (a : attempt) : option Z :=
  if at_cloexec a && set_tcp_opts a accept_filter && at_bind a && at_listen a then at_socket a else None.

(** The first address that can be used. *)
Fixpoint first_usable (accept_filter : option (list Z)) (rs : list (list Z * attempt)) : option (list Z * Z) :=
  match rs with
  | [] => None
  | (addr, a) :: rs =>
      match usable accept_filter a with Some fd => Some (addr, fd) | None => first_usable accept_filter rs end
  end.

(** [socket] gives a descriptor that is not in use. *)
Definition fresh_fds (s : sockets) (rs : list (list Z * attempt)) : Prop :=
  Forall (fun x => forall fd, at_socket x.2 = Some fd -> 0 <= fd /\ fd ∉ open_fds s /\ listening s !! fd = None) rs.

Lemma bind_loop_ok f rs : forall s, fresh_fds s rs ->
  bind_loop f rs s =
  match first_usable f rs with
  | Some (addr, fd) => (fd, Sockets ({[fd]} ∪ open_fds s) (<[fd := addr]> (listening s)))
  | None => (-1, s)
  end.
Proof.
  induction rs as [|[addr a] rs IH]; intros s Hf; [done|]. apply Forall_cons in Hf as [Ha Hf]. cbn [bind_loop first_usable]. unfold usable. simpl in Ha.
  destruct (at_socket a) as [fd|]; [|destruct (_ && _); by apply IH]. cbn [open_fds listening].
  destruct (at_cloexec a && set_tcp_opts a f && at_bind a && at_listen a); [done|]. destruct (Ha fd eq_refl) as (_ & Hfd & Hl).
  replace (Sockets (({[fd]} ∪ open_fds s) ∖ {[fd]}) (delete fd (listening s))) with s; [by apply IH|].
  destruct s as [o l]. cbn [open_fds listening] in *. f_equal; [set_solver|by rewrite delete_id].
Qed.

Lemma first_usable_fresh f rs s addr fd : fresh_fds s rs -> first_usable f rs = Some (addr, fd) -> 0 <= fd.
Proof.
  induction rs as [|[addr' a] rs IH]; intros Hf; [done|]. apply Forall_cons in Hf as [Ha Hf]. cbn [first_usable]. unfold usable.
  destruct (_ && _); [|by apply IH]. destruct (at_socket a) as [x|] eqn:E; [|by apply IH]. intros [= -> ->]. by apply (Ha fd).
Qed.

(** A listener that was inherited is used as it is, and once; otherwise the first
    address for which all calls succeed listens, and every other socket that was made
    on the way is closed again: -1 is returned with nothing left open. *)
Theorem bind_listen_exact rs f t s addr a rs' :
  rs = (addr, a) :: rs' -> fresh_fds s rs -> (forall u, t = Some u -> forall x fd, u !! x = Some fd -> 0 <= fd) ->
  exists fd t' s', mog_bind_listen rs f t s = Ok (fd, t', s') /\
    match t ≫= fun u => u !! addr with
    | Some old => fd = old /\ t' = (delete addr <$> t) /\ s' = s
    | None =>
        t' = t /\
        match first_usable f rs with
        | Some (x, new) => fd = new /\ open_fds s' = {[new]} ∪ open_fds s /\ listening s' = <[new := x]> (listening s)
        | None => fd = -1 /\ s' = s
        end
    end.
Proof.
  intros -> Hf Ht. unfold mog_bind_listen, mog_inherit_get. destruct t as [u|]; cbn [mbind option_bind].
  - destruct (u !! addr) as [old|] eqn:E.
    + pose proof (Ht u eq_refl _ _ E) as H. rewrite (proj2 (Z.leb_le 0 old)) by done. eexists _, _, _. done.
    + cbn [Z.leb Z.compare]. rewrite bind_loop_ok by done. destruct (first_usable f ((addr, a) :: rs')) as [[x new]|]; eexists _, _, _; done.
  - cbn [Z.leb Z.compare]. rewrite bind_loop_ok by done. destruct (first_usable f ((addr, a) :: rs')) as [[x new]|]; eexists _, _, _; done.
Qed.
End BindListen.

(** Two addresses, of which the first is taken: its socket is closed again. *)
Definition two_addresses : list (list Z * attempt) :=
  [([1], Attempt (Some 7) true true true true true false true); ([2], Attempt (Some 7) true true true true true true true)].

Lemma bind_listen_exact_witness :
  exists fd t' s', mog_bind_listen false two_addresses (Some (str "httpready")) None (Sockets {[3]} ∅) = Ok (fd, t', s') /\
    match (None : option listeners) ≫= fun u => u !! [1] with
    | Some old => fd = old /\ t' = (delete [1] <$> None) /\ s' = Sockets {[3]} ∅
    | None =>
        t' = None /\
        match first_usable false (Some (str "httpready")) two_addresses with
        | Some (x, new) => fd = new /\ open_fds s' = {[new]} ∪ open_fds (Sockets {[3]} ∅) /\ listening s' = <[new := x]> (listening (Sockets {[3]} ∅))
        | None => fd = -1 /\ s' = Sockets {[3]} ∅
        end
    end.
Proof.
  eapply (bind_listen_exact false two_addresses (Some (str "httpready")) None (Sockets {[3]} ∅) [1]); [reflexivity| |done].
  apply Forall_cons; split; [|apply Forall_cons; split; [|by apply Forall_nil]]; simpl; intros fd [= <-]; (split; [lia|]); (split; [set_solver|done]).
Defined.
