(* ===== verification/IostatProcess.v ===== *)
(** The iostat process (iostat_process.c, cloexec_from.c): its pipe, its command
    line, the descriptors it inherits, and when it is started again. *)
From S2P Require Import Prelude Fmt HashSize FdMap Queue Accept Master.
From stdpp Require Import base list numbers gmap fin_maps fin_map_dom.
From Stdlib Require Import ZArith Lia.

#[local] Open Scope Z_scope.

(** ** Descriptors of a process *)

Inductive file := PipeRead | PipeWrite | DevNull | OtherFile (n : Z).

(** Open files by descriptor, with the flag FD_CLOEXEC. *)
Abbreviation fdtab := (gmap Z (file * bool)).

Definition EBUSY : errno := EOTHER 16.

(** [dup2_or_die]: [rs] are the errors in front of success. *)
Fixpoint dup2_or_die (oldfd newfd : Z) (rs : list errno) (t : fdtab) : res fdtab :=
  match rs with
  | [] =>
      match t !! oldfd with
      | None => Crash AssertFailed
      | Some (f, _) => Ok (if oldfd =? newfd then t else <[newfd := (f, false)]> t)
      end
  | e :: rs => if bool_decide (e = EINTR \/ e = EBUSY) then dup2_or_die oldfd newfd rs t else Crash AssertFailed
  end.

(** [preexec_redirect]: [null_fd] is what [open] of /dev/null gives. *)
Definition preexec_redirect (out_fd : Z) (rs1 : list errno) (null_fd : option Z) (rs2 : list errno) (t : fdtab) : res fdtab :=
  let* t := dup2_or_die out_fd 1 rs1 t in
  let t := delete out_fd t in
  match null_fd with
  | None => Crash AssertFailed
  | Some n =>
      let t := <[n := (DevNull, false)]> t in
      let* t := dup2_or_die n 0 rs2 t in
      Ok (delete n t)
  end.

(** [mog_set_cloexec (fd, true)]: false when [fd] is not open. *)
Definition mog_set_cloexec (fd : Z) (t : fdtab) : bool * fdtab :=
  match t !! fd with
  | Some (f, _) => (true, <[fd := (f, true)]> t)
  | None => (false, t)
  end.

(** The loop of [mog_cloexec_from], on [fd], [last_good] and the descriptors. *)
Definition cloexec_turn (x : Z * Z * fdtab) : (Z * Z * fdtab) + fdtab :=
  let '(fd, last_good, t) := x in
  if INT_MAX <=? fd then inr t
  else
    let '(ok, t) := mog_set_cloexec fd t in
    let last_good := if ok : bool then fd else last_good in
    if last_good + 1024 <? fd then inr t else inl (fd + 1, last_good, t).

Definition mog_cloexec_from (lowfd : Z) (t : fdtab) : res fdtab :=
  match iter_until cloexec_turn loop_bound (lowfd, lowfd, t) with
  | inr t => Ok t
  | inl _ => Crash OutOfFuel
  end.

(** [execl]: what the new program finds open. *)
Definition exec_fds (t : fdtab) : fdtab := filter (fun x => x.2.2 = false) t.

(** The child of [iostat_fork_exec]; [atomic] is [mog_cloexec_atomic]. *)
Definition iostat_child (atomic : bool) (out_fd : Z) (rs1 : list errno) (null_fd : option Z) (rs2 : list errno) (t : fdtab) : res fdtab :=
  let* t := preexec_redirect out_fd rs1 null_fd rs2 t in
  let* t := if atomic then Ok t else mog_cloexec_from 3 t in
  Ok (exec_fds t).

(** ** The command *)

Definition iostat_fail_timeout : Z := 10.

(** [exec_cmd]; [(int)delay] is printed. *)
Definition exec_cmd (cmd : list Z) (now iostat_last_fail : Z) : list Z :=
  let last_fail := wrap64 (now - iostat_last_fail) in
  let delay := wrap64 (iostat_fail_timeout - last_fail) in
  if delay <=? 0 then str "exec " ++ cmd
  else str "sleep " ++ fmt_d (wrap_u32 (delay + 2 ^ 31) - 2 ^ 31) ++ str "; exec " ++ cmd.

(** ** Starting it *)

(** The variables of iostat_process.c, the open files of the process, the table of
    children, and the map and the queue of the descriptors. *)
Record iostat_proc := IostatProc {
  ip_pid : Z;
  ip_last_fail : Z;
  ip_atexit : bool;
  ip_fds : fdtab;
  ip_procs : processes;
  ip_map : fdmap;
  ip_queue : epoll
}.

Section Respawn.
Variable open_max : Z.
(** [getenv ("MOG_IOSTAT_CMD")]. *)
Variable mog_iostat_cmd : option (list Z).

(** WIFEXITED and WEXITSTATUS of a status that is 0. *)
Definition exited_0 (status : Z) : bool := (Z.land status 127 =? 0) && (Z.land (Z.shiftr status 8) 255 =? 0).

(** [iostat_fork_exec]: the process, what is left of the state, and the command of
    the child. *)
Definition iostat_fork_exec (out_fd : Z) (now : Z) (fork : option Z) (s : iostat_proc) : res (Z * iostat_proc * list Z) :=
  let cmd := exec_cmd (match mog_iostat_cmd with Some c => c | None => str "iostat -dx 1 30" end) now (ip_last_fail s) in
  match fork with
  | None => Ok (-1, IostatProc (-1) (ip_last_fail s) (ip_atexit s) (ip_fds s) (ip_procs s) (ip_map s) (ip_queue s), cmd)
  | Some pid =>
      let* procs := mog_process_register pid MOG_PROC_IOSTAT (ip_procs s) in
      Ok (pid, IostatProc pid (ip_last_fail s) (ip_atexit s) (delete out_fd (ip_fds s)) procs (ip_map s) (ip_queue s), cmd)
  end.

(** [mog_iostat_respawn]; [now1] and [now2] are the answers of [time], [pipe] of
    [pipe2], [r] of [epoll_ctl].  The result, the state, and the command if a child
    was made. *)
Definition mog_iostat_respawn (oldstatus now1 now2 : Z) (pipe : option (Z * Z)) (fork : option Z) (r : option errno) (s : iostat_proc)
  : res (bool * iostat_proc * option (list Z)) :=
  let last_fail := if exited_0 oldstatus then ip_last_fail s else now1 in
  let s := IostatProc 0 last_fail (ip_atexit s) (ip_fds s) (ip_procs s) (ip_map s) (ip_queue s) in
  match pipe with
  | None => Ok (false, s, None)
  | Some (rd, wr) =>
      let s := IostatProc 0 last_fail (ip_atexit s) (<[rd := (PipeRead, true)]> (<[wr := (PipeWrite, true)]> (ip_fds s)))
                 (ip_procs s) (ip_map s) (ip_queue s) in
      let* '(pid, s, cmd) := iostat_fork_exec wr now2 fork s in
      if pid <? 0 then Ok (false, s, None)
      else
        assert! 0 <=? rd;
        let* '(mfd, t) := mog_fd_init open_max rd MOG_FD_TYPE_IOSTAT (ip_map s) in
        let* '(ok, k) := mog_idleq_add rd MOG_QEV_RD r (ip_queue s) in
        let* t := (if ok : bool then Ok t else mog_fd_put mfd t) in
        let fds := if ok then ip_fds s else delete rd (ip_fds s) in
        Ok (true, IostatProc (ip_pid s) (ip_last_fail s) true fds (ip_procs s) t k, Some cmd)
  end.
End Respawn.

(** ** What the child inherits *)

(** No hole of more than 1024 numbers between the descriptors from [low] on. *)
Definition dense (low : Z) (t : fdtab) : Prop :=
  forall fd, fd ∈ dom t -> low < fd -> exists y, low <= y < fd /\ fd - y <= 1025 /\ (y = low \/ y ∈ dom t).

(** The descriptors from [low] up to [fd] are marked. *)
Definition marked (low fd : Z) (t t' : fdtab) : Prop :=
  forall x, t' !! x = if (low <=? x) && (x <? fd) then (fun f => (f.1, true)) <$> t !! x else t !! x.

Lemma marked_dom low fd t t' x : marked low fd t t' -> x ∈ dom t' <-> x ∈ dom t.
Proof. intros H. rewrite !elem_of_dom, (H x). destruct (_ && _); [|done]. by rewrite fmap_is_Some. Qed.

Record cloexec_inv (low : Z) (t0 : fdtab) (x : Z * Z * fdtab) : Prop := {
  ci_range : low <= x.1.2 <= x.1.1 + 1 /\ low <= x.1.1 <= x.1.2 + 1025;
  ci_last : x.1.2 = low \/ x.1.2 ∈ dom t0;
  ci_none : forall y, y ∈ dom t0 -> low <= y < x.1.1 -> y <= x.1.2;
  ci_marked : marked low x.1.1 t0 x.2
}.

Lemma marked_next low fd t0 t : low <= fd -> marked low fd t0 t -> marked low (fd + 1) t0 (mog_set_cloexec fd t).2.
Proof.
  intros Hle Hm x. unfold mog_set_cloexec. pose proof (Hm fd) as Hfd. rewrite (proj2 (Z.ltb_ge fd fd)), andb_false_r in Hfd by lia.
  destruct (decide (x = fd)) as [-> |Hne].
  - rewrite (proj2 (Z.leb_le low fd)), (proj2 (Z.ltb_lt fd (fd + 1))) by lia. cbn [andb]. rewrite Hfd.
    destruct (t0 !! fd) as [[f c]|]; cbn [snd]; [by rewrite lookup_insert_eq|]. by rewrite Hfd.
  - assert ((x <? fd + 1) = (x <? fd)) as -> by (destruct (Z.ltb_spec x fd), (Z.ltb_spec x (fd + 1)); lia || done).
    rewrite <- (Hm x). destruct (t !! fd) as [[f c]|]; cbn [snd]; [by rewrite lookup_insert_ne|done].
Qed.

(** Descriptors behind a hole that is too large do not exist. *)
Lemma dense_end low last fd t : dense low t -> low <= last -> fd = last + 1025 ->
  (forall y, y ∈ dom t -> low <= y <= fd -> y <= last) -> forall x, x ∈ dom t -> low <= x -> x <= last.
Proof.
  intros Hd Hl Hfd Hno x. assert (H0 : forall n x, low <= x < low + Z.of_nat n -> x ∈ dom t -> x <= last).
  { induction n as [|n IH]; intros y Hy Hin; [lia|]. destruct (Z.le_gt_cases y fd); [by apply Hno; [|lia]|].
    destruct (Hd y Hin ltac:(lia)) as (z & Hz & Hgap & [-> |Hzin]); [lia|]. pose proof (IH z ltac:(lia) Hzin). lia. }
  intros Hin Hx. apply (H0 (Z.to_nat (x - low + 1))); [lia|done].
Qed.

Lemma mog_cloexec_from_ok low t : 0 <= low <= INT_MAX -> dense low t -> (forall fd, fd ∈ dom t -> fd < INT_MAX) ->
  exists t', mog_cloexec_from low t = Ok t' /\ marked low INT_MAX t t'.
Proof.
  intros Hlow Hd Hmax. unfold mog_cloexec_from.
  destruct (iter_until_result cloexec_turn (cloexec_inv low t) (fun t' => marked low INT_MAX t t') (fun x => Z.max 0 (INT_MAX - x.1.1)) loop_bound (low, low, t))
    as (t' & -> & Ht').
  - intros [[fd last] t1] [Hr Hlast Hno Hm]. cbn [fst snd] in *. unfold cloexec_turn. destruct (Z.leb_spec INT_MAX fd) as [Hge|Hlt].
    { intros x. rewrite (Hm x). destruct (Z.leb_spec low x), (Z.ltb_spec x fd), (Z.ltb_spec x INT_MAX); cbn [andb]; try done; try lia.
      destruct (t !! x) eqn:E; [|done]. assert (x < INT_MAX) by (apply Hmax, elem_of_dom; eauto). lia. }
    pose proof (marked_next low fd t t1 ltac:(lia) Hm) as Hm1. destruct (mog_set_cloexec fd t1) as [ok t2] eqn:E. cbn [snd] in Hm1.
    assert (Hok : ok = true <-> fd ∈ dom t).
    { rewrite <- (marked_dom _ _ _ _ fd Hm). unfold mog_set_cloexec in E. rewrite elem_of_dom. destruct (t1 !! fd) as [[f c]|]; injection E as <- _; [done|].
      split; [done|]. intros [? ?]. done. }
    destruct (Z.ltb_spec ((if ok then fd else last) + 1024) fd) as [Hend|Hgo].
    + destruct ok; [lia|]. assert (Hall : forall x, x ∈ dom t -> low <= x -> x <= last).
      { apply (dense_end low last fd t Hd); [lia|lia|]. intros y Hy Hyr. destruct (decide (y = fd)) as [-> |]; [by apply Hok in Hy|apply Hno; [done|lia]]. }
      intros x. rewrite (Hm1 x). destruct (Z.leb_spec low x), (Z.ltb_spec x (fd + 1)), (Z.ltb_spec x INT_MAX); cbn [andb]; try done; try lia.
      destruct (t !! x) eqn:Ex; [|done]. assert (x <= last) by (apply Hall; [apply elem_of_dom; eauto|lia]). lia.
    + split; [|cbn [fst snd]; lia]. split; cbn [fst snd].
      * destruct ok; lia.
      * destruct ok; [right; by apply Hok|done].
      * intros y Hy Hyr. destruct (decide (y = fd)) as [-> |]; [apply Hok in Hy; subst ok; lia|]. pose proof (Hno y Hy ltac:(lia)). destruct ok; lia.
      * done.
  - split; cbn [fst snd]; [lia|by left|lia|]. intros x. destruct (Z.leb_spec low x), (Z.ltb_spec x low); cbn [andb]; (done || lia).
  - unfold loop_bound, INT_MAX in *. cbn [fst snd]. lia.
  - eauto.
Qed.

Definition retried (rs : list errno) : Prop := Forall (fun e => e = EINTR \/ e = EBUSY) rs.

Lemma dup2_or_die_ok oldfd newfd rs t f c : retried rs -> t !! oldfd = Some (f, c) -> oldfd <> newfd ->
  dup2_or_die oldfd newfd rs t = Ok (<[newfd := (f, false)]> t).
Proof.
  intros Hr Ho Hne. induction rs as [|e rs IH]; cbn [dup2_or_die].
  - by rewrite Ho, (proj2 (Z.eqb_neq oldfd newfd)).
  - apply Forall_cons_1 in Hr as [He Hr]. rewrite bool_decide_eq_true_2 by done. by apply IH.
Qed.

(** The descriptors of the server when it forks: the three standard ones are open
    and the write end of the pipe is another; all others are marked when the system can
    do so at once, and have no large holes when it cannot. *)
Record forkable (atomic : bool) (out_fd : Z) (t : fdtab) : Prop := {
  fk_std : forall fd, 0 <= fd <= 2 -> exists f, t !! fd = Some (f, false);
  fk_out : 2 < out_fd /\ exists c, t !! out_fd = Some (PipeWrite, c);
  fk_range : forall fd, fd ∈ dom t -> 0 <= fd < INT_MAX;
  fk_rest : if atomic then forall fd f c, 2 < fd -> fd <> out_fd -> t !! fd = Some (f, c) -> c = true else dense 3 (delete out_fd t)
}.

(** The descriptors after the redirections. *)
Lemma redirect_ok out_fd rs1 n rs2 t c : retried rs1 -> retried rs2 -> 2 < out_fd -> t !! out_fd = Some (PipeWrite, c) -> n ∉ dom t -> 2 < n ->
  exists t2, preexec_redirect out_fd rs1 (Some n) rs2 t = Ok t2 /\
    forall x, t2 !! x = if x =? 0 then Some (DevNull, false) else if x =? 1 then Some (PipeWrite, false) else delete out_fd t !! x.
Proof.
  intros H1 H2 Ho2 Ho Hn Hn2. unfold preexec_redirect. rewrite (dup2_or_die_ok out_fd 1 rs1 t PipeWrite c) by (done || lia). cbn [res_bind].
  set (t1 := delete out_fd (<[1 := (PipeWrite, false)]> t)).
  rewrite (dup2_or_die_ok n 0 rs2 (<[n := (DevNull, false)]> t1) DevNull false) by (rewrite ?lookup_insert_eq; done || lia). cbn [res_bind].
  eexists. split; [done|]. intros x. subst t1. destruct (decide (x = n)) as [-> |Hx]; [rewrite lookup_delete_eq|rewrite lookup_delete_ne by done].
  - rewrite !(proj2 (Z.eqb_neq n _)) by lia. symmetry. apply lookup_delete_None. right. by apply not_elem_of_dom.
  - destruct (Z.eqb_spec x 0) as [-> |Hx0]; [by rewrite lookup_insert_eq|]. rewrite lookup_insert_ne, lookup_insert_ne by done.
    destruct (Z.eqb_spec x 1) as [-> |Hx1]; [rewrite lookup_delete_ne by lia; by rewrite lookup_insert_eq|].
    destruct (decide (x = out_fd)) as [-> |Hxo]; [by rewrite !lookup_delete_eq|]. by rewrite !lookup_delete_ne, lookup_insert_ne by done.
Qed.

(** What [mog_cloexec_from] leaves alone, and what it marks. *)
Lemma mark_rest t2 u : dense 3 u -> (forall fd, fd ∈ dom u -> fd < INT_MAX) -> (forall x, 2 < x -> t2 !! x = u !! x) ->
  exists t3, mog_cloexec_from 3 t2 = Ok t3 /\ forall x, if x <=? 2 then t3 !! x = t2 !! x else forall f c, t3 !! x = Some (f, c) -> c = true.
Proof.
  intros Hd Hmax Heq. assert (Hdom : forall x, 2 < x -> x ∈ dom t2 <-> x ∈ dom u) by (intros x Hx; by rewrite !elem_of_dom, Heq).
  destruct (mog_cloexec_from_ok 3 t2) as (t3 & -> & Hm).
  - unfold INT_MAX. lia.
  - intros fd Hfd Hlt. apply Hdom in Hfd; [|lia]. destruct (Hd fd Hfd Hlt) as (y & Hy & Hg & Hy'). exists y. split; [done|]. split; [done|].
    destruct Hy' as [?|Hy']; [by left|right; apply Hdom; [lia|done]].
  - intros fd Hfd. destruct (Z.le_gt_cases fd 2); [unfold INT_MAX; lia|]. apply Hdom in Hfd; [|done]. by apply Hmax.
  - exists t3. split; [done|]. intros x. destruct (Z.leb_spec x 2) as [Hx|Hx].
    + rewrite (Hm x), (proj2 (Z.leb_gt 3 x)) by lia. done.
    + intros f c Hl. rewrite (Hm x), (proj2 (Z.leb_le 3 x)) in Hl by lia. cbn [andb] in Hl. rewrite Heq in Hl by done. destruct (u !! x) as [[f0 c0]|] eqn:E; [|by destruct (x <? INT_MAX)].
      rewrite (proj2 (Z.ltb_lt x INT_MAX)) in Hl by (apply Hmax, elem_of_dom; eauto). simpl in Hl. congruence.
Qed.


(** ** When it is started again *)

(** The command waits until ten seconds have passed since the last failure. *)
Lemma exec_cmd_waits cmd now last : 0 <= last <= now -> now < 2 ^ 62 ->
  exec_cmd cmd now last =
  if last + 10 <=? now then str "exec " ++ cmd else str "sleep " ++ fmt_d (last + 10 - now) ++ str "; exec " ++ cmd.
Proof.
  intros Hl Hn. unfold exec_cmd, iostat_fail_timeout. assert (Hw : forall z, - 2 ^ 63 <= z < 2 ^ 63 -> wrap64 z = z).
  { intros z Hz. unfold wrap64. rewrite Z.mod_small by lia. lia. }
  rewrite (Hw (now - last)), Hw by lia. destruct (Z.leb_spec (10 - (now - last)) 0), (Z.leb_spec (last + 10) now); try lia; [done|].
  replace (10 - (now - last)) with (last + 10 - now) by lia. unfold wrap_u32. rewrite Z.mod_small by lia.
  replace (last + 10 - now + 2 ^ 31 - 2 ^ 31) with (last + 10 - now) by lia. done.
Qed.

Section Respawned.
Variable open_max : Z.
Variable mog_iostat_cmd : option (list Z).
Hypothesis open_max_int : open_max <= INT_MAX.

Definition iostat_cmd : list Z := match mog_iostat_cmd with Some c => c | None => str "iostat -dx 1 30" end.

(** Descriptors are registered where they are known. *)
Definition proc_ok (s : iostat_proc) : Prop :=
  fdmap_ok open_max (ip_map s) /\ forall fd ev, armed (ip_queue s) !! fd = Some ev -> fd ∈ registered (ip_queue s).

(** What the system gives: two descriptors that are not in use, a new process. *)
Definition fresh_pipe (s : iostat_proc) (rd wr : Z) : Prop :=
  0 <= rd < open_max /\ rd <> wr /\ rd ∉ dom (ip_fds s) /\ wr ∉ dom (ip_fds s) /\ rd ∉ registered (ip_queue s).

(** A new iostat is a child of its own kind, whose output is read by the queue of the
    main thread; the server keeps the read end of the pipe only, and iostat is executed
    no earlier than ten seconds after it failed. *)
Theorem iostat_respawned status now1 now2 rd wr pid r s :
  proc_ok s -> fresh_pipe s rd wr -> 0 < pid -> ip_procs s !! pid = None -> no_memory r ->
  0 <= ip_last_fail s <= now1 -> now1 <= now2 < 2 ^ 62 ->
  exists s' cmd, mog_iostat_respawn open_max mog_iostat_cmd status now1 now2 (Some (rd, wr)) (Some pid) r s = Ok (true, s', Some cmd) /\
    proc_ok s' /\ ip_pid s' = pid /\ ip_procs s' = <[pid := MOG_PROC_IOSTAT]> (ip_procs s) /\
    ip_last_fail s' = (if exited_0 status then ip_last_fail s else now1) /\
    cmd = (if ip_last_fail s' + 10 <=? now2 then str "exec " ++ iostat_cmd
           else str "sleep " ++ fmt_d (ip_last_fail s' + 10 - now2) ++ str "; exec " ++ iostat_cmd) /\
    (r = None -> ip_fds s' = <[rd := (PipeRead, true)]> (ip_fds s) /\ type_at (ip_map s') rd = MOG_FD_TYPE_IOSTAT /\
                 armed (ip_queue s') !! rd = Some MOG_QEV_RD) /\
    (r <> None -> ip_fds s' = ip_fds s).
Proof.
  intros [Hmap Hq] (Hrd & Hne & Hf1 & Hf2 & Hreg) Hpid Hnew Hr Hlast Hnow. unfold mog_iostat_respawn, iostat_fork_exec. cbn [ip_last_fail ip_procs ip_map ip_queue ip_atexit ip_fds].
  set (lf := if exited_0 status then ip_last_fail s else now1). assert (Hlf : 0 <= lf <= now1) by (subst lf; destruct (exited_0 status); lia).
  unfold mog_process_register. change (MOG_PROC_IOSTAT =? MOG_PROC_UNKNOWN) with false. rewrite Hnew. cbn [assert_ res_bind negb].
  rewrite (proj2 (Z.ltb_ge pid 0)), (proj2 (Z.leb_le 0 rd)) by lia. cbn [assert_ ip_map ip_queue ip_fds ip_procs ip_pid ip_last_fail].
  pose (sv := Server (ip_map s) (ip_queue s) 0 0 [] [] false).
  destruct (post_accept_ok open_max MOG_FD_TYPE_IOSTAT 0 (fun _ => inl EIO) (fun _ => true) (fun _ => false) open_max_int ltac:(done) ltac:(done) rd r sv) as (sv' & Hpa & Hok' & _ & (x & Hx & Hty) & Harm); [by split|done|done|done|].
  unfold post_accept in Hpa. cbn [sv sv_map sv_queue] in Hpa.
  destruct (mog_fd_init open_max rd MOG_FD_TYPE_IOSTAT (ip_map s)) as [[mfd t]|]; [|done]. cbn [res_bind] in *.
  destruct (mog_idleq_add rd MOG_QEV_RD r (ip_queue s)) as [[ok k]|] eqn:Eadd; [|done]. cbn [res_bind] in *.
  destruct (if ok then Ok t else mog_fd_put mfd t) as [t'|]; [|done]. cbn [res_bind] in *. injection Hpa as <-. cbn [Accept.set_queue Accept.set_map sv_map sv_queue] in *.
  assert (Hokr : ok = bool_decide (r = None)).
  { unfold mog_idleq_add, idleq_mod, epoll_ctl in Eadd. rewrite decide_False in Eadd by done. destruct Hr as [-> |[-> | ->]]; cbn in Eadd; injection Eadd as <- _; done. }
  eexists _, _. split; [done|]. cbn [ip_map ip_queue ip_pid ip_procs ip_last_fail ip_fds]. split; [exact Hok'|]. split; [done|]. split; [done|]. split; [done|].
  split; [rewrite exec_cmd_waits by lia; done|]. rewrite Hokr.
  assert (Hdel : delete wr (<[rd := (PipeRead, true)]> (<[wr := (PipeWrite, true)]> (ip_fds s))) = <[rd := (PipeRead, true)]> (ip_fds s)).
  { rewrite delete_insert_ne by done. by rewrite delete_insert_id by (by apply not_elem_of_dom). }
  rewrite Hdel. split.
  - intros ->. rewrite bool_decide_eq_true_2 in * by done. split; [done|]. split; [|done]. unfold type_at. by rewrite Hx.
  - intros Hr'. rewrite bool_decide_eq_false_2 by done. by rewrite delete_insert_id by (by apply not_elem_of_dom).
Qed.

(** Without memory for a child both ends of the pipe stay open: the server loses two
    descriptors each time it tries again. *)
Theorem fork_failure_leaks status now1 now2 rd wr r s :
  mog_iostat_respawn open_max mog_iostat_cmd status now1 now2 (Some (rd, wr)) None r s =
  Ok (false, IostatProc (-1) (if exited_0 status then ip_last_fail s else now1) (ip_atexit s)
       (<[rd := (PipeRead, true)]> (<[wr := (PipeWrite, true)]> (ip_fds s))) (ip_procs s) (ip_map s) (ip_queue s), None).
Proof. done. Qed.

(** The part of it that the master sees. *)
Lemma iostat_respawned_master status now1 now2 rd wr pid r s m fs s' ok cmd :
  procs m = ip_procs s -> ip_procs s !! pid = None -> 0 < pid ->
  mog_iostat_respawn open_max mog_iostat_cmd status now1 now2 (Some (rd, wr)) (Some pid) r s = Ok (ok, s', cmd) ->
  Master.mog_iostat_respawn m (Some pid :: fs) = Ok (ok, set_procs (ip_procs s') m, fs).
Proof.
  intros Hm Hnew Hpid. unfold mog_iostat_respawn, iostat_fork_exec, Master.mog_iostat_respawn, Master.fork. cbn [ip_last_fail ip_procs ip_map ip_queue ip_atexit ip_fds].
  rewrite Hm, (proj2 (Z.ltb_lt 0 pid)), bool_decide_eq_true_2 by done. cbn [andb res_bind fst snd].
  destruct (mog_process_register pid MOG_PROC_IOSTAT (ip_procs s)) as [t|]; [|done]. cbn [res_bind].
  rewrite (proj2 (Z.ltb_ge pid 0)) by lia. unfold assert_. destruct (0 <=? rd); [|done].
  destruct (mog_fd_init _ _ _ _) as [[? ?]|]; [|done]. cbn [res_bind]. destruct (mog_idleq_add _ _ _ _) as [[o ?]|]; [|done]. cbn [res_bind].
  destruct (if o then _ else _); [|done]. cbn [res_bind]. by intros [= <- <- <-].
Qed.
End Respawned.

(** A server with a listener (4), a client (9) and the pipe (5). *)
Definition server_fds : fdtab :=
  <[0 := (OtherFile 0, false)]> (<[1 := (OtherFile 1, false)]> (<[2 := (OtherFile 2, false)]>
  (<[4 := (OtherFile 4, false)]> (<[5 := (PipeWrite, true)]> (<[9 := (OtherFile 9, false)]> ∅))))).

Lemma server_fds_cases fd : fd ∈ dom server_fds -> fd = 0 \/ fd = 1 \/ fd = 2 \/ fd = 4 \/ fd = 5 \/ fd = 9.
Proof. unfold server_fds. rewrite !dom_insert_L. set_solver. Qed.

Lemma server_fds_forkable : forkable false 5 server_fds.
Proof.
  split.
  - intros fd Hfd. assert (fd = 0 \/ fd = 1 \/ fd = 2) as [-> |[-> | ->]] by lia; eexists; reflexivity.
  - split; [lia|]. by exists true.
  - intros fd Hfd%server_fds_cases. unfold INT_MAX. lia.
  - intros fd Hfd Hlt. exists 3. split; [lia|]. split; [|by left]. assert (fd ∈ dom server_fds) as H%server_fds_cases by set_solver. lia.
Qed.

