(* ===== verification/SvcUpgrade.v ===== *)
(** The descriptors of an upgrade (svc.c): the child that executes the new program
    keeps the listeners of all services open across [execve].  The services are in the
    hash table [by_docroot], over which [hash_do_for_each] walks. *)
From S2P Require Import Prelude Hash HashInv HashMap HashUse Upgrade IostatProcess.
From stdpp Require Import base list numbers gmap fin_maps fin_map_dom.
From Stdlib Require Import ZArith Lia.

#[local] Open Scope Z_scope.

(** A service by its docroot, with its descriptors. *)
Record svc_ent := SvcEnt { ent_docroot : list Z; ent_fds : svc_fds }.

#[export] Instance svc_fds_eq_dec : EqDecision svc_fds.
Proof. solve_decision. Defined.
#[export] Instance svc_ent_eq_dec : EqDecision svc_ent.
Proof. solve_decision. Defined.

#[export] Instance svc_fns : HashFns svc_ent := keyed_fns svc_hash svc_cmp ent_docroot.
#[export] Instance svc_range : HashRange svc_ent := keyed_range svc_hash svc_cmp ent_docroot.
#[export] Instance svc_key : HashKey svc_ent (list Z) ent_docroot := keyed_key svc_hash svc_cmp ent_docroot.

(** [mog_set_cloexec (fd, false)]. *)
Definition set_cloexec_off (fd : Z) (t : fdtab) : bool * fdtab :=
  match t !! fd with
  | Some (f, _) => (true, <[fd := (f, false)]> t)
  | None => (false, t)
  end.

(** [cloexec_disable], with its CHECK. *)
Definition cloexec_disable (fd : Z) (t : fdtab) : res fdtab :=
  if 0 <=? fd then let '(ok, t) := set_cloexec_off fd t in assert! ok; Ok t else Ok t.

Definition svc_cloexec_off_i (svc : svc_ent) (t : res fdtab) : bool * res fdtab :=
  let r :=
    let* t := t in
    let* t := cloexec_disable (mgmt_fd (ent_fds svc)) t in
    let* t := cloexec_disable (http_fd (ent_fds svc)) t in
    cloexec_disable (httpget_fd (ent_fds svc)) t in
  (match r with Ok _ => true | Crash _ => false end, r).

(** [mog_svc_upgrade_prepare]. *)
Definition mog_svc_upgrade_prepare (by_docroot : Hash_table svc_ent) (t : fdtab) : res fdtab :=
  (hash_do_for_each svc_cloexec_off_i by_docroot (Ok t)).2.

(** The flag of [fds] is cleared, and nothing else changes. *)
Definition cleared (fds : list Z) (t t' : fdtab) : Prop :=
  forall x, t' !! x = if bool_decide (x ∈ fds) then (fun f => (f.1, false)) <$> t !! x else t !! x.

Lemma cleared_trans l1 l2 t1 t2 t3 : cleared l1 t1 t2 -> cleared l2 t2 t3 -> cleared (l1 ++ l2) t1 t3.
Proof.
  intros H1 H2 x. rewrite H2, H1. repeat case_bool_decide; try (exfalso; set_solver); try done. by destruct (t1 !! x) as [[f c]|].
Qed.

Definition opened (t : fdtab) (fd : Z) : Prop := 0 <= fd -> is_Some (t !! fd).

Lemma cleared_opened l t t' fd : cleared l t t' -> opened t fd -> opened t' fd.
Proof. intros Hc Ho H0. rewrite (Hc fd). case_bool_decide; [|by apply Ho]. rewrite fmap_is_Some. by apply Ho. Qed.

Lemma cloexec_disable_ok fd t : opened t fd -> exists t', cloexec_disable fd t = Ok t' /\ cleared (if 0 <=? fd then [fd] else []) t t'.
Proof.
  intros Ho. unfold cloexec_disable, set_cloexec_off. destruct (Z.leb_spec 0 fd) as [H0|H0].
  - destruct (Ho H0) as [[f c] E]. rewrite E. cbn [assert_]. eexists. split; [done|]. intros x. destruct (decide (x = fd)) as [-> |Hne].
    + rewrite bool_decide_eq_true_2 by set_solver. by rewrite lookup_insert_eq, E.
    + rewrite bool_decide_eq_false_2 by set_solver. by rewrite lookup_insert_ne.
  - exists t. split; [done|]. intros x. by rewrite bool_decide_eq_false_2 by set_solver.
Qed.

Definition svc_listeners (svc : svc_ent) : list Z := all_fds [ent_fds svc].

Lemma svc_listeners_eq svc : svc_listeners svc =
  (if 0 <=? mgmt_fd (ent_fds svc) then [mgmt_fd (ent_fds svc)] else []) ++
  (if 0 <=? http_fd (ent_fds svc) then [http_fd (ent_fds svc)] else []) ++
  (if 0 <=? httpget_fd (ent_fds svc) then [httpget_fd (ent_fds svc)] else []).
Proof. unfold svc_listeners, all_fds. simpl. repeat case_match; done. Qed.

Lemma svc_cloexec_off_ok svc t :
  Forall (opened t) [mgmt_fd (ent_fds svc); http_fd (ent_fds svc); httpget_fd (ent_fds svc)] ->
  exists t', svc_cloexec_off_i svc (Ok t) = (true, Ok t') /\ cleared (svc_listeners svc) t t'.
Proof.
  rewrite !Forall_cons. intros (H1 & H2 & H3 & _). unfold svc_cloexec_off_i. rewrite svc_listeners_eq. cbn [res_bind].
  destruct (cloexec_disable_ok _ t H1) as (t1 & -> & C1). cbn [res_bind].
  destruct (cloexec_disable_ok _ t1 (cleared_opened _ _ _ _ C1 H2)) as (t2 & -> & C2). cbn [res_bind].
  destruct (cloexec_disable_ok _ t2 (cleared_opened _ _ _ _ C2 (cleared_opened _ _ _ _ C1 H3))) as (t3 & -> & C3).
  exists t3. split; [done|]. eapply cleared_trans; [exact C1|]. by eapply cleared_trans.
Qed.

Lemma walk_off l : forall c t, Forall (fun svc => Forall (opened t) [mgmt_fd (ent_fds svc); http_fd (ent_fds svc); httpget_fd (ent_fds svc)]) l ->
  exists c' t', chain_for_each svc_cloexec_off_i l c (Ok t) = (false, c', Ok t') /\ cleared (concat (svc_listeners <$> l)) t t'.
Proof.
  induction l as [|svc l IH]; intros c t Hall; cbn [chain_for_each].
  { eexists _, t. split; [done|]. intros x. by rewrite bool_decide_eq_false_2 by set_solver. }
  apply Forall_cons in Hall as [H1 Hall]. destruct (svc_cloexec_off_ok svc t H1) as (t1 & -> & C1).
  destruct (IH (c + 1) t1) as (c' & t2 & -> & C2).
  - eapply Forall_impl; [exact Hall|]. intros s Hs. eapply Forall_impl; [exact Hs|]. intros fd. by apply cleared_opened with (l := svc_listeners svc).
  - exists c', t2. split; [done|]. change (concat (svc_listeners <$> svc :: l)) with (svc_listeners svc ++ concat (svc_listeners <$> l)). by eapply cleared_trans.
Qed.

(** The new program finds open what was not marked before, and every listener of
    every service; nothing else. *)
Theorem upgrade_keeps_listeners by_docroot t :
  Forall (fun svc => Forall (opened t) [mgmt_fd (ent_fds svc); http_fd (ent_fds svc); httpget_fd (ent_fds svc)]) (entries by_docroot) ->
  exists t', mog_svc_upgrade_prepare by_docroot t = Ok t' /\
    forall x, exec_fds t' !! x =
      if bool_decide (x ∈ concat (svc_listeners <$> entries by_docroot)) then (fun f => (f.1, false)) <$> t !! x else exec_fds t !! x.
Proof.
  intros Hall. unfold mog_svc_upgrade_prepare. rewrite hash_do_for_each_walk. destruct (walk_off (entries by_docroot) 0 t Hall) as (c' & t' & -> & Hc).
  exists t'. split; [done|]. intros x. unfold exec_fds. rewrite !map_lookup_filter, (Hc x). case_bool_decide; [|done].
  destruct (t !! x) as [[f c]|]; simpl; done.
Qed.
