(* ===== verification/Exit.v ===== *)
(** The end of the server as one sequence ([cmogstored_exit] in exit.c): listeners,
    watchers, the queues of the threads, the clients that are left, and the last loop. *)
From S2P Require Import Prelude Fmt Http TryWrite ChunkParser World MgmtFn FdMap Queue HttpQueue Upgrade Mnt Usage Iostat SvcDev Shutdown.
From stdpp Require Import base list numbers gmap fin_maps fin_map_dom relations.
From Stdlib Require Import ZArith Lia.

#[local] Open Scope Z_scope.

(** [mog_fd_put] of descriptors in turn. *)
Fixpoint put_each (fds : list Z) (t : fdmap) : res fdmap :=
  match fds with
  | [] => Ok t
  | fd :: fds => let* t := mog_fd_put (aref fd) t in put_each fds t
  end.

(** [mog_svc_dev_shutdown]: the watchers of every service are closed. *)
Fixpoint mog_svc_dev_shutdown (svcs : list svc_dev) (t : fdmap) : res (list svc_dev * fdmap) :=
  match svcs with
  | [] => Ok ([], t)
  | svc :: svcs =>
      let* '(svc, l) := devstats_shutdown_i svc in
      let* t := put_each l t in
      let* '(svcs, t) := mog_svc_dev_shutdown svcs t in
      Ok (svc :: svcs, t)
  end.

(** [mog_queue_stop]: the other queues; their threads have ended ([mog_thrpool_quit]
    of Queue.v). *)
Definition mog_queue_stop (queues : list Z) (t : fdmap) : res fdmap := put_each queues t.

Section Exit.
Variable open_max : Z.

(** [cmogstored_exit] up to [mog_queue_quit_loop]: [late] are the services with the
    watchers that threads have subscribed until they ended.  [svc_queue_set] makes the
    services use the queue of the main thread, which is the one of [quit_start]; the
    title of the process is left out. *)
Definition cmogstored_exit (svcs : list svc_fds) (devs late : list svc_dev) (queues : list Z)
    (rs : list (option errno)) (k : epoll) (types : gmap Z mog_fd_type) (t : fdmap) : res (list svc_fds * quit_state) :=
  let* '(svcs, t) := svc_each_quit open_max svcs t in
  let* '(_, t) := mog_svc_dev_shutdown devs t in
  let* t := mog_queue_stop queues t in
  let* '(_, t) := mog_svc_dev_shutdown late t in
  let* s := quit_start t rs k types in
  Ok (svcs, s).

(** Descriptors [fds] are closed, and no other is touched. *)
Definition closes (fds : list Z) (t t' : fdmap) : Prop :=
  fdmap_ok open_max t' /\ max_fd t' = max_fd t /\
  forall o, 0 <= o -> type_at t' o = if bool_decide (o ∈ fds) then MOG_FD_TYPE_UNUSED else type_at t o.

Lemma closes_trans l1 l2 t1 t2 t3 : closes l1 t1 t2 -> closes l2 t2 t3 -> closes (l1 ++ l2) t1 t3.
Proof.
  intros (_ & M1 & T1) (O2 & M2 & T2). split; [done|]. split; [congruence|]. intros o Ho. rewrite T2, T1 by done.
  repeat case_bool_decide; try done; exfalso; set_solver.
Qed.

Definition in_map (t : fdmap) (fd : Z) : Prop := 0 <= fd < max_fd t.

Lemma put_each_ok fds : forall t, fdmap_ok open_max t -> Forall (in_map t) fds -> exists t', put_each fds t = Ok t' /\ closes fds t t'.
Proof.
  induction fds as [|fd fds IH]; intros t Hok Hall; cbn [put_each]; [exists t; done|].
  apply Forall_cons in Hall as [Hfd Hall]. unfold in_map in Hfd.
  destruct (deref_ok t fd) as (s & Hs & Hf); [apply Hok|destruct Hok; lia|].
  assert (H1 : exists t1, mog_fd_put (aref fd) t = Ok t1 /\ closes [fd] t t1).
  { unfold mog_fd_put. rewrite Hs. cbn [res_bind]. rewrite Hf, (proj2 (Z.leb_le 0 fd)), (proj2 (Z.ltb_lt fd (max_fd t))), bool_decide_true by (done || lia).
    cbn [assert_ res_bind]. eexists. split; [done|]. split; [by eapply store_ok|]. split; [done|]. intros o Ho. unfold type_at.
    destruct (decide (o = fd)) as [-> |Hne]; [rewrite bool_decide_eq_true_2 by set_solver; by erewrite store_deref_same|].
    rewrite bool_decide_eq_false_2 by set_solver. by rewrite store_deref_other by lia. }
  destruct H1 as (t1 & -> & Hc1). cbn [res_bind]. destruct (IH t1) as (t2 & -> & Hc2); [apply Hc1| |].
  - eapply Forall_impl; [exact Hall|]. intros x. unfold in_map. destruct Hc1 as (_ & -> & _). done.
  - exists t2. split; [done|]. exact (closes_trans [fd] fds t t1 t2 Hc1 Hc2).
Qed.

(** The watchers of services, all of which have nothing to send and no buffer. *)
Definition watchers (devs : list svc_dev) : list Z := concat (map (fun d => map (fun s => m_fd s.1) (sd_subs d)) devs).
Definition idle_watchers (devs : list svc_dev) : Prop :=
  Forall (fun d => Forall (fun s => is_wnull (m_wbuf s.1) = true /\ has_rbuf s.1 = false) (sd_subs d)) devs.

Lemma shutdown_each_ok subs : Forall (fun s : subscriber => is_wnull (m_wbuf s.1) = true /\ has_rbuf s.1 = false) subs ->
  shutdown_each subs = Ok (map (fun s => m_fd s.1) subs).
Proof.
  induction 1 as [|s subs [H1 H2] _ IH]; [done|]. cbn [shutdown_each]. rewrite H1, H2. cbn [negb assert_]. rewrite IH. done.
Qed.

Lemma dev_shutdown_ok devs : forall t, fdmap_ok open_max t -> idle_watchers devs -> Forall (in_map t) (watchers devs) ->
  exists devs' t', mog_svc_dev_shutdown devs t = Ok (devs', t') /\ closes (watchers devs) t t' /\ watchers devs' = [].
Proof.
  induction devs as [|d devs IH]; intros t Hok Hid Hall; cbn [mog_svc_dev_shutdown]; [exists [], t; done|].
  apply Forall_cons in Hid as [Hd Hid]. unfold watchers in Hall. cbn [map concat] in Hall. apply Forall_app in Hall as [H1 H2]. fold (watchers devs) in H2.
  unfold devstats_shutdown_i. rewrite shutdown_each_ok by done. cbn [res_bind].
  destruct (put_each_ok (map (fun s => m_fd s.1) (sd_subs d)) t Hok H1) as (t1 & -> & Hc1). cbn [res_bind].
  destruct (IH t1) as (devs' & t2 & -> & Hc2 & Hw); [apply Hc1|done| |].
  - eapply Forall_impl; [exact H2|]. intros x. unfold in_map. destruct Hc1 as (_ & -> & _). done.
  - cbn [res_bind]. eexists _, t2. split; [done|]. split; [exact (closes_trans _ _ t t1 t2 Hc1 Hc2)|]. unfold watchers in *. cbn [map concat sd_subs]. exact Hw.
Qed.

(** Everything that is closed before the last loop. *)
Definition closed_at_exit (svcs : list svc_fds) (devs late : list svc_dev) (queues : list Z) : list Z :=
  concat (map fds_of svcs) ++ watchers devs ++ queues ++ watchers late.

(** A server that may exit: what is to be closed is in the map, watchers are idle, and
    the queue of the main thread holds none of them. *)
Record exits (svcs : list svc_fds) (devs late : list svc_dev) (queues : list Z) (k : epoll) (types : gmap Z mog_fd_type) (t : fdmap) : Prop := {
  xt_map : fdmap_ok open_max t;
  xt_max : max_fd t <= INT_MAX;
  xt_listeners : Forall (fun fd => fd < max_fd t) (concat (map fds_of svcs));
  xt_watchers : Forall (in_map t) (watchers devs ++ queues ++ watchers late);
  xt_idle : idle_watchers devs /\ idle_watchers late;
  xt_queue : main_queue t k types;
  xt_own : forall fd, is_Some (types !! fd) -> 0 <= fd /\ fd ∉ closed_at_exit svcs devs late queues
}.

Lemma exit_closes svcs devs late queues k types t : exits svcs devs late queues k types t ->
  exists svcs' devs' late' t1 t2 t3 t', svc_each_quit open_max svcs t = Ok (svcs', t1) /\ mog_svc_dev_shutdown devs t1 = Ok (devs', t2) /\
    mog_queue_stop queues t2 = Ok t3 /\ mog_svc_dev_shutdown late t3 = Ok (late', t') /\
    Forall (fun fd => fd < 0) (concat (map fds_of svcs')) /\ closes (closed_at_exit svcs devs late queues) t t' /\ main_queue t' k types.
Proof.
  intros [Hok Hmax Hl Hw [Hid1 Hid2] Hq Hown]. apply Forall_app in Hw as [Hw1 Hw]. apply Forall_app in Hw as [Hw2 Hw3].
  destruct (svc_each_quit_ok open_max svcs t Hok Hl) as (svcs' & t1 & E1 & Hok1 & Hx1 & Hneg & Ht1).
  assert (C1 : closes (concat (map fds_of svcs)) t t1) by done.
  assert (Hmap : forall u l, max_fd u = max_fd t -> Forall (in_map t) l -> Forall (in_map u) l).
  { intros u l Hu Hf. eapply Forall_impl; [exact Hf|]. intros x. unfold in_map. by rewrite Hu. }
  destruct (dev_shutdown_ok devs t1) as (devs' & t2 & E2 & C2 & _); [done|done|by apply Hmap|]. pose proof C2 as (Hok2 & Hx2 & _).
  destruct (put_each_ok queues t2) as (t3 & E3 & C3); [done|apply Hmap; [congruence|done]|]. pose proof C3 as (Hok3 & Hx3 & _).
  destruct (dev_shutdown_ok late t3) as (late' & t4 & E4 & C4 & _); [done|done|apply Hmap; [congruence|done]|].
  assert (C : closes (closed_at_exit svcs devs late queues) t t4).
  { unfold closed_at_exit. eapply closes_trans; [exact C1|]. eapply closes_trans; [exact C2|]. by eapply closes_trans. }
  exists svcs', devs', late', t1, t2, t3, t4. do 6 (split; [done|]). destruct Hq as [Hr Hty Hk]. split; [done| |done].
  intros fd ty Hfd. destruct (Hown fd) as [H0 Hn]; [eauto|]. destruct C as (_ & _ & Ht). rewrite Ht by done. rewrite bool_decide_eq_false_2 by done. by apply Hty.
Qed.

End Exit.

Lemma exits_fdmap1 : exits 256 [SvcFds 3 (-1) (-1)] [] [] [4] (Epoll ∅ ∅) ∅ fdmap1.
Proof.
  split; [exact fdmap1_ok|vm_compute; congruence| | |split; constructor| |].
  - repeat constructor; vm_compute; done.
  - repeat constructor; vm_compute; congruence.
  - split; [done| |]; intros ? ? Hl; cbn [armed] in Hl; by rewrite lookup_empty in Hl.
  - intros fd [x Hl]. by rewrite lookup_empty in Hl.
Qed.

